(* ===== verification/_CoqProject ===== *)
-Q . S2P
Prelude.v
Primitives.v
Errors.v
AbiStd.v
HexStd.v
ErrorJson.v
Gas.v
Reputation.v
Mempool.v
MemoryStore.v
Database.v
DbCodec.v
EntryPoint.v
Fixture.v
Shared.v
Sanity.v
Simulation.v
Trace.v
Tracer.v
Texts.v
Validator.v
Checks.v
UoPool.v
Bundling.v
PoolLimits.v
DbMempool.v
Blocks.v
Estimate.v
ExecutorTracer.v
Ssz.v
Proto.v
Service.v
Rpc.v
SszMessages.v
Codec.v
Handler.v
Gossip.v
Peers.v
Network.v
Exchange.v
Discovery.v
NodeIds.v
Setup.v
Bundler.v
JsonRpc.v
Lifecycle.v
JsonServer.v
Metrics.v
Wallet.v
Args.v
Launch.v
Cli.v
