(* ===== verification/Prelude.v ===== *)
(** * Silius bundler: a verified model of the user operation pool

    Silius is an ERC-4337 bundler.  Clients submit user operations over JSON-RPC
    or the peer-to-peer network; the pool validates each one against the mempool
    rules of the standard, keeps those that pass, picks from them the bundles that
    are sent to the [EntryPoint] contract, and keeps a reputation for the entities
    (senders, factories, paymasters) involved.  This library models the core of
    the program, the crates [mempool], [contracts], [primitives], [grpc], [bundler],
    [p2p], [rpc] and [metrics] under [src/crates] and the command under
    [src/bin/silius], as executable functions, and proves what makes them correct.

    ** Conventions

    A call of Rust type [Result<A, E>] returns [comp E A]: [Ok], [Err], or [Panic],
    the crash of the task ([unwrap], a slice out of range, an overflow in a build
    with checks, a [U256] operator out of range).  Code that changes a store is
    state passing, [ST S E A = S → comp E A * S], with the notation [do*]; [let*]
    is the [?] operator.  Integers are [Z]; each operation keeps its width.  Rust's
    machine integers panic or wrap with the build, so the setting is a parameter
    ([Profile]) and the theorems hold for both.  [U256] saturates or panics as in
    the source.  A [HashMap] is a [gmap]; the order in which it is iterated is a
    parameter ([HashOrder]), so that no theorem depends on it.  Awaiting does not
    matter inside one handler; where two handlers can interleave there is a step
    relation.

    Code outside the repository is a parameter: keccak256 and the ABI codec
    ([Abi], with the laws [AbiOk]), the Ethereum node and its decoders ([Node],
    [ChainData], [EstimateLib], [EthClient]), text formats ([Display], [TraceLib],
    [HashText], [ChecksumText], [MetricText]), the clock ([Clock]), the MDBX database
    ([Mdbx], [MdbxOk]), the SSZ library ([SszLib], [SszTypes] and their laws), snappy
    ([StreamLib], [SnapLib] and their laws), node records, keys and files ([EnrLib],
    [EnrKeys], [NodeLib], [WalletLib] and their laws), gossip ([GossipLib]), the
    lexer of JSON and HTTP ([SerdeJson] with the laws [SerdeLaws], [RpcLib], [HttpLib]), the virtual machine that runs the tracers ([TracerHost],
    [TracerHostOk]), public keys ([KeyLib], [KeyLibOk]), blocks ([BlockFeed]), the host
    ([HostLib], [HostOk], [System]), the runtime that decides when the spawned servers run
    ([Schedule]), and the bundler's node,
    relays and pool client ([BundlerNode], [SendBundleOp], [PoolClient]).  Concrete
    instances ([AbiStd], [HexStd], [Fixture], the [Example] modules) show that the
    hypotheses can hold and evaluate the definitions by computation.

    ** Files

    - [Prelude]: results, state passing, loops, machine integers, byte strings,
      sorting, invariants of stateful code and the hint database [silius].
    - [Primitives], [Errors]: the data of [crates/primitives], user operation
      packing and hashing, the error types, their conversions and JSON-RPC codes.
    - [AbiStd], [HexStd], [Fixture]: concrete instances for evaluation.
    - [ErrorJson]: the JSON of errors and hashes inside gRPC messages, as serde derives it
      and as [database/env.rs] writes it by hand.
    - [Gas]: [utils.rs] of the mempool (pre-verification gas, fee bump, code hash
      comparison).
    - [Reputation]: [reputation.rs] and the in-memory entry store.  The store is
      the class [ReputationEntryOp] with the laws [ReputationEntryLaws].
    - [Mempool]: [mempool.rs] over the storage traits, as classes with the laws
      [MempoolLaws]; the abstract pool [Pool] and the refinement [refines]; the weaker
      interface [PoolStorage], which the theorems of the pool are proved against.
    - [MemoryStore]: the in-memory storage, an instance of the laws.
    - [Database]: the MDBX storage, which fulfils the reputation laws but not the
      mempool laws.
    - [DbMempool]: what the database storage implements instead, a pool that remembers
      its removed operations in one index ([LeakyPool]), and that it is a [PoolStorage].
    - [DbCodec]: the byte codecs of its keys and values, its tables, and opening it.
    - [EntryPoint]: the contract wrapper and the decoding of reverts.
    - [Shared]: the storage traits of [Arc<RwLock<T>>] over a heap of locks.
    - [Sanity], [Simulation], [Trace]: the three groups of validation checks, one
      definition per check; [Validator] composes them, and [Checks] shows that the tuples
      of checks of [validate/mod.rs] are this composition.
    - [Tracer]: the JavaScript collector of [crates/contracts/src/tracer.rs], handler by
      handler, run on the events of the virtual machine.
    - [Texts]: the serde helpers, the hash type, the setters of user operations and the
      conversions of contract types.
    - [UoPool]: [uopool.rs] and [builder.rs]: admission, replacement, removal,
      bundling, queries, block updates; the class [ValidatorLaws] is what the pool
      relies on from a validator, and the standard validator is an instance; [HandlerInvariant] is what
      an assertion needs to be kept by every handler.
    - [Bundling]: the properties of bundles.
    - [PoolLimits]: the limits of a single check as bounds of every reachable pool.
    - [Blocks]: the pool builder, the streams of blocks and the background tasks.
    - [Estimate]: [estimate.rs], the gas estimator.
    - [ExecutorTracer]: the JavaScript tracer of the estimation, [executor_tracer.rs].
    - [Ssz]: the network encoding of user operations.
    - [Proto]: the protobuf conversions of [crates/grpc].
    - [Service]: the gRPC handlers and their interleavings.
    - [Rpc]: the state of the request-response protocol, [crates/p2p/src/rpc/mod.rs].
    - [SszMessages]: the network encoding of its messages and of gossiped operations.
    - [Codec]: protocol names and the stream codecs, [protocol.rs], [outbound.rs] and
      [codec/ssz_snappy.rs].
    - [Handler]: the stream handler [handler.rs]; its futures are cut into steps where
      they wait, and the connection, the peer and the clock are the environment of a
      transition system.
    - [Gossip]: topics, the subscription filter, the snappy transform and message ids.
    - [Peers]: the peer manager of [crates/p2p/src/peer_manager].
    - [Network]: [crates/p2p/src/service]: gossip between peers and pools, the poll
      loop, and the task that admits what the network hands over.
    - [Exchange]: two nodes on one connection, each with its peer manager, service,
      protocol, handler and codec, driven the way libp2p does.
    - [NodeIds]: peer ids and node ids of public keys, [enr_ext.rs].
    - [Discovery]: node records, listening addresses and peer discovery.
    - [Setup]: chain specifications, the configuration and identity of a node on disk,
      and [Network::new].
    - [Bundler]: [crates/bundler] and its gRPC service [crates/grpc/src/bundler.rs].
    - [JsonRpc]: the handlers of [crates/rpc], over the pool and bundler services.
    - [Lifecycle]: one operation through JSON-RPC, pool, pool service, bundler and the
      block that includes it.
    - [JsonServer]: the servers, the methods they register and the proxy.
    - [Metrics]: [crates/metrics]: the wrappers of storage, client and servers.
    - [Wallet]: [crates/primitives/src/wallet.rs].
    - [Args], [Launch], [Cli]: [src/bin/silius]: arguments, launching, commands, signals
      and the status of the process.

    ** What is shown

    Storage: [mempool_refines_pool] states that any sequence of mempool operations
    that reuses a hash only for the same unsigned operation keeps, on a lawful storage,
    both address indexes in step with the stored operations and acts as the same
    sequence on a plain map; [replacement_candidate] and [get_sorted_order] specify the
    queries.  Where operations are added under their own hash the condition follows if
    keccak256 tells them apart ([hashed_add_admissible]): [told_apart] says of a finite
    list of operations that no two different inputs of hashing them have one digest.  It
    is the form in which the theorems on reachable pools state that keccak256 does not
    collide on what a run was given; it can be decided for any list.  The database storage
    leaks entity index entries on removal: [database_refines_pool] states which pool
    with a memory it refines, and [remembered_entities_refused] what the leak costs, namely
    that an unstaked paymaster or factory is in the end refused for operations that have
    long left the pool.  Its codecs keep what they are given ([database_keeps_values]).
    Mempools made from clones of one handle are one mempool
    ([clones_share_handles_separate]).

    Reputation: thresholds, hourly decay, recovery of banned entities, the penalty
    for reverted bundles, stake verification, and that entries stay under their own
    address in every reachable state.

    Validation: what an accepted operation satisfies, check by check (fees,
    reputation limits, role separation, sender limits, replacement fees, signature
    and validity window, forbidden opcodes, storage access, call stack, code
    hashes), each as a property of a successful run of the whole group of checks.
    [traced_execution_obeys_rules] and [traced_storage_obeys_rules] carry the trace rules
    over to the execution itself: the collector records every instruction they speak of.

    Pool: [pool_reachable_invariant] is the integrity of the pool in every state
    reachable by complete handlers, by induction on the step relation [pool_step], over
    the in-memory storage as over the database (both are a [PoolStorage]);
    [unstaked_senders_bounded] bounds in the same way what an account without a stake
    holds.  [admission_effect] and [banned_rejection] are the two outcomes of a submission.
    [interleaved_adds_duplicate] shows that the service, which validates and admits
    in two steps, does not keep the one-per-nonce rule under concurrent requests.
    [included_operations_removed]: operations leave the pool with the blocks that include
    them.

    Bundles: selection, gas and deposit budgets, the throttling limit, and that
    bundling always answers and drops only rejected operations.

    Estimation: the verification search returns a sufficient limit close to the
    least one in both build profiles; the call gas search overflows.  The execution tracer
    reports the gas a call needs ([execution_gas_limit_exact]), and its topics are misread
    ([topics_misread]).

    Encodings: round trips of the SSZ and protobuf forms ([ssz_roundtrip],
    [message_roundtrip], [codec_roundtrip]), what the decoders guarantee of any input
    ([decoded_operation_typed]), and which inputs crash them ([codec_crashes],
    [gossip_crashes]).

    Network: the protocol state never panics while libp2p keeps its promises
    ([rpc_never_panics]) and loses no request, except where two tables are
    confused ([rpc_requests_accounted], [rpc_timeouts_misattributed],
    [confused_tables_panic]); the stream
    handler has every request in exactly one place ([handler_accounts]), and two
    handlers exchange a request and its response ([handlers_exchange]); through all layers
    of two nodes, a ping is answered and brings them to agree on the metadata
    ([ping_refreshes_metadata]); the names of a node agree ([node_id_of_peer_id]); pings follow
    the connections, apart from requests handled late ([pings_follow_connections],
    [late_ping_is_pinged]); gossip reaches the pool it is for
    ([gossip_routed]); a local submission is admitted twice when the network is
    enabled ([local_submission_counted_twice]); the cache of discovered nodes stays
    bounded ([discovery_cache]); a node subscribes to the mempools of its chain and
    keeps its identity ([network_configured], [identity_survives_restart]).

    Bundler: what sending at once does, that stopped tasks end, and that restarts
    accumulate tasks ([restarts_accumulate_tasks]), which with an interval of zero end at
    once ([zero_interval_never_sends]).

    The whole: [operation_lifecycle] follows an operation from its submission over the
    pool, the pool service and the bundle transaction to the block that includes it: what
    is sent is what was submitted, and it leaves the pool for good with its block.

    JSON-RPC: a submission and the queries, from the request to the reply
    ([submission_end_to_end], [queries_end_to_end]); what the proxy forwards
    ([proxy_forwards_unknown]).  Metrics change no result
    ([metered_mempool_transparent]).

    Starting: which methods the servers expose ([rpc_exposes]), that a properly
    configured node comes up if its servers run in time, and fails if the bundler's runs
    too late for the debug methods ([node_starts]), that it comes up also where another process has its ports
    ([taken_ports_unnoticed]), how the process ends ([process_ends]), when bundling panics
    instead ([bundling_panics]), and that wallets are read back ([wallet_reloads]).

    ** Bounds

    The two binary searches of [Estimate] are loops with a bound on the number of
    iterations.  64 suffices for the verification search because every iteration
    at least halves a window of 64 bits ([verification_search_least]); for the call
    gas search the statement holds for every bound, since the loop diverges.  The
    wait for a receipt in [Bundler] has a bound too: it ends once the receipt is
    there, and the bound has to exceed the number of polls until then.  Endless loops over
    streams, signals and timers are taken up to the events delivered so far.  All other
    loops are structural.

    ** Not modelled

    The contract bindings that the build generates, the parser that clap derives from the
    argument structures, the example programs and the tests of the repository (they call
    the modelled operations on a test network), and the libraries: libp2p, discv5, snappy,
    tonic, jsonrpsee, hyper, MDBX, the virtual machine under the tracers and the signing of
    ethers are parameters.
    Connecting to a node is input and output only.  A start that a signal interrupts is
    modelled by its status, not by the state it leaves.  [Exchange] joins two nodes over
    one connection and delivers its events in order: how libp2p schedules several
    connections of one peer is not in the repository.  Log output is
    left out, and the text of an error that a library makes is a parameter or a constant. *)

From coqutil Require Export Byte Word.LittleEndianList.
From Stdlib Require Export Permutation Sorted.
From stdpp Require Export base gmap strings list fin_maps fin_sets sorting.

#[global] Open Scope Z_scope.
#[global] Set Default Proof Using "Type".
#[export] Set Warnings "-clear-no-such-hyp,-level-tolerance".

(** ** Results of Rust calls

    [comp E A] is the outcome of a call whose Rust type is [Result<A, E>]:
    [Ok], [Err], or a panic of the calling task.  A call that cannot return an
    error uses [Empty_set] or leaves [E] free. *)
Inductive comp (E A : Type) : Type :=
| Ok (a : A)
| Err (e : E)
| Panic.
Arguments Ok {E A} a.
Arguments Err {E A} e.
Arguments Panic {E A}.

Section comp.
Context {E F A B : Type}.

Definition comp_bind (m : comp E A) (k : A → comp E B) : comp E B :=
  match m with Ok a => k a | Err e => Err e | Panic => Panic end.

(** [Result::map_err] *)
Definition map_err (f : E → F) (m : comp E A) : comp F A :=
  match m with Ok a => Ok a | Err e => Err (f e) | Panic => Panic end.

(** [Result::map] *)
Definition map_ok (f : A → B) (m : comp E A) : comp E B :=
  match m with Ok a => Ok (f a) | Err e => Err e | Panic => Panic end.

(** [Option::ok_or] *)
Definition ok_or (e : E) (o : option A) : comp E A :=
  match o with Some a => Ok a | None => Err e end.

(** [Result::is_err] *)
Definition is_err (m : comp E A) : bool := match m with Err _ => true | _ => false end.

(** [Option::expect] *)
Definition expect (o : option A) : comp E A :=
  match o with Some a => Ok a | None => Panic end.

Lemma comp_bind_ok (m : comp E A) (k : A → comp E B) b :
  comp_bind m k = Ok b ↔ ∃ a, m = Ok a ∧ k a = Ok b.
Proof. destruct m; naive_solver. Qed.

Lemma comp_bind_err (m : comp E A) (k : A → comp E B) e :
  comp_bind m k = Err e ↔ m = Err e ∨ ∃ a, m = Ok a ∧ k a = Err e.
Proof. destruct m; naive_solver. Qed.

Lemma map_err_ok (f : E → F) (m : comp E A) a : map_err f m = Ok a ↔ m = Ok a.
Proof. destruct m; naive_solver. Qed.

Lemma map_ok_ok (f : A → B) (m : comp E A) b :
  map_ok f m = Ok b ↔ ∃ a, m = Ok a ∧ f a = b.
Proof. destruct m; naive_solver. Qed.

Lemma ok_or_ok (e : E) (o : option A) a : ok_or e o = Ok a ↔ o = Some a.
Proof. destruct o; naive_solver. Qed.
End comp.
Arguments comp_bind {E A B} !m k /.
Arguments map_err {E F A} f !m /.
Arguments map_ok {E A B} f !m /.

(** Stateful methods ([&mut self]): the state is returned with the outcome, so
    that an error keeps the writes made before it. *)
Definition ST (S E A : Type) : Type := S → comp E A * S.

Section st.
Context {S E F A B : Type}.

Definition st_ret (a : A) : ST S E A := λ s, (Ok a, s).
Definition st_lift (m : comp E A) : ST S E A := λ s, (m, s).
Definition st_get (f : S → comp E A) : ST S E A := λ s, (f s, s).
Definition st_mod (f : S → S) : ST S E () := λ s, (Ok (), f s).
Definition st_bind (m : ST S E A) (k : A → ST S E B) : ST S E B := λ s,
  match m s with
  | (Ok a, s') => k a s'
  | (Err e, s') => (Err e, s')
  | (Panic, s') => (Panic, s')
  end.

Definition st_map_err (f : E → F) (m : ST S E A) : ST S F A := λ s,
  let '(r, s') := m s in (map_err f r, s').

(** [Result::ok] followed by discarding the value: errors are dropped. *)
Definition st_ignore (m : ST S E A) : ST S F () := λ s,
  match m s with
  | (Panic, s') => (Panic, s')
  | (_, s') => (Ok (), s')
  end.

Lemma st_bind_ok (m : ST S E A) (k : A → ST S E B) s b s' :
  st_bind m k s = (Ok b, s') ↔ ∃ a s1, m s = (Ok a, s1) ∧ k a s1 = (Ok b, s').
Proof. unfold st_bind. destruct (m s) as [[] ?]; naive_solver. Qed.

Lemma st_bind_step (m : ST S E A) (k : A → ST S E B) s a s1 :
  m s = (Ok a, s1) → st_bind m k s = k a s1.
Proof. unfold st_bind. by intros ->. Qed.

Lemma st_bind_err_step (m : ST S E A) (k : A → ST S E B) s e s1 :
  m s = (Err e, s1) → st_bind m k s = (Err e, s1).
Proof. unfold st_bind. by intros ->. Qed.
End st.
Arguments st_bind : simpl never.

(** Acting on a component of a larger state. *)
Definition st_zoom {S T E A : Type} (get : S → T) (set : T → S → S)
    (m : ST T E A) : ST S E A := λ s,
  let '(r, t) := m (get s) in (r, set t s).

(** [for x in xs { body(x)?; }] *)
Fixpoint st_for {S E A : Type} (xs : list A) (body : A → ST S E ()) : ST S E () :=
  match xs with
  | [] => st_ret ()
  | x :: xs => st_bind (body x) (λ _, st_for xs body)
  end.

Fixpoint comp_for {E A : Type} (xs : list A) (body : A → comp E ()) : comp E () :=
  match xs with
  | [] => Ok ()
  | x :: xs => comp_bind (body x) (λ _, comp_for xs body)
  end.

Lemma comp_for_ok {E A : Type} (xs : list A) (body : A → comp E ()) :
  comp_for xs body = Ok () ↔ Forall (λ x, body x = Ok ()) xs.
Proof.
  induction xs as [|x xs IH]; simpl.
  - split; auto.
  - rewrite comp_bind_ok, Forall_cons, <-IH. split; [|naive_solver].
    intros ([] & ? & ?); done.
Qed.

(** [for x in xs { acc = f(acc, x)?; }] *)
Fixpoint comp_fold {E A B : Type} (f : B → A → comp E B) (b : B) (xs : list A) : comp E B :=
  match xs with
  | [] => Ok b
  | x :: xs => comp_bind (f b x) (λ b', comp_fold f b' xs)
  end.

Lemma comp_fold_ok {E A B : Type} (f : B → A → comp E B) (I : B → Prop) b xs b' :
  I b → comp_fold f b xs = Ok b' → (∀ b x b', x ∈ xs → I b → f b x = Ok b' → I b') → I b'.
Proof.
  revert b. induction xs as [|x xs IH]; simpl; intros b Hb Hf HI; [by simplify_eq|].
  apply comp_bind_ok in Hf as (b1 & H1 & Hf). eapply (IH b1); [|done|].
  - by eapply HI; [apply elem_of_cons; left| |].
  - intros. eapply HI; [apply elem_of_cons; by right|done..].
Qed.

(** every element was folded over, from some intermediate state *)
Lemma comp_fold_elem {E A B : Type} (f : B → A → comp E B) b xs b' x :
  comp_fold f b xs = Ok b' → x ∈ xs → ∃ b1 b2, f b1 x = Ok b2.
Proof.
  revert b. induction xs as [|y xs IH]; simpl; intros b Hf; [set_solver|].
  apply comp_bind_ok in Hf as (b1 & H1 & Hf). intros [->|?]%elem_of_cons; eauto.
Qed.

(** [iter.map(f).collect()] and [Option::map] with a conversion that may panic *)
Fixpoint comp_map {E A B : Type} (f : A → comp E B) (xs : list A) : comp E (list B) :=
  match xs with
  | [] => Ok []
  | x :: xs => comp_bind (f x) (λ b, comp_bind (comp_map f xs) (λ bs, Ok (b :: bs)))
  end.
(** a library result *)
Definition of_sum {E A : Type} (r : E + A) : comp E A := match r with inr x => Ok x | inl e => Err e end.
Definition comp_opt {E A B : Type} (f : A → comp E B) (o : option A) : comp E (option B) :=
  match o with Some x => map_ok Some (f x) | None => Ok None end.

Lemma comp_map_all {E A B : Type} (f : A → comp E B) (g : A → B) xs :
  Forall (λ x, f x = Ok (g x)) xs → comp_map f xs = Ok (g <$> xs).
Proof. induction 1 as [|x xs Hx _ IH]; simpl; [done|]. by rewrite Hx; simpl; rewrite IH. Qed.

Lemma comp_map_fmap {E A B C : Type} (f : B → comp E C) (h : A → B) xs :
  comp_map f (h <$> xs) = comp_map (λ x, f (h x)) xs.
Proof. induction xs as [|x xs IH]; [done|]. rewrite fmap_cons. simpl. by rewrite IH. Qed.

Lemma comp_map_ok {E A B : Type} (f : A → comp E B) xs ys :
  comp_map f xs = Ok ys ↔ Forall2 (λ x y, f x = Ok y) xs ys.
Proof.
  revert ys. induction xs as [|x xs IH]; intros ys; simpl.
  - split; [intros [= <-]; constructor|]. by inversion 1.
  - rewrite comp_bind_ok. split.
    + intros (b & Hb & (bs & Hbs & [= <-])%comp_bind_ok). constructor; [done|by apply IH].
    + inversion 1 as [|? y ? bs Hy Hbs]; subst. exists y. split; [done|].
      apply comp_bind_ok. exists bs. split; [by apply IH|done].
Qed.

(** [iter.flat_map(|x| f(x)).collect()] over a [Result]: errors are dropped. *)
Fixpoint flat_map_ok {E F A B : Type} (f : A → comp E B) (xs : list A) : comp F (list B) :=
  match xs with
  | [] => Ok []
  | x :: xs =>
      match f x with
      | Ok b => map_ok (cons b) (flat_map_ok f xs)
      | Err _ => flat_map_ok f xs
      | Panic => Panic
      end
  end.

Lemma flat_map_ok_all {E F A B : Type} (f : A → comp E B) (g : A → B) xs :
  (∀ x, x ∈ xs → f x = Ok (g x)) → flat_map_ok (F:=F) f xs = Ok (g <$> xs).
Proof.
  induction xs as [|x xs IH]; intros Hf; simpl; [done|].
  rewrite (Hf x), IH; [done|set_solver..].
Qed.

(** Panics and errors in a [for] loop over a state: the loop succeeds when its
    body does, from every state that satisfies the loop invariant. *)
Lemma st_for_ok {S E A : Type} (I : list A → S → Prop) (body : A → ST S E ()) xs s :
  I xs s →
  (∀ x xs s, I (x :: xs) s → ∃ s', body x s = (Ok (), s') ∧ I xs s') →
  ∃ s', st_for xs body s = (Ok (), s') ∧ I [] s'.
Proof.
  intros HI Hb. revert s HI. induction xs as [|x xs IH]; intros s HI; simpl; [by eexists|].
  destruct (Hb x xs s HI) as (s1 & Hx & HI1). destruct (IH s1 HI1) as (s2 & ? & ?).
  exists s2. by rewrite (st_bind_step _ _ _ _ _ Hx).
Qed.

(** [loop { body }] with a bound on the iterations: [inl] goes on, [inr] leaves
    the loop; [None] says that the bound was too small. *)
Fixpoint run_loop {E St A : Type} (fuel : nat) (body : St → comp E (St + A)) (s : St)
  : option (comp E A) :=
  match fuel with
  | O => None
  | S fuel =>
      match body s with
      | Ok (inl s') => run_loop fuel body s'
      | Ok (inr a) => Some (Ok a)
      | Err e => Some (Err e)
      | Panic => Some Panic
      end
  end.

(** rule for loops: an invariant, and a measure below the bound *)
Lemma run_loop_rule {E St A : Type} (body : St → comp E (St + A)) (μ : St → nat) (I : St → Prop)
    (Q : comp E A → Prop) :
  (∀ s, I s → match body s with
              | Ok (inl s') => I s' ∧ (μ s' < μ s)%nat
              | Ok (inr a) => Q (Ok a)
              | Err e => Q (Err e)
              | Panic => Q Panic
              end) →
  ∀ fuel s, I s → (μ s < fuel)%nat → ∃ r, run_loop fuel body s = Some r ∧ Q r.
Proof.
  intros Hbody fuel. induction fuel as [|fuel IH]; intros s Hs Hf; [lia|]. simpl.
  specialize (Hbody s Hs). destruct (body s) as [[s'|a]|e|]; [|by eexists..].
  destruct Hbody. apply IH; [done|lia].
Qed.

(** ** State invariants: kept by a computation whatever its outcome *)
Definition preserves {S E A : Type} (I : S → Prop) (m : ST S E A) : Prop :=
  ∀ s, I s → I (m s).2.

Section preserves.
Context {S E A B : Type} (I : S → Prop).

Lemma preserves_ret (a : A) : preserves (E:=E) I (st_ret a).
Proof. by intros s. Qed.

Lemma preserves_lift (m : comp E A) : preserves I (st_lift m).
Proof. by intros s. Qed.

Lemma preserves_get (f : S → comp E A) : preserves I (st_get f).
Proof. by intros s. Qed.

Lemma preserves_bind (m : ST S E A) (k : A → ST S E B) :
  preserves I m → (∀ a, preserves I (k a)) → preserves I (st_bind m k).
Proof.
  intros Hm Hk s Hs. unfold st_bind. specialize (Hm s Hs).
  destruct (m s) as [[a|e|] s1]; simpl in *; [by apply Hk|done..].
Qed.

Lemma preserves_map_err {F} (f : E → F) (m : ST S E A) :
  preserves I m → preserves I (st_map_err f m).
Proof. intros Hm s Hs. unfold st_map_err. specialize (Hm s Hs). by destruct (m s). Qed.

Lemma preserves_for (xs : list A) (body : A → ST S E ()) :
  (∀ x, preserves I (body x)) → preserves I (st_for xs body).
Proof.
  intros Hb. induction xs as [|x xs IH]; [by intros s|].
  intros s Hs. simpl. unfold st_bind. specialize (Hb x s Hs).
  destruct (body x s) as [[a|e|] s1]; simpl in *; [by apply IH|done..].
Qed.
End preserves.

Declare Scope silius_scope.
Delimit Scope silius_scope with silius.
Notation "'let*' x ':=' m 'in' k" := (comp_bind m (λ x, k))
  (at level 10, x binder, m at level 100, k at level 200,
   format "'[' 'let*'  x  ':='  m  'in' ']' '//' k") : silius_scope.
Notation "'do*' x ':=' m 'in' k" := (st_bind m (λ x, k))
  (at level 10, x binder, m at level 100, k at level 200,
   format "'[' 'do*'  x  ':='  m  'in' ']' '//' k") : silius_scope.
#[global] Open Scope silius_scope.

(** ** Machine integers

    [u64], [usize] and [U256] values are [Z]; the operations below carry the
    width.  Rust's built-in integers panic on overflow when the build has
    overflow checks and wrap otherwise: [overflow_checks] is that setting. *)
Class Profile := overflow_checks : bool.

Definition U64_MAX : Z := 2 ^ 64 - 1.
Definition U256_MAX : Z := 2 ^ 256 - 1.

Definition is_u64 (x : Z) : Prop := 0 ≤ x ≤ U64_MAX.
Definition is_u256 (x : Z) : Prop := 0 ≤ x ≤ U256_MAX.

Section u64.
Context {P : Profile} {E : Type}.

Definition u64_norm (x : Z) : comp E Z :=
  if bool_decide (0 ≤ x ≤ U64_MAX) then Ok x
  else if overflow_checks then Panic else Ok (x mod 2 ^ 64).

Definition u64_add (a b : Z) : comp E Z := u64_norm (a + b).
Definition u64_sub (a b : Z) : comp E Z := u64_norm (a - b).
Definition u64_mul (a b : Z) : comp E Z := u64_norm (a * b).
(** Division by zero panics in every build. *)
Definition u64_div (a b : Z) : comp E Z :=
  if bool_decide (b = 0) then Panic else Ok (a / b).

Lemma u64_norm_small x : is_u64 x → u64_norm x = Ok x.
Proof. intros. unfold u64_norm. by rewrite bool_decide_eq_true_2. Qed.

Lemma u64_norm_ok x y : u64_norm x = Ok y → is_u64 y.
Proof.
  unfold u64_norm, is_u64, U64_MAX. case_bool_decide; [naive_solver|].
  destruct overflow_checks; [done|]. intros [= <-].
  pose proof (Z.mod_pos_bound x (2 ^ 64)). lia.
Qed.
End u64.

(** [U256] arithmetic: [saturating_*] and [checked_*] as named; the operators
    [+] and [-] panic on overflow in every build. *)
Definition saturating_add (a b : Z) : Z := Z.min (a + b) U256_MAX.
Definition saturating_sub (a b : Z) : Z := Z.max (a - b) 0.
Definition saturating_mul (a b : Z) : Z := Z.min (a * b) U256_MAX.
Definition checked_div (a b : Z) : option Z :=
  if bool_decide (b = 0) then None else Some (a / b).
Definition checked_rem (a b : Z) : option Z :=
  if bool_decide (b = 0) then None else Some (a mod b).
Definition u256_add {E} (a b : Z) : comp E Z :=
  if bool_decide (a + b ≤ U256_MAX) then Ok (a + b) else Panic.
Definition u256_sub {E} (a b : Z) : comp E Z :=
  if bool_decide (b ≤ a) then Ok (a - b) else Panic.
(** [U256::as_u64] panics when the value does not fit. *)
Definition as_u64 {E} (a : Z) : comp E Z :=
  if bool_decide (a ≤ U64_MAX) then Ok a else Panic.

Lemma saturating_add_range a b : 0 ≤ a → 0 ≤ b → is_u256 (saturating_add a b).
Proof. unfold is_u256, saturating_add, U256_MAX. lia. Qed.
Lemma saturating_mul_range a b : 0 ≤ a → 0 ≤ b → is_u256 (saturating_mul a b).
Proof. unfold is_u256, saturating_mul, U256_MAX. nia. Qed.
Lemma saturating_sub_range a b : is_u256 a → 0 ≤ b → is_u256 (saturating_sub a b).
Proof. unfold is_u256, saturating_sub. lia. Qed.

(** ** Byte strings *)
Abbreviation byte := Init.Byte.byte.
Abbreviation bytes := (list byte).

#[global] Instance byte_eq_dec : EqDecision byte := Byte.byte_eq_dec.

#[global] Instance byte_countable : Countable byte :=
  inj_countable' byte.unsigned byte.of_Z byte.of_Z_unsigned.

Definition be_to_Z (b : bytes) : Z := le_combine (rev b).
Definition Z_to_be (n : nat) (z : Z) : bytes := rev (le_split n z).

Arguments be_to_Z : simpl never.
Arguments Z_to_be : simpl never.

Lemma length_Z_to_be n z : length (Z_to_be n z) = n.
Proof. unfold Z_to_be. by rewrite length_rev, length_le_split. Qed.

Lemma le_combine_split_small n z :
  0 ≤ z < 2 ^ (8 * Z.of_nat n) → le_combine (le_split n z) = z.
Proof.
  intros Hz. rewrite le_combine_split. apply Z.mod_small.
  by rewrite Z.mul_comm in Hz.
Qed.

Lemma be_to_Z_to_be n z : 0 ≤ z < 2 ^ (8 * Z.of_nat n) → be_to_Z (Z_to_be n z) = z.
Proof.
  intros. unfold be_to_Z, Z_to_be. rewrite rev_involutive. by apply le_combine_split_small.
Qed.

Lemma Z_to_be_to_Z b : Z_to_be (length b) (be_to_Z b) = b.
Proof.
  unfold be_to_Z, Z_to_be. rewrite <-(length_rev b), split_le_combine.
  apply rev_involutive.
Qed.

Lemma be_to_Z_bound b : 0 ≤ be_to_Z b < 2 ^ (8 * Z.of_nat (length b)).
Proof. unfold be_to_Z. rewrite <-(length_rev b). apply le_combine_bound. Qed.

(** ** Iteration over hash tables

    The order in which [HashMap] and [HashSet] iterate is unspecified.  The
    definitions that iterate take it as a parameter; every theorem holds for
    every order. *)
Class HashOrder := {
  iter_map : ∀ {K V : Type} `{Countable K}, gmap K V → list (K * V);
  iter_set : ∀ {K : Type} `{Countable K}, gset K → list K;
  iter_map_perm : ∀ {K V : Type} `{Countable K} (m : gmap K V),
    iter_map m ≡ₚ map_to_list m;
  iter_set_perm : ∀ {K : Type} `{Countable K} (s : gset K),
    iter_set s ≡ₚ elements s;
}.

(** One such order, for concrete evaluations. *)
Definition canonical_order : HashOrder := {|
  iter_map := λ K V _ _ m, map_to_list m;
  iter_set := λ K _ _ s, elements s;
  iter_map_perm := λ K V _ _ m, Permutation_refl _;
  iter_set_perm := λ K _ _ s, Permutation_refl _;
|}.

Section hash_order.
Context {HO : HashOrder}.

Lemma elem_of_iter_map `{Countable K} {V} (m : gmap K V) k v :
  (k, v) ∈ iter_map m ↔ m !! k = Some v.
Proof. by rewrite iter_map_perm, elem_of_map_to_list. Qed.

Lemma elem_of_iter_set `{Countable K} (s : gset K) k : k ∈ iter_set s ↔ k ∈ s.
Proof. by rewrite iter_set_perm, elem_of_elements. Qed.

Lemma length_iter_set `{Countable K} (s : gset K) : length (iter_set s) = size s.
Proof. by rewrite iter_set_perm. Qed.

Lemma NoDup_iter_set `{Countable K} (s : gset K) : NoDup (iter_set s).
Proof. rewrite iter_set_perm. apply NoDup_elements. Qed.

Lemma NoDup_iter_map_fst `{Countable K} {V} (m : gmap K V) : NoDup (iter_map m).*1.
Proof. rewrite iter_map_perm. apply NoDup_fst_map_to_list. Qed.
End hash_order.

(** ** [slice::sort_by]: the stable sort of the standard library *)
Section sort_by.
Context {A : Type} (cmp : A → A → comparison).

(** insert before the first element that is not smaller *)
Fixpoint sort_insert (x : A) (l : list A) : list A :=
  match l with
  | [] => [x]
  | y :: l' => match cmp x y with Gt => y :: sort_insert x l' | _ => x :: l end
  end.

Fixpoint sort_by (l : list A) : list A :=
  match l with [] => [] | x :: l => sort_insert x (sort_by l) end.

Definition cmp_le (x y : A) : Prop := cmp x y ≠ Gt.

Lemma sort_insert_perm x l : sort_insert x l ≡ₚ x :: l.
Proof.
  induction l as [|y l IH]; simpl; [done|].
  destruct (cmp x y); [done..|]. rewrite IH. by rewrite Permutation_swap.
Qed.

Lemma sort_by_perm l : sort_by l ≡ₚ l.
Proof. induction l as [|x l IH]; simpl; [done|]. by rewrite sort_insert_perm, IH. Qed.

Context (cmp_trans : Transitive cmp_le).
Context (cmp_total : ∀ x y, cmp x y = Gt → cmp_le y x).

Lemma sort_insert_sorted x l :
  StronglySorted cmp_le l → StronglySorted cmp_le (sort_insert x l).
Proof using cmp_trans cmp_total.
  induction 1 as [|y l Hl IH Hy]; simpl; [by repeat constructor|].
  destruct (cmp x y) eqn:Hxy.
  1,2: constructor; [by constructor|]; constructor; [unfold cmp_le; congruence|];
    eapply Forall_impl; [exact Hy|]; intros z; apply cmp_trans; unfold cmp_le; congruence.
  constructor; [done|]. rewrite sort_insert_perm. constructor; auto.
Qed.

Lemma sort_by_sorted l : StronglySorted cmp_le (sort_by l).
Proof using cmp_trans cmp_total.
  induction l; simpl; [constructor|]. by apply sort_insert_sorted.
Qed.
End sort_by.

Lemma StronglySorted_weaken {A} (R Q : A → A → Prop) l :
  (∀ x y, R x y → Q x y) → StronglySorted R l → StronglySorted Q l.
Proof.
  intros HRQ. induction 1 as [|x l _ IH Hx]; constructor; [done|].
  eapply Forall_impl; [exact Hx|]. auto.
Qed.

(** ** [Iterator::max_by_key]: the last of the greatest elements *)
Section max_by_key.
Context {A : Type} (key : A → Z).

Definition max_by_key (l : list A) : option A :=
  fold_left (λ acc x,
    match acc with
    | None => Some x
    | Some y => if bool_decide (key y ≤ key x) then Some x else Some y
    end) l None.

Lemma max_by_key_snoc l x :
  max_by_key (l ++ [x]) =
    match max_by_key l with
    | None => Some x
    | Some y => if bool_decide (key y ≤ key x) then Some x else Some y
    end.
Proof. unfold max_by_key. by rewrite fold_left_app. Qed.

Lemma max_by_key_spec l y :
  max_by_key l = Some y → y ∈ l ∧ ∀ x, x ∈ l → key x ≤ key y.
Proof.
  revert y. induction l as [|x l IH] using rev_ind; intros y; [done|].
  rewrite max_by_key_snoc. destruct (max_by_key l) as [z|] eqn:Hz.
  - destruct (IH z eq_refl) as [Hin Hmax].
    case_bool_decide; intros [= <-]; (split; [set_solver|]);
      intros w; rewrite elem_of_app, list_elem_of_singleton; intros [Hw| ->]; try lia;
      specialize (Hmax _ Hw); lia.
  - intros [= <-]. assert (l = []) as ->; [|set_solver].
    destruct l as [|a l _] using rev_ind; [done|]. rewrite max_by_key_snoc in Hz.
    destruct (max_by_key l); [case_bool_decide|]; done.
Qed.

Lemma max_by_key_None l : max_by_key l = None ↔ l = [].
Proof.
  destruct l as [|a l _] using rev_ind; [done|]. rewrite max_by_key_snoc.
  split; [|by destruct l].
  destruct (max_by_key l); [case_bool_decide|]; done.
Qed.
End max_by_key.

(** ** Automation *)
Create HintDb silius.
Create Rewrite HintDb silius_rw.

#[export] Hint Resolve saturating_add_range saturating_mul_range saturating_sub_range : silius.
#[export] Hint Resolve preserves_ret preserves_lift preserves_get preserves_bind
  preserves_map_err preserves_for : silius.
#[export] Hint Rewrite @comp_bind_ok @map_err_ok @map_ok_ok @ok_or_ok @st_bind_ok : silius_rw.

(** Invert every [_ = Ok _] hypothesis through [let*], [do*], [map_err], ... *)
Ltac inv_ok :=
  repeat match goal with
  | H : comp_bind _ _ = Ok _ |- _ => apply comp_bind_ok in H as (? & ? & H)
  | H : map_err _ _ = Ok _ |- _ => apply map_err_ok in H
  | H : map_ok _ _ = Ok _ |- _ => apply map_ok_ok in H as (? & ? & ?)
  | H : ok_or _ _ = Ok _ |- _ => apply ok_or_ok in H
  | H : st_bind _ _ _ = (Ok _, _) |- _ => apply st_bind_ok in H as (? & ? & ? & H)
  | _ => progress simplify_eq/=
  end.

(** Case analysis on the scrutinee of a guard in a hypothesis. *)
Ltac split_guard H :=
  match type of H with
  | context [if bool_decide ?P then _ else _] => destruct (bool_decide_reflect P)
  | context [if ?b then _ else _] => destruct b eqn:?
  | context [match ?x with _ => _ end] => destruct x eqn:?
  end; simplify_eq/=.
