(* ===== verification/Primitives.v ===== *)
(** Primitive types of the bundler: addresses, hashes, user operations and
    their optional-field request form, reputation entries, stake information,
    validation configuration, code hashes, storage maps and the constants of
    [crates/primitives]. *)

From S2P Require Import Prelude.

(** ** Addresses and hashes

    An [H160]/[H256] is the big-endian number of its 20/32 bytes. *)
Abbreviation Address := Z.
Abbreviation H256 := Z.
Abbreviation U256 := Z.
Abbreviation UserOperationHash := H256.

Definition is_address (a : Z) : Prop := 0 ≤ a < 2 ^ 160.

Definition from_slice (b : bytes) : Z := be_to_Z b.
Definition address_bytes (a : Address) : bytes := Z_to_be 20 a.

(** [get_address]: the address in the first 20 bytes, if there are 20. *)
Definition get_address (buf : bytes) : option Address :=
  if bool_decide (20 ≤ length buf)%nat then Some (from_slice (take 20 buf)) else None.

(** ** User operations *)
Record UserOperationSigned := {
  uo_sender : Address;
  uo_nonce : U256;
  uo_init_code : bytes;
  uo_call_data : bytes;
  uo_call_gas_limit : U256;
  uo_verification_gas_limit : U256;
  uo_pre_verification_gas : U256;
  uo_max_fee_per_gas : U256;
  uo_max_priority_fee_per_gas : U256;
  uo_paymaster_and_data : bytes;
  uo_signature : bytes;
}.

#[global] Instance UserOperationSigned_eq_dec : EqDecision UserOperationSigned.
Proof. solve_decision. Defined.

Definition UserOperationSigned_default : UserOperationSigned := {|
  uo_sender := 0; uo_nonce := 0; uo_init_code := []; uo_call_data := [];
  uo_call_gas_limit := 0; uo_verification_gas_limit := 0; uo_pre_verification_gas := 0;
  uo_max_fee_per_gas := 0; uo_max_priority_fee_per_gas := 0;
  uo_paymaster_and_data := []; uo_signature := [];
|}.

(** the field ranges of the Rust types *)
Definition uo_wf (uo : UserOperationSigned) : Prop :=
  is_address uo.(uo_sender) ∧ is_u256 uo.(uo_nonce) ∧ is_u256 uo.(uo_call_gas_limit) ∧
  is_u256 uo.(uo_verification_gas_limit) ∧ is_u256 uo.(uo_pre_verification_gas) ∧
  is_u256 uo.(uo_max_fee_per_gas) ∧ is_u256 uo.(uo_max_priority_fee_per_gas).

Record UserOperation := {
  uo_hash : UserOperationHash;
  user_operation : UserOperationSigned;
}.

#[global] Instance UserOperation_eq_dec : EqDecision UserOperation.
Proof. solve_decision. Defined.

(** [Deref] to the signed operation *)
Coercion user_operation : UserOperation >-> UserOperationSigned.

Definition from_user_operation_signed (hash : UserOperationHash) (uo : UserOperationSigned)
  : UserOperation := {| uo_hash := hash; user_operation := uo |}.

(** [get_entities]: sender, factory and paymaster *)
Definition get_entities (uo : UserOperationSigned)
  : Address * option Address * option Address :=
  (uo.(uo_sender), get_address uo.(uo_init_code), get_address uo.(uo_paymaster_and_data)).

(** the same, by name *)
Definition factory_of (uo : UserOperationSigned) : option Address := get_address uo.(uo_init_code).
Definition paymaster_of (uo : UserOperationSigned) : option Address :=
  get_address uo.(uo_paymaster_and_data).

(** *** Packing and hashing

    [keccak256] and the ABI codec are library code: the definitions take
    them as parameters. *)
Record UserOperationNoSignature := {
  ns_sender : Address;
  ns_nonce : U256;
  ns_init_code : H256;
  ns_call_data : H256;
  ns_call_gas_limit : U256;
  ns_verification_gas_limit : U256;
  ns_pre_verification_gas : U256;
  ns_max_fee_per_gas : U256;
  ns_max_priority_fee_per_gas : U256;
  ns_paymaster_and_data : H256;
}.

Class Abi := {
  keccak256 : bytes → bytes;
  abi_encode_uo : UserOperationSigned → bytes;
  abi_encode_no_sig : UserOperationNoSignature → bytes;
  abi_encode_address : Address → bytes;
  abi_encode_u256 : U256 → bytes;
}.

Section packing.
Context {A : Abi}.

Definition no_signature (value : UserOperationSigned) : UserOperationNoSignature := {|
  ns_sender := value.(uo_sender);
  ns_nonce := value.(uo_nonce);
  ns_init_code := from_slice (keccak256 value.(uo_init_code));
  ns_call_data := from_slice (keccak256 value.(uo_call_data));
  ns_call_gas_limit := value.(uo_call_gas_limit);
  ns_verification_gas_limit := value.(uo_verification_gas_limit);
  ns_pre_verification_gas := value.(uo_pre_verification_gas);
  ns_max_fee_per_gas := value.(uo_max_fee_per_gas);
  ns_max_priority_fee_per_gas := value.(uo_max_priority_fee_per_gas);
  ns_paymaster_and_data := from_slice (keccak256 value.(uo_paymaster_and_data));
|}.

Definition pack (uo : UserOperationSigned) : bytes := abi_encode_uo uo.
Definition pack_without_signature (uo : UserOperationSigned) : bytes :=
  abi_encode_no_sig (no_signature uo).

Definition hash (uo : UserOperationSigned) (entry_point : Address) (chain_id : Z)
  : UserOperationHash :=
  from_slice (keccak256
    (keccak256 (pack_without_signature uo) ++
     abi_encode_address entry_point ++ abi_encode_u256 chain_id)).
End packing.

(** What the library code promises: 32-byte digests, 32-byte words for the two
    static types, and encodings that can be decoded on in-range values.
    Collision resistance is not among it: digests are finite, so collisions exist.
    Theorems that depend on it name the byte strings that must not collide
    ([collision_free]), a finite list. *)
Definition ns_wf (n : UserOperationNoSignature) : Prop :=
  is_address n.(ns_sender) ∧ is_u256 n.(ns_nonce) ∧ is_u256 n.(ns_init_code) ∧
  is_u256 n.(ns_call_data) ∧ is_u256 n.(ns_call_gas_limit) ∧
  is_u256 n.(ns_verification_gas_limit) ∧ is_u256 n.(ns_pre_verification_gas) ∧
  is_u256 n.(ns_max_fee_per_gas) ∧ is_u256 n.(ns_max_priority_fee_per_gas) ∧
  is_u256 n.(ns_paymaster_and_data).

Class AbiOk (A : Abi) := {
  keccak256_length : ∀ b, length (keccak256 b) = 32%nat;
  abi_no_sig_inj : ∀ u v, ns_wf u → ns_wf v →
    abi_encode_no_sig u = abi_encode_no_sig v → u = v;
  abi_address_length : ∀ a, length (abi_encode_address a) = 32%nat;
  abi_address_inj : ∀ a b, is_address a → is_address b →
    abi_encode_address a = abi_encode_address b → a = b;
  abi_u256_inj : ∀ a b, is_u256 a → is_u256 b →
    abi_encode_u256 a = abi_encode_u256 b → a = b;
}.

(** The byte strings that [hash] applies keccak256 to. *)
Definition hash_inputs {A : Abi} (entry_point : Address) (chain_id : Z) (uo : UserOperationSigned)
  : list bytes :=
  [uo.(uo_init_code); uo.(uo_call_data); uo.(uo_paymaster_and_data); pack_without_signature uo;
   keccak256 (pack_without_signature uo) ++
     abi_encode_address entry_point ++ abi_encode_u256 chain_id].

(** keccak256 tells the byte strings of a list apart *)
Definition collision_free {A : Abi} (l : list bytes) : Prop :=
  ∀ x y, x ∈ l → y ∈ l → keccak256 x = keccak256 y → x = y.
#[global] Instance collision_free_dec {A : Abi} l : Decision (collision_free l).
Proof.
  refine (cast_if (decide (Forall (λ x, Forall (λ y, keccak256 x = keccak256 y → x = y) l) l)));
    [abstract (intros x y Hx Hy; rewrite Forall_forall in *; rename select (∀ x, _) into H;
      by apply (proj1 (Forall_forall _ _) (H x Hx)))
    |abstract (rename select (¬ _) into H; contradict H; apply Forall_forall; intros x Hx;
      apply Forall_forall; intros y Hy; by apply H)].
Defined.

(** ** Requests: every gas field and the signature are optional *)
Record UserOperationRequest := {
  rq_sender : Address;
  rq_nonce : U256;
  rq_init_code : bytes;
  rq_call_data : bytes;
  rq_call_gas_limit : option U256;
  rq_verification_gas_limit : option U256;
  rq_pre_verification_gas : option U256;
  rq_max_fee_per_gas : option U256;
  rq_max_priority_fee_per_gas : option U256;
  rq_paymaster_and_data : bytes;
  rq_signature : option bytes;
}.

Definition signed_of_request (r : UserOperationRequest) : UserOperationSigned := {|
  uo_sender := r.(rq_sender);
  uo_nonce := r.(rq_nonce);
  uo_init_code := r.(rq_init_code);
  uo_call_data := r.(rq_call_data);
  uo_call_gas_limit := default 0 r.(rq_call_gas_limit);
  uo_verification_gas_limit := default 0 r.(rq_verification_gas_limit);
  uo_pre_verification_gas := default 0 r.(rq_pre_verification_gas);
  uo_max_fee_per_gas := default 0 r.(rq_max_fee_per_gas);
  uo_max_priority_fee_per_gas := default 0 r.(rq_max_priority_fee_per_gas);
  uo_paymaster_and_data := r.(rq_paymaster_and_data);
  uo_signature := default [] r.(rq_signature);
|}.

Definition request_of_signed (u : UserOperationSigned) : UserOperationRequest := {|
  rq_sender := u.(uo_sender);
  rq_nonce := u.(uo_nonce);
  rq_init_code := u.(uo_init_code);
  rq_call_data := u.(uo_call_data);
  rq_call_gas_limit := Some u.(uo_call_gas_limit);
  rq_verification_gas_limit := Some u.(uo_verification_gas_limit);
  rq_pre_verification_gas := Some u.(uo_pre_verification_gas);
  rq_max_fee_per_gas := Some u.(uo_max_fee_per_gas);
  rq_max_priority_fee_per_gas := Some u.(uo_max_priority_fee_per_gas);
  rq_paymaster_and_data := u.(uo_paymaster_and_data);
  rq_signature := Some u.(uo_signature);
|}.

(** ** Reputation primitives *)
Abbreviation ReputationStatus := Z.

Inductive Status := OK | THROTTLED | BANNED.
#[global] Instance Status_eq_dec : EqDecision Status.
Proof. solve_decision. Defined.

Definition status_code (s : Status) : ReputationStatus :=
  match s with OK => 0 | THROTTLED => 1 | BANNED => 2 end.
Definition status_of_code (c : ReputationStatus) : Status :=
  if bool_decide (c = 0) then OK else if bool_decide (c = 1) then THROTTLED
  else if bool_decide (c = 2) then BANNED else OK.

Lemma status_of_status_code s : status_of_code (status_code s) = s.
Proof. by destruct s. Qed.

Record ReputationEntry := {
  re_address : Address;
  uo_seen : Z;
  uo_included : Z;
  re_status : ReputationStatus;
}.
#[global] Instance ReputationEntry_eq_dec : EqDecision ReputationEntry.
Proof. solve_decision. Defined.

Definition default_with_addr (addr : Address) : ReputationEntry :=
  {| re_address := addr; uo_seen := 0; uo_included := 0; re_status := status_code OK |}.

Record StakeInfo := {
  si_address : Address;
  si_stake : U256;
  si_unstake_delay : U256;
}.
#[global] Instance StakeInfo_eq_dec : EqDecision StakeInfo.
Proof. solve_decision. Defined.

Definition StakeInfo_default : StakeInfo :=
  {| si_address := 0; si_stake := 0; si_unstake_delay := 0 |}.

Definition is_staked (i : StakeInfo) : bool :=
  bool_decide (0 < i.(si_stake)) && bool_decide (0 < i.(si_unstake_delay)).

Record StakeInfoResponse := { sr_stake_info : StakeInfo; sr_is_staked : bool }.

(** ** Simulation primitives *)
Record ValidationConfig := {
  vc_min_stake : option U256;
  vc_min_unstake_delay : option U256;
  vc_topic : option string;
  vc_ignore_prev : bool;
}.
Definition ValidationConfig_default : ValidationConfig :=
  {| vc_min_stake := None; vc_min_unstake_delay := None; vc_topic := None;
     vc_ignore_prev := false |}.

Record CodeHash := { ch_address : Address; ch_hash : H256 }.
#[global] Instance CodeHash_eq_dec : EqDecision CodeHash.
Proof. solve_decision. Defined.

Record StorageMap := {
  root_hashes : gmap Address H256;
  slots : gmap Address (gmap string string);
}.
Definition StorageMap_default : StorageMap := {| root_hashes := ∅; slots := ∅ |}.

(** ** Receipts of the chain, as the client library [ethers] has them *)
(** [ethers::types::Log] *)
Record ChainLog := {
  lg_address : Address;
  lg_topics : list H256;
  lg_data : bytes;
  lg_block_hash : option H256;
  lg_block_number : option Z;
  lg_transaction_hash : option H256;
  lg_transaction_index : option Z;
  lg_log_index : option U256;
  lg_transaction_log_index : option U256;
  lg_log_type : option string;
  lg_removed : option bool;
}.
(** [other] holds the fields of a chain that the library does not know *)
Record TransactionReceipt := {
  tr_transaction_hash : H256;
  tr_transaction_index : Z;
  tr_block_hash : option H256;
  tr_block_number : option Z;
  tr_from : Address;
  tr_to : option Address;
  tr_cumulative_gas_used : U256;
  tr_gas_used : option U256;
  tr_contract_address : option Address;
  tr_logs : list ChainLog;
  tr_status : option Z;
  tr_root : option H256;
  tr_logs_bloom : bytes;
  tr_transaction_type : option Z;
  tr_effective_gas_price : option U256;
  tr_other : gmap string string;
}.

Definition EXPIRATION_TIMESTAMP_DIFF : Z := 30.
Definition CREATE2_OPCODE : string := "CREATE2".
Definition RETURN_OPCODE : string := "RETURN".
Definition REVERT_OPCODE : string := "REVERT".
Definition CREATE_OPCODE : string := "CREATE".
Definition VALIDATE_PAYMASTER_USER_OP_FUNCTION : string := "validatePaymasterUserOp".
Definition FORBIDDEN_OPCODES : gset string :=
  {[ "GASPRICE"; "GASLIMIT"; "DIFFICULTY"; "TIMESTAMP"; "BASEFEE"; "BLOCKHASH"; "NUMBER";
     "SELFBALANCE"; "BALANCE"; "ORIGIN"; "GAS"; "CREATE"; "COINBASE"; "SELFDESTRUCT";
     "RANDOM"; "PREVRANDAO" ]}.

(** ** Constants *)
Definition GAS_INCREASE_PERC : Z := 10.
Definition FACTORY : string := "factory".
Definition SENDER : string := "account".
Definition PAYMASTER : string := "paymaster".
Definition FACTORY_LEVEL : nat := 0.
Definition SENDER_LEVEL : nat := 1.
Definition PAYMASTER_LEVEL : nat := 2.
Definition LEVEL_TO_ENTITY (l : nat) : string :=
  match l with 0%nat => FACTORY | 1%nat => SENDER | _ => PAYMASTER end.
Definition SAME_SENDER_MEMPOOL_COUNT : nat := 4.
Definition SAME_UNSTAKED_ENTITY_MEMPOOL_COUNT : Z := 10.
Definition THROTTLED_ENTITY_MEMPOOL_COUNT : nat := 4.
Definition THROTTLED_ENTITY_BUNDLE_COUNT : Z := 4.
Definition MIN_INCLUSION_RATE_DENOMINATOR : Z := 10.
Definition INCLUSION_RATE_FACTOR : Z := 10.
Definition THROTTLING_SLACK : Z := 10.
Definition BAN_SLACK : Z := 50.
Definition MIN_EXTRA_GAS : Z := 2000.

Inductive UoPoolMode := Standard | Unsafe.

(** ** Facts *)
Lemma get_address_is_address b a : get_address b = Some a → is_address a.
Proof.
  unfold get_address. case_bool_decide as Hl; [|done]. intros [= <-].
  pose proof (be_to_Z_bound (take 20 b)) as Hb. rewrite length_take_le in Hb by done.
  exact Hb.
Qed.

Lemma get_address_app a rest : is_address a → get_address (address_bytes a ++ rest) = Some a.
Proof.
  intros Ha. unfold get_address, address_bytes.
  rewrite bool_decide_eq_true_2 by (rewrite length_app, length_Z_to_be; lia).
  rewrite take_app_length' by (by rewrite length_Z_to_be).
  f_equal. by apply be_to_Z_to_be.
Qed.

Lemma get_address_None b : get_address b = None ↔ (length b < 20)%nat.
Proof. unfold get_address. case_bool_decide; split; intros; done || lia. Qed.

#[export] Hint Resolve get_address_is_address : silius.

(** ** Hashing binds everything but the signature *)
Definition signature (sig : bytes) (uo : UserOperationSigned) : UserOperationSigned := {|
  uo_sender := uo.(uo_sender); uo_nonce := uo.(uo_nonce); uo_init_code := uo.(uo_init_code);
  uo_call_data := uo.(uo_call_data); uo_call_gas_limit := uo.(uo_call_gas_limit);
  uo_verification_gas_limit := uo.(uo_verification_gas_limit);
  uo_pre_verification_gas := uo.(uo_pre_verification_gas);
  uo_max_fee_per_gas := uo.(uo_max_fee_per_gas);
  uo_max_priority_fee_per_gas := uo.(uo_max_priority_fee_per_gas);
  uo_paymaster_and_data := uo.(uo_paymaster_and_data); uo_signature := sig |}.

Section hash_binding.
Context {A : Abi} {AOk : AbiOk A}.

Lemma collision_free_subset l l' : l ⊆ l' → collision_free l' → collision_free l.
Proof. intros Hs Hc x y Hx Hy. apply Hc; by apply Hs. Qed.

Lemma from_slice_inj x y : length x = length y → from_slice x = from_slice y → x = y.
Proof.
  intros Hl He. rewrite <-(Z_to_be_to_Z x), <-(Z_to_be_to_Z y), Hl. f_equal. exact He.
Qed.

Lemma digest_inj l x y : collision_free l → x ∈ l → y ∈ l →
  from_slice (keccak256 x) = from_slice (keccak256 y) → x = y.
Proof using AOk.
  intros Hl Hx Hy He%from_slice_inj; [by apply Hl|]. by rewrite !keccak256_length.
Qed.

Lemma digest_range x : is_u256 (from_slice (keccak256 x)).
Proof using AOk.
  pose proof (be_to_Z_bound (keccak256 x)) as H. rewrite keccak256_length in H.
  unfold is_u256, U256_MAX, from_slice. change (8 * Z.of_nat 32) with 256 in H. lia.
Qed.

Lemma no_signature_wf u : uo_wf u → ns_wf (no_signature u).
Proof using AOk.
  intros (?&?&?&?&?&?&?).
  repeat (apply conj; [first [assumption | apply digest_range]|]). apply digest_range.
Qed.

(** the digests of two (operation, entry point, chain) triples agree only if the
    triples agree up to the signature, where what is hashed does not collide *)
Lemma hash_binds u v ep ep' c c' :
  uo_wf u → uo_wf v → is_address ep → is_address ep' → is_u256 c → is_u256 c' →
  collision_free (hash_inputs ep c u ++ hash_inputs ep' c' v) →
  hash u ep c = hash v ep' c' → signature [] u = signature [] v ∧ ep = ep' ∧ c = c'.
Proof using AOk.
  intros Hu Hv Hep Hep' Hc Hc' Hl He. unfold hash_inputs in Hl; simpl in Hl.
  apply (digest_inj _ _ _ Hl) in He; [|set_solver..].
  apply app_inj_1 in He as [Hk He]; [|by rewrite !keccak256_length].
  apply app_inj_1 in He as [Ha Hb]; [|by rewrite !abi_address_length].
  apply abi_address_inj in Ha; [|done..]. apply abi_u256_inj in Hb; [|done..].
  apply Hl in Hk; [|set_solver..]. apply abi_no_sig_inj in Hk; [|by apply no_signature_wf..].
  injection Hk as ?? Hi Hd ????? Hp.
  apply (digest_inj _ _ _ Hl) in Hi; [|set_solver..].
  apply (digest_inj _ _ _ Hl) in Hd; [|set_solver..].
  apply (digest_inj _ _ _ Hl) in Hp; [|set_solver..].
  split; [|done]. unfold signature. congruence.
Qed.

(** operations for one entry point and chain that are told apart *)
Definition told_apart (ep : Address) (chain_id : Z) (uos : list UserOperationSigned) : Prop :=
  collision_free (uos ≫= hash_inputs ep chain_id).

#[global] Instance told_apart_dec ep chain_id uos : Decision (told_apart ep chain_id uos).
Proof. unfold told_apart. apply _. Defined.

Lemma told_apart_subset ep c l l' : l ⊆ l' → told_apart ep c l' → told_apart ep c l.
Proof.
  intros Hs. apply collision_free_subset. intros x (u & Hx & Hu)%list_elem_of_bind.
  apply list_elem_of_bind. exists u. split; [done|by apply Hs].
Qed.

Lemma told_apart_hash ep c l u v :
  is_address ep → is_u256 c → told_apart ep c l → u ∈ l → v ∈ l → uo_wf u → uo_wf v →
  hash u ep c = hash v ep c → signature [] u = signature [] v.
Proof using AOk.
  intros Hep Hc Hl Hu Hv Hwu Hwv He. destruct (hash_binds u v ep ep c c) as [? _]; try done.
  eapply collision_free_subset; [|exact Hl].
  intros x [Hx|Hx]%elem_of_app; apply list_elem_of_bind; eauto.
Qed.
End hash_binding.
