(* ===== verification/Errors.v ===== *)
(** Error types of the contracts, mempool and RPC crates, the conversions
    between them, and the JSON-RPC code each error is reported with. *)

From S2P Require Import Prelude Primitives.

(** ** Entry point errors *)
Inductive EntryPointError :=
| FailedOp (op_index : U256) (reason : string)
| ExecutionReverted (inner : string)
| NoRevert (function : string)
| EPProvider (inner : string)
| EPABI (inner : string)
| EPDecode (inner : string)
| EPOther (inner : string).

(** ** Mempool errors *)
Inductive DatabaseError := DbInternal (inner : string) | DbNotFound.

Inductive ReputationError :=
| BannedEntity (entity : string) (address : Address)
| ThrottledEntity (entity : string) (address : Address)
| StakeTooLow (entity : string) (address : Address) (stake min_stake : U256)
| UnstakeDelayTooLow (address : Address) (entity : string)
    (unstake_delay min_unstake_delay : U256)
| UnstakedEntity (entity : string) (address : Address)
| RepDatabase (e : DatabaseError).

Inductive SanityError :=
| VerificationGasLimitTooHigh (verification_gas_limit verification_gas_limit_expected : U256)
| PreVerificationGasTooLow (pre_verification_gas pre_verification_gas_expected : U256)
| CallGasLimitTooLow (call_gas_limit call_gas_limit_expected : U256)
| MaxFeePerGasTooLow (max_fee_per_gas base_fee_per_gas : U256)
| MaxPriorityFeePerGasTooHigh (max_priority_fee_per_gas max_fee_per_gas : U256)
| MaxPriorityFeePerGasTooLow
    (max_priority_fee_per_gas max_priority_fee_per_gas_expected : U256)
| SanPaymaster (inner : string)
| SanSender (inner : string)
| EntityRoles (entity : string) (address : Address) (entity_other : string)
| SanReputation (e : ReputationError)
| SanProvider (inner : string)
| SanDatabase (e : DatabaseError)
| SanOther (inner : string).

Inductive SimulationError :=
| SimSignature
| SimTimestamp (inner : string)
| SimValidation (inner : string)
| SimExecution (inner : string)
| SimOpcode (entity opcode : string)
| SimStorageAccess (slot : string)
| SimUnstaked (entity : string) (address : Address) (inner : string)
| SimCallStack (inner : string)
| SimCodeHashes
| SimOutOfGas
| SimReputation (e : ReputationError)
| SimProvider (inner : string)
| SimDatabase (e : DatabaseError)
| SimOther (inner : string).

Inductive InvalidMempoolUserOperationError :=
| InvReputation (e : ReputationError)
| InvSanity (e : SanityError)
| InvSimulation (e : SimulationError).

Inductive MempoolErrorKind :=
| InvalidUserOperation (e : InvalidMempoolUserOperationError)
| MpProvider (inner : string)
| MpDatabase (e : DatabaseError)
| MpOther (inner : string).

Record MempoolError := { me_hash : UserOperationHash; me_kind : MempoolErrorKind }.

(** Text rendering of library types ([Display]/[Debug] of third-party types), and
    the [Debug] texts that the compiler derives for the errors and hashes. *)
Class Display := {
  show_address : Address → string;
  show_bytes : bytes → string;
  show_u256 : Z → string;
  show_failed_op : Z → string → string;
  debug_failed_op : Z → string → string;
  debug_hash : UserOperationHash → string;
  debug_entry_point_error : EntryPointError → string;
  debug_reputation_error : ReputationError → string;
  debug_mempool_error : MempoolErrorKind → string;
  debug_report : string → string;
}.

Section to_string.
Context {D : Display}.

Definition EntryPointError_to_string (e : EntryPointError) : string :=
  match e with
  | FailedOp i r => show_failed_op i r
  | ExecutionReverted s => "execution reverted: " +:+ s
  | NoRevert f => f +:+ " should revert"
  | EPProvider s => "provider error: " +:+ s
  | EPABI s => "abi error: " +:+ s
  | EPDecode s => "decode error: " +:+ s
  | EPOther s => "other error: " +:+ s
  end.
End to_string.

(** the [From] conversions behind [?] and [.into()] *)
Definition kind_of_reputation (e : ReputationError) : MempoolErrorKind :=
  InvalidUserOperation (InvReputation e).
Definition kind_of_sanity (e : SanityError) : MempoolErrorKind :=
  InvalidUserOperation (InvSanity e).
Definition kind_of_simulation (e : SimulationError) : MempoolErrorKind :=
  InvalidUserOperation (InvSimulation e).

Section conversions.
Context {D : Display}.

Definition sanity_of_entry_point (err : EntryPointError) : SanityError :=
  match err with
  | EPProvider inner => SanProvider inner
  | _ => SanOther (EntryPointError_to_string err)
  end.

Definition simulation_of_entry_point (err : EntryPointError) : SimulationError :=
  match err with
  | FailedOp i r => SimExecution (show_failed_op i r)
  | EPProvider inner => SimProvider inner
  | _ => SimOther (EntryPointError_to_string err)
  end.
End conversions.

(** ** Messages: the [Display] of each error *)
Section text.
Context {D : Display}.

Definition DatabaseError_to_string (e : DatabaseError) : string :=
  match e with DbInternal inner => inner | DbNotFound => "Database not found" end.

Definition ReputationError_to_string (e : ReputationError) : string :=
  match e with
  | BannedEntity entity address => entity +:+ " " +:+ show_address address +:+ " is banned"
  | ThrottledEntity entity address => entity +:+ " " +:+ show_address address +:+ " is throttled"
  | StakeTooLow entity address stake min_stake =>
      entity +:+ " " +:+ show_address address +:+ " stake " +:+ show_u256 stake
        +:+ " is too low " +:+ show_u256 min_stake
  | UnstakeDelayTooLow address entity unstake_delay min_unstake_delay =>
      entity +:+ " " +:+ show_address address +:+ " unstake delay " +:+ show_u256 unstake_delay
        +:+ " is too low " +:+ show_u256 min_unstake_delay
  | UnstakedEntity entity address => entity +:+ " " +:+ show_address address +:+ " is unstaked"
  | RepDatabase e => DatabaseError_to_string e
  end.

Definition SanityError_to_string (e : SanityError) : string :=
  match e with
  | VerificationGasLimitTooHigh _ expected =>
      "verificationGasLimit too high: expected at most " +:+ show_u256 expected
  | PreVerificationGasTooLow _ expected =>
      "preVerificationGas too low: expected at least " +:+ show_u256 expected
  | CallGasLimitTooLow _ expected => "callGasLimit too low: expected at least " +:+ show_u256 expected
  | MaxFeePerGasTooLow _ base_fee => "maxFeePerGas too low: expected at least " +:+ show_u256 base_fee
  | MaxPriorityFeePerGasTooHigh _ max_fee =>
      "maxPriorityFeePerGas too high: expected at most " +:+ show_u256 max_fee
  | MaxPriorityFeePerGasTooLow _ expected =>
      "maxPriorityFeePerGas too low: expected at least " +:+ show_u256 expected
  | SanPaymaster inner => inner
  | SanSender inner => inner
  | EntityRoles entity address entity_other =>
      "A " +:+ entity +:+ " at " +:+ show_address address
        +:+ " in this user operation is used as a " +:+ entity_other
        +:+ " entity in another useroperation currently in mempool"
  | SanReputation e => ReputationError_to_string e
  | SanProvider inner => "provider error: " +:+ inner
  | SanDatabase e => DatabaseError_to_string e
  | SanOther inner => "other error: " +:+ inner
  end.

Definition SimulationError_to_string (e : SimulationError) : string :=
  match e with
  | SimSignature => "Invalid userop signature or paymaster signature"
  | SimTimestamp inner => inner
  | SimValidation inner => inner
  | SimExecution inner => inner
  | SimOpcode entity opcode => entity +:+ " uses banned opcode: " +:+ opcode
  | SimStorageAccess slot => "Storage access validation failed for slot: " +:+ slot
  | SimUnstaked entity address inner =>
      "A unstaked " +:+ entity +:+ " at " +:+ show_address address +:+ ": " +:+ inner
  | SimCallStack inner => "Illegal call into " +:+ inner
  | SimCodeHashes => "Code hashes changed between the first and the second simulations"
  | SimOutOfGas => "User operation out of gas"
  | SimReputation e => ReputationError_to_string e
  | SimProvider inner => "provider error: " +:+ inner
  | SimDatabase e => DatabaseError_to_string e
  | SimOther inner => "other error: " +:+ inner
  end.

Definition MempoolErrorKind_to_string (k : MempoolErrorKind) : string :=
  match k with
  | InvalidUserOperation (InvReputation e) => ReputationError_to_string e
  | InvalidUserOperation (InvSanity e) => SanityError_to_string e
  | InvalidUserOperation (InvSimulation e) => SimulationError_to_string e
  | MpProvider inner => "provider error: " +:+ inner
  | MpDatabase e => DatabaseError_to_string e
  | MpOther inner => "other error: " +:+ inner
  end.
Definition MempoolError_to_string (e : MempoolError) : string := MempoolErrorKind_to_string e.(me_kind).
End text.

(** ** JSON-RPC codes *)
Definition VALIDATION : Z := -32500.
Definition OPCODE : Z := -32502.
Definition TIMESTAMP : Z := -32503.
Definition BANNED_OR_THROTTLED_ENTITY : Z := -32504.
Definition STAKE_TOO_LOW : Z := -32505.
Definition SIGNATURE : Z := -32507.
Definition EXECUTION : Z := -32521.
Definition SANITY : Z := -32602.
Definition USER_OPERATION_HASH : Z := -32601.
Definition INTERNAL_ERROR_CODE : Z := -32603.
Definition PARSE_ERROR_CODE : Z := -32700.

Definition code_of_reputation (err : ReputationError) : Z :=
  match err with
  | BannedEntity _ _ => BANNED_OR_THROTTLED_ENTITY
  | ThrottledEntity _ _ => BANNED_OR_THROTTLED_ENTITY
  | StakeTooLow _ _ _ _ => STAKE_TOO_LOW
  | UnstakeDelayTooLow _ _ _ _ => STAKE_TOO_LOW
  | UnstakedEntity _ _ => STAKE_TOO_LOW
  | _ => INTERNAL_ERROR_CODE
  end.

Definition code_of_sanity (err : SanityError) : Z :=
  match err with
  | VerificationGasLimitTooHigh _ _ => SANITY
  | PreVerificationGasTooLow _ _ => SANITY
  | CallGasLimitTooLow _ _ => SANITY
  | MaxFeePerGasTooLow _ _ => SANITY
  | MaxPriorityFeePerGasTooHigh _ _ => SANITY
  | MaxPriorityFeePerGasTooLow _ _ => SANITY
  | SanPaymaster _ => SANITY
  | SanSender _ => SANITY
  | EntityRoles _ _ _ => OPCODE
  | SanReputation err => code_of_reputation err
  | _ => INTERNAL_ERROR_CODE
  end.

Definition code_of_simulation (err : SimulationError) : Z :=
  match err with
  | SimSignature => SIGNATURE
  | SimTimestamp _ => TIMESTAMP
  | SimValidation _ => VALIDATION
  | SimExecution _ => EXECUTION
  | SimOpcode _ _ => OPCODE
  | SimStorageAccess _ => OPCODE
  | SimUnstaked _ _ _ => OPCODE
  | SimCallStack _ => OPCODE
  | SimCodeHashes => OPCODE
  | SimOutOfGas => OPCODE
  | SimReputation err => code_of_reputation err
  | _ => INTERNAL_ERROR_CODE
  end.

Definition code_of_mempool (err : MempoolError) : Z :=
  match err.(me_kind) with
  | InvalidUserOperation (InvSanity err) => code_of_sanity err
  | InvalidUserOperation (InvSimulation err) => code_of_simulation err
  | InvalidUserOperation (InvReputation err) => code_of_reputation err
  | _ => INTERNAL_ERROR_CODE
  end.
