(* ===== verification/AbiStd.v ===== *)
(** A concrete instance of the library interfaces [Abi] and [Display]: the
    Solidity ABI encoding of the types the bundler packs, with a 32-byte
    checksum in place of the digest, the remainder of the marked input by a prime.  The theorems are proved against the
    interfaces; this instance is for evaluating the definitions on concrete
    operations. *)

From S2P Require Import Prelude Primitives Errors.

Definition word (z : Z) : bytes := Z_to_be 32 z.

Arguments word : simpl never.

Definition pad32 (b : bytes) : bytes :=
  b ++ replicate (Z.to_nat ((- Z.of_nat (length b)) mod 32)) Byte.x00.

Definition abi_bytes (b : bytes) : bytes := word (Z.of_nat (length b)) ++ pad32 b.

(** head of 11 words, then the four dynamic fields in order *)
Definition std_encode_uo (uo : UserOperationSigned) : bytes :=
  let ic := abi_bytes uo.(uo_init_code) in
  let cd := abi_bytes uo.(uo_call_data) in
  let pd := abi_bytes uo.(uo_paymaster_and_data) in
  let sg := abi_bytes uo.(uo_signature) in
  let o1 := 352 in
  let o2 := o1 + Z.of_nat (length ic) in
  let o3 := o2 + Z.of_nat (length cd) in
  let o4 := o3 + Z.of_nat (length pd) in
  word uo.(uo_sender) ++ word uo.(uo_nonce) ++ word o1 ++ word o2 ++
  word uo.(uo_call_gas_limit) ++ word uo.(uo_verification_gas_limit) ++
  word uo.(uo_pre_verification_gas) ++ word uo.(uo_max_fee_per_gas) ++
  word uo.(uo_max_priority_fee_per_gas) ++ word o3 ++ word o4 ++ ic ++ cd ++ pd ++ sg.

Definition std_encode_no_sig (n : UserOperationNoSignature) : bytes :=
  word n.(ns_sender) ++ word n.(ns_nonce) ++ word n.(ns_init_code) ++ word n.(ns_call_data) ++
  word n.(ns_call_gas_limit) ++ word n.(ns_verification_gas_limit) ++
  word n.(ns_pre_verification_gas) ++ word n.(ns_max_fee_per_gas) ++
  word n.(ns_max_priority_fee_per_gas) ++ word n.(ns_paymaster_and_data).

Definition std_abi : Abi := {|
  keccak256 := λ b, word (be_to_Z (Byte.x01 :: b) mod (2 ^ 256 - 189));
  abi_encode_uo := std_encode_uo;
  abi_encode_no_sig := std_encode_no_sig;
  abi_encode_address := word;
  abi_encode_u256 := word;
|}.

Definition std_display : Display := {|
  show_address := λ _, "0x"%string;
  show_bytes := λ _, "0x"%string;
  show_u256 := λ _, "0"%string;
  show_failed_op := λ _ r, r;
  debug_failed_op := λ _ r, r;
  debug_hash := λ _, "0x"%string;
  debug_entry_point_error := λ _, "EntryPointError"%string;
  debug_reputation_error := λ _, "ReputationError"%string;
  debug_mempool_error := λ _, "MempoolErrorKind"%string;
  debug_report := λ s, s;
|}.

Lemma word_inj a b : is_u256 a → is_u256 b → word a = word b → a = b.
Proof.
  unfold is_u256, U256_MAX. intros Ha Hb H. apply (f_equal be_to_Z) in H.
  unfold word in H. rewrite !be_to_Z_to_be in H; [done|..];
    change (8 * Z.of_nat 32) with 256; lia.
Qed.

Lemma length_word a : length (word a) = 32%nat.
Proof. apply length_Z_to_be. Qed.

Lemma is_address_u256 a : is_address a → is_u256 a.
Proof. unfold is_address, is_u256, U256_MAX. lia. Qed.

#[export] Instance std_abi_ok : AbiOk std_abi.
Proof.
  split.
  - intros b. apply length_word.
  - intros u v (?&?&?&?&?&?&?&?&?&?) (?&?&?&?&?&?&?&?&?&?) He.
    cbv [std_abi abi_encode_no_sig std_encode_no_sig] in He.
    do 9 (apply app_inj_1 in He as [Hw He]; [|by rewrite !length_word];
      apply word_inj in Hw; [|first [done | by apply is_address_u256]..]; revert Hw).
    apply word_inj in He; [|done..]. revert He. clear.
    destruct u, v; cbn. by intros; subst.
  - intros a. apply length_word.
  - intros a b ??. apply word_inj; by apply is_address_u256.
  - intros a b. apply word_inj.
Qed.

(** The operation of the unit test [pre_verification_gas_calculation]. *)
Definition sample_uo : UserOperationSigned := {|
  uo_sender := 0xAB7e2cbFcFb6A5F33A75aD745C3E5fB48d689B54;
  uo_nonce := 0;
  uo_init_code := Z_to_be 120 0xe19e9755942bb0bd0cccce25b1742596b8a8250b3bf2c3e70000000000000000000000001d9a2cb3638c2fc8bf9c01d088b79e75cd188b17000000000000000000000000789d9058feecf1948af429793e7f1eb4a75db2220000000000000000000000000000000000000000000000000000000000000000;
  uo_call_data := Z_to_be 132 0x80c5c7d0000000000000000000000000ab7e2cbfcfb6a5f33a75ad745c3e5fb48d689b5400000000000000000000000000000000000000000000000002c68af0bb14000000000000000000000000000000000000000000000000000000000000000000600000000000000000000000000000000000000000000000000000000000000000;
  uo_call_gas_limit := 21900;
  uo_verification_gas_limit := 1218343;
  uo_pre_verification_gas := 50780;
  uo_max_fee_per_gas := 10064120791;
  uo_max_priority_fee_per_gas := 1620899097;
  uo_paymaster_and_data := [];
  uo_signature := Z_to_be 65 0x4e69eb5e02d47ba28878655d61c59c20c3e9a2e6905381305626f6a5a2892ec12bd8dd59179f0642731e0e853af54a71ce422a1a234548c9dd1c559bd07df4461c;
|}.
