(* ===== verification/HexStd.v ===== *)
(** Hexadecimal text of byte strings and fixed-size hashes, as the hash types of
    the client library read and print them: [FromStr] takes exactly the digits of
    the type, with or without [0x]; [LowerHex] and [Debug] print all of them;
    [Display] abbreviates to the first and last two bytes.  These are the concrete
    instances at which the witnesses evaluate the text formats. *)

From Stdlib Require Import Ascii.
From S2P Require Import Prelude Primitives.

(** ** Digits *)
Definition hex_digit (n : Z) : ascii :=
  ascii_of_N (Z.to_N (if bool_decide (n < 10) then 48 + n else 87 + n)).
Definition hex_value (c : ascii) : option Z :=
  let n := Z.of_N (N_of_ascii c) in
  if bool_decide (48 ≤ n ≤ 57) then Some (n - 48)
  else if bool_decide (97 ≤ n ≤ 102) then Some (n - 87)
  else if bool_decide (65 ≤ n ≤ 70) then Some (n - 55) else None.

(** ** Byte strings *)
Fixpoint to_hex (b : bytes) : string :=
  match b with
  | [] => ""
  | x :: b => String (hex_digit (byte.unsigned x / 16))
                (String (hex_digit (byte.unsigned x mod 16)) (to_hex b))
  end.

Fixpoint from_hex (s : string) : option bytes :=
  match s with
  | EmptyString => Some []
  | String c1 (String c2 s) =>
      h ← hex_value c1; l ← hex_value c2; b ← from_hex s; Some (byte.of_Z (16 * h + l) :: b)
  | String _ EmptyString => None
  end.

(** ** Fixed-size hashes of [n] bytes, as numbers *)
Definition strip_0x (s : string) : string :=
  match s with String "0" (String "x" s) => s | _ => s end.

Definition hash_from_str (n : nat) (s : string) : option Z :=
  b ← from_hex (strip_0x s); if bool_decide (length b = n) then Some (be_to_Z b) else None.
Definition hash_debug (n : nat) (h : Z) : string := "0x" +:+ to_hex (Z_to_be n h).
(** the three bytes between the two halves are the UTF-8 form of an ellipsis *)
Definition ellipsis : string := String (ascii_of_N 226) (String (ascii_of_N 128) (String (ascii_of_N 166) "")).
Definition bytes_display (b : bytes) : string :=
  "0x" +:+ to_hex (take 2 b) +:+ ellipsis +:+ to_hex (drop (length b - 2) b).
Definition hash_display (n : nat) (h : Z) : string := bytes_display (Z_to_be n h).

(** ** Round trips *)
Lemma hex_value_digit n : 0 ≤ n < 16 → hex_value (hex_digit n) = Some n.
Proof.
  intros Hn.
  assert (forallb (λ n, bool_decide (hex_value (hex_digit n) = Some n)) (seqZ 0 16) = true) as Hall
    by (by vm_compute).
  rewrite forallb_forall in Hall. eapply bool_decide_eq_true_1, Hall, list_elem_of_In, elem_of_seqZ. lia.
Qed.

Lemma byte_halves (x : byte) : byte.of_Z (16 * (byte.unsigned x / 16) + byte.unsigned x mod 16) = x.
Proof. rewrite <-Z.div_mod by lia. apply byte.of_Z_unsigned. Qed.

Lemma from_to_hex b : from_hex (to_hex b) = Some b.
Proof.
  induction b as [|x b IH]; [done|]. cbn [to_hex from_hex]. pose proof (byte.unsigned_range x).
  rewrite !hex_value_digit by (split; [Z.to_euclidean_division_equations; lia|]; Z.to_euclidean_division_equations; lia).
  simpl. by rewrite IH, <-(byte_halves x) at 1.
Qed.

Lemma from_hex_ellipsis b s : from_hex (to_hex b +:+ ellipsis +:+ s) = None.
Proof.
  induction b as [|x b IH]; [done|]. cbn [to_hex]. simpl. change (String.append ?a ?b) with (a +:+ b).
  rewrite IH. by destruct (hex_value _), (hex_value _).
Qed.

Lemma strip_prefix s : strip_0x ("0x" +:+ s) = s.
Proof. done. Qed.

Lemma hash_debug_parses n h : 0 ≤ h < 2 ^ (8 * Z.of_nat n) → hash_from_str n (hash_debug n h) = Some h.
Proof.
  intros Hh. unfold hash_from_str, hash_debug. rewrite strip_prefix, from_to_hex. simpl.
  rewrite bool_decide_true by (by rewrite length_Z_to_be). f_equal. by apply be_to_Z_to_be.
Qed.

(** an abbreviated hash cannot be read back *)
Lemma bytes_display_unreadable b : from_hex (strip_0x (bytes_display b)) = None.
Proof. apply from_hex_ellipsis. Qed.
Lemma hash_display_unreadable n h : hash_from_str n (hash_display n h) = None.
Proof. unfold hash_from_str, hash_display. by rewrite bytes_display_unreadable. Qed.
