(* ===== verification/ErrorJson.v ===== *)
(** The JSON texts in which errors, hashes and gas estimates travel inside gRPC
    messages: the [Serialize] and [Deserialize] of [crates/mempool/src/error.rs]
    and [crates/primitives/src/user_operation] as serde derives them, and those
    of [DatabaseError], written by hand in [crates/mempool/src/database/env.rs].
    serde_json reads a text as a stream, so the readers are functions on the
    remaining tokens; what a reader leaves there is the next one's input.  Of the
    derived readers only what the service's own texts need is modelled: objects
    with the fields in any order, not arrays or nulls. *)

From S2P Require Import Prelude Primitives Errors.

(** ** Tokens, and the texts of library types *)
Inductive Tok := LBrace | RBrace | Colon | Comma | Str (s : string).
#[global] Instance Tok_eq_dec : EqDecision Tok.
Proof. solve_decision. Defined.

(** serde_json: the text of a list of tokens, its lexer, and the message of a
    failure to read a text; the [Debug] text of a database error; and the text
    forms of ethers' numbers *)
Class SerdeJson := {
  render : list Tok → string;
  lex : string → option (list Tok);
  serde_message : string → string;
  debug_database_error : DatabaseError → string;
  account_text : Address → string;
  account_of_text : string → option Address;
  u256_text : U256 → string;
  u256_of_text : string → option U256;
  digest_text : H256 → string;
  digest_of_text : string → option H256;
}.
Class SerdeLaws (SJ : SerdeJson) : Prop := {
  lex_render : ∀ ts, lex (render ts) = Some ts;
  account_text_back : ∀ a, account_of_text (account_text a) = Some a;
  u256_text_back : ∀ n, u256_of_text (u256_text n) = Some n;
  digest_text_back : ∀ h, digest_of_text (digest_text h) = Some h;
}.

(** ** The forms that serde derives *)
Definition Reader (X : Type) : Type := list Tok → option (X * list Tok).

Fixpoint members (fs : list (string * list Tok)) : list Tok :=
  match fs with
  | [] => [RBrace]
  | [(k, v)] => Str k :: Colon :: v ++ [RBrace]
  | (k, v) :: fs => Str k :: Colon :: v ++ Comma :: members fs
  end.
Definition object (fs : list (string * list Tok)) : list Tok := LBrace :: members fs.
Definition strings (fs : list (string * string)) : list (string * list Tok) :=
  (λ f, (f.1, [Str f.2])) <$> fs.

(** variants of an enumeration: without data, with one value, with named fields *)
Definition unit_variant (name : string) : list Tok := [Str name].
Definition newtype_variant (name : string) (v : list Tok) : list Tok := object [(name, v)].
Definition struct_variant (name : string) (fs : list (string * string)) : list Tok :=
  newtype_variant name (object (strings fs)).

(** the fields of an object up to its end *)
Fixpoint read_members (ts : list Tok) : option (list (string * string) * list Tok) :=
  match ts with
  | Str k :: Colon :: Str v :: RBrace :: ts => Some ([(k, v)], ts)
  | Str k :: Colon :: Str v :: Comma :: ts =>
      r ← read_members ts; Some ((k, v) :: r.1, r.2)
  | _ => None
  end.
Definition field (name : string) (l : list (string * string)) : option string :=
  snd <$> head (filter (λ f, f.1 = name) l).
(** each of the named fields, once; others are skipped *)
Definition read_struct (names : list string) : Reader (list string) := λ ts,
  match ts with
  | LBrace :: ts =>
      r ← read_members ts;
      if bool_decide (NoDup (filter (λ k, k ∈ names) r.1.*1))
      then vs ← mapM (λ n, field n r.1) names; Some (vs, r.2) else None
  | _ => None
  end.
(** a string is the name of a variant without data; an object has the name of a
    variant as its key, and ends after the variant's data *)
Definition read_enum {X} (unit : string → option X) (inner : string → Reader X) : Reader X := λ ts,
  match ts with
  | Str name :: ts => x ← unit name; Some (x, ts)
  | LBrace :: Str name :: Colon :: ts =>
      r ← inner name ts;
      match r.2 with RBrace :: ts => Some (r.1, ts) | _ => None end
  | _ => None
  end.
Definition read_as {X Y} (f : X → option Y) (r : Reader X) : Reader Y := λ ts,
  x ← r ts; y ← f x.1; Some (y, x.2).
Definition no_unit {X} (name : string) : option X := None.

(** evaluate a reader on a written value, up to the texts of library types *)
Ltac read_back :=
  lazy -[account_text account_of_text u256_text u256_of_text debug_database_error];
  rewrite ?account_text_back; lazy -[u256_text u256_of_text];
  rewrite ?u256_text_back; reflexivity.

Section errors.
Context {SJ : SerdeJson}.

(** ** [DatabaseError] *)
(** [serializer.serialize_str(&format!("{self:?}"))] *)
Definition write_database (e : DatabaseError) : list Tok := [Str (debug_database_error e)].
(** [Ok(DatabaseError::NotFound)]: the input is not touched *)
Definition read_database : Reader DatabaseError := λ ts, Some (DbNotFound, ts).

(** ** [ReputationError] *)
Definition write_reputation (e : ReputationError) : list Tok :=
  match e with
  | BannedEntity entity address =>
      struct_variant "BannedEntity" [("entity", entity); ("address", account_text address)]
  | ThrottledEntity entity address =>
      struct_variant "ThrottledEntity" [("entity", entity); ("address", account_text address)]
  | StakeTooLow entity address stake min_stake =>
      struct_variant "StakeTooLow" [("entity", entity); ("address", account_text address);
        ("stake", u256_text stake); ("min_stake", u256_text min_stake)]
  | UnstakeDelayTooLow address entity unstake_delay min_unstake_delay =>
      struct_variant "UnstakeDelayTooLow" [("address", account_text address); ("entity", entity);
        ("unstake_delay", u256_text unstake_delay); ("min_unstake_delay", u256_text min_unstake_delay)]
  | UnstakedEntity entity address =>
      struct_variant "UnstakedEntity" [("entity", entity); ("address", account_text address)]
  | RepDatabase e => newtype_variant "Database" (write_database e)
  end%string.

(** a variant with an entity and its address *)
Definition entity_fields {X} (c : string → Address → X) : Reader X :=
  read_as (λ vs, match vs with [e; a] => c e <$> account_of_text a | _ => None end)
    (read_struct ["entity"; "address"]%string).
Definition read_reputation : Reader ReputationError :=
  read_enum no_unit (λ name,
    if bool_decide (name = "BannedEntity"%string) then entity_fields BannedEntity
    else if bool_decide (name = "ThrottledEntity"%string) then entity_fields ThrottledEntity
    else if bool_decide (name = "StakeTooLow"%string) then
      read_as (λ vs, match vs with
        | [e; a; s; m] => a ← account_of_text a; s ← u256_of_text s; m ← u256_of_text m;
            Some (StakeTooLow e a s m)
        | _ => None end) (read_struct ["entity"; "address"; "stake"; "min_stake"]%string)
    else if bool_decide (name = "UnstakeDelayTooLow"%string) then
      read_as (λ vs, match vs with
        | [a; e; d; m] => a ← account_of_text a; d ← u256_of_text d; m ← u256_of_text m;
            Some (UnstakeDelayTooLow a e d m)
        | _ => None end)
        (read_struct ["address"; "entity"; "unstake_delay"; "min_unstake_delay"]%string)
    else if bool_decide (name = "UnstakedEntity"%string) then entity_fields UnstakedEntity
    else if bool_decide (name = "Database"%string) then
      read_as (λ e, Some (RepDatabase e)) read_database
    else λ _, None).

(** variants with one or two texts, two numbers, and a text with the name [inner] *)
Definition inner_field {X} (c : string → X) : Reader X :=
  read_as (λ vs, match vs with [s] => Some (c s) | _ => None end) (read_struct ["inner"]%string).
Definition number_fields {X} (a b : string) (c : U256 → U256 → X) : Reader X :=
  read_as (λ vs, match vs with
    | [x; y] => x ← u256_of_text x; y ← u256_of_text y; Some (c x y)
    | _ => None end) (read_struct [a; b]).

(** ** [SanityError] *)
Definition numbers (a : string) (x : U256) (b : string) (y : U256) : list (string * string) :=
  [(a, u256_text x); (b, u256_text y)].
Definition write_sanity (e : SanityError) : list Tok :=
  match e with
  | VerificationGasLimitTooHigh x y => struct_variant "VerificationGasLimitTooHigh"
      (numbers "verification_gas_limit" x "verification_gas_limit_expected" y)
  | PreVerificationGasTooLow x y => struct_variant "PreVerificationGasTooLow"
      (numbers "pre_verification_gas" x "pre_verification_gas_expected" y)
  | CallGasLimitTooLow x y => struct_variant "CallGasLimitTooLow"
      (numbers "call_gas_limit" x "call_gas_limit_expected" y)
  | MaxFeePerGasTooLow x y => struct_variant "MaxFeePerGasTooLow"
      (numbers "max_fee_per_gas" x "base_fee_per_gas" y)
  | MaxPriorityFeePerGasTooHigh x y => struct_variant "MaxPriorityFeePerGasTooHigh"
      (numbers "max_priority_fee_per_gas" x "max_fee_per_gas" y)
  | MaxPriorityFeePerGasTooLow x y => struct_variant "MaxPriorityFeePerGasTooLow"
      (numbers "max_priority_fee_per_gas" x "max_priority_fee_per_gas_expected" y)
  | SanPaymaster inner => struct_variant "Paymaster" [("inner", inner)]
  | SanSender inner => struct_variant "Sender" [("inner", inner)]
  | EntityRoles entity address entity_other => struct_variant "EntityRoles"
      [("entity", entity); ("address", account_text address); ("entity_other", entity_other)]
  | SanReputation e => newtype_variant "Reputation" (write_reputation e)
  | SanProvider inner => struct_variant "Provider" [("inner", inner)]
  | SanDatabase e => newtype_variant "Database" (write_database e)
  | SanOther inner => struct_variant "Other" [("inner", inner)]
  end%string.
Definition read_sanity : Reader SanityError :=
  read_enum no_unit (λ name,
    if bool_decide (name = "VerificationGasLimitTooHigh"%string) then
      number_fields "verification_gas_limit" "verification_gas_limit_expected" VerificationGasLimitTooHigh
    else if bool_decide (name = "PreVerificationGasTooLow"%string) then
      number_fields "pre_verification_gas" "pre_verification_gas_expected" PreVerificationGasTooLow
    else if bool_decide (name = "CallGasLimitTooLow"%string) then
      number_fields "call_gas_limit" "call_gas_limit_expected" CallGasLimitTooLow
    else if bool_decide (name = "MaxFeePerGasTooLow"%string) then
      number_fields "max_fee_per_gas" "base_fee_per_gas" MaxFeePerGasTooLow
    else if bool_decide (name = "MaxPriorityFeePerGasTooHigh"%string) then
      number_fields "max_priority_fee_per_gas" "max_fee_per_gas" MaxPriorityFeePerGasTooHigh
    else if bool_decide (name = "MaxPriorityFeePerGasTooLow"%string) then
      number_fields "max_priority_fee_per_gas" "max_priority_fee_per_gas_expected" MaxPriorityFeePerGasTooLow
    else if bool_decide (name = "Paymaster"%string) then inner_field SanPaymaster
    else if bool_decide (name = "Sender"%string) then inner_field SanSender
    else if bool_decide (name = "EntityRoles"%string) then
      read_as (λ vs, match vs with
        | [e; a; o] => a ← account_of_text a; Some (EntityRoles e a o) | _ => None end)
        (read_struct ["entity"; "address"; "entity_other"]%string)
    else if bool_decide (name = "Reputation"%string) then
      read_as (λ e, Some (SanReputation e)) read_reputation
    else if bool_decide (name = "Provider"%string) then inner_field SanProvider
    else if bool_decide (name = "Database"%string) then
      read_as (λ e, Some (SanDatabase e)) read_database
    else if bool_decide (name = "Other"%string) then inner_field SanOther
    else λ _, None).

(** ** [SimulationError] *)
Definition write_simulation (e : SimulationError) : list Tok :=
  match e with
  | SimSignature => unit_variant "Signature"
  | SimTimestamp inner => struct_variant "Timestamp" [("inner", inner)]
  | SimValidation inner => struct_variant "Validation" [("inner", inner)]
  | SimExecution inner => struct_variant "Execution" [("inner", inner)]
  | SimOpcode entity opcode => struct_variant "Opcode" [("entity", entity); ("opcode", opcode)]
  | SimStorageAccess slot => struct_variant "StorageAccess" [("slot", slot)]
  | SimUnstaked entity address inner => struct_variant "Unstaked"
      [("entity", entity); ("address", account_text address); ("inner", inner)]
  | SimCallStack inner => struct_variant "CallStack" [("inner", inner)]
  | SimCodeHashes => unit_variant "CodeHashes"
  | SimOutOfGas => unit_variant "OutOfGas"
  | SimReputation e => newtype_variant "Reputation" (write_reputation e)
  | SimProvider inner => struct_variant "Provider" [("inner", inner)]
  | SimDatabase e => newtype_variant "Database" (write_database e)
  | SimOther inner => struct_variant "Other" [("inner", inner)]
  end%string.
Definition read_simulation : Reader SimulationError :=
  read_enum
    (λ name, if bool_decide (name = "Signature"%string) then Some SimSignature
      else if bool_decide (name = "CodeHashes"%string) then Some SimCodeHashes
      else if bool_decide (name = "OutOfGas"%string) then Some SimOutOfGas else None)
    (λ name,
    if bool_decide (name = "Timestamp"%string) then inner_field SimTimestamp
    else if bool_decide (name = "Validation"%string) then inner_field SimValidation
    else if bool_decide (name = "Execution"%string) then inner_field SimExecution
    else if bool_decide (name = "Opcode"%string) then
      read_as (λ vs, match vs with [e; o] => Some (SimOpcode e o) | _ => None end)
        (read_struct ["entity"; "opcode"]%string)
    else if bool_decide (name = "StorageAccess"%string) then
      read_as (λ vs, match vs with [s] => Some (SimStorageAccess s) | _ => None end)
        (read_struct ["slot"]%string)
    else if bool_decide (name = "Unstaked"%string) then
      read_as (λ vs, match vs with
        | [e; a; i] => a ← account_of_text a; Some (SimUnstaked e a i) | _ => None end)
        (read_struct ["entity"; "address"; "inner"]%string)
    else if bool_decide (name = "CallStack"%string) then inner_field SimCallStack
    else if bool_decide (name = "Reputation"%string) then
      read_as (λ e, Some (SimReputation e)) read_reputation
    else if bool_decide (name = "Provider"%string) then inner_field SimProvider
    else if bool_decide (name = "Database"%string) then
      read_as (λ e, Some (SimDatabase e)) read_database
    else if bool_decide (name = "Other"%string) then inner_field SimOther
    else λ _, None).

(** ** [MempoolError] *)
Definition write_invalid (e : InvalidMempoolUserOperationError) : list Tok :=
  match e with
  | InvReputation e => newtype_variant "Reputation" (write_reputation e)
  | InvSanity e => newtype_variant "Sanity" (write_sanity e)
  | InvSimulation e => newtype_variant "Simulation" (write_simulation e)
  end%string.
Definition read_invalid : Reader InvalidMempoolUserOperationError :=
  read_enum no_unit (λ name,
    if bool_decide (name = "Reputation"%string) then read_as (λ e, Some (InvReputation e)) read_reputation
    else if bool_decide (name = "Sanity"%string) then read_as (λ e, Some (InvSanity e)) read_sanity
    else if bool_decide (name = "Simulation"%string) then read_as (λ e, Some (InvSimulation e)) read_simulation
    else λ _, None).
Definition write_kind (k : MempoolErrorKind) : list Tok :=
  match k with
  | InvalidUserOperation e => newtype_variant "InvalidUserOperation" (write_invalid e)
  | MpProvider inner => struct_variant "Provider" [("inner", inner)]
  | MpDatabase e => newtype_variant "Database" (write_database e)
  | MpOther inner => struct_variant "Other" [("inner", inner)]
  end%string.
Definition read_kind : Reader MempoolErrorKind :=
  read_enum no_unit (λ name,
    if bool_decide (name = "InvalidUserOperation"%string) then
      read_as (λ e, Some (InvalidUserOperation e)) read_invalid
    else if bool_decide (name = "Provider"%string) then inner_field MpProvider
    else if bool_decide (name = "Database"%string) then read_as (λ e, Some (MpDatabase e)) read_database
    else if bool_decide (name = "Other"%string) then inner_field MpOther
    else λ _, None).

Definition write_error (e : MempoolError) : list Tok :=
  object [("hash", [Str (digest_text e.(me_hash))]); ("kind", write_kind e.(me_kind))]%string.
Definition mk_error (h : string) (k : MempoolErrorKind) : option MempoolError :=
  h ← digest_of_text h; Some {| me_hash := h; me_kind := k |}.
(** the two fields in either order *)
Definition read_error : Reader MempoolError := λ ts,
  match ts with
  | LBrace :: Str k1 :: Colon :: ts =>
      if bool_decide (k1 = "hash"%string) then
        match ts with
        | Str h :: Comma :: Str k2 :: Colon :: ts =>
            if bool_decide (k2 = "kind"%string) then
              k ← read_kind ts;
              match k.2 with RBrace :: ts => e ← mk_error h k.1; Some (e, ts) | _ => None end
            else None
        | _ => None
        end
      else if bool_decide (k1 = "kind"%string) then
        k ← read_kind ts;
        match k.2 with
        | Comma :: Str k2 :: Colon :: Str h :: RBrace :: ts =>
            if bool_decide (k2 = "hash"%string) then e ← mk_error h k.1; Some (e, ts) else None
        | _ => None
        end
      else None
  | _ => None
  end.

(** ** [serde_json::to_string], which cannot fail on these types, and [from_str],
    which wants the whole text read *)
Definition to_text (ts : list Tok) : string + string := inr (render ts).
Definition of_text {X} (r : Reader X) (t : string) : string + X :=
  match (ts ← lex t; r ts) with
  | Some (x, []) => inr x
  | _ => inl (serde_message t)
  end.

Definition error_to_json (e : MempoolError) : string + string := to_text (write_error e).
Definition error_of_json : string → string + MempoolError := of_text read_error.

(** [UserOperationHash], a structure with one unnamed field *)
Definition read_hash : Reader UserOperationHash := λ ts,
  match ts with Str s :: ts => h ← digest_of_text s; Some (h, ts) | _ => None end.
Definition hash_to_json (h : UserOperationHash) : string + string := to_text [Str (digest_text h)].
Definition hash_of_json : string → string + UserOperationHash := of_text read_hash.

(** ** What is read back *)
(** a database error inside *)
Definition reputation_has_db (e : ReputationError) : bool :=
  match e with RepDatabase _ => true | _ => false end.
Definition kind_has_db (k : MempoolErrorKind) : bool :=
  match k with
  | InvalidUserOperation (InvReputation e) => reputation_has_db e
  | InvalidUserOperation (InvSanity (SanReputation e)) => reputation_has_db e
  | InvalidUserOperation (InvSanity (SanDatabase _)) => true
  | InvalidUserOperation (InvSimulation (SimReputation e)) => reputation_has_db e
  | InvalidUserOperation (InvSimulation (SimDatabase _)) => true
  | MpDatabase _ => true
  | _ => false
  end.
Definition has_database (e : MempoolError) : bool := kind_has_db e.(me_kind).

Context {SL : SerdeLaws SJ}.

Lemma read_newtype {X Y} unit inner name (c : X → Y) (r : Reader X) v ts :
  inner name = read_as (λ x, Some (c x)) r →
  read_enum unit inner (newtype_variant name v ++ ts) =
  match r (v ++ RBrace :: ts) with
  | Some (x, RBrace :: ts) => Some (c x, ts)
  | _ => None
  end.
Proof.
  intros Hi. unfold newtype_variant, object. cbn. rewrite Hi. unfold read_as.
  rewrite <-app_assoc. cbn. destruct (r _) as [[x [|[] ts']]|]; done.
Qed.

Lemma read_reputation_back e ts :
  read_reputation (write_reputation e ++ ts) = if reputation_has_db e then None else Some (e, ts).
Proof using SL.
  destruct e; read_back.
Qed.

Lemma read_sanity_back e ts :
  read_sanity (write_sanity e ++ ts) =
  if kind_has_db (kind_of_sanity e) then None else Some (e, ts).
Proof using SL.
  destruct e; try read_back.
  unfold read_sanity. cbn [write_sanity].
  rewrite (read_newtype _ _ _ SanReputation read_reputation) by done.
  rewrite read_reputation_back. by destruct e.
Qed.

Lemma read_simulation_back e ts :
  read_simulation (write_simulation e ++ ts) =
  if kind_has_db (kind_of_simulation e) then None else Some (e, ts).
Proof using SL.
  destruct e; try read_back.
  unfold read_simulation. cbn [write_simulation].
  rewrite (read_newtype _ _ _ SimReputation read_reputation) by done.
  rewrite read_reputation_back. by destruct e.
Qed.

Lemma read_kind_back k ts :
  read_kind (write_kind k ++ ts) = if kind_has_db k then None else Some (k, ts).
Proof using SL.
  destruct k as [e| | |]; try read_back. unfold read_kind. cbn [write_kind].
  rewrite (read_newtype _ _ _ InvalidUserOperation read_invalid) by done.
  assert (read_invalid (write_invalid e ++ RBrace :: ts) =
    if kind_has_db (InvalidUserOperation e) then None else Some (e, RBrace :: ts)) as ->;
    [|by destruct (kind_has_db _)].
  unfold read_invalid. destruct e as [e|e|e]; cbn [write_invalid].
  - rewrite (read_newtype _ _ _ InvReputation read_reputation), read_reputation_back by done. by destruct e.
  - rewrite (read_newtype _ _ _ InvSanity read_sanity), read_sanity_back by done.
    unfold kind_of_sanity. by destruct (kind_has_db _).
  - rewrite (read_newtype _ _ _ InvSimulation read_simulation), read_simulation_back by done.
    unfold kind_of_simulation. by destruct (kind_has_db _).
Qed.

(** The text of an error is read back as the error, except for one with a database
    error inside: its reader leaves the string in the input, where the end of the
    object is expected. *)
Theorem error_text_back e : ∃ t, error_to_json e = inr t ∧
  error_of_json t = if has_database e then inl (serde_message t) else inr e.
Proof using SL.
  eexists. split; [done|]. unfold error_of_json, of_text. rewrite lex_render. cbn [mbind option_bind].
  unfold write_error, object. cbn. rewrite read_kind_back. unfold has_database.
  destruct (kind_has_db _); cbn; [done|]. unfold mk_error. rewrite digest_text_back. by destruct e.
Qed.

Lemma hash_text_back h : ∃ t, hash_to_json h = inr t ∧ hash_of_json t = inr h.
Proof using SL.
  eexists. split; [done|]. unfold hash_of_json, of_text. rewrite lex_render. cbn. by rewrite digest_text_back.
Qed.
End errors.
#[global] Arguments error_to_json : simpl never.
#[global] Arguments error_of_json : simpl never.
#[global] Arguments hash_to_json : simpl never.
#[global] Arguments hash_of_json : simpl never.
