(* ===== verification/Gas.v ===== *)
(** Gas arithmetic and code-hash comparison ([crates/mempool/src/utils.rs]). *)

From S2P Require Import Prelude Primitives Errors AbiStd.

(** ** Definitions *)
Definition div_ceil (numerator denominator : U256) : U256 :=
  let rounding_const :=
    if bool_decide (0 < default 0 (checked_rem numerator denominator)) then 1 else 0 in
  saturating_add (default 0 (checked_div numerator denominator)) rounding_const.

Record Overhead := {
  fixed : U256;
  per_user_op : U256;
  per_user_op_word : U256;
  zero_byte : U256;
  non_zero_byte : U256;
  bundle_size : U256;
  sig_size : U256;
}.

Definition Overhead_default : Overhead := {|
  fixed := 21000; per_user_op := 18300; per_user_op_word := 4; zero_byte := 4;
  non_zero_byte := 16; bundle_size := 1; sig_size := 65;
|}.

Section overhead.
Context {A : Abi}.

Definition byte_cost (o : Overhead) (x : byte) : U256 :=
  if bool_decide (x = Byte.x00) then o.(zero_byte) else o.(non_zero_byte).

Definition call_data_cost (o : Overhead) (b : bytes) : U256 :=
  fold_left (λ acc x, saturating_add acc (byte_cost o x)) b 0.

Definition calculate_pre_verification_gas (o : Overhead) (uo : UserOperationSigned) : U256 :=
  let uo_pack := pack uo in
  let call_data := call_data_cost o uo_pack in
  let word_cost :=
    div_ceil (saturating_mul o.(per_user_op_word) (Z.of_nat (length uo_pack + 31))) 32 in
  let fixed_divided_by_bundle_size := div_ceil o.(fixed) o.(bundle_size) in
  saturating_add
    (saturating_add (saturating_add fixed_divided_by_bundle_size call_data)
       o.(per_user_op)) word_cost.
End overhead.

Definition calculate_valid_gas (gas_price gas_incr_perc : U256) : U256 :=
  let denominator := 100 in
  let numerator := saturating_mul gas_price (saturating_add gas_incr_perc denominator) in
  div_ceil numerator denominator.

Definition calculate_call_gas_limit (paid pre_op_gas fee_per_gas : U256) : U256 :=
  saturating_add (saturating_sub (div_ceil paid fee_per_gas) pre_op_gas)
    Overhead_default.(fixed).

(** [collect::<HashMap<_, _>>()] keeps the last value of a repeated key. *)
Definition collect_hashes (hashes : list CodeHash) : gmap Address H256 :=
  fold_left (λ m h, <[h.(ch_address) := h.(ch_hash)]> m) hashes ∅.

Fixpoint matches_prev (m : gmap Address H256) (hashes_prev : list CodeHash) : bool :=
  match hashes_prev with
  | [] => true
  | p :: ps =>
      match m !! p.(ch_address) with
      | Some h => if bool_decide (h ≠ p.(ch_hash)) then false else matches_prev m ps
      | None => false
      end
  end.

Definition equal_code_hashes (hashes hashes_prev : list CodeHash) : bool :=
  if bool_decide (length hashes_prev ≠ length hashes) then false
  else matches_prev (collect_hashes hashes) hashes_prev.

(** ** Ceiling division *)
Lemma div_ceil_zero a : div_ceil a 0 = 0.
Proof. done. Qed.

Lemma div_ceil_exact a b : is_u256 a → 0 < b → div_ceil a b = (a + b - 1) / b.
Proof.
  intros Ha Hb. unfold div_ceil, checked_rem, checked_div.
  rewrite !bool_decide_eq_false_2 by lia; simpl.
  pose proof (Z.div_mod a b ltac:(lia)) as Hdm. pose proof (Z.mod_pos_bound a b Hb) as Hm.
  assert (0 ≤ a / b ≤ a) as Hq. { unfold is_u256 in Ha. split; [apply Z.div_pos|apply Z.div_le_upper_bound]; nia. }
  unfold saturating_add, is_u256 in *. case_bool_decide as Hr.
  - rewrite Z.min_l by nia. apply (Z.div_unique_pos _ _ _ (a mod b - 1)); lia.
  - rewrite Z.min_l by lia. apply (Z.div_unique_pos _ _ _ (b - 1)); lia.
Qed.

Lemma div_ceil_spec a b r :
  is_u256 a → 0 < b → div_ceil a b = r ↔ b * (r - 1) < a ≤ b * r.
Proof.
  intros Ha Hb. rewrite div_ceil_exact by done. split.
  - intros <-. pose proof (Z.div_mod (a + b - 1) b ltac:(lia)).
    pose proof (Z.mod_pos_bound (a + b - 1) b Hb). nia.
  - intros [??]. symmetry. apply (Z.div_unique_pos _ _ _ (a + b - 1 - b * r)); lia.
Qed.

Lemma div_ceil_range a b : is_u256 a → 0 ≤ b → is_u256 (div_ceil a b).
Proof.
  intros Ha Hb. unfold div_ceil. apply saturating_add_range; [|by case_bool_decide].
  unfold checked_div. case_bool_decide; simpl; [done|].
  apply Z.div_pos; unfold is_u256 in *; lia.
Qed.

Lemma div_ceil_mono a a' b : is_u256 a' → 0 ≤ a ≤ a' → 0 < b → div_ceil a b ≤ div_ceil a' b.
Proof.
  intros Ha' Ha Hb. rewrite !div_ceil_exact; [|done|done|unfold is_u256 in *; lia|done].
  apply Z.div_le_mono; lia.
Qed.

(** ** Call data cost *)
Definition zeros (b : bytes) : Z := Z.of_nat (length (filter (λ x, x = Byte.x00) b)).

Lemma call_data_cost_acc o b acc :
  0 ≤ acc → 0 ≤ o.(zero_byte) → 0 ≤ o.(non_zero_byte) →
  fold_left (λ acc x, saturating_add acc (byte_cost o x)) b (Z.min acc U256_MAX) =
  Z.min (acc + zeros b * o.(zero_byte) + (Z.of_nat (length b) - zeros b) * o.(non_zero_byte))
    U256_MAX.
Proof.
  intros Hacc Hz Hn. revert acc Hacc. unfold zeros.
  induction b as [|x b IH]; intros acc Hacc; [simpl; f_equal; lia|].
  cbn [fold_left]. rewrite filter_cons.
  assert (saturating_add (Z.min acc U256_MAX) (byte_cost o x) =
    Z.min (acc + byte_cost o x) U256_MAX) as ->.
  { unfold saturating_add, byte_cost. case_bool_decide; lia. }
  rewrite IH by (unfold byte_cost; case_bool_decide; lia).
  f_equal. cbn [length]. unfold byte_cost. case_bool_decide; case_decide; cbn [length]; lia || done.
Qed.

Lemma call_data_cost_eq o b :
  0 ≤ o.(zero_byte) → 0 ≤ o.(non_zero_byte) →
  call_data_cost o b =
    Z.min (zeros b * o.(zero_byte) + (Z.of_nat (length b) - zeros b) * o.(non_zero_byte)) U256_MAX.
Proof. intros. by apply (call_data_cost_acc o b 0). Qed.

Lemma zeros_range b : 0 ≤ zeros b ≤ Z.of_nat (length b).
Proof. unfold zeros. pose proof (length_filter (λ x, x = Byte.x00) b). lia. Qed.

(** ** Code hashes *)
Lemma collect_hashes_spec hs a h :
  NoDup (ch_address <$> hs) →
  collect_hashes hs !! a = Some h ↔ {| ch_address := a; ch_hash := h |} ∈ hs.
Proof.
  unfold collect_hashes. induction hs as [|x hs IH] using rev_ind; intros Hnd.
  - simpl. rewrite lookup_empty. set_solver.
  - rewrite fmap_app in Hnd. apply NoDup_app in Hnd as (Hnd & Hx & _).
    rewrite fold_left_app; simpl. rewrite lookup_insert, elem_of_app, list_elem_of_singleton.
    case_decide as Heq; simplify_eq.
    + split; [intros [= <-]; right; by destruct x|]. intros [Hin|<-]; [|done].
      destruct (Hx (ch_address x)); [|set_solver].
      apply list_elem_of_fmap. by exists {| ch_address := ch_address x; ch_hash := h |}.
    + rewrite IH by done. split; [auto|]. intros [?|Hx']; [done|]. by subst x.
Qed.

Lemma matches_prev_spec m ps :
  matches_prev m ps = true ↔ Forall (λ p, m !! p.(ch_address) = Some p.(ch_hash)) ps.
Proof.
  induction ps as [|p ps IH]; simpl; [by split|]. rewrite Forall_cons, <-IH.
  destruct (m !! ch_address p); [case_bool_decide|]; naive_solver.
Qed.

Lemma equal_code_hashes_spec hs ps :
  equal_code_hashes hs ps = true ↔
  length ps = length hs ∧
  Forall (λ p, collect_hashes hs !! p.(ch_address) = Some p.(ch_hash)) ps.
Proof.
  unfold equal_code_hashes. rewrite <-matches_prev_spec. case_bool_decide; naive_solver.
Qed.

#[export] Hint Resolve div_ceil_range : silius.

(** ** Properties *)

(** The fee a replacement must offer
    ([calculate_valid_gas]) is the least integer not below
    [price * (100 + perc) / 100], for every price for which the product fits
    in 256 bits. *)
Theorem valid_gas_is_ceiling (price perc r : U256) :
  0 ≤ price → 0 ≤ perc → price * (perc + 100) ≤ U256_MAX → perc + 100 ≤ U256_MAX →
  calculate_valid_gas price perc = r ↔
  100 * (r - 1) < price * (perc + 100) ≤ 100 * r.
Proof.
  intros. unfold calculate_valid_gas, saturating_mul, saturating_add.
  rewrite (Z.min_l (perc + 100)), Z.min_l by lia.
  apply div_ceil_spec; [unfold is_u256; nia|lia].
Qed.

Lemma valid_gas_is_ceiling_witness :
  calculate_valid_gas 10 11 = 12 ∧ 100 * (12 - 1) < 10 * (11 + 100) ≤ 100 * 12.
Proof.
  assert (calculate_valid_gas 10 11 = 12) as H by (vm_compute; reflexivity).
  split; [exact H|].
  apply (valid_gas_is_ceiling 10 11 12); [lia|lia|vm_compute; discriminate|vm_compute; discriminate|exact H].
Defined.

(** With the default overheads, the
    pre-verification gas of an operation whose packed form has [n] bytes, [z] of
    them zero, is [39300 + 4 z + 16 (n - z) + ceil(4 (n + 31) / 32)]; no step
    saturates for any packed form shorter than 2^64 bytes. *)
Theorem pre_verification_gas_formula (A : Abi) (uo : UserOperationSigned) :
  let n := Z.of_nat (length (pack uo)) in
  let z := zeros (pack uo) in
  n < 2 ^ 64 →
  calculate_pre_verification_gas Overhead_default uo =
    39300 + 4 * z + 16 * (n - z) + (4 * (n + 31) + 31) / 32.
Proof.
  intros n z Hn. subst n z. pose proof (zeros_range (pack uo)) as Hz.
  unfold calculate_pre_verification_gas. rewrite call_data_cost_eq by (simpl; lia).
  cbn [Overhead_default fixed per_user_op per_user_op_word zero_byte non_zero_byte bundle_size].
  change (div_ceil 21000 1) with 21000.
  revert Hn Hz. generalize (zeros (pack uo)) as z. rewrite Nat2Z.inj_add. change (Z.of_nat 31) with 31.
  generalize (Z.of_nat (length (pack uo))) as n. intros n z Hn Hz.
  assert (2 ^ 100 < U256_MAX) as HM by reflexivity.
  assert (is_u256 (4 * (n + 31))) as Hr by (unfold is_u256; lia).
  unfold saturating_mul. rewrite !Z.min_l by lia. rewrite div_ceil_exact by (done || lia).
  replace (4 * (n + 31) + 32 - 1) with (4 * (n + 31) + 31) by lia.
  pose proof (Z.div_pos (4 * (n + 31) + 31) 32 ltac:(lia) ltac:(lia)).
  pose proof (Z.div_le_upper_bound (4 * (n + 31) + 31) 32 (4 * (n + 31) + 31) ltac:(lia) ltac:(lia)).
  unfold saturating_add. lia.
Qed.

(** the figure the unit test [pre_verification_gas_calculation] expects *)
Lemma pre_verification_gas_formula_witness :
  @calculate_pre_verification_gas std_abi Overhead_default sample_uo = 45340.
Proof.
  rewrite (pre_verification_gas_formula std_abi sample_uo);
    [vm_compute; reflexivity | vm_compute; reflexivity].
Defined.

(** On lists with one entry per address, the
    comparison of the first and second simulation's code hashes accepts exactly
    the reorderings of the previous list. *)
Theorem equal_code_hashes_perm (hs ps : list CodeHash) :
  NoDup (ch_address <$> hs) → NoDup (ch_address <$> ps) →
  equal_code_hashes hs ps = true ↔ hs ≡ₚ ps.
Proof.
  intros Hh Hp. rewrite equal_code_hashes_spec. split.
  - intros [Hl HF]. symmetry. apply submseteq_length_Permutation; [|lia].
    apply NoDup_submseteq; [by eapply NoDup_fmap_1|].
    intros [a h] Hin. rewrite Forall_forall in HF. specialize (HF _ Hin).
    by apply collect_hashes_spec in HF.
  - intros HP. split; [by rewrite HP|]. apply Forall_forall. intros [a h] Hin.
    apply collect_hashes_spec; [done|]. by rewrite HP.
Qed.

Lemma equal_code_hashes_perm_witness :
  equal_code_hashes [ {| ch_address := 1; ch_hash := 7 |}; {| ch_address := 2; ch_hash := 8 |} ]
    [ {| ch_address := 2; ch_hash := 8 |}; {| ch_address := 1; ch_hash := 7 |} ] = true.
Proof.
  apply (equal_code_hashes_perm _ _); [..|constructor];
    (apply NoDup_ListNoDup; repeat constructor; simpl; intuition lia).
Defined.
