(* ===== verification/Reputation.v ===== *)
(** The reputation of entities ([crates/mempool/src/reputation.rs]): the trait
    of entry stores with its contract, the in-memory store
    ([memory/reputation.rs]) that fulfils it, and the [Reputation] manager over
    any such store. *)

From S2P Require Import Prelude Primitives Errors.

(** ** [HashSetOp] for [HashSet<Address>] *)
Definition add_into_list (addr : Address) (l : gset Address) : bool * gset Address :=
  (bool_decide (addr ∉ l), {[addr]} ∪ l).
Definition remove_from_list (addr : Address) (l : gset Address) : bool * gset Address :=
  (bool_decide (addr ∈ l), l ∖ {[addr]}).
Definition is_in_list (addr : Address) (l : gset Address) : bool := bool_decide (addr ∈ l).

(** ** The trait [ReputationEntryOp] *)
Class ReputationEntryOp (R : Type) := {
  get_entry : R → Address → comp ReputationError (option ReputationEntry);
  set_entry : ReputationEntry → ST R ReputationError (option ReputationEntry);
  contains_entry : R → Address → comp ReputationError bool;
  rep_entries : R → list ReputationEntry;
  rep_clear : ∀ {E : Type}, ST R E ();
}.

(** its contract: a finite map from addresses to entries *)
Class ReputationEntryLaws (R : Type) `{ReputationEntryOp R} := {
  rep_view : R → gmap Address ReputationEntry;
  get_entry_view : ∀ r a, get_entry r a = Ok (rep_view r !! a);
  contains_entry_view : ∀ r a, contains_entry r a = Ok (bool_decide (is_Some (rep_view r !! a)));
  set_entry_view : ∀ r e, ∃ r',
    set_entry e r = (Ok (rep_view r !! e.(re_address)), r') ∧
    rep_view r' = <[e.(re_address) := e]> (rep_view r);
  rep_entries_view : ∀ r, rep_entries r ≡ₚ (map_to_list (rep_view r)).*2;
  rep_clear_view : ∀ E r, ∃ r', rep_clear (E:=E) r = (Ok (), r') ∧ rep_view r' = ∅;
}.

(** every entry is stored under its own address *)
Definition keyed (m : gmap Address ReputationEntry) : Prop :=
  ∀ a e, m !! a = Some e → e.(re_address) = a.

Section trait.
Context {P : Profile} `{ReputationEntryOp R}.

Definition with_counters (e : ReputationEntry) (seen included : Z) : ReputationEntry :=
  {| re_address := e.(re_address); uo_seen := seen; uo_included := included;
     re_status := e.(re_status) |}.
Definition with_status (e : ReputationEntry) (status : ReputationStatus) : ReputationEntry :=
  {| re_address := e.(re_address); uo_seen := e.(uo_seen); uo_included := e.(uo_included);
     re_status := status |}.

(** the provided method [update]: every counter loses a 24th *)
Definition decay_u64 {E} (x : Z) : comp E Z := let* y := u64_mul x 23 in u64_div y 24.

Definition update : ST R ReputationError () := λ r,
  st_for (rep_entries r) (λ ent,
    do* seen := st_lift (decay_u64 ent.(uo_seen)) in
    do* included := st_lift (decay_u64 ent.(uo_included)) in
    do* _ := set_entry (with_counters ent seen included) in
    st_ret ()) r.
End trait.

(** ** The in-memory store: [HashMap<Address, ReputationEntry>] *)
Module Memory.
Section memory.
Context {HO : HashOrder}.

#[global] Instance hashmap_op : ReputationEntryOp (gmap Address ReputationEntry) := {|
  get_entry m addr := Ok (m !! addr);
  set_entry entry := λ m, (Ok (m !! entry.(re_address)), <[entry.(re_address) := entry]> m);
  contains_entry m addr := Ok (bool_decide (is_Some (m !! addr)));
  rep_entries m := (iter_map m).*2;
  rep_clear _ := λ _, (Ok (), ∅);
|}.

#[global] Program Instance hashmap_laws : ReputationEntryLaws (gmap Address ReputationEntry) := {|
  rep_view m := m;
|}.
Next Obligation. done. Qed.
Next Obligation. done. Qed.
Next Obligation. intros r e. by eexists. Qed.
Next Obligation. intros r. by rewrite <-iter_map_perm. Qed.
Next Obligation. intros E r. by eexists. Qed.
End memory.
End Memory.

(** ** The manager *)
Record Reputation (R : Type) := {
  min_inclusion_denominator : Z;
  throttling_slack : Z;
  ban_slack : Z;
  min_stake : U256;
  min_unstake_delay : U256;
  whitelist : gset Address;
  blacklist : gset Address;
  entities : R;
}.
Arguments min_inclusion_denominator {R}.
Arguments throttling_slack {R}.
Arguments ban_slack {R}.
Arguments min_stake {R}.
Arguments min_unstake_delay {R}.
Arguments whitelist {R}.
Arguments blacklist {R}.
Arguments entities {R}.

Section manager.
Context {P : Profile} `{ReputationEntryOp R}.
Implicit Types (self : Reputation R) (addr : Address).

Definition with_entities (ents : R) self : Reputation R := {|
  min_inclusion_denominator := self.(min_inclusion_denominator);
  throttling_slack := self.(throttling_slack); ban_slack := self.(ban_slack);
  min_stake := self.(min_stake); min_unstake_delay := self.(min_unstake_delay);
  whitelist := self.(whitelist); blacklist := self.(blacklist); entities := ents |}.
Definition with_whitelist (l : gset Address) self : Reputation R := {|
  min_inclusion_denominator := self.(min_inclusion_denominator);
  throttling_slack := self.(throttling_slack); ban_slack := self.(ban_slack);
  min_stake := self.(min_stake); min_unstake_delay := self.(min_unstake_delay);
  whitelist := l; blacklist := self.(blacklist); entities := self.(entities) |}.
Definition with_blacklist (l : gset Address) self : Reputation R := {|
  min_inclusion_denominator := self.(min_inclusion_denominator);
  throttling_slack := self.(throttling_slack); ban_slack := self.(ban_slack);
  min_stake := self.(min_stake); min_unstake_delay := self.(min_unstake_delay);
  whitelist := self.(whitelist); blacklist := l; entities := self.(entities) |}.

(** a call on [self.entities] *)
Definition on_entities {E A} (m : ST R E A) : ST (Reputation R) E A :=
  st_zoom entities with_entities m.

Definition set_default addr : ST (Reputation R) ReputationError () :=
  do* known := st_get (λ self, contains_entry self.(entities) addr) in
  if negb known then
    do* _ := on_entities (set_entry (default_with_addr addr)) in st_ret ()
  else st_ret ().

(** the status that the counters of an entry give *)
Definition entry_status self (ent : ReputationEntry) : comp ReputationError ReputationStatus :=
  let* max_seen := u64_div ent.(uo_seen) self.(min_inclusion_denominator) in
  let* ban := u64_add ent.(uo_included) self.(ban_slack) in
  if bool_decide (ban < max_seen) then Ok (status_code BANNED)
  else
    let* throttle := u64_add ent.(uo_included) self.(throttling_slack) in
    if bool_decide (throttle < max_seen) then Ok (status_code THROTTLED)
    else Ok (status_code OK).

Definition get_status self addr : comp ReputationError ReputationStatus :=
  if is_in_list addr self.(whitelist) then Ok (status_code OK)
  else if is_in_list addr self.(blacklist) then Ok (status_code BANNED)
  else
    let* o := get_entry self.(entities) addr in
    match o with
    | Some ent => entry_status self ent
    | None => Ok (status_code OK)
    end.

Definition get self addr : comp ReputationError ReputationEntry :=
  let* o := get_entry self.(entities) addr in
  match o with
  | Some ent => let* status := get_status self addr in Ok (with_status ent status)
  | None => Ok (default_with_addr addr)
  end.

(** [set_default(addr)?], then a change of the stored entry *)
Definition modify_entry addr (f : ReputationEntry → comp ReputationError ReputationEntry)
  : ST (Reputation R) ReputationError () :=
  do* _ := set_default addr in
  do* o := st_get (λ self, get_entry self.(entities) addr) in
  match o with
  | Some ent =>
      do* ent' := st_lift (f ent) in
      do* _ := on_entities (set_entry ent') in st_ret ()
  | None => st_ret ()
  end.

Definition increment_seen addr := modify_entry addr (λ ent,
  let* seen := u64_add ent.(uo_seen) 1 in Ok (with_counters ent seen ent.(uo_included))).
Definition increment_included addr := modify_entry addr (λ ent,
  let* incl := u64_add ent.(uo_included) 1 in Ok (with_counters ent ent.(uo_seen) incl)).
Definition update_handle_ops_reverted addr := modify_entry addr (λ ent,
  Ok (with_counters ent 100 0)).

Definition update_hourly : ST (Reputation R) ReputationError () := on_entities update.

Definition add_whitelist addr self : bool * Reputation R :=
  let '(b, l) := add_into_list addr self.(whitelist) in (b, with_whitelist l self).
Definition remove_whitelist addr self : bool * Reputation R :=
  let '(b, l) := remove_from_list addr self.(whitelist) in (b, with_whitelist l self).
Definition is_whitelist self addr : bool := is_in_list addr self.(whitelist).
Definition add_blacklist addr self : bool * Reputation R :=
  let '(b, l) := add_into_list addr self.(blacklist) in (b, with_blacklist l self).
Definition remove_blacklist addr self : bool * Reputation R :=
  let '(b, l) := remove_from_list addr self.(blacklist) in (b, with_blacklist l self).
Definition is_blacklist self addr : bool := is_in_list addr self.(blacklist).

(** the unstake delay is compared with 2; the configured delay is only reported *)
Definition verify_stake self (entity : string) (info : option StakeInfo)
    (min_stake_arg min_unstake_delay_arg : option U256) : comp ReputationError () :=
  match info with
  | Some info =>
      if is_in_list info.(si_address) self.(whitelist) then Ok ()
      else
        let required := default self.(min_stake) min_stake_arg in
        if bool_decide (info.(si_stake) < required) then
          Err (StakeTooLow entity info.(si_address) info.(si_stake) self.(min_stake))
        else if bool_decide (info.(si_unstake_delay) < 2) then
          Err (UnstakeDelayTooLow info.(si_address) entity info.(si_unstake_delay)
                 self.(min_unstake_delay))
        else Ok ()
  | None => Ok ()
  end.

Definition set_entities (entries : list ReputationEntry)
  : ST (Reputation R) ReputationError () :=
  st_for entries (λ en, do* _ := on_entities (set_entry en) in st_ret ()).

Definition get_all self : comp ReputationError (list ReputationEntry) :=
  flat_map_ok (λ entry,
    let* status := get_status self entry.(re_address) in Ok (with_status entry status))
    (rep_entries self.(entities)).

Definition get_status_from_bytes self (b : bytes) : comp ReputationError ReputationStatus :=
  match get_address b with
  | Some addr => get_status self addr
  | None => Ok (status_code OK)
  end.

Definition clear {E} : ST (Reputation R) E () := on_entities rep_clear.
End manager.

(** ** Lemmas *)
Section store_lemmas.
Context {P : Profile} `{RL : ReputationEntryLaws R}.
Implicit Types (self : Reputation R) (a : Address).

(** the entry an address has, or would be given by [set_default] *)
Definition entry_or_default self a : ReputationEntry :=
  default (default_with_addr a) (rep_view self.(entities) !! a).

(** only the entry of [a] may differ, and it is [e] *)
Definition sets_entry self a (e : ReputationEntry) self' : Prop :=
  rep_view self'.(entities) = <[a := e]> (rep_view self.(entities)) ∧
  self' = with_entities self'.(entities) self.

Lemma on_set_entry self e : ∃ self',
  on_entities (set_entry e) self = (Ok (rep_view self.(entities) !! e.(re_address)), self') ∧
  sets_entry self e.(re_address) e self'.
Proof.
  destruct (set_entry_view self.(entities) e) as (r' & He & Hv).
  exists (with_entities r' self). unfold on_entities, st_zoom. by rewrite He.
Qed.

Lemma set_default_spec self a :
  keyed (rep_view self.(entities)) →
  ∃ self', set_default a self = (Ok (), self') ∧
    rep_view self'.(entities) !! a = Some (entry_or_default self a) ∧
    sets_entry self a (entry_or_default self a) self'.
Proof.
  intros Hk. unfold set_default, st_get, st_bind, entry_or_default. rewrite contains_entry_view.
  destruct (rep_view self.(entities) !! a) as [e|] eqn:He; simpl.
  - exists self. split_and!; [done..|]. split.
    + by rewrite insert_id.
    + by destruct self.
  - destruct (on_set_entry self (default_with_addr a)) as (self' & Hset & Hv & Hf).
    rewrite Hset. exists self'. simpl in *. split; [done|]. split; [|done].
    by rewrite Hv, lookup_insert_eq.
Qed.

Lemma entry_or_default_address self a :
  keyed (rep_view self.(entities)) → (entry_or_default self a).(re_address) = a.
Proof.
  intros Hk. unfold entry_or_default. destruct (_ !! a) eqn:He; simpl; [by apply Hk in He|done].
Qed.

Lemma modify_entry_spec self a f e' :
  keyed (rep_view self.(entities)) →
  f (entry_or_default self a) = Ok e' → e'.(re_address) = a →
  ∃ self', modify_entry a f self = (Ok (), self') ∧ sets_entry self a e' self'.
Proof.
  intros Hk Hf Ha. unfold modify_entry.
  destruct (set_default_spec self a Hk) as (s1 & Hd & Hl & Hv1 & Hf1).
  rewrite (st_bind_step _ _ _ _ _ Hd). unfold st_get. rewrite (st_bind_step _ _ s1 (Some (entry_or_default self a)) s1)
    by (by rewrite get_entry_view, Hl).
  unfold st_lift. rewrite (st_bind_step _ _ _ _ _ (f_equal2 pair Hf eq_refl)).
  destruct (on_set_entry s1 e') as (s2 & Hs & Hv2 & Hf2).
  rewrite (st_bind_step _ _ _ _ _ Hs). exists s2. split; [done|]. split.
  - rewrite Hv2, Hv1, Ha. apply insert_insert_eq.
  - rewrite Hf2, Hf1. by destruct self.
Qed.

Lemma sets_entry_keyed self a e self' :
  keyed (rep_view self.(entities)) → e.(re_address) = a → sets_entry self a e self' →
  keyed (rep_view self'.(entities)).
Proof.
  intros Hk Ha [Hv _] b e'. rewrite Hv, lookup_insert_Some. intros [[<- <-]|[_ ?]]; [done|].
  by apply Hk.
Qed.

Definition decay (x : Z) : Z := x * 23 / 24.
Definition decay_entry (e : ReputationEntry) : ReputationEntry :=
  with_counters e (decay e.(uo_seen)) (decay e.(uo_included)).

(** the counters can be multiplied by 23 in 64 bits *)
Definition decayable (m : gmap Address ReputationEntry) : Prop :=
  ∀ a e, m !! a = Some e →
    0 ≤ e.(uo_seen) ≤ U64_MAX / 23 ∧ 0 ≤ e.(uo_included) ≤ U64_MAX / 23.

Lemma decay_u64_ok {E} x : 0 ≤ x ≤ U64_MAX / 23 → decay_u64 (E:=E) x = Ok (decay x).
Proof.
  intros Hx. unfold decay_u64, u64_mul. rewrite u64_norm_small; [done|].
  pose proof (Z.mul_div_le U64_MAX 23). unfold is_u64. lia.
Qed.

Lemma decay_lt x : 0 < x → 0 ≤ decay x < x.
Proof. unfold decay. intros. split; [apply Z.div_pos|apply Z.div_lt_upper_bound]; lia. Qed.

Lemma decay_range x b : 0 ≤ x ≤ b → 0 ≤ decay x ≤ b.
Proof. intros. destruct (decide (x = 0)) as [->|]; [done|]. pose proof (decay_lt x). lia. Qed.

Lemma decayable_decay m : decayable m → decayable (decay_entry <$> m).
Proof.
  intros Hd a e. rewrite lookup_fmap_Some. intros (e0 & <- & He0). simpl.
  destruct (Hd a e0 He0). split; by apply decay_range.
Qed.

Lemma keyed_decay m : keyed m → keyed (decay_entry <$> m).
Proof. intros Hk a e. rewrite lookup_fmap_Some. intros (e0 & <- & He). exact (Hk a e0 He). Qed.

(** Loop invariant of [update]: entries already visited have decayed. *)
Lemma update_loop r :
  keyed (rep_view r) → decayable (rep_view r) →
  ∃ r', update r = (Ok (), r') ∧ rep_view r' = decay_entry <$> rep_view r.
Proof.
  intros Hk Hd. set (m0 := rep_view r). unfold update.
  destruct (st_for_ok (λ todo s,
    Forall (λ e, m0 !! e.(re_address) = Some e) todo ∧ NoDup (re_address <$> todo) ∧
    ∀ a, rep_view s !! a = if bool_decide (a ∈ re_address <$> todo) then m0 !! a
                           else decay_entry <$> m0 !! a)
    (λ ent,
      do* seen := st_lift (decay_u64 ent.(uo_seen)) in
      do* included := st_lift (decay_u64 ent.(uo_included)) in
      do* _ := set_entry (with_counters ent seen included) in
      st_ret ()) (rep_entries r) r) as (r' & Hr & _ & _ & Hv).
  - assert (Hin : ∀ e, e ∈ rep_entries r ↔ m0 !! e.(re_address) = Some e).
    { intros e. rewrite rep_entries_view, list_elem_of_fmap. split.
      - intros ([a e'] & -> & He%elem_of_map_to_list). simpl. by rewrite (Hk a e' He).
      - intros He. exists (e.(re_address), e). by rewrite elem_of_map_to_list. }
    split_and!.
    + apply Forall_forall. intros e. apply Hin.
    + rewrite rep_entries_view, <-list_fmap_compose.
      rewrite (list_fmap_ext _ fst); [apply NoDup_fst_map_to_list|].
      intros i [a e] Hi%list_elem_of_lookup_2%elem_of_map_to_list. simpl. by apply Hk.
    + intros a. fold m0. case_bool_decide as Ha; [done|].
      destruct (m0 !! a) as [e|] eqn:He; [|done]. exfalso. apply Ha, list_elem_of_fmap.
      exists e. pose proof (Hk a e He) as <-. split; [done|]. by apply Hin.
  - intros ent todo s (HF & HN & Hv). inversion HF as [|? ? Hent HF']; subst.
    rewrite fmap_cons in HN. apply NoDup_cons in HN as [Hni HN].
    destruct (Hd _ _ Hent) as [Hs Hi]. unfold st_lift. rewrite (decay_u64_ok _ Hs), (decay_u64_ok _ Hi).
    destruct (set_entry_view s (decay_entry ent)) as (s' & Hset & Hv').
    exists s'. unfold st_bind. unfold decay_entry in Hset. rewrite Hset. split_and!; [done..|].
    intros a. rewrite Hv'. simpl. destruct (decide (a = ent.(re_address))) as [->|Hne].
    + rewrite lookup_insert_eq, bool_decide_eq_false_2 by done. by rewrite Hent.
    + rewrite lookup_insert_ne, Hv by done. rewrite fmap_cons.
      by rewrite (bool_decide_ext _ (a ∈ re_address <$> todo)) by set_solver.
  - exists r'. split; [done|]. apply map_eq. intros a. by rewrite Hv, lookup_fmap.
Qed.
End store_lemmas.

(** ** Status *)
Section status.
Context {P : Profile} `{RL : ReputationEntryLaws R}.
Implicit Types (self : Reputation R) (a : Address) (e : ReputationEntry).

(** parameters under which no status computation overflows or divides by 0 *)
Definition config_ok self : Prop :=
  0 < self.(min_inclusion_denominator) ∧
  0 ≤ self.(throttling_slack) ≤ self.(ban_slack).
Definition counters_ok self e : Prop :=
  0 ≤ e.(uo_seen) ∧ 0 ≤ e.(uo_included) ∧ e.(uo_included) + self.(ban_slack) ≤ U64_MAX.
Definition all_counters_ok self : Prop :=
  ∀ a e, rep_view self.(entities) !! a = Some e → counters_ok self e.

(** seen often enough for [included + slack] inclusions not to be enough *)
Definition exceeds self (slack : Z) e : Prop :=
  self.(min_inclusion_denominator) * (e.(uo_included) + slack + 1) ≤ e.(uo_seen).

#[global] Instance exceeds_dec self slack e : Decision (exceeds self slack e).
Proof. unfold exceeds. apply _. Defined.

Lemma exceeds_div self slack e : config_ok self →
  e.(uo_included) + slack < e.(uo_seen) / self.(min_inclusion_denominator) ↔
  exceeds self slack e.
Proof.
  intros [Hd _]. unfold exceeds. rewrite <-Z.le_succ_l. unfold Z.succ. split; intros Hle.
  - etrans; [apply Z.mul_le_mono_nonneg_l; [lia|exact Hle]|]. apply Z.mul_div_le. lia.
  - apply Z.div_le_lower_bound; lia.
Qed.

Lemma entry_status_eq self e : config_ok self → counters_ok self e →
  entry_status self e = Ok (status_code
    (if bool_decide (exceeds self self.(ban_slack) e) then BANNED
     else if bool_decide (exceeds self self.(throttling_slack) e) then THROTTLED else OK)).
Proof.
  intros Hc Ho. pose proof Hc as [Hd Hs]. destruct Ho as (H0 & H1 & H2).
  pose proof (exceeds_div self self.(ban_slack) e Hc).
  pose proof (exceeds_div self self.(throttling_slack) e Hc).
  unfold entry_status, u64_div, u64_add.
  rewrite (bool_decide_eq_false_2 (_ = 0)) by lia.
  rewrite !u64_norm_small by (unfold is_u64; lia). cbn [comp_bind].
  repeat case_bool_decide; tauto.
Qed.

Lemma get_status_total self a : config_ok self → all_counters_ok self →
  ∃ s, get_status self a = Ok (status_code s).
Proof.
  intros Hc Ho. unfold get_status. rewrite get_entry_view.
  destruct (is_in_list a (whitelist self)); [by exists OK|].
  destruct (is_in_list a (blacklist self)); [by exists BANNED|]. simpl.
  destruct (_ !! a) as [e|] eqn:He; [|by exists OK].
  rewrite entry_status_eq by eauto. by eexists.
Qed.

Lemma status_code_inj s t : status_code s = status_code t → s = t.
Proof. by destruct s, t. Qed.

Lemma get_status_classified self a s : config_ok self → all_counters_ok self →
  get_status self a = Ok (status_code s) ↔
  s = if bool_decide (a ∈ self.(whitelist)) then OK
      else if bool_decide (a ∈ self.(blacklist)) then BANNED
      else match rep_view self.(entities) !! a with
           | Some e => if bool_decide (exceeds self self.(ban_slack) e) then BANNED
                       else if bool_decide (exceeds self self.(throttling_slack) e)
                            then THROTTLED else OK
           | None => OK
           end.
Proof.
  intros Hc Ho. unfold get_status, is_in_list. rewrite get_entry_view.
  assert (Heq : ∀ t, @Ok ReputationError _ (status_code t) = Ok (status_code s) ↔ s = t).
  { intros t. split; [by intros [= ->%status_code_inj]|by intros ->]. }
  do 2 (case_bool_decide; [apply Heq|]). cbn [comp_bind].
  destruct (_ !! a) as [e|] eqn:He; [|apply Heq].
  rewrite entry_status_eq by eauto. apply Heq.
Qed.
End status.

(** ** Properties *)
Section properties.
Context {P : Profile} `{RL : ReputationEntryLaws R}.
Implicit Types (self : Reputation R) (a : Address) (e : ReputationEntry).

(** C9. The status of an entity is total and decided by
    its counters: it is banned exactly when it is not whitelisted and is
    blacklisted or was seen at least [den * (included + ban_slack + 1)] times,
    throttled exactly when it is on neither list and lies between the two
    thresholds, and OK otherwise. *)
Theorem status_thresholds self a :
  config_ok self → all_counters_ok self →
  (∃ s, get_status self a = Ok (status_code s)) ∧
  (get_status self a = Ok (status_code BANNED) ↔
     a ∉ self.(whitelist) ∧
     (a ∈ self.(blacklist) ∨
      ∃ e, rep_view self.(entities) !! a = Some e ∧ exceeds self self.(ban_slack) e)) ∧
  (get_status self a = Ok (status_code THROTTLED) ↔
     a ∉ self.(whitelist) ∧ a ∉ self.(blacklist) ∧
     ∃ e, rep_view self.(entities) !! a = Some e ∧
          exceeds self self.(throttling_slack) e ∧ ¬ exceeds self self.(ban_slack) e).
Proof.
  intros Hc Ho. split; [by apply get_status_total|]. rewrite !get_status_classified by done.
  repeat case_bool_decide; destruct (_ !! a); repeat case_bool_decide; naive_solver.
Qed.

(** Reputation is monotone: more user operations seen
    never improve a status, more inclusions never worsen it. *)
Theorem status_monotone self e1 e2 c1 c2 :
  config_ok self → counters_ok self e1 → counters_ok self e2 →
  e1.(uo_seen) ≤ e2.(uo_seen) → e2.(uo_included) ≤ e1.(uo_included) →
  entry_status self e1 = Ok c1 → entry_status self e2 = Ok c2 → c1 ≤ c2.
Proof.
  intros Hc Ho1 Ho2 Hs Hi. rewrite !entry_status_eq by done. intros [= <-] [= <-].
  pose proof Hc as [Hd Hsl].
  repeat case_bool_decide; simpl; try lia; exfalso; unfold exceeds in *; nia.
Qed.

(** Counting is exact: [increment_seen] and
    [increment_included] never fail below the 64-bit limit, add one to the
    entry of the address (created with zero counters when it has none) and
    leave every other entry, the lists and the parameters as they were. *)
Theorem increments_exact self a :
  keyed (rep_view self.(entities)) →
  let e := entry_or_default self a in
  is_u64 (e.(uo_seen) + 1) → is_u64 (e.(uo_included) + 1) →
  (∃ s, increment_seen a self = (Ok (), s) ∧
        sets_entry self a (with_counters e (e.(uo_seen) + 1) e.(uo_included)) s) ∧
  (∃ s, increment_included a self = (Ok (), s) ∧
        sets_entry self a (with_counters e e.(uo_seen) (e.(uo_included) + 1)) s).
Proof.
  intros Hk e Hs Hi. pose proof (entry_or_default_address self a Hk).
  split; apply modify_entry_spec; try done; unfold u64_add; by rewrite u64_norm_small.
Qed.

(** The penalty for a reverted [handleOps] makes an
    entity that is on neither list banned exactly when the ban slack is below
    [100 / den], whatever its counters were. *)
Theorem reverted_penalty self a :
  keyed (rep_view self.(entities)) → config_ok self → self.(ban_slack) ≤ U64_MAX →
  a ∉ self.(whitelist) → a ∉ self.(blacklist) →
  ∃ s, update_handle_ops_reverted a self = (Ok (), s) ∧
    (get_status s a = Ok (status_code BANNED) ↔
     self.(ban_slack) < 100 / self.(min_inclusion_denominator)).
Proof.
  intros Hk Hc Hb Hw Hbl. pose proof Hc as [Hd Hs].
  destruct (modify_entry_spec self a (λ ent, Ok (with_counters ent 100 0)) _ Hk eq_refl)
    as (s & Hm & Hv & Hf); [by apply entry_or_default_address|].
  exists s. split; [exact Hm|]. assert (config_ok s) as Hcs by (by rewrite Hf).
  pose proof (exceeds_div s s.(ban_slack) (with_counters (entry_or_default self a) 100 0) Hcs) as He.
  unfold get_status, is_in_list. rewrite get_entry_view, Hv, lookup_insert_eq. cbn [comp_bind].
  rewrite !bool_decide_eq_false_2 by (by rewrite Hf).
  rewrite entry_status_eq by (try done; rewrite Hf; split_and!; simpl; lia).
  rewrite Hf in He |- *. change (ban_slack self < 100 / self.(min_inclusion_denominator) ↔
    exceeds (with_entities (entities s) self) self.(ban_slack)
      (with_counters (entry_or_default self a) 100 0)) in He.
  repeat case_bool_decide; split; intros; simplify_eq/=; tauto.
Qed.

(** The hourly update succeeds and multiplies both
    counters of every entry by 23/24, rounded down; addresses, stored statuses,
    lists and parameters stay. *)
Theorem hourly_decay self :
  keyed (rep_view self.(entities)) → decayable (rep_view self.(entities)) →
  ∃ s, update_hourly self = (Ok (), s) ∧
    rep_view s.(entities) = decay_entry <$> rep_view self.(entities) ∧
    s = with_entities s.(entities) self.
Proof.
  intros Hk Hd. destruct (update_loop _ Hk Hd) as (r' & Hu & Hv).
  exists (with_entities r' self). unfold update_hourly, on_entities, st_zoom. by rewrite Hu.
Qed.

(** [n] hourly updates in a row *)
Fixpoint hours (n : nat) : ST (Reputation R) ReputationError () :=
  match n with O => st_ret () | S n => do* _ := update_hourly in hours n end.

Lemma hours_bound n self (b : Z) :
  keyed (rep_view self.(entities)) → decayable (rep_view self.(entities)) →
  (∀ a e, rep_view self.(entities) !! a = Some e → e.(uo_seen) ≤ b) →
  ∃ s, hours n self = (Ok (), s) ∧ s = with_entities s.(entities) self ∧
    decayable (rep_view s.(entities)) ∧
    ∀ a e, rep_view s.(entities) !! a = Some e → e.(uo_seen) ≤ Z.max 0 (b - Z.of_nat n).
Proof.
  revert self b. induction n as [|n IH]; intros self b Hk Hd Hb.
  - exists self. split; [done|]. split; [by destruct self|]. split; [done|].
    intros a e He. specialize (Hb a e He). lia.
  - destruct (update_loop _ Hk Hd) as (r' & Hu & Hv). simpl.
    assert (Hs : update_hourly self = (Ok (), with_entities r' self))
      by (unfold update_hourly, on_entities, st_zoom; by rewrite Hu).
    rewrite (st_bind_step _ _ _ _ _ Hs).
    destruct (IH (with_entities r' self) (Z.max 0 (b - 1))) as (s & Hh & Hf & Hds & Hbs); simpl.
    + rewrite Hv. by apply keyed_decay.
    + rewrite Hv. by apply decayable_decay.
    + intros a e. rewrite Hv, lookup_fmap_Some. intros (e0 & <- & He0). simpl.
      specialize (Hb a e0 He0). destruct (Hd a e0 He0) as [H0 _].
      destruct (decide (uo_seen e0 = 0)) as [->|]; [change (decay 0) with 0; lia|]. pose proof (decay_lt (uo_seen e0)). lia.
    + exists s. split_and!; [done| |done|].
      * rewrite Hf. by destruct self.
      * intros a e He. specialize (Hbs a e He). lia.
Qed.

(** Bans by counters expire: an entity that is
    not blacklisted has status OK after as many hourly updates as the largest
    number of user operations seen, provided nothing is counted meanwhile. *)
Theorem banned_entity_recovers self a (b : nat) :
  keyed (rep_view self.(entities)) → decayable (rep_view self.(entities)) →
  config_ok self → self.(ban_slack) ≤ U64_MAX / 2 →
  a ∉ self.(blacklist) →
  (∀ a e, rep_view self.(entities) !! a = Some e → e.(uo_seen) ≤ Z.of_nat b) →
  ∃ s, hours b self = (Ok (), s) ∧ get_status s a = Ok (status_code OK).
Proof.
  intros Hk Hd Hc Hsl Hbl Hb.
  destruct (hours_bound b self (Z.of_nat b) Hk Hd Hb) as (s & Hh & Hf & Hds & Hbs).
  exists s. split; [done|]. pose proof Hc as [? ?].
  assert (config_ok s) as Hcs by (by rewrite Hf).
  assert (U64_MAX / 2 + U64_MAX / 23 ≤ U64_MAX) as Hmax by done.
  apply get_status_classified; [done| |].
  - intros a' e He. destruct (Hds a' e He). rewrite Hf. split_and!; simpl; lia.
  - rewrite Hf. simpl. rewrite (bool_decide_eq_false_2 (a ∈ blacklist self)) by done.
    case_bool_decide; [done|]. destruct (_ !! a) as [e|] eqn:He; [|done].
    specialize (Hbs a e He). destruct (Hds a e He).
    rewrite !bool_decide_eq_false_2; [done|..]; unfold exceeds; simpl; nia.
Qed.

(** [verify_stake] accepts exactly an unknown
    entity, a whitelisted one, or one whose stake reaches the required minimum
    (the argument, else the configured one) and whose unstake delay is at
    least 2; the requested minimum delay has no influence. *)
Theorem verify_stake_accepts self entity info ms md :
  verify_stake self entity info ms md = Ok () ↔
  ∀ i, info = Some i → i.(si_address) ∉ self.(whitelist) →
    default self.(min_stake) ms ≤ i.(si_stake) ∧ 2 ≤ i.(si_unstake_delay).
Proof.
  unfold verify_stake, is_in_list. destruct info as [i|]; [|naive_solver].
  repeat case_bool_decide; naive_solver lia.
Qed.
End properties.

(** ** Every operation keeps the entries under their own address *)
Section invariant.
Context {P : Profile} `{RL : ReputationEntryLaws R}.

Definition rep_keyed (s : Reputation R) : Prop := keyed (rep_view s.(entities)).

(** one call on the manager, whatever it returns *)
Inductive rep_step : Reputation R → Reputation R → Prop :=
| step_seen a s : rep_step s (increment_seen a s).2
| step_included a s : rep_step s (increment_included a s).2
| step_reverted a s : rep_step s (update_handle_ops_reverted a s).2
| step_hourly s : rep_step s (update_hourly s).2
| step_set_entities es s : rep_step s (set_entities es s).2
| step_clear s : rep_step s (clear (E:=ReputationError) s).2
| step_whitelist a s : rep_step s (add_whitelist a s).2
| step_unwhitelist a s : rep_step s (remove_whitelist a s).2
| step_blacklist a s : rep_step s (add_blacklist a s).2
| step_unblacklist a s : rep_step s (remove_blacklist a s).2.

Lemma preserves_set_entry e : preserves (λ r, keyed (rep_view r)) (set_entry e).
Proof.
  intros r Hk. destruct (set_entry_view r e) as (r' & -> & Hv). simpl. rewrite Hv.
  intros a e'. rewrite lookup_insert_Some. intros [[<- <-]|[_ ?]]; [done|by apply Hk].
Qed.

Lemma preserves_on_entities {E A} (m : ST R E A) :
  preserves (λ r, keyed (rep_view r)) m → preserves rep_keyed (on_entities m).
Proof.
  intros Hm s Hs. unfold on_entities, st_zoom. specialize (Hm _ Hs). by destruct (m _).
Qed.

Lemma preserves_update : preserves (λ r, keyed (rep_view r)) update.
Proof.
  intros r Hk. unfold update. apply preserves_for; [|done]. intros ent.
  eauto 10 using preserves_set_entry with silius.
Qed.

Lemma preserves_modify_entry a f : preserves rep_keyed (modify_entry a f).
Proof.
  unfold modify_entry, set_default. repeat (apply preserves_bind; [|intros ?]); eauto with silius.
  - case_match; eauto 6 using preserves_on_entities, preserves_set_entry with silius.
  - case_match; eauto 8 using preserves_on_entities, preserves_set_entry with silius.
Qed.

(** In every state reachable by the manager's
    operations, failed calls included, each entry is stored under its own
    address. *)
Theorem reputation_keyed s s' : rep_keyed s → rtc rep_step s s' → rep_keyed s'.
Proof.
  intros Hk Hr. induction Hr as [|s1 s2 s3 Hstep _ IH]; [done|]. apply IH. clear IH.
  destruct Hstep; try (by apply preserves_modify_entry); try done.
  - apply (preserves_on_entities _ preserves_update); done.
  - apply (preserves_for rep_keyed); [|done].
    eauto using preserves_on_entities, preserves_set_entry with silius.
  - unfold clear, on_entities, st_zoom. destruct (rep_clear_view ReputationError (entities s))
      as (r' & -> & Hv). unfold rep_keyed. simpl. by rewrite Hv.
Qed.
End invariant.

(** ** Concrete evaluations: the constants of the repository, an in-memory
    store and 64-bit arithmetic with overflow checks *)
Module Example.
#[local] Instance profile : Profile := true.
#[local] Existing Instance canonical_order.

Definition entry (a seen included : Z) : ReputationEntry :=
  {| re_address := a; uo_seen := seen; uo_included := included; re_status := 0 |}.
(** 7 is throttled, 8 banned, 9 whitelisted, 10 blacklisted *)
Definition manager : Reputation (gmap Address ReputationEntry) := {|
  min_inclusion_denominator := MIN_INCLUSION_RATE_DENOMINATOR;
  throttling_slack := THROTTLING_SLACK; ban_slack := BAN_SLACK;
  min_stake := 1; min_unstake_delay := 0; whitelist := {[9]}; blacklist := {[10]};
  entities := {[7 := entry 7 110 0; 8 := entry 8 511 0]} |}.

Lemma manager_lookup a e :
  rep_view manager.(entities) !! a = Some e → e = entry 7 110 0 ∧ a = 7 ∨ e = entry 8 511 0 ∧ a = 8.
Proof.
  simpl. rewrite lookup_insert_Some. intros [[<- <-]|[_ H]]; [by left|].
  apply lookup_singleton_Some in H as [<- <-]. by right.
Qed.

Lemma manager_keyed : keyed (rep_view manager.(entities)).
Proof. intros a e [[-> ->]|[-> ->]]%manager_lookup; done. Qed.

Lemma manager_config : config_ok manager.
Proof. unfold config_ok; simpl. unfold MIN_INCLUSION_RATE_DENOMINATOR, THROTTLING_SLACK, BAN_SLACK. lia. Qed.

Lemma manager_counters : all_counters_ok manager.
Proof. intros a e [[-> ->]|[-> ->]]%manager_lookup; by vm_compute. Qed.

Lemma manager_decayable : decayable (rep_view manager.(entities)).
Proof. intros a e [[-> ->]|[-> ->]]%manager_lookup; by vm_compute. Qed.

Lemma status_thresholds_witness :
  get_status manager 8 = Ok (status_code BANNED) ↔
  8 ∉ manager.(whitelist) ∧ (8 ∈ manager.(blacklist) ∨
    ∃ e, rep_view manager.(entities) !! 8 = Some e ∧ exceeds manager manager.(ban_slack) e).
Proof. apply (status_thresholds manager 8 manager_config manager_counters). Defined.

Lemma status_monotone_witness : status_code OK ≤ status_code THROTTLED.
Proof.
  apply (status_monotone manager (entry 7 110 1) (entry 7 110 0));
    [apply manager_config|by vm_compute..].
Defined.

Lemma increments_exact_witness :
  ∃ s, increment_seen 11 manager = (Ok (), s) ∧ sets_entry manager 11 (entry 11 1 0) s.
Proof. apply (increments_exact manager 11 manager_keyed); by vm_compute. Defined.

(** with the repository's constants the penalty does not ban *)
Lemma reverted_penalty_witness :
  ∃ s, update_handle_ops_reverted 7 manager = (Ok (), s) ∧
    (get_status s 7 = Ok (status_code BANNED) ↔ BAN_SLACK < 100 / MIN_INCLUSION_RATE_DENOMINATOR).
Proof.
  apply (reverted_penalty manager 7 manager_keyed manager_config); [by vm_compute| |];
    apply (bool_decide_unpack _); by vm_compute.
Defined.

Lemma hourly_decay_witness :
  ∃ s, update_hourly manager = (Ok (), s) ∧
    rep_view s.(entities) = decay_entry <$> rep_view manager.(entities) ∧
    s = with_entities s.(entities) manager.
Proof. apply (hourly_decay manager manager_keyed manager_decayable). Defined.

Lemma banned_entity_recovers_witness :
  ∃ s, hours 511 manager = (Ok (), s) ∧ get_status s 8 = Ok (status_code OK).
Proof.
  apply (banned_entity_recovers manager 8 511 manager_keyed manager_decayable manager_config);
    [by vm_compute|apply (bool_decide_unpack _); by vm_compute|].
  intros a e [[-> ->]|[-> ->]]%manager_lookup; by vm_compute.
Defined.

Lemma reputation_keyed_witness : rep_keyed (increment_seen 11 manager).2.
Proof. apply (reputation_keyed manager _ manager_keyed). apply rtc_once. constructor. Defined.
End Example.
