(* ===== verification/Mempool.v ===== *)
(** The mempool ([crates/mempool/src/mempool.rs]): the storage traits, their
    contract, the [Mempool] operations over any storage, the index invariant and
    the refinement to a plain map of user operations. *)

From S2P Require Import Prelude Primitives Errors AbiStd.

(** ** Storage traits

    The four boxed stores of a [Mempool] may be handles on one shared
    environment, so every method acts on the whole storage [S]; an address
    store is one of two tables of it. *)
Inductive AddrTable := UserOperationsBySender | UserOperationsByEntity.
#[global] Instance AddrTable_eq_dec : EqDecision AddrTable.
Proof. solve_decision. Defined.

Class AddRemoveUserOp (S : Type) := {
  store_add : UserOperation → ST S MempoolErrorKind UserOperationHash;
  remove_by_uo_hash : UserOperationHash → ST S MempoolErrorKind bool;
}.

Class AddRemoveUserOpHash (S : Type) := {
  hash_add : AddrTable → Address → UserOperationHash → ST S MempoolErrorKind ();
  remove_uo_hash : AddrTable → Address → UserOperationHash → ST S MempoolErrorKind bool;
}.

Class UserOperationOp (S : Type) := {
  get_by_uo_hash : S → UserOperationHash → comp MempoolErrorKind (option UserOperation);
  store_sorted : S → comp MempoolErrorKind (list UserOperation);
  store_all : S → comp MempoolErrorKind (list UserOperation);
}.

Class UserOperationAddrOp (S : Type) :=
  get_all_by_address : AddrTable → S → Address → list UserOperationHash.

(** the provided method *)
Definition get_number_by_address {S : Type} `{UserOperationAddrOp S} (t : AddrTable) (s : S) (addr : Address)
  : nat := length (get_all_by_address t s addr).

Class UserOperationCodeHashOp (S : Type) := {
  store_has_code_hashes : S → UserOperationHash → comp MempoolErrorKind bool;
  store_set_code_hashes : UserOperationHash → list CodeHash → ST S MempoolErrorKind ();
  store_get_code_hashes : S → UserOperationHash → comp MempoolErrorKind (list CodeHash);
  remove_code_hashes : UserOperationHash → ST S MempoolErrorKind bool;
}.

Inductive Table := TUserOperations | TAddr (t : AddrTable) | TCodeHashes.

Class ClearOp (S : Type) := clear_table : ∀ {E : Type}, Table → ST S E ().

Class MempoolStore (S : Type) := {
  #[global] ms_uo :: AddRemoveUserOp S;
  #[global] ms_hash :: AddRemoveUserOpHash S;
  #[global] ms_op :: UserOperationOp S;
  #[global] ms_addr :: UserOperationAddrOp S;
  #[global] ms_code :: UserOperationCodeHashOp S;
  #[global] ms_clear :: ClearOp S;
}.

(** the comparison both stores sort with: priority fee descending, then nonce *)
Definition cmp_priority (a b : UserOperation) : comparison :=
  if bool_decide (a.(uo_max_priority_fee_per_gas) ≠ b.(uo_max_priority_fee_per_gas))
  then b.(uo_max_priority_fee_per_gas) ?= a.(uo_max_priority_fee_per_gas)
  else a.(uo_nonce) ?= b.(uo_nonce).

(** ** [Mempool] *)
Section mempool.
Context {S : Type} `{MempoolStore S}.
Implicit Types (s : S) (uo : UserOperation) (uo_hash : UserOperationHash).

(** [if let Some(a) = o { f(a)?; }] *)
Definition when_some {A B} (o : option A) (f : A → ST S MempoolErrorKind B)
  : ST S MempoolErrorKind () :=
  match o with Some a => do* _ := f a in st_ret () | None => st_ret () end.

Definition add uo : ST S MempoolErrorKind UserOperationHash :=
  let '(sender, factory, paymaster) := get_entities uo in
  let uo_hash := uo.(uo_hash) in
  do* _ := store_add uo in
  do* _ := hash_add UserOperationsBySender sender uo_hash in
  do* _ := when_some factory (λ f, hash_add UserOperationsByEntity f uo_hash) in
  do* _ := when_some paymaster (λ p, hash_add UserOperationsByEntity p uo_hash) in
  st_ret uo_hash.

Definition get s uo_hash : comp MempoolErrorKind (option UserOperation) :=
  get_by_uo_hash s uo_hash.

(** [hashes.iter().flat_map(get).flatten()]: errors and misses are dropped *)
Definition get_many {F} s (hashes : list UserOperationHash) : comp F (list UserOperation) :=
  map_ok (omap id) (flat_map_ok (get_by_uo_hash s) hashes).

Definition get_all_by_sender {F} s (addr : Address) : comp F (list UserOperation) :=
  get_many s (get_all_by_address UserOperationsBySender s addr).

Definition get_number_by_sender s (addr : Address) : nat :=
  get_number_by_address UserOperationsBySender s addr.
Definition get_number_by_entity s (addr : Address) : nat :=
  get_number_by_address UserOperationsByEntity s addr.

Definition get_prev_by_sender {F} s uo : comp F (option UserOperation) :=
  let* uos := get_many s (get_all_by_address UserOperationsBySender s uo.(uo_sender)) in
  Ok (max_by_key (λ uo_prev : UserOperation, uo_prev.(uo_max_priority_fee_per_gas))
        (filter (λ uo_prev : UserOperation, uo_prev.(uo_nonce) = uo.(uo_nonce)) uos)).

Definition has_code_hashes s uo_hash := store_has_code_hashes s uo_hash.
Definition set_code_hashes uo_hash (hashes : list CodeHash) := store_set_code_hashes uo_hash hashes.
Definition get_code_hashes s uo_hash := store_get_code_hashes s uo_hash.

Definition remove uo_hash : ST S MempoolErrorKind bool :=
  do* o := st_get (λ s, get_by_uo_hash s uo_hash) in
  match o with
  | None => st_ret false
  | Some uo =>
      let '(sender, factory, paymaster) := get_entities uo in
      do* _ := remove_by_uo_hash uo_hash in
      do* _ := remove_uo_hash UserOperationsBySender sender uo_hash in
      do* _ := when_some factory (λ f, remove_uo_hash UserOperationsByEntity f uo_hash) in
      do* _ := when_some paymaster (λ p, remove_uo_hash UserOperationsByEntity p uo_hash) in
      do* _ := remove_code_hashes uo_hash in
      st_ret true
  end.

Definition remove_by_entity (entity : Address) : ST S MempoolErrorKind () :=
  do* uos := st_get (λ s, Ok (get_all_by_address UserOperationsByEntity s entity)) in
  st_for uos (λ uo_hash, do* _ := remove uo_hash in st_ret ()).

Definition get_sorted s := store_sorted s.
Definition get_all s := store_all s.

Definition clear {E} : ST S E () :=
  do* _ := clear_table TUserOperations in
  do* _ := clear_table (TAddr UserOperationsBySender) in
  do* _ := clear_table (TAddr UserOperationsByEntity) in
  clear_table TCodeHashes.
End mempool.

(** ** The contract of a storage *)
Record View := {
  v_uos : gmap UserOperationHash UserOperationSigned;
  v_by_sender : gmap Address (gset UserOperationHash);
  v_by_entity : gmap Address (gset UserOperationHash);
  v_codes : gmap UserOperationHash (list CodeHash);
}.

Definition v_index (v : View) (t : AddrTable) : gmap Address (gset UserOperationHash) :=
  match t with
  | UserOperationsBySender => v.(v_by_sender)
  | UserOperationsByEntity => v.(v_by_entity)
  end.

Definition with_uos (f : gmap UserOperationHash UserOperationSigned →
    gmap UserOperationHash UserOperationSigned) (v : View) : View :=
  {| v_uos := f v.(v_uos); v_by_sender := v.(v_by_sender); v_by_entity := v.(v_by_entity);
     v_codes := v.(v_codes) |}.
Definition with_index (t : AddrTable) (f : gmap Address (gset UserOperationHash) →
    gmap Address (gset UserOperationHash)) (v : View) : View :=
  match t with
  | UserOperationsBySender =>
      {| v_uos := v.(v_uos); v_by_sender := f v.(v_by_sender); v_by_entity := v.(v_by_entity);
         v_codes := v.(v_codes) |}
  | UserOperationsByEntity =>
      {| v_uos := v.(v_uos); v_by_sender := v.(v_by_sender); v_by_entity := f v.(v_by_entity);
         v_codes := v.(v_codes) |}
  end.
Definition with_codes (f : gmap UserOperationHash (list CodeHash) →
    gmap UserOperationHash (list CodeHash)) (v : View) : View :=
  {| v_uos := v.(v_uos); v_by_sender := v.(v_by_sender); v_by_entity := v.(v_by_entity);
     v_codes := f v.(v_codes) |}.

Arguments with_index : simpl never.

Lemma v_index_with_index t f v t' :
  v_index (with_index t f v) t' = if decide (t' = t) then f (v_index v t) else v_index v t'.
Proof. by destruct t, t'. Qed.

(** a multimap that never stores an empty set *)
Definition index_add (a : Address) (h : UserOperationHash)
    (m : gmap Address (gset UserOperationHash)) : gmap Address (gset UserOperationHash) :=
  <[a := {[h]} ∪ default ∅ (m !! a)]> m.
Definition index_remove (a : Address) (h : UserOperationHash)
    (m : gmap Address (gset UserOperationHash)) : gmap Address (gset UserOperationHash) :=
  match m !! a with
  | None => m
  | Some hs => if decide (hs ∖ {[h]} = ∅) then delete a m else <[a := hs ∖ {[h]}]> m
  end.

Definition table_clear (t : Table) (v : View) : View :=
  match t with
  | TUserOperations => with_uos (λ _, ∅) v
  | TAddr t => with_index t (λ _, ∅) v
  | TCodeHashes => with_codes (λ _, ∅) v
  end.

Definition uo_of (p : UserOperationHash * UserOperationSigned) : UserOperation :=
  from_user_operation_signed p.1 p.2.

(** a call that returns [a] and changes the view by [f] *)
Definition acts {S E A} (view : S → View) (m : ST S E A) (s : S) (a : A) (f : View → View) : Prop :=
  ∃ s', m s = (Ok a, s') ∧ view s' = f (view s).

Class MempoolLaws (S : Type) `{MempoolStore S} := {
  view : S → View;
  store_add_law : ∀ s uo,
    acts view (store_add uo) s uo.(uo_hash) (with_uos <[uo.(uo_hash) := uo.(user_operation)]>);
  remove_by_uo_hash_law : ∀ s h,
    acts view (remove_by_uo_hash h) s (bool_decide (is_Some ((view s).(v_uos) !! h)))
      (with_uos (delete h));
  hash_add_law : ∀ t s a h, acts view (hash_add t a h) s () (with_index t (index_add a h));
  remove_uo_hash_law : ∀ t s a h,
    acts view (remove_uo_hash t a h) s (bool_decide (is_Some (v_index (view s) t !! a)))
      (with_index t (index_remove a h));
  get_by_uo_hash_law : ∀ s h,
    get_by_uo_hash s h = Ok (from_user_operation_signed h <$> (view s).(v_uos) !! h);
  store_sorted_law : ∀ s, ∃ l,
    store_sorted s = Ok (sort_by cmp_priority l) ∧ l ≡ₚ uo_of <$> map_to_list (view s).(v_uos);
  store_all_law : ∀ s, ∃ l,
    store_all s = Ok l ∧ l ≡ₚ uo_of <$> map_to_list (view s).(v_uos);
  get_all_by_address_law : ∀ t s a,
    get_all_by_address t s a ≡ₚ elements (default ∅ (v_index (view s) t !! a));
  has_code_hashes_law : ∀ s h,
    store_has_code_hashes s h = Ok (bool_decide (is_Some ((view s).(v_codes) !! h)));
  set_code_hashes_law : ∀ s h cs,
    acts view (store_set_code_hashes h cs) s () (with_codes <[h := cs]>);
  get_code_hashes_law : ∀ s h,
    store_get_code_hashes s h = Ok (default [] ((view s).(v_codes) !! h));
  remove_code_hashes_law : ∀ s h, ∃ b,
    acts view (remove_code_hashes h) s b (with_codes (delete h));
  clear_table_law : ∀ E s t, acts view (clear_table (E:=E) t) s () (table_clear t);
}.

(** ** Index lemmas *)
Definition idx (v : View) (t : AddrTable) (a : Address) : gset UserOperationHash :=
  default ∅ (v_index v t !! a).

(** the user operations a table lists under an address *)
Definition relevant (t : AddrTable) (a : Address) (uo : UserOperationSigned) : Prop :=
  match t with
  | UserOperationsBySender => uo.(uo_sender) = a
  | UserOperationsByEntity => factory_of uo = Some a ∨ paymaster_of uo = Some a
  end.
#[global] Instance relevant_dec t a uo : Decision (relevant t a uo).
Proof. destruct t; simpl; apply _. Defined.

(** the index invariant: both tables list exactly the stored operations, and
    hold no empty set *)
Definition consistent (v : View) : Prop :=
  (∀ t a h, h ∈ idx v t a ↔ ∃ uo, v.(v_uos) !! h = Some uo ∧ relevant t a uo) ∧
  (∀ t a hs, v_index v t !! a = Some hs → hs ≠ ∅).

Lemma index_add_lookup a h m b :
  default ∅ (index_add a h m !! b) =
    if decide (b = a) then {[h]} ∪ default ∅ (m !! a) else default ∅ (m !! b).
Proof.
  unfold index_add. case_decide; subst; [by rewrite lookup_insert_eq|].
  by rewrite lookup_insert_ne.
Qed.

Lemma index_remove_lookup a h m b :
  default ∅ (index_remove a h m !! b) =
    if decide (b = a) then default ∅ (m !! a) ∖ {[h]} else default ∅ (m !! b).
Proof.
  unfold index_remove. destruct (m !! a) as [hs|] eqn:Ha; simpl.
  - case_decide as He; destruct (decide (b = a)) as [->|].
    + by rewrite lookup_delete_eq.
    + by rewrite lookup_delete_ne.
    + by rewrite lookup_insert_eq.
    + by rewrite lookup_insert_ne.
  - case_decide; subst; [rewrite Ha; simpl; set_solver|done].
Qed.

Lemma index_add_nonempty a h m :
  (∀ b hs, m !! b = Some hs → hs ≠ ∅) → ∀ b hs, index_add a h m !! b = Some hs → hs ≠ ∅.
Proof.
  intros Hm b hs. unfold index_add. rewrite lookup_insert_Some.
  intros [[<- <-]|[_ ?]]; [set_solver|by eapply Hm].
Qed.

Lemma index_remove_nonempty a h m :
  (∀ b hs, m !! b = Some hs → hs ≠ ∅) → ∀ b hs, index_remove a h m !! b = Some hs → hs ≠ ∅.
Proof.
  intros Hm b hs. unfold index_remove. destruct (m !! a) eqn:Ha; [|apply Hm].
  case_decide as He; [rewrite lookup_delete_Some; intros [_ ?]; by eapply Hm|].
  rewrite lookup_insert_Some. intros [[<- <-]|[_ ?]]; [done|by eapply Hm].
Qed.

Lemma idx_index_add t b h v t' a :
  idx (with_index t (index_add b h) v) t' a =
    (if decide (t' = t ∧ a = b) then {[h]} else ∅) ∪ idx v t' a.
Proof.
  unfold idx. rewrite v_index_with_index. destruct (decide (t' = t)) as [->|].
  - rewrite index_add_lookup. repeat case_decide; subst; try tauto; set_solver.
  - rewrite decide_False by tauto. set_solver.
Qed.

Lemma idx_index_remove t b h v t' a :
  idx (with_index t (index_remove b h) v) t' a =
    idx v t' a ∖ (if decide (t' = t ∧ a = b) then {[h]} else ∅).
Proof.
  unfold idx. rewrite v_index_with_index. destruct (decide (t' = t)) as [->|].
  - rewrite index_remove_lookup. repeat case_decide; subst; try tauto; set_solver.
  - rewrite decide_False by tauto. set_solver.
Qed.

(** ** Views after [add] and [remove] *)
Definition on_option {A} (o : option A) (f : A → View → View) : View → View :=
  match o with Some a => f a | None => λ v, v end.

Definition view_add (uo : UserOperation) : View → View := λ v,
  on_option (paymaster_of uo) (λ p, with_index UserOperationsByEntity (index_add p uo.(uo_hash)))
  (on_option (factory_of uo) (λ f, with_index UserOperationsByEntity (index_add f uo.(uo_hash)))
  (with_index UserOperationsBySender (index_add uo.(uo_sender) uo.(uo_hash))
  (with_uos <[uo.(uo_hash) := uo.(user_operation)]> v))).

Definition view_remove (h : UserOperationHash) (uo : UserOperationSigned) : View → View := λ v,
  with_codes (delete h)
  (on_option (paymaster_of uo) (λ p, with_index UserOperationsByEntity (index_remove p h))
  (on_option (factory_of uo) (λ f, with_index UserOperationsByEntity (index_remove f h))
  (with_index UserOperationsBySender (index_remove uo.(uo_sender) h)
  (with_uos (delete h) v)))).

Lemma idx_view_add uo v t a :
  idx (view_add uo v) t a =
    (if decide (relevant t a uo) then {[uo.(uo_hash)]} else ∅) ∪ idx v t a.
Proof.
  unfold view_add. set (v0 := with_uos _ v). change (idx v t a) with (idx v0 t a).
  destruct (paymaster_of uo) as [p|] eqn:Hp, (factory_of uo) as [f|] eqn:Hf; simpl;
    rewrite !idx_index_add; destruct t;
    repeat case_decide; simpl in *; try set_solver; naive_solver.
Qed.

Lemma idx_view_remove h uo v t a :
  idx (view_remove h uo v) t a =
    idx v t a ∖ (if decide (relevant t a uo) then {[h]} else ∅).
Proof.
  unfold view_remove. set (v0 := with_uos _ v). change (idx v t a) with (idx v0 t a).
  destruct (paymaster_of uo) as [p|] eqn:Hp, (factory_of uo) as [f|] eqn:Hf; simpl;
    change (idx (with_codes ?f ?v) t a) with (idx v t a);
    rewrite !idx_index_remove; destruct t;
    repeat case_decide; simpl in *; try set_solver; naive_solver.
Qed.

Lemma v_uos_view_add uo v : v_uos (view_add uo v) = <[uo.(uo_hash) := uo.(user_operation)]> v.(v_uos).
Proof. unfold view_add. by destruct (paymaster_of uo), (factory_of uo). Qed.
Lemma v_codes_view_add uo v : v_codes (view_add uo v) = v.(v_codes).
Proof. unfold view_add. by destruct (paymaster_of uo), (factory_of uo). Qed.
Lemma v_uos_view_remove h uo v : v_uos (view_remove h uo v) = delete h v.(v_uos).
Proof. unfold view_remove. by destruct (paymaster_of uo), (factory_of uo). Qed.
Lemma v_codes_view_remove h uo v : v_codes (view_remove h uo v) = delete h v.(v_codes).
Proof. unfold view_remove. by destruct (paymaster_of uo), (factory_of uo). Qed.

Lemma nonempty_with_index t f v :
  (∀ t a hs, v_index v t !! a = Some hs → hs ≠ ∅) →
  (∀ a hs, f (v_index v t) !! a = Some hs → hs ≠ ∅) →
  ∀ t' a hs, v_index (with_index t f v) t' !! a = Some hs → hs ≠ ∅.
Proof. intros Hv Hf t' a hs. rewrite v_index_with_index. case_decide; [apply Hf|apply Hv]. Qed.

Lemma nonempty_on_option {A} (o : option A) g t f v :
  (∀ x, g x = with_index t (f x)) →
  (∀ t a hs, v_index v t !! a = Some hs → hs ≠ ∅) →
  (∀ x m, (∀ a hs, m !! a = Some hs → hs ≠ ∅) → ∀ a hs, f x m !! a = Some hs → hs ≠ ∅) →
  ∀ t' a hs, v_index (on_option o g v) t' !! a = Some hs → hs ≠ ∅.
Proof.
  intros Hg Hv Hf. destruct o as [x|]; simpl; [|done]. rewrite Hg.
  apply nonempty_with_index; [done|]. intros a hs. apply Hf, Hv.
Qed.

Lemma consistent_add uo v :
  consistent v →
  (∀ old t a, v.(v_uos) !! uo.(uo_hash) = Some old → relevant t a old → relevant t a uo) →
  consistent (view_add uo v).
Proof.
  intros [Hi Hn] Hold. split.
  - intros t a h. rewrite idx_view_add, v_uos_view_add, elem_of_union, Hi.
    destruct (decide (h = uo.(uo_hash))) as [->|Hne].
    + rewrite lookup_insert_eq. case_decide as Hr; split.
      * intros _. by eexists.
      * intros _. left. set_solver.
      * intros [?|(old & Ho & Hr')]; [set_solver|]. destruct Hr. by eapply Hold.
      * by intros (? & [= <-] & ?).
    + rewrite lookup_insert_ne by done. case_decide; set_solver.
  - unfold view_add. eapply nonempty_on_option; [done| |intros; by eapply index_add_nonempty].
    eapply nonempty_on_option; [done| |intros; by eapply index_add_nonempty].
    apply nonempty_with_index; [done|]. apply index_add_nonempty, (Hn UserOperationsBySender).
Qed.

Lemma consistent_remove h uo v :
  consistent v → v.(v_uos) !! h = Some uo → consistent (view_remove h uo v).
Proof.
  intros [Hi Hn] Hh. split.
  - intros t a h'. rewrite idx_view_remove, v_uos_view_remove, elem_of_difference, Hi.
    destruct (decide (h' = h)) as [->|Hne].
    + rewrite lookup_delete_eq. case_decide; set_solver.
    + rewrite lookup_delete_ne by done. case_decide; set_solver.
  - change (∀ t a hs, v_index (on_option (paymaster_of uo)
      (λ p, with_index UserOperationsByEntity (index_remove p h))
      (on_option (factory_of uo) (λ f, with_index UserOperationsByEntity (index_remove f h))
      (with_index UserOperationsBySender (index_remove uo.(uo_sender) h)
      (with_uos (delete h) v)))) t !! a = Some hs → hs ≠ ∅).
    eapply nonempty_on_option; [done| |intros; by eapply index_remove_nonempty].
    eapply nonempty_on_option; [done| |intros; by eapply index_remove_nonempty].
    apply nonempty_with_index; [done|]. apply index_remove_nonempty, (Hn UserOperationsBySender).
Qed.

Lemma consistent_clear v :
  consistent (table_clear TCodeHashes (table_clear (TAddr UserOperationsByEntity)
    (table_clear (TAddr UserOperationsBySender) (table_clear TUserOperations v)))).
Proof.
  split.
  - intros t a h. destruct t; unfold idx; simpl; rewrite lookup_empty; simpl; set_solver.
  - intros t a hs. destruct t; simpl; by rewrite lookup_empty.
Qed.

(** ** Composing calls *)
Section acts.
Context {S : Type} {vw : S → View}.
Implicit Types (s : S).

Lemma acts_ret {E A} (x : A) s : acts vw (st_ret (E:=E) x) s x (λ v, v).
Proof. by exists s. Qed.

Lemma acts_eq {E A} (m : ST S E A) s x f g :
  acts vw m s x f → (∀ v, f v = g v) → acts vw m s x g.
Proof. intros (s' & ? & Hv) Hfg. exists s'. by rewrite <-Hfg. Qed.

Lemma acts_bind {E A B} (m : ST S E A) (k : A → ST S E B) s x y f g :
  acts vw m s x f → (∀ s', acts vw (k x) s' y g) →
  acts vw (st_bind m k) s y (λ v, g (f v)).
Proof.
  intros (s1 & Hm & Hv1) Hk. destruct (Hk s1) as (s2 & Hk2 & Hv2).
  exists s2. rewrite (st_bind_step _ _ _ _ _ Hm). split; [done|]. by rewrite Hv2, Hv1.
Qed.

Lemma acts_seq {E A B} (m : ST S E A) (k : ST S E B) s y f g :
  (∃ x, acts vw m s x f) → (∀ s', acts vw k s' y g) →
  acts vw (do* _ := m in k) s y (λ v, g (f v)).
Proof. intros [x ?] ?. by eapply acts_bind. Qed.

Lemma when_some_acts {A B} (o : option A) (k : A → ST S MempoolErrorKind B) g s :
  (∀ x s, ∃ b, acts vw (k x) s b (g x)) →
  acts vw (when_some o k) s () (on_option o g).
Proof.
  intros Hk. destruct o as [x|]; simpl; [|apply acts_ret].
  destruct (Hk x s) as (b & s' & Hs & Hv). exists s'. by rewrite (st_bind_step _ _ _ _ _ Hs).
Qed.

End acts.

(** ** What the operations do to the view *)
Section operations.
Context {S : Type} `{ML : MempoolLaws S}.
Implicit Types (s : S) (uo : UserOperation) (h : UserOperationHash) (a : Address).

Lemma add_acts uo s : acts view (add uo) s uo.(uo_hash) (view_add uo).
Proof.
  unfold add; simpl. eapply acts_eq.
  { eapply acts_seq; [eexists; apply store_add_law|intros s1].
  eapply acts_seq; [eexists; apply hash_add_law|intros s2].
  eapply acts_seq; [eexists; apply when_some_acts; intros; eexists; apply hash_add_law|intros s3].
  eapply acts_seq; [eexists; apply when_some_acts; intros; eexists; apply hash_add_law|intros s4].
  apply acts_ret. }
  reflexivity.
Qed.

Lemma remove_acts h s (uo : UserOperationSigned) :
  (view s).(v_uos) !! h = Some uo → acts view (remove h) s true (view_remove h uo).
Proof.
  intros Hh. unfold remove. eapply acts_eq.
  { eapply (acts_bind _ _ _ _ _ (λ v, v)).
  { exists s. unfold st_get. by rewrite get_by_uo_hash_law, Hh. }
  intros s0; simpl. eapply acts_seq; [eexists; apply remove_by_uo_hash_law|intros s1].
  eapply acts_seq; [eexists; apply remove_uo_hash_law|intros s2].
  eapply acts_seq;
    [eexists; apply when_some_acts; intros; eexists; apply remove_uo_hash_law|intros s3].
  eapply acts_seq;
    [eexists; apply when_some_acts; intros; eexists; apply remove_uo_hash_law|intros s4].
  eapply acts_seq; [apply remove_code_hashes_law|intros s5].
  apply acts_ret. }
  reflexivity.
Qed.

Lemma remove_absent h s : (view s).(v_uos) !! h = None → remove h s = (Ok false, s).
Proof.
  intros Hh. unfold remove, st_get. by rewrite (st_bind_step _ _ s None s)
    by (by rewrite get_by_uo_hash_law, Hh).
Qed.

Lemma clear_acts {E} s :
  acts view (clear (E:=E)) s () (λ v,
    table_clear TCodeHashes (table_clear (TAddr UserOperationsByEntity)
      (table_clear (TAddr UserOperationsBySender) (table_clear TUserOperations v)))).
Proof.
  unfold clear. eapply acts_eq.
  { do 3 (eapply acts_seq; [eexists; apply clear_table_law|intros ?]).
  apply clear_table_law. }
  reflexivity.
Qed.
End operations.

(** ** The abstract mempool: user operations and code hashes by hash *)
Record Pool := {
  p_uos : gmap UserOperationHash UserOperationSigned;
  p_codes : gmap UserOperationHash (list CodeHash);
}.

Inductive pool_op :=
| OpAdd (uo : UserOperation)
| OpRemove (h : UserOperationHash)
| OpRemoveByEntity (a : Address)
| OpSetCodeHashes (h : UserOperationHash) (cs : list CodeHash)
| OpClear.

Definition pool_drop (hs : gset UserOperationHash) (p : Pool) : Pool := {|
  p_uos := filter (λ kv, kv.1 ∉ hs) p.(p_uos);
  p_codes := filter (λ kv, kv.1 ∉ hs) p.(p_codes);
|}.

(** the hashes of the operations that have [a] as factory or paymaster *)
Definition entity_hashes (p : Pool) (a : Address) : gset UserOperationHash :=
  dom (filter (λ kv, relevant UserOperationsByEntity a kv.2) p.(p_uos)).

Definition pool_exec (op : pool_op) (p : Pool) : Pool :=
  match op with
  | OpAdd uo => {| p_uos := <[uo.(uo_hash) := uo.(user_operation)]> p.(p_uos);
                   p_codes := p.(p_codes) |}
  | OpRemove h => pool_drop (dom p.(p_uos) ∩ {[h]}) p
  | OpRemoveByEntity a => pool_drop (entity_hashes p a) p
  | OpSetCodeHashes h cs => {| p_uos := p.(p_uos); p_codes := <[h := cs]> p.(p_codes) |}
  | OpClear => {| p_uos := ∅; p_codes := ∅ |}
  end.

(** a hash is only ever reused for an operation that differs in its signature *)
Definition admissible (op : pool_op) (p : Pool) : Prop :=
  match op with
  | OpAdd uo => ∀ old, p.(p_uos) !! uo.(uo_hash) = Some old → signature [] old = signature [] uo
  | _ => True
  end.

Section refinement.
Context {S : Type} `{ML : MempoolLaws S}.
Implicit Types (s : S) (p : Pool).

Definition exec (op : pool_op) : ST S MempoolErrorKind () :=
  match op with
  | OpAdd uo => do* _ := add uo in st_ret ()
  | OpRemove h => do* _ := remove h in st_ret ()
  | OpRemoveByEntity a => remove_by_entity a
  | OpSetCodeHashes h cs => set_code_hashes h cs
  | OpClear => clear
  end.

Definition refines s p : Prop :=
  (view s).(v_uos) = p.(p_uos) ∧ (view s).(v_codes) = p.(p_codes) ∧ consistent (view s).

Lemma signature_relevant old new t a :
  signature [] old = signature [] new → relevant t a old → relevant t a new.
Proof.
  intros Hs. unfold signature in Hs.
  assert (uo_sender old = uo_sender new) as H1 by congruence.
  assert (uo_init_code old = uo_init_code new) as H2 by congruence.
  assert (uo_paymaster_and_data old = uo_paymaster_and_data new) as H3 by congruence.
  unfold relevant, factory_of, paymaster_of. by rewrite H1, H2, H3.
Qed.

Lemma pool_eq p q : p.(p_uos) = q.(p_uos) → p.(p_codes) = q.(p_codes) → p = q.
Proof. destruct p, q; simpl; congruence. Qed.

Lemma filter_notin_single `{Countable K} {V} (m : gmap K V) (k : K) (X : gset K) :
  X = {[k]} → filter (λ kv, kv.1 ∉ X) m = delete k m.
Proof.
  intros ->. apply map_eq. intros i. apply option_eq. intros x.
  rewrite map_lookup_filter_Some, lookup_delete_Some. simpl. set_solver.
Qed.

Lemma filter_notin_empty `{Countable K} {V} (m : gmap K V) (X : gset K) :
  X = ∅ → filter (λ kv, kv.1 ∉ X) m = m.
Proof. intros ->. apply map_filter_id. set_solver. Qed.

Lemma remove_refines h s p : refines s p →
  ∃ b s', remove h s = (Ok b, s') ∧ refines s' (pool_drop (dom p.(p_uos) ∩ {[h]}) p).
Proof.
  intros (Hu & Hc & Hi). destruct (p.(p_uos) !! h) as [uo|] eqn:Hh.
  - destruct (remove_acts h s uo) as (s' & Hr & Hv); [by rewrite Hu|].
    exists true, s'. split; [done|]. unfold refines, pool_drop. rewrite Hv; cbn [p_uos p_codes].
    assert (dom (p_uos p) ∩ {[h]} = {[h]}) as Hd.
    { apply elem_of_dom_2 in Hh. set_solver. }
    rewrite !(filter_notin_single _ h) by done.
    rewrite v_uos_view_remove, v_codes_view_remove, Hu, Hc.
    split_and!; [done..|]. apply consistent_remove; [done|]. by rewrite Hu.
  - exists false, s. split; [apply remove_absent; by rewrite Hu|].
    apply not_elem_of_dom in Hh.
    assert (dom (p_uos p) ∩ {[h]} = ∅) as Hd by set_solver.
    unfold refines, pool_drop; simpl. by rewrite !filter_notin_empty.
Qed.

Lemma pool_drop_drop X Y p : pool_drop Y (pool_drop X p) = pool_drop (X ∪ Y) p.
Proof.
  unfold pool_drop. f_equal; apply map_eq; intros i; apply option_eq; intros x; simpl;
    rewrite !map_lookup_filter_Some; set_solver.
Qed.

Lemma pool_drop_step h X p :
  pool_drop (dom (pool_drop (dom p.(p_uos) ∩ {[h]}) p).(p_uos) ∩ X)
    (pool_drop (dom p.(p_uos) ∩ {[h]}) p) = pool_drop (dom p.(p_uos) ∩ ({[h]} ∪ X)) p.
Proof.
  rewrite pool_drop_drop. f_equal. apply set_eq. intros x. cbn [p_uos pool_drop].
  rewrite dom_filter_L with (X := dom (p_uos p) ∖ {[h]}).
  - destruct (decide (x = h)); set_solver.
  - intros i. rewrite elem_of_difference, elem_of_dom. split.
    + intros [[y Hy] Hn]. exists y. apply elem_of_dom_2 in Hy as ?. set_solver.
    + intros (y & Hy & Hn). apply elem_of_dom_2 in Hy as ?. simpl in Hn. set_solver.
Qed.

Lemma remove_all_refines hs s p : refines s p →
  ∃ s', st_for hs (λ h, do* _ := remove h in st_ret ()) s = (Ok (), s') ∧
    refines s' (pool_drop (dom p.(p_uos) ∩ list_to_set hs) p).
Proof.
  revert s p. induction hs as [|h hs IH]; intros s p Hr; simpl.
  - exists s. split; [done|]. destruct Hr as (? & ? & ?). unfold refines, pool_drop; simpl.
    by rewrite !filter_notin_empty by set_solver.
  - destruct (remove_refines h s p Hr) as (b & s1 & Hrm & Hr1).
    destruct (IH s1 _ Hr1) as (s2 & Hf & Hr2). exists s2. split.
    + unfold st_bind at 1. rewrite (st_bind_step _ _ _ _ _ Hrm). exact Hf.
    + by rewrite pool_drop_step in Hr2.
Qed.

Lemma entity_hashes_elem h p a :
  h ∈ entity_hashes p a ↔ ∃ uo, p.(p_uos) !! h = Some uo ∧ relevant UserOperationsByEntity a uo.
Proof.
  unfold entity_hashes. rewrite elem_of_dom. unfold is_Some.
  by setoid_rewrite map_lookup_filter_Some.
Qed.

Lemma exec_refines_lemma op s p : refines s p → admissible op p →
  ∃ s', exec op s = (Ok (), s') ∧ refines s' (pool_exec op p).
Proof.
  intros Hr Ha. destruct op as [uo|h|a|h cs|]; simpl.
  - destruct (add_acts uo s) as (s' & Hs & Hv). exists s'.
    rewrite (st_bind_step _ _ _ _ _ Hs). split; [done|]. destruct Hr as (Hu & Hc & Hi).
    unfold refines. rewrite Hv, v_uos_view_add, v_codes_view_add, Hu. split_and!; [done..|].
    apply consistent_add; [done|]. intros old t a Ho. rewrite Hu in Ho.
    by apply signature_relevant, Ha.
  - destruct (remove_refines h s p Hr) as (b & s' & Hs & ?). exists s'.
    by rewrite (st_bind_step _ _ _ _ _ Hs).
  - unfold remove_by_entity, st_get. unfold st_bind at 1.
    set (hs := get_all_by_address _ s a).
    destruct (remove_all_refines hs s p Hr) as (s' & Hs & Hr'). exists s'. split; [done|].
    assert (dom (p_uos p) ∩ list_to_set hs = entity_hashes p a) as <-; [|done].
    apply set_eq. intros h. destruct Hr as (Hu & _ & Hi & _).
    rewrite entity_hashes_elem, elem_of_intersection, elem_of_dom, elem_of_list_to_set.
    unfold hs. rewrite get_all_by_address_law, elem_of_elements.
    specialize (Hi UserOperationsByEntity a h). unfold idx in Hi. rewrite Hi, Hu.
    split; [naive_solver|]. intros (uo & Hh & ?). split; [by eexists|by eexists].
  - destruct (set_code_hashes_law s h cs) as (s' & Hs & Hv). exists s'. split; [done|].
    destruct Hr as (Hu & Hc & Hi). unfold refines. rewrite Hv; simpl. by rewrite Hc.
  - destruct (clear_acts (E:=MempoolErrorKind) s) as (s' & Hs & Hv). exists s'. split; [done|].
    unfold refines. rewrite Hv. split_and!; [done..|]. apply consistent_clear.
Qed.
End refinement.

(** ** Order of [get_sorted] *)
Lemma cmp_priority_le a b :
  cmp_le cmp_priority a b ↔
  b.(uo_max_priority_fee_per_gas) < a.(uo_max_priority_fee_per_gas) ∨
  a.(uo_max_priority_fee_per_gas) = b.(uo_max_priority_fee_per_gas) ∧
  a.(uo_nonce) ≤ b.(uo_nonce).
Proof.
  unfold cmp_le, cmp_priority. case_bool_decide as Hne.
  - rewrite Z.compare_le_iff. lia.
  - rewrite Z.compare_le_iff. lia.
Qed.

#[global] Instance cmp_priority_trans : Transitive (cmp_le cmp_priority).
Proof. intros a b c. rewrite !cmp_priority_le. lia. Qed.

Lemma cmp_priority_total a b : cmp_priority a b = Gt → cmp_le cmp_priority b a.
Proof.
  intros Hg. assert (¬ cmp_le cmp_priority a b) as Hle by (by intros ?).
  rewrite cmp_priority_le in Hle. rewrite cmp_priority_le. lia.
Qed.

(** ** Properties *)
Section properties.
Context {S : Type} `{ML : MempoolLaws S}.
Implicit Types (s : S) (p : Pool).

Fixpoint pool_run (ops : list pool_op) (p : Pool) : Pool :=
  match ops with [] => p | op :: ops => pool_run ops (pool_exec op p) end.
Fixpoint admissible_run (ops : list pool_op) (p : Pool) : Prop :=
  match ops with
  | [] => True
  | op :: ops => admissible op p ∧ admissible_run ops (pool_exec op p)
  end.

(** C2. Refinement: every sequence of additions, removals, removals by entity,
    code-hash updates and clears in which an operation is added under a hash that
    is in use only if the stored operation is the same up to its signature
    ([admissible_run]) succeeds on a storage that fulfils its contract, keeps the
    two address indexes equal to what the stored operations say, and acts as the
    same sequence on a plain map of operations and code hashes. *)
Theorem mempool_refines_pool ops s p :
  refines s p → admissible_run ops p →
  ∃ s', st_for ops exec s = (Ok (), s') ∧ refines s' (pool_run ops p).
Proof.
  revert s p. induction ops as [|op ops IH]; intros s p Hr Ha; simpl; [by exists s|].
  destruct Ha as [Ha Has]. destruct (exec_refines_lemma op s p Hr Ha) as (s1 & Hs & Hr1).
  rewrite (st_bind_step _ _ _ _ _ Hs). by apply IH.
Qed.

Lemma refines_index s p t a h : refines s p →
  h ∈ get_all_by_address t s a ↔ ∃ uo, p.(p_uos) !! h = Some uo ∧ relevant t a uo.
Proof.
  intros (Hu & _ & Hi & _). rewrite get_all_by_address_law, elem_of_elements, <-Hu. apply Hi.
Qed.

Lemma refines_index_perm s p t a : refines s p →
  get_all_by_address t s a ≡ₚ (map_to_list (filter (λ kv, relevant t a kv.2) p.(p_uos))).*1.
Proof.
  intros Hr. apply NoDup_Permutation.
  - rewrite get_all_by_address_law. apply NoDup_elements.
  - apply NoDup_fst_map_to_list.
  - intros h. rewrite (refines_index s p) by done. rewrite list_elem_of_fmap. split.
    + intros (uo & ? & ?). exists (h, uo). split; [done|].
      by rewrite elem_of_map_to_list, map_lookup_filter_Some.
    + intros ([h' uo] & -> & Hin). rewrite elem_of_map_to_list, map_lookup_filter_Some in Hin.
      by exists uo.
Qed.

End properties.

(** ** What a pool needs from its storage

    A storage may keep more than the pool (the database does): [ghost] is what
    it keeps, [ghost_pool] the pool it implements, and [ghost_ops] the
    operations it still knows.  Additions must agree with those on what a hash
    stands for; every operation then acts on the pool as specified, and the
    indexes list the pooled operations - the sender index exactly those. *)
Definition same_unsigned (a b : UserOperation) : Prop :=
  a.(uo_hash) = b.(uo_hash) → signature [] a = signature [] b.

Class PoolStorage (S : Type) `{MempoolStore S} := {
  ghost : Type;
  ghost_pool : ghost → Pool;
  ghost_ops : ghost → list UserOperation;
  ghost_exec : pool_op → ghost → ghost;
  holds : S → ghost → Prop;
  ghost_exec_pool : ∀ op g, ghost_pool (ghost_exec op g) = pool_exec op (ghost_pool g);
  ghost_exec_ops : ∀ op g v, v ∈ ghost_ops (ghost_exec op g) → v ∈ ghost_ops g ∨ op = OpAdd v;
  holds_exec : ∀ op s g, holds s g →
    (∀ uo, op = OpAdd uo → ∀ v, v ∈ ghost_ops g → same_unsigned uo v) →
    ∃ s', exec op s = (Ok (), s') ∧ holds s' (ghost_exec op g);
  holds_clear : ∀ E s g, holds s g →
    ∃ s', clear (E:=E) s = (Ok (), s') ∧ holds s' (ghost_exec OpClear g);
  holds_get : ∀ s g h, holds s g →
    get_by_uo_hash s h = Ok (from_user_operation_signed h <$> (ghost_pool g).(p_uos) !! h);
  holds_by_sender : ∀ s g a, holds s g →
    get_all_by_address UserOperationsBySender s a ≡ₚ
      (map_to_list (filter (λ kv, kv.2.(uo_sender) = a) (ghost_pool g).(p_uos))).*1;
  holds_by_entity : ∀ s g a h uo, holds s g → (ghost_pool g).(p_uos) !! h = Some uo →
    relevant UserOperationsByEntity a uo → h ∈ get_all_by_address UserOperationsByEntity s a;
  holds_sorted : ∀ s g, holds s g → ∃ l,
    store_sorted s = Ok (sort_by cmp_priority l) ∧ l ≡ₚ uo_of <$> map_to_list (ghost_pool g).(p_uos);
}.

(** a storage that fulfils its contract keeps exactly the pool *)
#[global] Program Instance laws_storage {S} `{ML : MempoolLaws S} : PoolStorage S := {|
  ghost := Pool; ghost_pool p := p; ghost_ops p := uo_of <$> map_to_list p.(p_uos);
  ghost_exec := pool_exec; holds := refines;
|}.
Next Obligation. done. Qed.
Next Obligation.
  intros S MS ML op p v. rewrite !list_elem_of_fmap. intros ([h u] & -> & Hin).
  rewrite elem_of_map_to_list in Hin.
  assert (∀ q, q.(p_uos) ⊆ p.(p_uos) → q.(p_uos) !! h = Some u →
    ∃ y, uo_of (h, u) = uo_of y ∧ y ∈ map_to_list p.(p_uos)) as Hsub.
  { intros q Hq Hl. exists (h, u). split; [done|]. rewrite elem_of_map_to_list.
    by eapply lookup_weaken. }
  destruct op as [uo|h'|a|h' cs|]; cbn [pool_exec p_uos] in Hin.
  - apply lookup_insert_Some in Hin as [[<- <-]|[_ Hl]]; [right; by destruct uo|left; by eapply Hsub].
  - left. eapply Hsub; [|exact Hin]. apply map_filter_subseteq.
  - left. eapply Hsub; [|exact Hin]. apply map_filter_subseteq.
  - left. by eapply Hsub.
  - by rewrite lookup_empty in Hin.
Qed.
Next Obligation.
  intros S MS ML op s p Hr Hop. apply exec_refines_lemma; [done|]. destruct op as [uo| | | |]; try done.
  intros old Ho. symmetry. apply (Hop uo eq_refl (from_user_operation_signed uo.(uo_hash) old)); [|done].
  apply list_elem_of_fmap. exists (uo.(uo_hash), old). split; [done|]. by apply elem_of_map_to_list.
Qed.
Next Obligation.
  intros S MS ML E s p _. destruct (clear_acts (E:=E) s) as (s' & Hs & Hv). exists s'. split; [done|].
  unfold refines. rewrite Hv. split_and!; [done..|]. apply consistent_clear.
Qed.
Next Obligation. intros S MS ML s p h (Hu & _). by rewrite get_by_uo_hash_law, Hu. Qed.
Next Obligation. intros S MS ML s p a Hr. by apply (refines_index_perm s p UserOperationsBySender). Qed.
Next Obligation. intros S MS ML s p a h uo Hr Hh Hrel. apply (refines_index s p); [done|]. by eexists. Qed.
Next Obligation. intros S MS ML s p (Hu & _). rewrite <-Hu. apply store_sorted_law. Qed.

Section storage.
Context {S : Type} `{PS : PoolStorage S}.
Implicit Types (s : S) (g : ghost).

Lemma holds_add uo s g : holds s g → (∀ v, v ∈ ghost_ops g → same_unsigned uo v) →
  ∃ s', add uo s = (Ok uo.(uo_hash), s') ∧ holds s' (ghost_exec (OpAdd uo) g).
Proof.
  intros Hg Hop. destruct (holds_exec (OpAdd uo) s g Hg) as (s' & Hs & Hg'); [by intros ? [= <-]|].
  exists s'. split; [|done]. cbn [exec] in Hs. apply st_bind_ok in Hs as (h & s1 & Ha & [= <-]).
  rewrite Ha. f_equal. f_equal. unfold add in Ha; cbn [get_entities] in Ha.
  repeat (apply st_bind_ok in Ha as (? & ? & _ & Ha)). by injection Ha as <-.
Qed.

Lemma holds_remove h s g : holds s g →
  ∃ b s', remove h s = (Ok b, s') ∧ holds s' (ghost_exec (OpRemove h) g).
Proof.
  intros Hg. destruct (holds_exec (OpRemove h) s g Hg) as (s' & Hs & Hg'); [done|].
  cbn [exec] in Hs. apply st_bind_ok in Hs as (b & s1 & Hr & [= <-]). by exists b, s1.
Qed.

Lemma get_many_holds {F} s g hs : holds s g →
  get_many (F:=F) s hs =
    Ok (omap (λ h, from_user_operation_signed h <$> (ghost_pool g).(p_uos) !! h) hs).
Proof.
  intros Hg. unfold get_many.
  rewrite (flat_map_ok_all _ (λ h, from_user_operation_signed h <$> (ghost_pool g).(p_uos) !! h)).
  - simpl. f_equal. induction hs as [|h hs IH]; csimpl; [done|].
    rewrite IH. by destruct (_ !! h).
  - intros h _. by apply holds_get.
Qed.

Lemma by_sender_holds {F} s g a : holds s g →
  ∃ l, get_all_by_sender (F:=F) s a = Ok l ∧
    ∀ uo, uo ∈ l ↔
      (ghost_pool g).(p_uos) !! uo.(uo_hash) = Some uo.(user_operation) ∧ uo.(uo_sender) = a.
Proof.
  intros Hg. unfold get_all_by_sender. rewrite (get_many_holds s g) by done. eexists. split; [done|].
  intros uo. rewrite list_elem_of_omap. setoid_rewrite (holds_by_sender s g a Hg).
  setoid_rewrite list_elem_of_fmap. split.
  - intros (h & ([k u] & -> & Hin) & Huo). rewrite elem_of_map_to_list, map_lookup_filter_Some in Hin.
    destruct Hin as [Hl Hs]. cbn [fst] in Huo. rewrite Hl in Huo. by injection Huo as <-.
  - intros [Hl Hs]. exists uo.(uo_hash). split.
    + exists (uo.(uo_hash), uo.(user_operation)). split; [done|].
      by rewrite elem_of_map_to_list, map_lookup_filter_Some.
    + rewrite Hl. by destruct uo.
Qed.

Lemma number_by_sender_holds s g a : holds s g →
  get_number_by_sender s a = size (filter (λ kv, kv.2.(uo_sender) = a) (ghost_pool g).(p_uos)).
Proof.
  intros Hg. unfold get_number_by_sender, get_number_by_address.
  by rewrite (holds_by_sender s g), length_fmap, length_map_to_list.
Qed.

(** an address with an empty index has no pooled operations *)
Lemma no_index_holds t s g a : holds s g → get_number_by_address t s a = 0%nat →
  ∀ h uo, (ghost_pool g).(p_uos) !! h = Some uo → ¬ relevant t a uo.
Proof.
  intros Hg Hz h uo Hh Hrel. unfold get_number_by_address in Hz.
  apply length_zero_iff_nil in Hz.
  assert (h ∈ get_all_by_address t s a) as Hin; [|rewrite Hz in Hin; set_solver].
  destruct t; [|by eapply holds_by_entity]. rewrite (holds_by_sender s g) by done.
  apply list_elem_of_fmap. exists (h, uo). split; [done|].
  by rewrite elem_of_map_to_list, map_lookup_filter_Some.
Qed.

Lemma get_prev_holds {F} s g (uo : UserOperation) : holds s g →
  ∃ o, get_prev_by_sender (F:=F) s uo = Ok o ∧
    match o with
    | Some prev =>
        (ghost_pool g).(p_uos) !! prev.(uo_hash) = Some prev.(user_operation) ∧
        prev.(uo_sender) = uo.(uo_sender) ∧ prev.(uo_nonce) = uo.(uo_nonce) ∧
        ∀ h q, (ghost_pool g).(p_uos) !! h = Some q → q.(uo_sender) = uo.(uo_sender) →
          q.(uo_nonce) = uo.(uo_nonce) →
          q.(uo_max_priority_fee_per_gas) ≤ prev.(uo_max_priority_fee_per_gas)
    | None => ∀ h q, (ghost_pool g).(p_uos) !! h = Some q → q.(uo_sender) = uo.(uo_sender) →
        q.(uo_nonce) ≠ uo.(uo_nonce)
    end.
Proof.
  intros Hg. destruct (by_sender_holds (F:=F) s g uo.(uo_sender) Hg) as (l0 & Hl0 & Hin0).
  unfold get_all_by_sender in Hl0. unfold get_prev_by_sender. rewrite Hl0. cbn [comp_bind].
  set (l := filter _ l0).
  assert (Hl : ∀ q, q ∈ l ↔ ((ghost_pool g).(p_uos) !! q.(uo_hash) = Some q.(user_operation) ∧
    q.(uo_sender) = uo.(uo_sender)) ∧ q.(uo_nonce) = uo.(uo_nonce)).
  { intros q. unfold l. rewrite list_elem_of_filter, Hin0. tauto. }
  eexists. split; [done|]. destruct (max_by_key _ l) as [prev|] eqn:Hm.
  - apply max_by_key_spec in Hm as [Hin Hmax]. apply Hl in Hin as [[? ?] ?].
    split_and!; [done..|]. intros h q Hq ??.
    by apply (Hmax (from_user_operation_signed h q)), Hl.
  - apply max_by_key_None in Hm. intros h q Hq ??.
    assert (from_user_operation_signed h q ∈ l) as Hin by (by apply Hl).
    rewrite Hm in Hin. set_solver.
Qed.
End storage.

Section queries.
Context {S : Type} `{ML : MempoolLaws S}.
Implicit Types (s : S) (p : Pool).

Lemma get_many_spec {F} s p hs : refines s p →
  get_many (F:=F) s hs = Ok (omap (λ h, from_user_operation_signed h <$> p.(p_uos) !! h) hs).
Proof. exact (get_many_holds (PS:=laws_storage) s p hs). Qed.

Lemma get_many_elem s p t a uo : refines s p →
  uo ∈ omap (λ h, from_user_operation_signed h <$> p.(p_uos) !! h) (get_all_by_address t s a) ↔
  p.(p_uos) !! uo.(uo_hash) = Some uo.(user_operation) ∧ relevant t a uo.
Proof.
  intros Hr. rewrite list_elem_of_omap. split.
  - intros (h & Hh & Huo). rewrite (refines_index s p) in Hh by done.
    destruct Hh as (x & Hx & Hrel). rewrite Hx in Huo. by injection Huo as <-.
  - intros [Hl Hrel]. exists uo.(uo_hash). rewrite (refines_index s p) by done. split; [by eexists|].
    rewrite Hl. by destruct uo.
Qed.

(** The counters that admission control reads are the
    numbers of stored operations with that sender, and with that factory or
    paymaster. *)
Theorem mempool_counts s p a : refines s p →
  get_number_by_sender s a = size (filter (λ kv, kv.2.(uo_sender) = a) p.(p_uos)) ∧
  get_number_by_entity s a =
    size (filter (λ kv, factory_of kv.2 = Some a ∨ paymaster_of kv.2 = Some a) p.(p_uos)).
Proof.
  intros Hr. unfold get_number_by_sender, get_number_by_entity, get_number_by_address.
  rewrite !(refines_index_perm s p) by done. by rewrite !length_fmap, !length_map_to_list.
Qed.

Lemma get_prev_spec {F} s p (uo : UserOperation) : refines s p →
  ∃ o, get_prev_by_sender (F:=F) s uo = Ok o ∧
    match o with
    | Some prev =>
        p.(p_uos) !! prev.(uo_hash) = Some prev.(user_operation) ∧
        prev.(uo_sender) = uo.(uo_sender) ∧ prev.(uo_nonce) = uo.(uo_nonce) ∧
        ∀ h q, p.(p_uos) !! h = Some q → q.(uo_sender) = uo.(uo_sender) →
          q.(uo_nonce) = uo.(uo_nonce) →
          q.(uo_max_priority_fee_per_gas) ≤ prev.(uo_max_priority_fee_per_gas)
    | None => ∀ h q, p.(p_uos) !! h = Some q → q.(uo_sender) = uo.(uo_sender) →
        q.(uo_nonce) ≠ uo.(uo_nonce)
    end.
Proof. exact (get_prev_holds (PS:=laws_storage) s p uo). Qed.

(** [get_prev_by_sender] finds the stored operation
    with the sender and nonce of the new one that has the highest priority fee,
    and nothing exactly when no stored operation has that sender and nonce. *)
Theorem replacement_candidate {F} s p (uo : UserOperation) : refines s p →
  ∃ o, get_prev_by_sender (F:=F) s uo = Ok o ∧
    match o with
    | Some prev =>
        p.(p_uos) !! prev.(uo_hash) = Some prev.(user_operation) ∧
        prev.(uo_sender) = uo.(uo_sender) ∧ prev.(uo_nonce) = uo.(uo_nonce) ∧
        ∀ h q, p.(p_uos) !! h = Some q → q.(uo_sender) = uo.(uo_sender) →
          q.(uo_nonce) = uo.(uo_nonce) →
          q.(uo_max_priority_fee_per_gas) ≤ prev.(uo_max_priority_fee_per_gas)
    | None => ∀ h q, p.(p_uos) !! h = Some q → q.(uo_sender) = uo.(uo_sender) →
        q.(uo_nonce) ≠ uo.(uo_nonce)
    end.
Proof. apply get_prev_spec. Qed.

(** [get_sorted] returns every stored operation exactly
    once, by descending priority fee and, among equal fees, by ascending nonce. *)
Theorem get_sorted_order s p : refines s p →
  ∃ l, get_sorted s = Ok l ∧ l ≡ₚ uo_of <$> map_to_list p.(p_uos) ∧
    StronglySorted (λ a b : UserOperation,
      b.(uo_max_priority_fee_per_gas) < a.(uo_max_priority_fee_per_gas) ∨
      a.(uo_max_priority_fee_per_gas) = b.(uo_max_priority_fee_per_gas) ∧
      a.(uo_nonce) ≤ b.(uo_nonce)) l.
Proof.
  intros (Hu & _ & _). destruct (store_sorted_law s) as (l & Hs & Hp).
  exists (sort_by cmp_priority l). split; [done|]. split.
  - by rewrite sort_by_perm, Hp, Hu.
  - eapply StronglySorted_weaken; [intros a b; apply cmp_priority_le|].
    apply sort_by_sorted; [apply _|apply cmp_priority_total].
Qed.
End queries.

(** ** Hashed pools: admissibility from the hash function *)
Section hashed.
Context {A : Abi} {AOk : AbiOk A}.

(** every operation is stored under its hash for one entry point and chain *)
Definition hashed (ep : Address) (chain_id : Z) (p : Pool) : Prop :=
  ∀ h uo, p.(p_uos) !! h = Some uo → h = hash uo ep chain_id ∧ uo_wf uo.

(** In a pool where every operation is stored under its hash, adding an operation
    under its hash can only replace one that differs in the signature, as long as
    keccak256 tells the added and the pooled operations apart; so the index
    invariant survives every such addition. *)
Theorem hashed_add_admissible ep chain_id p uo :
  is_address ep → is_u256 chain_id → uo_wf uo → hashed ep chain_id p →
  told_apart ep chain_id (uo :: (map_to_list p.(p_uos)).*2) →
  let new := from_user_operation_signed (hash uo ep chain_id) uo in
  admissible (OpAdd new) p ∧ hashed ep chain_id (pool_exec (OpAdd new) p).
Proof using AOk.
  intros Hep Hc Hwf Hh Hl new. split.
  - intros old Ho. destruct (Hh _ _ Ho) as [He Hwo]. symmetry.
    eapply (told_apart_hash ep chain_id); [done..|apply list_elem_of_here| |done|done|done].
    apply list_elem_of_further, list_elem_of_fmap. exists (uo_hash new, old).
    split; [done|]. by apply elem_of_map_to_list.
  - intros h q; simpl. rewrite lookup_insert_Some.
    intros [[<- <-]|[_ ?]]; [done|by apply Hh].
Qed.
End hashed.
