(* ===== verification/MemoryStore.v ===== *)
(** The in-memory storage of the mempool ([crates/mempool/src/memory/mempool.rs]):
    four hash maps.  It fulfils the storage contract of [Mempool], so the
    refinement and the observer theorems hold of it. *)

From S2P Require Import Prelude Primitives Errors AbiStd Mempool.

(** the four [Arc<RwLock<HashMap<..>>>] handed to [Mempool::new] *)
Record MemStore := {
  ms_user_operations : gmap UserOperationHash UserOperationSigned;
  ms_by_sender : gmap Address (gset UserOperationHash);
  ms_by_entity : gmap Address (gset UserOperationHash);
  ms_code_hashes : gmap UserOperationHash (list CodeHash);
}.

Definition MemStore_default : MemStore :=
  {| ms_user_operations := ∅; ms_by_sender := ∅; ms_by_entity := ∅; ms_code_hashes := ∅ |}.

Definition on_uos {A} (f : gmap UserOperationHash UserOperationSigned →
    comp MempoolErrorKind A * gmap UserOperationHash UserOperationSigned)
  : ST MemStore MempoolErrorKind A :=
  st_zoom ms_user_operations (λ m s, {| ms_user_operations := m; ms_by_sender := s.(ms_by_sender);
    ms_by_entity := s.(ms_by_entity); ms_code_hashes := s.(ms_code_hashes) |}) f.

Definition mem_table (t : AddrTable) (s : MemStore) : gmap Address (gset UserOperationHash) :=
  match t with
  | UserOperationsBySender => s.(ms_by_sender)
  | UserOperationsByEntity => s.(ms_by_entity)
  end.
Definition set_mem_table (t : AddrTable) (m : gmap Address (gset UserOperationHash)) (s : MemStore)
  : MemStore :=
  match t with
  | UserOperationsBySender =>
      {| ms_user_operations := s.(ms_user_operations); ms_by_sender := m;
         ms_by_entity := s.(ms_by_entity); ms_code_hashes := s.(ms_code_hashes) |}
  | UserOperationsByEntity =>
      {| ms_user_operations := s.(ms_user_operations); ms_by_sender := s.(ms_by_sender);
         ms_by_entity := m; ms_code_hashes := s.(ms_code_hashes) |}
  end.
Definition on_table {A} (t : AddrTable) (f : gmap Address (gset UserOperationHash) →
    comp MempoolErrorKind A * gmap Address (gset UserOperationHash))
  : ST MemStore MempoolErrorKind A := st_zoom (mem_table t) (set_mem_table t) f.

Definition on_codes {A} (f : gmap UserOperationHash (list CodeHash) →
    comp MempoolErrorKind A * gmap UserOperationHash (list CodeHash))
  : ST MemStore MempoolErrorKind A :=
  st_zoom ms_code_hashes (λ m s, {| ms_user_operations := s.(ms_user_operations);
    ms_by_sender := s.(ms_by_sender); ms_by_entity := s.(ms_by_entity);
    ms_code_hashes := m |}) f.

(** ** [HashMap<UserOperationHash, UserOperationSigned>] *)
Definition mem_add (uo : UserOperation) (m : gmap UserOperationHash UserOperationSigned)
  : comp MempoolErrorKind UserOperationHash * gmap UserOperationHash UserOperationSigned :=
  (Ok uo.(uo_hash), <[uo.(uo_hash) := uo.(user_operation)]> m).

Definition mem_remove_by_uo_hash (h : UserOperationHash)
    (m : gmap UserOperationHash UserOperationSigned)
  : comp MempoolErrorKind bool * gmap UserOperationHash UserOperationSigned :=
  match m !! h with
  | Some _ => (Ok true, delete h m)
  | None => (Ok false, m)
  end.

Definition mem_get_by_uo_hash (m : gmap UserOperationHash UserOperationSigned)
    (h : UserOperationHash) : comp MempoolErrorKind (option UserOperation) :=
  match m !! h with
  | Some uo => Ok (Some (from_user_operation_signed h uo))
  | None => Ok None
  end.

(** ** [HashMap<Address, HashSet<UserOperationHash>>] *)
(** [self.entry(address).or_default().insert(uo_hash)] *)
Definition mem_hash_add (a : Address) (h : UserOperationHash)
    (m : gmap Address (gset UserOperationHash))
  : comp MempoolErrorKind () * gmap Address (gset UserOperationHash) :=
  let m' := match m !! a with Some _ => m | None => <[a := ∅]> m end in
  (Ok (), alter (λ hs, {[h]} ∪ hs) a m').

Definition mem_remove_uo_hash (a : Address) (h : UserOperationHash)
    (m : gmap Address (gset UserOperationHash))
  : comp MempoolErrorKind bool * gmap Address (gset UserOperationHash) :=
  match m !! a with
  | Some uos =>
      let m' := <[a := uos ∖ {[h]}]> m in
      (Ok true, if bool_decide (uos ∖ {[h]} = ∅) then delete a m' else m')
  | None => (Ok false, m)
  end.

(** ** [HashMap<UserOperationHash, Vec<CodeHash>>] *)
Definition mem_get_code_hashes (m : gmap UserOperationHash (list CodeHash))
    (h : UserOperationHash) : comp MempoolErrorKind (list CodeHash) :=
  match m !! h with Some hashes => Ok hashes | None => Ok [] end.

(** always [true], whether there were code hashes or not *)
Definition mem_remove_code_hashes (h : UserOperationHash)
    (m : gmap UserOperationHash (list CodeHash))
  : comp MempoolErrorKind bool * gmap UserOperationHash (list CodeHash) :=
  (Ok true, delete h m).

Section store.
Context {HO : HashOrder}.

Definition mem_get_all (m : gmap UserOperationHash UserOperationSigned)
  : comp MempoolErrorKind (list UserOperation) := Ok (uo_of <$> iter_map m).

Definition mem_get_sorted (m : gmap UserOperationHash UserOperationSigned)
  : comp MempoolErrorKind (list UserOperation) :=
  Ok (sort_by cmp_priority (uo_of <$> iter_map m)).

Definition mem_get_all_by_address (m : gmap Address (gset UserOperationHash)) (a : Address)
  : list UserOperationHash :=
  match m !! a with Some hs => iter_set hs | None => [] end.

Definition mem_clear (t : Table) (s : MemStore) : MemStore :=
  match t with
  | TUserOperations => {| ms_user_operations := ∅; ms_by_sender := s.(ms_by_sender);
      ms_by_entity := s.(ms_by_entity); ms_code_hashes := s.(ms_code_hashes) |}
  | TAddr t => set_mem_table t ∅ s
  | TCodeHashes => {| ms_user_operations := s.(ms_user_operations);
      ms_by_sender := s.(ms_by_sender); ms_by_entity := s.(ms_by_entity); ms_code_hashes := ∅ |}
  end.

#[global] Instance mem_store : MempoolStore MemStore := {|
  ms_uo := {| store_add uo := on_uos (mem_add uo);
              remove_by_uo_hash h := on_uos (mem_remove_by_uo_hash h) |};
  ms_hash := {| hash_add t a h := on_table t (mem_hash_add a h);
                remove_uo_hash t a h := on_table t (mem_remove_uo_hash a h) |};
  ms_op := {| get_by_uo_hash s h := mem_get_by_uo_hash s.(ms_user_operations) h;
              store_sorted s := mem_get_sorted s.(ms_user_operations);
              store_all s := mem_get_all s.(ms_user_operations) |};
  ms_addr := λ t s a, mem_get_all_by_address (mem_table t s) a;
  ms_code := {| store_has_code_hashes s h := Ok (bool_decide (is_Some (s.(ms_code_hashes) !! h)));
                store_set_code_hashes h hashes := on_codes (λ m, (Ok (), <[h := hashes]> m));
                store_get_code_hashes s h := mem_get_code_hashes s.(ms_code_hashes) h;
                remove_code_hashes h := on_codes (mem_remove_code_hashes h) |};
  ms_clear := λ E t, st_mod (mem_clear t);
|}.

Definition mem_view (s : MemStore) : View := {|
  v_uos := s.(ms_user_operations);
  v_by_sender := s.(ms_by_sender);
  v_by_entity := s.(ms_by_entity);
  v_codes := s.(ms_code_hashes);
|}.

Lemma mem_hash_add_index a h m : mem_hash_add a h m = (Ok (), index_add a h m).
Proof.
  unfold mem_hash_add, index_add; simpl. f_equal. apply map_eq. intros b.
  destruct (decide (b = a)) as [->|Hne].
  - rewrite lookup_insert_eq, lookup_alter_eq. destruct (m !! a) eqn:Ha; [by rewrite Ha|].
    by rewrite lookup_insert_eq.
  - rewrite lookup_insert_ne, lookup_alter_ne by done. destruct (m !! a); [done|].
    by rewrite lookup_insert_ne.
Qed.

Lemma mem_remove_uo_hash_index a h m :
  mem_remove_uo_hash a h m = (Ok (bool_decide (is_Some (m !! a))), index_remove a h m).
Proof.
  unfold mem_remove_uo_hash, index_remove. destruct (m !! a) as [hs|] eqn:Ha; [|done].
  rewrite (bool_decide_eq_true_2 (is_Some _)) by done. f_equal.
  case_bool_decide; case_decide; try done. by rewrite delete_insert_eq.
Qed.

Lemma mem_remove_by_uo_hash_delete h m :
  mem_remove_by_uo_hash h m = (Ok (bool_decide (is_Some (m !! h))), delete h m).
Proof.
  unfold mem_remove_by_uo_hash. destruct (m !! h) eqn:Hh; [done|]. by rewrite delete_id.
Qed.

Lemma mem_get_all_by_address_perm m a :
  mem_get_all_by_address m a ≡ₚ elements (default ∅ (m !! a)).
Proof. unfold mem_get_all_by_address. destruct (m !! a); simpl; [apply iter_set_perm|done]. Qed.

#[global] Program Instance mem_laws : MempoolLaws MemStore := {| view := mem_view |}.
Next Obligation. intros s uo. by eexists. Qed.
Next Obligation.
  intros s h. unfold acts; simpl. unfold on_uos, st_zoom.
  rewrite mem_remove_by_uo_hash_delete. by eexists.
Qed.
Next Obligation.
  intros t s a h. unfold acts; simpl. unfold on_table, st_zoom. rewrite mem_hash_add_index.
  destruct t; by eexists.
Qed.
Next Obligation.
  intros t s a h. unfold acts; simpl. unfold on_table, st_zoom.
  rewrite mem_remove_uo_hash_index. destruct t; by eexists.
Qed.
Next Obligation. intros s h. simpl. unfold mem_get_by_uo_hash. by destruct (_ !! h). Qed.
Next Obligation. intros s. eexists. split; [done|]. simpl. by rewrite iter_map_perm. Qed.
Next Obligation. intros s. eexists. split; [done|]. simpl. by rewrite iter_map_perm. Qed.
Next Obligation. intros t s a. destruct t; apply mem_get_all_by_address_perm. Qed.
Next Obligation. done. Qed.
Next Obligation. intros s h cs. by eexists. Qed.
Next Obligation. intros s h. simpl. unfold mem_get_code_hashes. by destruct (_ !! h). Qed.
Next Obligation. intros s h. exists true. by eexists. Qed.
Next Obligation. intros E s t. eexists. split; [done|]. by destruct t as [|[]|]. Qed.
End store.

(** ** Concrete evaluations *)
Module Example.
#[local] Existing Instance canonical_order.

(** an operation of account 9 with a paymaster and no factory *)
Definition small_uo (fee : Z) : UserOperationSigned := {|
  uo_sender := 9; uo_nonce := 0; uo_init_code := []; uo_call_data := [];
  uo_call_gas_limit := 21900; uo_verification_gas_limit := 100000;
  uo_pre_verification_gas := 50000; uo_max_fee_per_gas := 10; uo_max_priority_fee_per_gas := fee;
  uo_paymaster_and_data := repeat Byte.x01 20; uo_signature := [] |}.
Definition uo1 : UserOperation := from_user_operation_signed 1 (small_uo 3).
Definition uo2 : UserOperation := from_user_operation_signed 2 (small_uo 4).
Definition pool0 : Pool := {| p_uos := ∅; p_codes := ∅ |}.
Definition codes : list CodeHash := [{| ch_address := 5; ch_hash := 6 |}].
Definition script : list pool_op :=
  [OpAdd uo1; OpAdd uo2; OpSetCodeHashes 1 codes; OpRemove 1].

Lemma refines_default : refines MemStore_default pool0.
Proof.
  split_and!; [done..|]. split.
  - intros [] a h; unfold idx; simpl; rewrite lookup_empty; simpl; set_solver.
  - intros [] a hs; simpl; by rewrite lookup_empty.
Qed.

Lemma mempool_refines_pool_witness :
  ∃ s', st_for script exec MemStore_default = (Ok (), s') ∧ refines s' (pool_run script pool0).
Proof.
  apply (mempool_refines_pool script MemStore_default pool0 refines_default).
  by split_and!.
Defined.

(** one operation left: the other one and its code hashes are gone *)
Lemma script_result :
  pool_run script pool0 = {| p_uos := {[2 := small_uo 4]}; p_codes := ∅ |}.
Proof. by vm_compute. Qed.

Definition pool1 : Pool := {| p_uos := {[1 := small_uo 3]}; p_codes := ∅ |}.
Definition store1 : MemStore := (add uo1 MemStore_default).2.

Lemma refines_store1 : refines store1 pool1.
Proof.
  destruct (exec_refines_lemma (OpAdd uo1) MemStore_default pool0 refines_default)
    as (s' & Hs & Hr); [done|]. 
  assert (s' = store1) as -> by (by apply (f_equal snd) in Hs). exact Hr.
Qed.

Lemma mempool_counts_witness :
  get_number_by_sender store1 9 = size (filter (λ kv, kv.2.(uo_sender) = 9) pool1.(p_uos)).
Proof. exact (proj1 (mempool_counts store1 pool1 9 refines_store1)). Defined.

Lemma replacement_candidate_witness :
  ∃ o, get_prev_by_sender (F:=MempoolErrorKind) store1 uo2 = Ok o ∧ is_Some o.
Proof.
  destruct (replacement_candidate (F:=MempoolErrorKind) store1 pool1 uo2 refines_store1) as (o & Ho & H).
  exists o. split; [done|]. destruct o as [prev|]; [done|].
  by destruct (H 1 (small_uo 3) eq_refl eq_refl).
Defined.

Lemma get_sorted_order_witness : ∃ l, get_sorted store1 = Ok l ∧ l ≡ₚ [uo1].
Proof.
  destruct (get_sorted_order store1 pool1 refines_store1) as (l & Hl & Hp & _).
  exists l. split; [done|]. by rewrite Hp.
Defined.

Lemma hashed_add_admissible_witness :
  let new := from_user_operation_signed (hash (A:=std_abi) (small_uo 3) 1 80001) (small_uo 3) in
  admissible (OpAdd new) pool0 ∧ hashed (A:=std_abi) 1 80001 (pool_exec (OpAdd new) pool0).
Proof.
  apply (hashed_add_admissible (AOk:=std_abi_ok) 1 80001 pool0 (small_uo 3)).
  - by unfold is_address.
  - by unfold is_u256, U256_MAX.
  - unfold uo_wf, is_address, is_u256, U256_MAX; simpl; lia.
  - intros h uo. simpl. by rewrite lookup_empty.
  - apply (bool_decide_unpack _). by vm_compute.
Defined.
End Example.
