(* ===== verification/Database.v ===== *)
(** The database storage ([crates/mempool/src/database]): the tables of one
    mdbx environment.  The environment and its transactions are library code
    and a parameter here ([Mdbx], with the documented behaviour in [MdbxOk]);
    the reputation table fulfils the reputation contract, the mempool tables
    fulfil theirs except for two removals, whose actual effect is stated. *)

From S2P Require Import Prelude Primitives Errors AbiStd Reputation Mempool.

(** ** Tables ([tables.rs]): keys are hashes or addresses *)
Inductive DbTable :=
| UserOperations | BySender | ByEntity | CodeHashes | EntitiesReputation.

Definition Value (t : DbTable) : Type :=
  match t with
  | UserOperations => UserOperationSigned
  | BySender | ByEntity => gset UserOperationHash
  | CodeHashes => list CodeHash
  | EntitiesReputation => ReputationEntry
  end.

Definition db_table (t : AddrTable) : DbTable :=
  match t with UserOperationsBySender => BySender | UserOperationsByEntity => ByEntity end.
Definition to_set {t} : Value (db_table t) → gset UserOperationHash :=
  match t with UserOperationsBySender | UserOperationsByEntity => λ v, v end.
Definition of_set {t} : gset UserOperationHash → Value (db_table t) :=
  match t with UserOperationsBySender | UserOperationsByEntity => λ v, v end.

(** ** The library: transactions over an environment

    A write transaction works on a private copy; only [commit] changes the
    environment.  Every call may fail with a [reth_db::Error] (its text). *)
Class Mdbx := {
  env : Type;
  txn : Type;
  begin_ro : env → comp string txn;
  begin_rw : env → comp string txn;
  tx_get : ∀ t : DbTable, Z → txn → comp string (option (Value t));
  tx_put : ∀ t : DbTable, Z → Value t → txn → comp string txn;
  tx_delete : DbTable → Z → txn → comp string txn;
  tx_clear : DbTable → txn → comp string txn;
  tx_walk : ∀ t : DbTable, txn → comp string (list (Z * Value t));
  commit : txn → env → comp string env;
  commit_ro : txn → comp string ();
}.

(** transactions without I/O failures *)
Class MdbxOk (M : Mdbx) := {
  env_view : ∀ t : DbTable, env → gmap Z (Value t);
  txn_view : ∀ t : DbTable, txn → gmap Z (Value t);
  begin_ro_ok : ∀ e, ∃ x, begin_ro e = Ok x ∧ ∀ t, txn_view t x = env_view t e;
  begin_rw_ok : ∀ e, ∃ x, begin_rw e = Ok x ∧ ∀ t, txn_view t x = env_view t e;
  tx_get_ok : ∀ t k x, tx_get t k x = Ok (txn_view t x !! k);
  tx_put_ok : ∀ t k v x, ∃ x', tx_put t k v x = Ok x' ∧
    txn_view t x' = <[k := v]> (txn_view t x) ∧ ∀ t', t' ≠ t → txn_view t' x' = txn_view t' x;
  tx_delete_ok : ∀ t k x, ∃ x', tx_delete t k x = Ok x' ∧
    txn_view t x' = delete k (txn_view t x) ∧ ∀ t', t' ≠ t → txn_view t' x' = txn_view t' x;
  tx_clear_ok : ∀ t x, ∃ x', tx_clear t x = Ok x' ∧
    txn_view t x' = ∅ ∧ ∀ t', t' ≠ t → txn_view t' x' = txn_view t' x;
  tx_walk_ok : ∀ t x, ∃ l, tx_walk t x = Ok l ∧ l ≡ₚ map_to_list (txn_view t x);
  commit_ok : ∀ x e, ∃ e', commit x e = Ok e' ∧ ∀ t, env_view t e' = txn_view t x;
  commit_ro_ok : ∀ x, commit_ro x = Ok ();
}.

#[global] Instance DbTable_eq_dec : EqDecision DbTable.
Proof. solve_decision. Defined.

Section database.
Context {M : Mdbx}.

(** a write transaction: [body] returns its result and the transaction to
    commit, or [None] when the source lets the transaction go out of scope *)
Definition write_tx {X A} (wrap : string → X) (body : txn → comp string (A * option txn))
  : ST env X A := λ e,
  match (let* x := begin_rw e in
         let* r := body x in
         match r.2 with
         | Some x' => let* e' := commit x' e in Ok (r.1, e')
         | None => Ok (r.1, e)
         end) with
  | Ok (a, e') => (Ok a, e')
  | Err err => (Err (wrap err), e)
  | Panic => (Panic, e)
  end.

Definition read_tx {X A} (wrap : string → X) (body : txn → comp string A) (e : env)
  : comp X A := map_err wrap (let* x := begin_ro e in body x).

Definition mp_err (s : string) : MempoolErrorKind := MpDatabase (DbInternal s).
Definition rep_err (s : string) : ReputationError := RepDatabase (DbInternal s).

(** ** [DatabaseTable<E, UserOperations>] *)
Definition db_add (uo : UserOperation) : ST env MempoolErrorKind UserOperationHash :=
  write_tx mp_err (λ tx,
    let* tx := tx_put UserOperations uo.(uo_hash) uo.(user_operation) tx in
    Ok (uo.(uo_hash), Some tx)).

Definition db_remove_by_uo_hash (h : UserOperationHash) : ST env MempoolErrorKind bool :=
  write_tx mp_err (λ tx,
    let* original_value := tx_get UserOperations h tx in
    let* tx := tx_delete UserOperations h tx in
    Ok (bool_decide (is_Some original_value), Some tx)).

Definition db_get_by_uo_hash (e : env) (h : UserOperationHash)
  : comp MempoolErrorKind (option UserOperation) :=
  read_tx mp_err (λ tx,
    let* res := tx_get UserOperations h tx in
    let* _ := commit_ro tx in
    Ok (from_user_operation_signed h <$> res)) e.

Definition db_get_sorted (e : env) : comp MempoolErrorKind (list UserOperation) :=
  read_tx mp_err (λ tx,
    let* uos := tx_walk UserOperations tx in Ok (sort_by cmp_priority (uo_of <$> uos))) e.

Definition db_get_all (e : env) : comp MempoolErrorKind (list UserOperation) :=
  read_tx mp_err (λ tx, let* uos := tx_walk UserOperations tx in Ok (uo_of <$> uos)) e.

(** ** [impl_add_remove_user_op_hash!]: [$table] for [add], but
    [UserOperationsBySender] for [remove_uo_hash], whatever [$table] is *)
Definition db_hash_add (t : AddrTable) (a : Address) (h : UserOperationHash)
  : ST env MempoolErrorKind () :=
  write_tx mp_err (λ tx,
    let* o := tx_get (db_table t) a tx in
    match o with
    | Some uo_hash_set =>
        let* tx := tx_put (db_table t) a (of_set ({[h]} ∪ to_set uo_hash_set)) tx in
        Ok ((), Some tx)
    | None => let* tx := tx_put (db_table t) a (of_set ({[h]} ∪ ∅)) tx in Ok ((), Some tx)
    end).

Definition db_remove_uo_hash (_ : AddrTable) (a : Address) (h : UserOperationHash)
  : ST env MempoolErrorKind bool :=
  write_tx mp_err (λ tx,
    let* o := tx_get BySender a tx in
    match o with
    | Some uo_hash_set =>
        let uo_hash_set := uo_hash_set ∖ {[h]} in
        let* tx := if bool_decide (uo_hash_set = ∅) then tx_delete BySender a tx
                   else tx_put BySender a uo_hash_set tx in
        Ok (true, Some tx)
    | None => Ok (false, None)
    end).

(** ** [impl_user_op_addr_op!]: a failure reads as no operations *)
Context {HO : HashOrder}.

Definition db_get_all_by_address (t : AddrTable) (e : env) (a : Address)
  : list UserOperationHash :=
  match read_tx mp_err (λ tx,
    let* o := tx_get (db_table t) a tx in
    match o with
    | Some uo_hash_set => Ok (iter_set (to_set uo_hash_set))
    | None => Ok []
    end) e with
  | Ok l => l
  | _ => []
  end.

(** ** [DatabaseTable<E, CodeHashes>] *)
Definition db_has_code_hashes (e : env) (h : UserOperationHash) : comp MempoolErrorKind bool :=
  read_tx mp_err (λ tx,
    let* res := tx_get CodeHashes h tx in Ok (bool_decide (is_Some res))) e.

Definition db_set_code_hashes (h : UserOperationHash) (hashes : list CodeHash)
  : ST env MempoolErrorKind () :=
  write_tx mp_err (λ tx, let* tx := tx_put CodeHashes h hashes tx in Ok ((), Some tx)).

(** a write transaction, only read and dropped *)
Definition db_get_code_hashes (e : env) (h : UserOperationHash)
  : comp MempoolErrorKind (list CodeHash) :=
  map_err mp_err (let* tx := begin_rw e in
    let* res := tx_get CodeHashes h tx in Ok (default [] res)).

(** the deletion is not committed *)
Definition db_remove_code_hashes (h : UserOperationHash) : ST env MempoolErrorKind bool :=
  write_tx mp_err (λ tx,
    let* o := tx_get CodeHashes h tx in
    if bool_decide (is_Some o) then
      let* _ := tx_delete CodeHashes h tx in Ok (true, None)
    else Ok (false, None)).

(** ** [impl_clear!] *)
Definition db_of_table (t : Table) : DbTable :=
  match t with TUserOperations => UserOperations | TAddr t => db_table t | TCodeHashes => CodeHashes end.

Definition db_clear {E} (t : DbTable) : ST env E () := λ e,
  match write_tx id (λ tx, let* tx := tx_clear t tx in Ok ((), Some tx)) e with
  | (Ok _, e') => (Ok (), e')
  | (_, e') => (Panic, e')
  end.

#[global] Instance db_store : MempoolStore env := {|
  ms_uo := {| store_add := db_add; remove_by_uo_hash := db_remove_by_uo_hash |};
  ms_hash := {| hash_add := db_hash_add; remove_uo_hash := db_remove_uo_hash |};
  ms_op := {| get_by_uo_hash := db_get_by_uo_hash; store_sorted := db_get_sorted;
              store_all := db_get_all |};
  ms_addr := db_get_all_by_address;
  ms_code := {| store_has_code_hashes := db_has_code_hashes;
                store_set_code_hashes := db_set_code_hashes;
                store_get_code_hashes := db_get_code_hashes;
                remove_code_hashes := db_remove_code_hashes |};
  ms_clear := λ E t, db_clear (db_of_table t);
|}.

(** ** [DatabaseTable<E, EntitiesReputation>] *)
Definition db_get_entry (e : env) (a : Address) : comp ReputationError (option ReputationEntry) :=
  read_tx rep_err (λ tx,
    let* res := tx_get EntitiesReputation a tx in
    let* _ := commit_ro tx in
    Ok res) e.

Definition db_set_entry (entry : ReputationEntry)
  : ST env ReputationError (option ReputationEntry) :=
  write_tx rep_err (λ tx,
    let* original := tx_get EntitiesReputation entry.(re_address) tx in
    let* tx := tx_put EntitiesReputation entry.(re_address) entry tx in
    Ok (original, Some tx)).

Definition db_contains_entry (e : env) (a : Address) : comp ReputationError bool :=
  let* o := db_get_entry e a in Ok (bool_decide (is_Some o)).

Definition db_entries (e : env) : list ReputationEntry :=
  match read_tx rep_err (λ tx,
    let* res := tx_walk EntitiesReputation tx in
    let* _ := commit_ro tx in
    Ok res.*2) e with
  | Ok l => l
  | _ => []
  end.

#[global] Instance db_reputation : ReputationEntryOp env := {|
  get_entry := db_get_entry; set_entry := db_set_entry; contains_entry := db_contains_entry;
  rep_entries := db_entries; rep_clear E := db_clear EntitiesReputation;
|}.
End database.

(** ** Transactions without failures *)
Section transactions.
Context {M : Mdbx} {MOk : MdbxOk M}.
Implicit Types (e : env) (x : txn).

(** [x] reads what [e] holds *)
Definition snapshot e x : Prop := ∀ t, txn_view t x = env_view t e.

(** only table [t] differs, and it holds [m] *)
Definition sets_table (t : DbTable) (m : gmap Z (Value t)) e e' : Prop :=
  env_view t e' = m ∧ ∀ t', t' ≠ t → env_view t' e' = env_view t' e.

Lemma write_tx_commit {X A} (wrap : string → X) body e (a : A) t m :
  (∀ x, snapshot e x → ∃ x', body x = Ok (a, Some x') ∧ txn_view t x' = m ∧
    ∀ t', t' ≠ t → txn_view t' x' = txn_view t' x) →
  ∃ e', write_tx wrap body e = (Ok a, e') ∧ sets_table t m e e'.
Proof.
  intros Hb. destruct (begin_rw_ok e) as (x & Hx & Hs).
  destruct (Hb x Hs) as (x' & Hbx & Hm & Ht). destruct (commit_ok x' e) as (e' & He & Hv).
  exists e'. unfold write_tx. rewrite Hx; simpl. rewrite Hbx; simpl. rewrite He; simpl.
  split; [done|]. split; [by rewrite Hv|]. intros t' Hne. by rewrite Hv, Ht, Hs.
Qed.

Lemma write_tx_drop {X A} (wrap : string → X) body e (a : A) :
  (∀ x, snapshot e x → body x = Ok (a, None)) → write_tx wrap body e = (Ok a, e).
Proof.
  intros Hb. destruct (begin_rw_ok e) as (x & Hx & Hs). unfold write_tx. rewrite Hx; simpl.
  by rewrite (Hb x Hs).
Qed.

Lemma read_tx_ok {X A} (wrap : string → X) body e (a : A) :
  (∀ x, snapshot e x → body x = Ok a) → read_tx wrap body e = Ok a.
Proof.
  intros Hb. destruct (begin_ro_ok e) as (x & Hx & Hs). unfold read_tx. rewrite Hx; simpl.
  by rewrite (Hb x Hs).
Qed.

Lemma put_commit {X A} (wrap : string → X) body e (a : A) t k v :
  (∀ x, snapshot e x → body x = let* x' := tx_put t k v x in Ok (a, Some x')) →
  ∃ e', write_tx wrap body e = (Ok a, e') ∧ sets_table t (<[k := v]> (env_view t e)) e e'.
Proof.
  intros Hb. apply write_tx_commit. intros x Hx. rewrite (Hb x Hx).
  destruct (tx_put_ok t k v x) as (x' & Hp & Hv & Ho). exists x'. rewrite Hp; simpl.
  by rewrite Hv, Hx.
Qed.

Lemma delete_commit {X A} (wrap : string → X) body e (a : A) t k :
  (∀ x, snapshot e x → body x = let* x' := tx_delete t k x in Ok (a, Some x')) →
  ∃ e', write_tx wrap body e = (Ok a, e') ∧ sets_table t (delete k (env_view t e)) e e'.
Proof.
  intros Hb. apply write_tx_commit. intros x Hx. rewrite (Hb x Hx).
  destruct (tx_delete_ok t k x) as (x' & Hp & Hv & Ho). exists x'. rewrite Hp; simpl.
  by rewrite Hv, Hx.
Qed.

Lemma db_clear_ok {E} t e : ∃ e', db_clear (E:=E) t e = (Ok (), e') ∧ sets_table t ∅ e e'.
Proof.
  unfold db_clear.
  destruct (write_tx_commit id (λ tx, let* tx := tx_clear t tx in Ok ((), Some tx)) e () t ∅)
    as (e' & He & Hs).
  - intros x _. destruct (tx_clear_ok t x) as (x' & Hc & ? & ?). exists x'. by rewrite Hc.
  - exists e'. by rewrite He.
Qed.

(** ** The reputation table fulfils the reputation contract *)
Context {HO : HashOrder}.

#[global] Program Instance db_reputation_laws : ReputationEntryLaws env := {|
  rep_view e := env_view EntitiesReputation e;
|}.
Next Obligation.
  intros e a. apply read_tx_ok. intros x Hx. rewrite tx_get_ok, Hx; simpl. by rewrite commit_ro_ok.
Qed.
Next Obligation.
  intros e a. simpl. unfold db_contains_entry, db_get_entry.
  rewrite (read_tx_ok _ _ _ (env_view EntitiesReputation e !! a)); [done|].
  intros x Hx. rewrite tx_get_ok, Hx; simpl. by rewrite commit_ro_ok.
Qed.
Next Obligation.
  intros e ent. simpl. unfold db_set_entry.
  destruct (put_commit rep_err (λ tx,
    let* original := tx_get EntitiesReputation ent.(re_address) tx in
    let* tx := tx_put EntitiesReputation ent.(re_address) ent tx in
    Ok (original, Some tx)) e (env_view EntitiesReputation e !! ent.(re_address))
    EntitiesReputation ent.(re_address) ent) as (e' & He & Hv & _).
  - intros x Hx. by rewrite tx_get_ok, Hx.
  - by exists e'.
Qed.
Next Obligation.
  intros e. simpl. unfold db_entries. destruct (begin_ro_ok e) as (x & Hx & Hs).
  destruct (tx_walk_ok EntitiesReputation x) as (l & Hl & Hp).
  unfold read_tx. rewrite Hx; simpl. rewrite Hl; simpl. rewrite commit_ro_ok; simpl.
  by rewrite Hp, Hs.
Qed.
Next Obligation.
  intros E e. destruct (db_clear_ok (E:=E) EntitiesReputation e) as (e' & He & Hv & _). by exists e'.
Qed.

(** ** What the mempool tables do *)
Definition db_view e : View := {|
  v_uos := env_view UserOperations e; v_by_sender := env_view BySender e;
  v_by_entity := env_view ByEntity e; v_codes := env_view CodeHashes e |}.

Lemma db_view_sets_uos m e e' : sets_table UserOperations m e e' →
  db_view e' = with_uos (λ _, m) (db_view e).
Proof.
  intros [Hm Ho]. unfold db_view, with_uos; simpl. rewrite Hm, !Ho by done. done.
Qed.

Lemma db_view_sets_index t m e e' : sets_table (db_table t) (of_set <$> m) e e' →
  db_view e' = with_index t (λ _, m) (db_view e).
Proof.
  intros [Hm Ho]. unfold db_view, with_index.
  destruct t; simpl in *; rewrite Hm, !Ho by done; f_equal; apply map_fmap_id.
Qed.

Lemma db_add_acts uo e :
  acts db_view (db_add uo) e uo.(uo_hash) (with_uos <[uo.(uo_hash) := uo.(user_operation)]>).
Proof.
  destruct (put_commit mp_err (λ tx,
    let* tx := tx_put UserOperations uo.(uo_hash) uo.(user_operation) tx in
    Ok (uo.(uo_hash), Some tx)) e uo.(uo_hash) UserOperations uo.(uo_hash) uo.(user_operation))
    as (e' & He & Hs); [done|].
  exists e'. split; [done|]. by rewrite (db_view_sets_uos _ _ _ Hs).
Qed.

Lemma db_remove_by_uo_hash_acts h e :
  acts db_view (db_remove_by_uo_hash h) e (bool_decide (is_Some ((db_view e).(v_uos) !! h)))
    (with_uos (delete h)).
Proof.
  destruct (delete_commit mp_err (λ tx,
    let* original_value := tx_get UserOperations h tx in
    let* tx := tx_delete UserOperations h tx in
    Ok (bool_decide (is_Some original_value), Some tx)) e
    (bool_decide (is_Some ((db_view e).(v_uos) !! h))) UserOperations h) as (e' & He & Hs).
  - intros x Hx. by rewrite tx_get_ok, Hx.
  - exists e'. split; [done|]. by rewrite (db_view_sets_uos _ _ _ Hs).
Qed.

Lemma of_to_set t (v : Value (db_table t)) : of_set (to_set v) = v.
Proof. by destruct t. Qed.

Lemma v_index_db e t : v_index (db_view e) t = to_set <$> env_view (db_table t) e.
Proof. destruct t; simpl; symmetry; apply map_fmap_id. Qed.

Lemma of_set_index e t : of_set <$> v_index (db_view e) t = env_view (db_table t) e.
Proof.
  rewrite v_index_db, <-map_fmap_compose. apply map_eq. intros k. rewrite lookup_fmap.
  destruct (env_view (db_table t) e !! k) as [v|]; simpl; [|done]. f_equal. apply of_to_set.
Qed.

Lemma db_hash_add_acts t a h e :
  acts db_view (db_hash_add t a h) e () (with_index t (index_add a h)).
Proof.
  destruct (put_commit mp_err (λ tx,
    let* o := tx_get (db_table t) a tx in
    match o with
    | Some uo_hash_set =>
        let* tx := tx_put (db_table t) a (of_set ({[h]} ∪ to_set uo_hash_set)) tx in
        Ok ((), Some tx)
    | None => let* tx := tx_put (db_table t) a (of_set ({[h]} ∪ ∅)) tx in Ok ((), Some tx)
    end) e () (db_table t) a (of_set ({[h]} ∪ default ∅ (v_index (db_view e) t !! a))))
    as (e' & He & Hs).
  - intros x Hx. rewrite tx_get_ok, Hx, v_index_db, lookup_fmap. simpl. by destruct (_ !! a).
  - exists e'. split; [done|].
    rewrite (db_view_sets_index t (index_add a h (v_index (db_view e) t)) e e').
    + by destruct t.
    + unfold index_add. by rewrite fmap_insert, of_set_index.
Qed.

Lemma db_view_sets_sender (m : gmap Address (gset UserOperationHash)) e e' :
  sets_table BySender m e e' →
  db_view e' = with_index UserOperationsBySender (λ _, m) (db_view e).
Proof.
  intros [Hm Ho]. unfold db_view, with_index; simpl. rewrite Hm, !Ho by done. done.
Qed.

(** both tables remove from the sender table *)
Lemma db_remove_uo_hash_acts t a h e :
  acts db_view (db_remove_uo_hash t a h) e
    (bool_decide (is_Some ((db_view e).(v_by_sender) !! a)))
    (with_index UserOperationsBySender (index_remove a h)).
Proof.
  set (m := v_by_sender (db_view e)). unfold db_remove_uo_hash.
  assert (Hget : ∀ x, snapshot e x → tx_get BySender a x = Ok (m !! a)).
  { intros x Hx. by rewrite tx_get_ok, Hx. }
  match goal with |- acts _ (write_tx _ ?body) _ _ _ => set (b := body) end.
  assert (∀ e', sets_table BySender (index_remove a h m) e e' →
    db_view e' = with_index UserOperationsBySender (index_remove a h) (db_view e)) as Hview.
  { intros e' Hs. by rewrite (db_view_sets_sender _ _ _ Hs). }
  unfold index_remove in Hview at 1. destruct (m !! a) as [hs|] eqn:Ha.
  - case_decide as Hd.
    + destruct (delete_commit mp_err b e true BySender a) as (e' & He & Hs).
      { intros x Hx. unfold b. rewrite (Hget x Hx); simpl. by rewrite bool_decide_eq_true_2. }
      exists e'. split; [by rewrite He|by apply Hview].
    + destruct (put_commit mp_err b e true BySender a (hs ∖ {[h]})) as (e' & He & Hs).
      { intros x Hx. unfold b. rewrite (Hget x Hx); simpl. by rewrite bool_decide_eq_false_2. }
      exists e'. split; [by rewrite He|by apply Hview].
  - exists e. split; [|by apply Hview].
    apply write_tx_drop. intros x Hx. unfold b. by rewrite (Hget x Hx).
Qed.

(** nothing is removed *)
Lemma db_remove_code_hashes_acts h e :
  acts db_view (db_remove_code_hashes h) e
    (bool_decide (is_Some ((db_view e).(v_codes) !! h))) (λ v, v).
Proof.
  exists e. split; [|done]. apply write_tx_drop. intros x Hx. rewrite tx_get_ok, Hx; simpl.
  case_bool_decide; [|done]. by destruct (tx_delete_ok CodeHashes h x) as (x' & -> & _).
Qed.

Lemma db_get_by_uo_hash_eq e h :
  db_get_by_uo_hash e h = Ok (from_user_operation_signed h <$> (db_view e).(v_uos) !! h).
Proof.
  apply read_tx_ok. intros x Hx. rewrite tx_get_ok, Hx; simpl. by rewrite commit_ro_ok.
Qed.

Lemma db_get_all_by_address_perm t e a :
  db_get_all_by_address t e a ≡ₚ elements (idx (db_view e) t a).
Proof.
  unfold db_get_all_by_address, idx.
  rewrite (read_tx_ok _ _ _ (from_option iter_set [] (v_index (db_view e) t !! a))).
  - destruct (_ !! a); simpl; [apply iter_set_perm|done].
  - intros x Hx. rewrite tx_get_ok, Hx, v_index_db, lookup_fmap. by destruct (_ !! a).
Qed.
End transactions.

(** ** [Mempool::add] and [Mempool::remove] over the database *)
Section mempool_on_database.
Context {M : Mdbx} {MOk : MdbxOk M} {HO : HashOrder}.
Implicit Types (e : env).

(** the sender table lists exactly the stored operations *)
Definition sender_exact (v : View) : Prop :=
  ∀ a h, h ∈ idx v UserOperationsBySender a ↔ ∃ uo, v.(v_uos) !! h = Some uo ∧ uo.(uo_sender) = a.

Lemma db_mempool_add_acts uo e : acts db_view (add uo) e uo.(uo_hash) (view_add uo).
Proof.
  unfold add; simpl. eapply acts_eq.
  { eapply acts_seq; [eexists; apply db_add_acts|intros e1].
    eapply acts_seq; [eexists; apply db_hash_add_acts|intros e2].
    eapply acts_seq; [eexists; apply when_some_acts; intros; eexists; apply db_hash_add_acts|intros e3].
    eapply acts_seq; [eexists; apply when_some_acts; intros; eexists; apply db_hash_add_acts|intros e4].
    apply acts_ret. }
  reflexivity.
Qed.

Definition db_view_remove (h : UserOperationHash) (uo : UserOperationSigned) (v : View) : View :=
  on_option (paymaster_of uo) (λ p, with_index UserOperationsBySender (index_remove p h))
  (on_option (factory_of uo) (λ f, with_index UserOperationsBySender (index_remove f h))
  (with_index UserOperationsBySender (index_remove uo.(uo_sender) h)
  (with_uos (delete h) v))).

Lemma db_mempool_remove_acts h (uo : UserOperationSigned) e :
  (db_view e).(v_uos) !! h = Some uo → acts db_view (remove h) e true (db_view_remove h uo).
Proof.
  intros Hh. unfold remove. eapply acts_eq.
  { eapply (acts_bind _ _ _ _ _ (λ v, v)).
    { exists e. unfold st_get. simpl. by rewrite db_get_by_uo_hash_eq, Hh. }
    intros e0; simpl. eapply acts_seq; [eexists; apply db_remove_by_uo_hash_acts|intros e1].
    eapply acts_seq; [eexists; apply db_remove_uo_hash_acts|intros e2].
    eapply acts_seq;
      [eexists; apply when_some_acts; intros; eexists; apply db_remove_uo_hash_acts|intros e3].
    eapply acts_seq;
      [eexists; apply when_some_acts; intros; eexists; apply db_remove_uo_hash_acts|intros e4].
    eapply acts_seq; [eexists; apply db_remove_code_hashes_acts|intros e5].
    apply acts_ret. }
  reflexivity.
Qed.

Lemma db_view_remove_uos h uo v : v_uos (db_view_remove h uo v) = delete h (v_uos v).
Proof. unfold db_view_remove. by destruct (paymaster_of uo), (factory_of uo). Qed.
Lemma db_view_remove_codes h uo v : v_codes (db_view_remove h uo v) = v_codes v.
Proof. unfold db_view_remove. by destruct (paymaster_of uo), (factory_of uo). Qed.
Lemma db_view_remove_entity h uo v : v_by_entity (db_view_remove h uo v) = v_by_entity v.
Proof. unfold db_view_remove. by destruct (paymaster_of uo), (factory_of uo). Qed.

Lemma db_view_remove_sender h (uo : UserOperationSigned) v a : sender_exact v → v.(v_uos) !! h = Some uo →
  idx (db_view_remove h uo v) UserOperationsBySender a = idx v UserOperationsBySender a ∖ {[h]}.
Proof.
  intros Hs Hh. unfold db_view_remove.
  set (v0 := with_uos _ v). change (idx v) with (idx v0).
  assert (h ∈ idx v0 UserOperationsBySender a → uo_sender uo = a) as Hin.
  { intros (q & Hq & <-)%(Hs a h). congruence. }
  destruct (paymaster_of uo) as [p|], (factory_of uo) as [f|]; simpl;
    rewrite !idx_index_remove; repeat case_decide; set_solver.
Qed.

(** On the database, [Mempool::remove] deletes the
    operation and keeps the sender index exact, but leaves the entity index and
    the code hashes of the removed operation as they were. *)
Theorem db_remove_effect h uo e :
  sender_exact (db_view e) → (db_view e).(v_uos) !! h = Some uo →
  ∃ e', remove h e = (Ok true, e') ∧
    (db_view e').(v_uos) = delete h (db_view e).(v_uos) ∧ sender_exact (db_view e') ∧
    (db_view e').(v_by_entity) = (db_view e).(v_by_entity) ∧
    (db_view e').(v_codes) = (db_view e).(v_codes).
Proof.
  intros Hs Hh. destruct (db_mempool_remove_acts h uo e Hh) as (e' & He & Hv).
  exists e'. rewrite Hv, db_view_remove_uos, db_view_remove_entity, db_view_remove_codes.
  split_and!; try done. intros a h'.
  rewrite db_view_remove_sender, db_view_remove_uos, elem_of_difference, (Hs a h') by done.
  setoid_rewrite lookup_delete_Some. set_solver.
Qed.

(** add an operation and remove it again, for each of a list *)
Definition add_remove (uo : UserOperation) : ST env MempoolErrorKind () :=
  do* _ := add uo in do* _ := remove uo.(uo_hash) in st_ret ().

Lemma add_remove_acts uo e : ∃ e',
  add_remove uo e = (Ok (), e') ∧
  (db_view e').(v_uos) = delete uo.(uo_hash) (db_view e).(v_uos) ∧
  ∀ p, paymaster_of uo = Some p →
    idx (db_view e') UserOperationsByEntity p =
      {[uo.(uo_hash)]} ∪ idx (db_view e) UserOperationsByEntity p.
Proof.
  destruct (db_mempool_add_acts uo e) as (e1 & Ha & Hv1).
  destruct (db_mempool_remove_acts uo.(uo_hash) uo e1) as (e2 & Hr & Hv2).
  { by rewrite Hv1, v_uos_view_add, lookup_insert_eq. }
  exists e2. unfold add_remove. rewrite (st_bind_step _ _ _ _ _ Ha), (st_bind_step _ _ _ _ _ Hr).
  split; [done|]. split.
  - by rewrite Hv2, db_view_remove_uos, Hv1, v_uos_view_add, delete_insert_eq.
  - intros p Hp. transitivity (idx (db_view e1) UserOperationsByEntity p).
    + unfold idx, v_index. by rewrite Hv2, db_view_remove_entity.
    + rewrite Hv1, idx_view_add, decide_True; [done|]. by right.
Qed.

(** On the database the entity counter never goes
    down: after adding and removing operations with distinct hashes and one
    paymaster, none of them is stored but the paymaster is still charged with
    all of them. *)
Theorem db_entity_count_leaks uos p e :
  NoDup (uo_hash <$> uos) → Forall (λ uo : UserOperation, paymaster_of uo = Some p) uos →
  idx (db_view e) UserOperationsByEntity p = ∅ →
  ∃ e', st_for uos add_remove e = (Ok (), e') ∧
    (∀ uo, uo ∈ uos → get e' uo.(uo_hash) = Ok None) ∧
    get_number_by_entity e' p = length uos.
Proof.
  intros Hnd Hp He0.
  assert (∃ e', st_for uos add_remove e = (Ok (), e') ∧
    (∀ h, (db_view e).(v_uos) !! h = None → (db_view e').(v_uos) !! h = None) ∧
    (∀ uo, uo ∈ uos → (db_view e').(v_uos) !! uo.(uo_hash) = None) ∧
    idx (db_view e') UserOperationsByEntity p =
      list_to_set (uo_hash <$> uos) ∪ idx (db_view e) UserOperationsByEntity p)
    as (e' & Hrun & _ & Hgone & Hidx).
  { clear Hnd He0. revert e. induction Hp as [|uo uos Hp _ IH]; intros e.
    - exists e. split; [done|]. split; [done|]. split; [set_solver|]. simpl. set_solver.
    - destruct (add_remove_acts uo e) as (e1 & He1 & Hu1 & Hi1).
      destruct (IH e1) as (e2 & He2 & Hk2 & Hg2 & Hi2). exists e2. simpl.
      rewrite (st_bind_step _ _ _ _ _ He1). split_and!.
      + done.
      + intros h Hh. apply Hk2. rewrite Hu1. apply lookup_delete_None. by right.
      + intros q [->|Hq]%elem_of_cons; [|by apply Hg2].
        apply Hk2. by rewrite Hu1, lookup_delete_eq.
      + rewrite Hi2, (Hi1 p Hp). set_solver. }
  exists e'. split; [done|]. split.
  - intros uo Huo. unfold get; simpl. by rewrite db_get_by_uo_hash_eq, Hgone.
  - change (length (db_get_all_by_address UserOperationsByEntity e' p) = length uos).
    rewrite db_get_all_by_address_perm, Hidx, He0, union_empty_r_L.
    rewrite elements_list_to_set by done. by rewrite length_fmap.
Qed.
End mempool_on_database.

(** ** An environment that fulfils [MdbxOk]: tables as maps *)
Module Example.
#[local] Existing Instance canonical_order.

Record tables := {
  t_uos : gmap Z UserOperationSigned;
  t_sender : gmap Z (gset UserOperationHash);
  t_entity : gmap Z (gset UserOperationHash);
  t_codes : gmap Z (list CodeHash);
  t_rep : gmap Z ReputationEntry;
}.

Definition tbl (t : DbTable) (d : tables) : gmap Z (Value t) :=
  match t with
  | UserOperations => d.(t_uos) | BySender => d.(t_sender) | ByEntity => d.(t_entity)
  | CodeHashes => d.(t_codes) | EntitiesReputation => d.(t_rep)
  end.
Definition set_tbl (t : DbTable) : gmap Z (Value t) → tables → tables :=
  match t with
  | UserOperations => λ m d, Build_tables m d.(t_sender) d.(t_entity) d.(t_codes) d.(t_rep)
  | BySender => λ m d, Build_tables d.(t_uos) m d.(t_entity) d.(t_codes) d.(t_rep)
  | ByEntity => λ m d, Build_tables d.(t_uos) d.(t_sender) m d.(t_codes) d.(t_rep)
  | CodeHashes => λ m d, Build_tables d.(t_uos) d.(t_sender) d.(t_entity) m d.(t_rep)
  | EntitiesReputation => λ m d, Build_tables d.(t_uos) d.(t_sender) d.(t_entity) d.(t_codes) m
  end.

Definition map_mdbx : Mdbx := {|
  env := tables; txn := tables;
  begin_ro d := Ok d; begin_rw d := Ok d;
  tx_get t k d := Ok (tbl t d !! k);
  tx_put t k v d := Ok (set_tbl t (<[k := v]> (tbl t d)) d);
  tx_delete t k d := Ok (set_tbl t (delete k (tbl t d)) d);
  tx_clear t d := Ok (set_tbl t ∅ d);
  tx_walk t d := Ok (map_to_list (tbl t d));
  commit x _ := Ok x; commit_ro _ := Ok ();
|}.

Lemma tbl_set_tbl t m d : tbl t (set_tbl t m d) = m.
Proof. by destruct t. Qed.
Lemma tbl_set_tbl_ne t t' m d : t' ≠ t → tbl t' (set_tbl t m d) = tbl t' d.
Proof. by destruct t, t'. Qed.

#[local] Existing Instance map_mdbx.
#[local] Instance map_mdbx_ok : MdbxOk map_mdbx.
Proof.
  refine (Build_MdbxOk map_mdbx tbl tbl _ _ _ _ _ _ _ _ _); simpl; eauto.
  all: intros; eexists; split; [done|].
  all: split; [apply tbl_set_tbl|intros; by apply tbl_set_tbl_ne].
Defined.

Definition empty_env : env := Build_tables ∅ ∅ ∅ ∅ ∅.
Definition paymaster_uo (h nonce : Z) : UserOperation := from_user_operation_signed h {|
  uo_sender := 9; uo_nonce := nonce; uo_init_code := []; uo_call_data := [];
  uo_call_gas_limit := 0; uo_verification_gas_limit := 0; uo_pre_verification_gas := 0;
  uo_max_fee_per_gas := 0; uo_max_priority_fee_per_gas := 0;
  uo_paymaster_and_data := repeat Byte.x00 19 ++ [Byte.x07]; uo_signature := [] |}.

Definition env1 : env :=
  Build_tables {[1 := paymaster_uo 1 0 : UserOperationSigned]} {[9 := {[1]}]} {[7 := {[1]}]} ∅ ∅.

Lemma db_remove_effect_witness :
  ∃ e', remove 1 env1 = (Ok true, e') ∧
    (db_view e').(v_by_entity) = {[7 := {[1]}]}.
Proof.
  destruct (db_remove_effect 1 (paymaster_uo 1 0 : UserOperationSigned) env1) as (e' & He & _ & _ & Hb & _).
  - intros a h. unfold idx; simpl. setoid_rewrite lookup_singleton_Some. split.
    + destruct (decide (a = 9)) as [->|]; [|rewrite lookup_singleton_ne by done; set_solver].
      rewrite lookup_singleton_eq; simpl. intros ->%elem_of_singleton. by eexists.
    + intros (uo & [-> <-] & <-). simpl. rewrite lookup_singleton_eq; simpl. set_solver.
  - done.
  - by exists e'.
Defined.

Lemma db_entity_count_leaks_witness :
  ∃ e', st_for [paymaster_uo 1 0; paymaster_uo 2 1] add_remove empty_env = (Ok (), e') ∧
    get_number_by_entity e' 7 = 2%nat.
Proof.
  destruct (db_entity_count_leaks [paymaster_uo 1 0; paymaster_uo 2 1] 7 empty_env)
    as (e' & He & _ & Hn).
  - apply (bool_decide_unpack _). by vm_compute.
  - repeat constructor; by vm_compute.
  - done.
  - by exists e'.
Defined.
End Example.
