(* ===== verification/DbCodec.v ===== *)
(** The bytes of the database ([crates/mempool/src/database/utils.rs],
    [tables.rs]) and its opening ([env.rs], [mod.rs]): how keys and values are
    written and read back, and which tables an opened environment has.  The ABI
    codec of a tuple, the length prefix of the layout library, the file system
    and the storage engine are library code and parameters. *)

From S2P Require Import Prelude Primitives Errors AbiStd Reputation Mempool Database.

(** errors of [reth_db], with the text of their cause *)
Inductive RethDatabaseError :=
| DatabaseLocation (e : string)
| InitTransaction (e : string)
| TableCreation (e : string)
| CommitFailed (e : string)
| DecodeError.

(** ** Libraries *)
(** fields of a tuple of the contract ABI *)
Inductive Token :=
| TAddress (a : Address)
| TUint (z : Z)
| TBytes (b : bytes)
| TFixedBytes (b : bytes).
Inductive ParamType := PAddress | PUint (bits : Z) | PBytes | PFixedBytes (n : nat).
Class DbLib := {
  (** one tuple with these fields *)
  abi_encode_tuple : list Token → bytes;
  abi_decode_tuple : list ParamType → bytes → option (list Token);
  (** the number of elements in front of a collection *)
  len_encode : nat → bytes;
  len_decode : bytes → option (nat * bytes);
}.
Definition token_typed (ty : ParamType) (tok : Token) : Prop :=
  match ty, tok with
  | PAddress, TAddress a => is_address a
  | PUint n, TUint z => 0 ≤ z < 2 ^ n
  | PBytes, TBytes _ => True
  | PFixedBytes n, TFixedBytes b => length b = n
  | _, _ => False
  end.
(** lengths are 32-bit numbers *)
Definition MAX_LEN : Z := 2 ^ 32.
Class DbLibOk (L : DbLib) := {
  abi_tuple_roundtrip tys toks :
    Forall2 token_typed tys toks → abi_decode_tuple tys (abi_encode_tuple toks) = Some toks;
  len_roundtrip n rest :
    Z.of_nat n < MAX_LEN → len_decode (len_encode n ++ rest) = Some (n, rest);
}.

(** ** [construct_wrap_hash!] *)
Definition wrap_hash_encode (n : nat) (v : Z) : bytes := Z_to_be n v.
(** [from_slice] panics on a slice of another length *)
Definition wrap_hash_decode (n : nat) (value : bytes) : comp RethDatabaseError Z :=
  if bool_decide (length value = n) then Ok (from_slice value) else Panic.
Definition WrapAddress_n : nat := 20.
Definition WrapUserOperationHash_n : nat := 32.

(** ** [construct_wrap_struct!] *)
Class AbiStruct (V : Type) := {
  param_types : list ParamType;
  into_tokens : V → list Token;
  from_tokens : list Token → option V;
}.
Section structs.
Context {L : DbLib} {V : Type} `{!AbiStruct V}.
Definition wrap_struct_compress (v : V) : bytes := abi_encode_tuple (into_tokens v).
Definition wrap_struct_decompress (value : bytes) : comp RethDatabaseError V :=
  ok_or DecodeError (toks ← abi_decode_tuple param_types value; from_tokens toks).
End structs.

#[export] Instance code_hash_abi : AbiStruct CodeHash := {|
  param_types := [PAddress; PFixedBytes 32];
  into_tokens c := [TAddress c.(ch_address); TFixedBytes (Z_to_be 32 c.(ch_hash))];
  from_tokens toks :=
    match toks with
    | [TAddress a; TFixedBytes h] => Some {| ch_address := a; ch_hash := from_slice h |}
    | _ => None
    end;
|}.
#[export] Instance user_operation_abi : AbiStruct UserOperationSigned := {|
  param_types := [PAddress; PUint 256; PBytes; PBytes; PUint 256; PUint 256; PUint 256; PUint 256;
                  PUint 256; PBytes; PBytes];
  into_tokens u := [TAddress u.(uo_sender); TUint u.(uo_nonce); TBytes u.(uo_init_code);
    TBytes u.(uo_call_data); TUint u.(uo_call_gas_limit); TUint u.(uo_verification_gas_limit);
    TUint u.(uo_pre_verification_gas); TUint u.(uo_max_fee_per_gas);
    TUint u.(uo_max_priority_fee_per_gas); TBytes u.(uo_paymaster_and_data); TBytes u.(uo_signature)];
  from_tokens toks :=
    match toks with
    | [TAddress s; TUint n; TBytes ic; TBytes cd; TUint cgl; TUint vgl; TUint pvg; TUint mf; TUint mp;
       TBytes pd; TBytes sg] =>
        Some {| uo_sender := s; uo_nonce := n; uo_init_code := ic; uo_call_data := cd;
                uo_call_gas_limit := cgl; uo_verification_gas_limit := vgl;
                uo_pre_verification_gas := pvg; uo_max_fee_per_gas := mf;
                uo_max_priority_fee_per_gas := mp; uo_paymaster_and_data := pd; uo_signature := sg |}
    | _ => None
    end;
|}.
#[export] Instance reputation_entry_abi : AbiStruct ReputationEntry := {|
  param_types := [PAddress; PUint 64; PUint 64; PUint 64];
  into_tokens e :=
    [TAddress e.(re_address); TUint e.(uo_seen); TUint e.(uo_included); TUint e.(re_status)];
  from_tokens toks :=
    match toks with
    | [TAddress a; TUint seen; TUint included; TUint status] =>
        Some {| re_address := a; uo_seen := seen; uo_included := included; re_status := status |}
    | _ => None
    end;
|}.

(** ** [Encoder] and [Decoder]: bytes of a fixed number, and collections *)
Section layout.
Context {L : DbLib} {HO : HashOrder}.

(** [<[u8; n]>::decoder] *)
Definition array_decoder (n : nat) (data : bytes) : option (bytes * bytes) :=
  if bool_decide (n ≤ length data)%nat then Some (take n data, drop n data) else None.

Definition uo_hash_decoder (data : bytes) : option (UserOperationHash * bytes) :=
  '(d, rest) ← array_decoder 32 data; Some (from_slice d, rest).
Definition uo_hash_encoder (h : UserOperationHash) : bytes := Z_to_be 32 h.

Definition code_hash_decoder (data : bytes) : option (CodeHash * bytes) :=
  '(address, data) ← array_decoder 20 data;
  '(hash, data) ← array_decoder 32 data;
  Some ({| ch_address := from_slice address; ch_hash := from_slice hash |}, data).
Definition code_hash_encoder (c : CodeHash) : bytes :=
  Z_to_be 20 c.(ch_address) ++ Z_to_be 32 c.(ch_hash).

Definition seq_encoder {X} (enc : X → bytes) (xs : list X) : bytes :=
  len_encode (length xs) ++ concat (enc <$> xs).
Fixpoint items_decoder {X} (dec : bytes → option (X * bytes)) (n : nat) (data : bytes)
  : option (list X * bytes) :=
  match n with
  | O => Some ([], data)
  | S n => '(x, data) ← dec data; '(xs, data) ← items_decoder dec n data; Some (x :: xs, data)
  end.
Definition seq_decoder {X} (dec : bytes → option (X * bytes)) (data : bytes) : option (list X) :=
  '(n, data) ← len_decode data; fst <$> items_decoder dec n data.

(** ** [WrapUserOpSet] *)
Definition set_insert (value : UserOperationHash) (s : gset UserOperationHash)
  : bool * gset UserOperationHash := (bool_decide (value ∉ s), {[value]} ∪ s).
Definition set_remove (value : UserOperationHash) (s : gset UserOperationHash)
  : bool * gset UserOperationHash := (bool_decide (value ∈ s), s ∖ {[value]}).
Definition set_is_empty (s : gset UserOperationHash) : bool := bool_decide (s = ∅).
Definition set_to_vec (s : gset UserOperationHash) : list UserOperationHash := iter_set s.
Definition set_compress (s : gset UserOperationHash) : bytes := seq_encoder uo_hash_encoder (iter_set s).
Definition set_decompress (value : bytes) : comp RethDatabaseError (gset UserOperationHash) :=
  ok_or DecodeError (list_to_set <$> seq_decoder uo_hash_decoder value).

(** ** [WrapCodeHashVec] *)
Definition code_hashes_compress (l : list CodeHash) : bytes := seq_encoder code_hash_encoder l.
Definition code_hashes_decompress (value : bytes) : comp RethDatabaseError (list CodeHash) :=
  ok_or DecodeError (seq_decoder code_hash_decoder value).

(** ** The tables: the type of the key and of the value *)
Definition key_bytes (t : DbTable) : nat :=
  match t with
  | UserOperations | CodeHashes => WrapUserOperationHash_n
  | BySender | ByEntity | EntitiesReputation => WrapAddress_n
  end.
Definition compress (t : DbTable) : Value t → bytes :=
  match t with
  | UserOperations => wrap_struct_compress
  | BySender | ByEntity => set_compress
  | CodeHashes => code_hashes_compress
  | EntitiesReputation => wrap_struct_compress
  end.
Definition decompress (t : DbTable) : bytes → comp RethDatabaseError (Value t) :=
  match t with
  | UserOperations => wrap_struct_decompress
  | BySender | ByEntity => set_decompress
  | CodeHashes => code_hashes_decompress
  | EntitiesReputation => wrap_struct_decompress
  end.
End layout.

(** ** Round trips *)
Section roundtrips.
Context {L : DbLib} {LOk : DbLibOk L} {HO : HashOrder}.

Lemma from_slice_word n z : 0 ≤ z < 2 ^ (8 * Z.of_nat n) → from_slice (Z_to_be n z) = z.
Proof. apply be_to_Z_to_be. Qed.
Lemma array_decoder_word n z rest : array_decoder n (Z_to_be n z ++ rest) = Some (Z_to_be n z, rest).
Proof.
  unfold array_decoder. rewrite bool_decide_eq_true_2 by (rewrite length_app, length_Z_to_be; lia).
  rewrite take_app_length', drop_app_length' by (by rewrite length_Z_to_be). done.
Qed.

Definition is_h256 (z : Z) : Prop := 0 ≤ z < 2 ^ 256.
Lemma u256_h256 z : is_u256 z → is_h256 z.
Proof. unfold is_u256, U256_MAX, is_h256. lia. Qed.
Lemma uo_hash_roundtrip h rest :
  is_h256 h → uo_hash_decoder (uo_hash_encoder h ++ rest) = Some (h, rest).
Proof.
  intros Hh. unfold uo_hash_decoder, uo_hash_encoder. rewrite array_decoder_word. cbn.
  by rewrite from_slice_word.
Qed.
Definition code_hash_wf (c : CodeHash) : Prop := is_address c.(ch_address) ∧ is_h256 c.(ch_hash).
Lemma code_hash_roundtrip c rest :
  code_hash_wf c → code_hash_decoder (code_hash_encoder c ++ rest) = Some (c, rest).
Proof.
  intros [Ha Hh]. unfold code_hash_decoder, code_hash_encoder. rewrite <-app_assoc, array_decoder_word.
  cbn [mbind option_bind]. rewrite array_decoder_word. cbn [mbind option_bind].
  rewrite !from_slice_word by done. by destruct c.
Qed.

Section sequences.
Context {X : Type} (enc : X → bytes) (dec : bytes → option (X * bytes)) (wf : X → Prop).
Hypothesis item_roundtrip : ∀ x rest, wf x → dec (enc x ++ rest) = Some (x, rest).

Lemma items_roundtrip xs rest :
  Forall wf xs → items_decoder dec (length xs) (concat (enc <$> xs) ++ rest) = Some (xs, rest).
Proof using item_roundtrip.
  induction 1 as [|x xs Hx _ IH]; [done|]. cbn [length fmap list_fmap concat items_decoder].
  rewrite <-app_assoc, item_roundtrip by done. cbn [mbind option_bind]. by rewrite IH.
Qed.
Lemma seq_roundtrip xs :
  Forall wf xs → Z.of_nat (length xs) < MAX_LEN → seq_decoder dec (seq_encoder enc xs) = Some xs.
Proof using LOk item_roundtrip.
  intros Hwf Hlen. unfold seq_decoder, seq_encoder. rewrite len_roundtrip by done. cbn [mbind option_bind].
  rewrite <-(app_nil_r (concat _)), items_roundtrip by done. done.
Qed.
End sequences.

Lemma struct_roundtrip {V} `{!AbiStruct V} (v : V) :
  Forall2 token_typed param_types (into_tokens v) → from_tokens (into_tokens v) = Some v →
  wrap_struct_decompress (wrap_struct_compress v) = Ok v.
Proof using LOk.
  intros Ht Hf. unfold wrap_struct_decompress, wrap_struct_compress.
  rewrite abi_tuple_roundtrip by done. simpl. by rewrite Hf.
Qed.

Definition value_wf (t : DbTable) : Value t → Prop :=
  match t with
  | UserOperations => uo_wf
  | BySender | ByEntity => λ s, set_Forall is_h256 s ∧ Z.of_nat (size s) < MAX_LEN
  | CodeHashes => λ l, Forall code_hash_wf l ∧ Z.of_nat (length l) < MAX_LEN
  | EntitiesReputation => λ e, is_address e.(re_address) ∧ 0 ≤ e.(uo_seen) < 2 ^ 64 ∧
                               0 ≤ e.(uo_included) < 2 ^ 64 ∧ 0 ≤ e.(re_status) < 2 ^ 64
  end.
Definition key_wf (t : DbTable) (k : Z) : Prop := 0 ≤ k < 2 ^ (8 * Z.of_nat (key_bytes t)).

Lemma set_roundtrip s :
  set_Forall is_h256 s → Z.of_nat (size s) < MAX_LEN → set_decompress (set_compress s) = Ok s.
Proof using LOk.
  intros Hs Hlen. unfold set_decompress, set_compress.
  rewrite (seq_roundtrip uo_hash_encoder uo_hash_decoder is_h256 uo_hash_roundtrip).
  - simpl. f_equal. apply leibniz_equiv. intros h. rewrite elem_of_list_to_set. apply elem_of_iter_set.
  - apply Forall_forall. intros h Hh%elem_of_iter_set. by apply Hs.
  - by rewrite length_iter_set.
Qed.

Lemma value_roundtrip t (v : Value t) : value_wf t v → decompress t (compress t v) = Ok v.
Proof using LOk.
  destruct t; simpl.
  - intros Hwf. unfold uo_wf in Hwf. destruct_and? Hwf.
    repeat match goal with H : is_u256 _ |- _ => apply u256_h256 in H end. apply struct_roundtrip; [by repeat (constructor; [done|])|by destruct v].
  - intros [? ?]. by apply set_roundtrip.
  - intros [? ?]. by apply set_roundtrip.
  - intros [Hwf Hlen]. unfold code_hashes_decompress, code_hashes_compress.
    by rewrite (seq_roundtrip code_hash_encoder code_hash_decoder code_hash_wf code_hash_roundtrip).
  - intros (?&?&?&?). apply struct_roundtrip; [by repeat (constructor; [done|])|by destruct v].
Qed.
Lemma key_roundtrip t k :
  key_wf t k → wrap_hash_decode (key_bytes t) (wrap_hash_encode (key_bytes t) k) = Ok k.
Proof.
  intros Hk. unfold wrap_hash_decode, wrap_hash_encode.
  rewrite bool_decide_eq_true_2 by apply length_Z_to_be. f_equal. by apply be_to_Z_to_be.
Qed.
End roundtrips.

(** ** Opening ([env.rs]) *)
Definition const_name (t : DbTable) : string :=
  match t with
  | UserOperations => "UserOperations"
  | BySender => "UserOperationsBySender"
  | ByEntity => "UserOperationsByEntity"
  | CodeHashes => "CodeHashes"
  | EntitiesReputation => "EntitiesReputation"
  end.
Inductive TableType := TTable | TDupSort.
Definition TABLES : list (TableType * string) :=
  [ (TTable, const_name UserOperations); (TTable, const_name BySender); (TTable, const_name ByEntity);
    (TTable, const_name CodeHashes); (TTable, const_name EntitiesReputation) ].

Definition clamp (x lo hi : Z) : Z := if bool_decide (x < lo) then lo else if bool_decide (hi < x) then hi else x.
Definition default_page_size (os_page_size : Z) : Z := clamp os_page_size 4096 0x10000.

Record Geometry := {
  geo_size : Z * Z;
  growth_step : Z;
  shrink_threshold : option Z;
  geo_page_size : Z;
}.
Record EnvironmentFlags := {
  rw_durable : bool;
  no_rdahead : bool;
  coalesce : bool;
}.
Record EnvOptions := {
  max_dbs : nat;
  geometry : Geometry;
  env_flags : EnvironmentFlags;
}.
Definition open_options (os_page_size : Z) : EnvOptions := {|
  max_dbs := length TABLES;
  geometry := {| geo_size := (0, 1024 * 1024 * 1024 * 1024 * 4); growth_step := 1024 * 1024 * 256;
                 shrink_threshold := None; geo_page_size := default_page_size os_page_size |};
  env_flags := {| rw_durable := true; no_rdahead := true; coalesce := true |};
|}.

(** the file system and the storage engine: the state is the disk *)
Class DbEngine := {
  Disk : Type;
  EngineEnv : Type;
  EngineTx : Type;
  os_page_size : Z;
  create_dir_all : string → Disk → comp string Disk;
  engine_open : EnvOptions → string → Disk → comp string (EngineEnv * Disk);
  engine_begin_rw : EngineEnv → Disk → comp string EngineTx;
  engine_create_db : string → TableType → EngineTx → comp string EngineTx;
  engine_commit : EngineTx → Disk → comp string Disk;
}.

(** [eyre::Error]: an I/O error or one of the database *)
Inductive OpenError := OpenIo (e : string) | OpenDb (e : RethDatabaseError).

Section opening.
Context {DE : DbEngine}.

Definition env_open (path : string) : ST Disk OpenError EngineEnv := λ disk,
  match create_dir_all path disk with
  | Ok disk =>
      match engine_open (open_options os_page_size) path disk with
      | Ok (env, disk) => (Ok env, disk)
      | Err e => (Err (OpenDb (DatabaseLocation e)), disk)
      | Panic => (Panic, disk)
      end
  | Err e => (Err (OpenIo e), disk)
  | Panic => (Panic, disk)
  end.

Definition create_tables (env : EngineEnv) : ST Disk OpenError () := λ disk,
  match (let* tx := map_err InitTransaction (engine_begin_rw env disk) in
         let* tx := comp_fold (λ tx '(table_type, table),
           map_err TableCreation (engine_create_db table table_type tx)) tx TABLES in
         map_err CommitFailed (engine_commit tx disk)) with
  | Ok disk' => (Ok (), disk')
  | Err e => (Err (OpenDb e), disk)
  | Panic => (Panic, disk)
  end.

Definition init_env (path : string) : ST Disk OpenError EngineEnv :=
  do* env := env_open path in
  do* _ := create_tables env in
  st_ret env.
End opening.

(** an engine without failures: what the named tables of an environment hold *)
Abbreviation Tables := (gmap string (gmap bytes bytes)).
Class DbEngineOk (DE : DbEngine) := {
  disk_view : string → Disk → Tables;
  env_path : EngineEnv → string;
  tx_path : EngineTx → string;
  tx_tables : EngineTx → Tables;
  create_dir_law : ∀ path disk, ∃ disk', create_dir_all path disk = Ok disk' ∧
    ∀ p, disk_view p disk' = disk_view p disk;
  engine_open_law : ∀ opts path disk, ∃ env disk', engine_open opts path disk = Ok (env, disk') ∧
    env_path env = path ∧ ∀ p, disk_view p disk' = disk_view p disk;
  begin_rw_law : ∀ env disk, ∃ tx, engine_begin_rw env disk = Ok tx ∧
    tx_path tx = env_path env ∧ tx_tables tx = disk_view (env_path env) disk;
  (** opening a table creates it when it is missing *)
  create_db_law : ∀ name ty tx, ∃ tx', engine_create_db name ty tx = Ok tx' ∧
    tx_path tx' = tx_path tx ∧
    tx_tables tx' = match tx_tables tx !! name with
                    | Some _ => tx_tables tx | None => <[name := ∅]> (tx_tables tx) end;
  commit_law : ∀ tx disk, ∃ disk', engine_commit tx disk = Ok disk' ∧
    disk_view (tx_path tx) disk' = tx_tables tx ∧
    ∀ p, p ≠ tx_path tx → disk_view p disk' = disk_view p disk;
}.

Section opened.
Context {DE : DbEngine} {DOk : DbEngineOk DE}.

Definition create_missing (m : Tables) (name : string) : Tables :=
  match m !! name with Some _ => m | None => <[name := ∅]> m end.
Lemma create_missing_lookup m name n :
  create_missing m name !! n =
  match m !! n with Some tbl => Some tbl | None => if bool_decide (n = name) then Some ∅ else None end.
Proof.
  unfold create_missing. destruct (m !! name) eqn:Hm.
  - destruct (m !! n) eqn:Hn; [done|]. rewrite bool_decide_eq_false_2; [done|congruence].
  - case_bool_decide as Hne; [subst; by rewrite lookup_insert_eq, Hm|].
    rewrite lookup_insert_ne by done. by destruct (m !! n).
Qed.
Lemma create_missing_all names m n :
  foldl create_missing m names !! n =
  match m !! n with Some tbl => Some tbl | None => if bool_decide (n ∈ names) then Some ∅ else None end.
Proof.
  revert m. induction names as [|name names IH]; intros m; simpl.
  { by destruct (m !! n). }
  rewrite IH, create_missing_lookup. destruct (m !! n); [done|].
  destruct (decide (n = name)) as [->|Hne].
  - rewrite bool_decide_eq_true_2 by done. by rewrite bool_decide_eq_true_2 by (by left).
  - rewrite (bool_decide_eq_false_2 (n = name)) by done.
    by rewrite (bool_decide_ext _ (n ∈ name :: names)) by set_solver.
Qed.

Lemma create_all tables tx :
  ∃ tx', comp_fold (λ tx '(table_type, table),
           map_err TableCreation (engine_create_db table table_type tx)) tx tables = Ok tx' ∧
    tx_path tx' = tx_path tx ∧ tx_tables tx' = foldl create_missing (tx_tables tx) tables.*2.
Proof using DOk.
  revert tx. induction tables as [|[ty name] tables IH]; intros tx; [by exists tx|]. simpl.
  destruct (create_db_law name ty tx) as (tx1 & -> & Hp1 & Ht1). simpl.
  destruct (IH tx1) as (tx2 & -> & Hp2 & Ht2). exists tx2. split_and!; [done|congruence|].
  by rewrite Ht2, Ht1.
Qed.

Lemma init_env_tables path disk :
  ∃ env disk', init_env path disk = (Ok env, disk') ∧ env_path env = path ∧
    (∀ n, disk_view path disk' !! n =
       match disk_view path disk !! n with
       | Some tbl => Some tbl
       | None => if bool_decide (n ∈ TABLES.*2) then Some ∅ else None
       end) ∧
    ∀ p, p ≠ path → disk_view p disk' = disk_view p disk.
Proof using DOk.
  unfold init_env, env_open. destruct (create_dir_law path disk) as (d1 & H1 & V1).
  destruct (engine_open_law (open_options os_page_size) path d1) as (env & d2 & H2 & Hp & V2).
  destruct (begin_rw_law env d2) as (tx & H3 & Hp3 & V3).
  destruct (create_all TABLES tx) as (tx' & H4 & Hp4 & V4).
  destruct (commit_law tx' d2) as (d3 & H5 & V5 & O5).
  exists env, d3. assert (tx_path tx' = path) as Hpath by congruence.
  split_and!; [|done| |].
  - unfold st_bind. rewrite H1, H2. unfold create_tables. rewrite H3. cbn [map_err comp_bind].
    rewrite H4. cbn [comp_bind]. by rewrite H5.
  - intros n. rewrite <-Hpath at 1. rewrite V5, V4, V3, Hp, V2, V1. apply create_missing_all.
  - intros p Hne. rewrite O5 by congruence. by rewrite V2, V1.
Qed.

Context {L : DbLib} {LOk : DbLibOk L} {HO : HashOrder}.

(** what a table holds for a key, read through the codecs *)
Definition read_raw (t : DbTable) (k : Z) (m : Tables) : comp RethDatabaseError (option (Value t)) :=
  match m !! const_name t ≫= λ tbl, tbl !! wrap_hash_encode (key_bytes t) k with
  | Some raw => map_ok Some (decompress t raw)
  | None => Ok None
  end.
Definition write_raw (t : DbTable) (k : Z) (v : Value t) (m : Tables) : Tables :=
  <[const_name t := <[wrap_hash_encode (key_bytes t) k := compress t v]> (default ∅ (m !! const_name t))]> m.

Lemma const_name_inj t t' : const_name t = const_name t' → t = t'.
Proof. by destruct t, t'. Qed.
Lemma encode_inj n k k' :
  0 ≤ k < 2 ^ (8 * Z.of_nat n) → 0 ≤ k' < 2 ^ (8 * Z.of_nat n) →
  wrap_hash_encode n k = wrap_hash_encode n k' → k = k'.
Proof.
  intros Hk Hk' He. apply (f_equal be_to_Z) in He. unfold wrap_hash_encode in He.
  by rewrite !be_to_Z_to_be in He.
Qed.

(** C23. The database keeps what it is given: a value written to a table under a
    key, with keys and fields in the ranges of their types, is read back equal,
    values under other keys and in other tables are read as before, and opening
    the environment again creates the missing tables and changes nothing in the
    ones that exist. *)
Theorem database_keeps_values path disk t k (v : Value t) :
  key_wf t k → value_wf t v →
  let m := write_raw t k v (disk_view path disk) in
  (∀ disk1, disk_view path disk1 = m → ∃ env disk', init_env path disk1 = (Ok env, disk') ∧
     read_raw t k (disk_view path disk') = Ok (Some v) ∧
     (∀ t' k', key_wf t' k' → (t' ≠ t ∨ k' ≠ k) →
        read_raw t' k' (disk_view path disk') = read_raw t' k' (disk_view path disk)) ∧
     (∀ t', is_Some (disk_view path disk' !! const_name t'))).
Proof using DOk LOk.
  intros Hk Hv m disk1 Hm. destruct (init_env_tables path disk1) as (env & disk' & Hi & _ & Hview & _).
  rewrite Hm in Hview. exists env, disk'. split_and!; [done|..].
  - unfold read_raw. rewrite Hview. unfold m, write_raw. rewrite lookup_insert_eq. simpl.
    rewrite lookup_insert_eq. by rewrite value_roundtrip.
  - intros t' k' Hk' Hne. unfold read_raw. rewrite Hview. unfold m, write_raw.
    destruct (decide (t' = t)) as [->|Hnt].
    + rewrite lookup_insert_eq. simpl. rewrite lookup_insert_ne.
      * by destruct (disk_view path disk !! const_name t).
      * intros He%encode_inj; [|done..]. naive_solver.
    + rewrite lookup_insert_ne by (by intros ?%const_name_inj).
      destruct (disk_view path disk !! const_name t'); [done|]. by case_bool_decide.
  - intros t'. rewrite Hview. destruct (m !! const_name t'); [done|].
    rewrite bool_decide_eq_true_2; [done|]. destruct t'; set_solver.
Qed.
End opened.

(** ** A concrete codec and engine *)
Module Example.
Definition unary (n : nat) : bytes := repeat Byte.x01 n ++ [Byte.x00].
Fixpoint count_unary (b : bytes) : option (nat * bytes) :=
  match b with
  | Byte.x01 :: b => '(n, rest) ← count_unary b; Some (S n, rest)
  | Byte.x00 :: b => Some (O, b)
  | _ => None
  end.
Lemma count_unary_app n rest : count_unary (unary n ++ rest) = Some (n, rest).
Proof. induction n as [|n IH]; [done|]. unfold unary in *. simpl. by rewrite IH. Qed.

Definition chunk (b : bytes) : bytes := unary (length b) ++ b.
Definition unchunk (b : bytes) : option (bytes * bytes) :=
  '(n, rest) ← count_unary b; Some (take n rest, drop n rest).
Lemma unchunk_chunk b rest : unchunk (chunk b ++ rest) = Some (b, rest).
Proof.
  unfold unchunk, chunk. rewrite <-app_assoc, count_unary_app. simpl.
  by rewrite take_app_length, drop_app_length.
Qed.
Definition num_bytes (z : Z) : bytes := Z_to_be (Z.to_nat (Z.log2 z / 8 + 1)) z.
Lemma num_bytes_value z : 0 ≤ z → be_to_Z (num_bytes z) = z.
Proof.
  intros Hz. unfold num_bytes. apply be_to_Z_to_be. split; [done|]. pose proof (Z.log2_nonneg z).
  assert (0 ≤ Z.log2 z / 8) by (apply Z.div_pos; lia). rewrite Z2Nat.id by lia.
  apply Z.log2_lt_cancel. rewrite Z.log2_pow2 by lia. Z.to_euclidean_division_equations. lia.
Qed.

Definition token_bytes (tok : Token) : bytes :=
  match tok with TAddress z | TUint z => num_bytes z | TBytes b | TFixedBytes b => b end.
Definition token_of (ty : ParamType) (b : bytes) : Token :=
  match ty with
  | PAddress => TAddress (be_to_Z b) | PUint _ => TUint (be_to_Z b)
  | PBytes => TBytes b | PFixedBytes _ => TFixedBytes b
  end.
Fixpoint decode_chunks (tys : list ParamType) (b : bytes) : option (list Token) :=
  match tys with
  | [] => Some []
  | ty :: tys => '(x, b) ← unchunk b; toks ← decode_chunks tys b; Some (token_of ty x :: toks)
  end.
#[local] Instance lib : DbLib := {|
  abi_encode_tuple toks := concat ((λ tok, chunk (token_bytes tok)) <$> toks);
  abi_decode_tuple := decode_chunks;
  len_encode := unary;
  len_decode := count_unary;
|}.
Lemma token_of_bytes ty tok : token_typed ty tok → token_of ty (token_bytes tok) = tok.
Proof.
  destruct ty, tok; simpl; try done; intros Hr; rewrite num_bytes_value; try done;
    unfold is_address in *; lia.
Qed.
#[local] Instance lib_ok : DbLibOk lib.
Proof.
  split; [|intros; apply count_unary_app]. intros tys toks. induction 1 as [|ty tok tys toks Ht _ IH]; [done|].
  cbn [abi_encode_tuple abi_decode_tuple lib fmap list_fmap concat decode_chunks] in *.
  rewrite unchunk_chunk. cbn [mbind option_bind]. rewrite IH. cbn [mbind option_bind].
  by rewrite token_of_bytes.
Qed.

#[local] Instance engine : DbEngine := {|
  Disk := gmap string Tables; EngineEnv := string; EngineTx := string * Tables;
  os_page_size := 16384;
  create_dir_all _ disk := Ok disk;
  engine_open _ path disk := Ok (path, disk);
  engine_begin_rw env disk := Ok (env, default ∅ (disk !! env));
  engine_create_db name _ tx :=
    Ok (tx.1, match tx.2 !! name with Some _ => tx.2 | None => <[name := ∅]> tx.2 end);
  engine_commit tx disk := Ok (<[tx.1 := tx.2]> disk);
|}.
Definition engine_view (path : string) (disk : gmap string Tables) : Tables := default ∅ (disk !! path).
#[local] Instance engine_ok : DbEngineOk engine.
Proof.
  refine (Build_DbEngineOk engine engine_view (λ env : string, env) (@fst string Tables)
            (@snd string Tables) _ _ _ _ _).
  - intros path disk. by exists disk.
  - intros opts path disk. by exists path, disk.
  - intros env disk. by eexists.
  - intros name ty tx. by eexists.
  - intros tx disk. eexists. split; [done|]. unfold engine_view.
    split; [by rewrite lookup_insert_eq|]. intros p Hp. by rewrite lookup_insert_ne.
Defined.

(** the reputation of entity 9, in a new database *)
Definition entry : ReputationEntry := {| re_address := 9; uo_seen := 4; uo_included := 1; re_status := 0 |}.
Definition written : Disk :=
  {["db"%string := write_raw (HO:=canonical_order) EntitiesReputation 9 entry ∅]}.
Lemma database_keeps_values_witness :
  ∃ env disk', init_env "db" written = (Ok env, disk') ∧
    read_raw EntitiesReputation 9 (disk_view "db" disk') = Ok (Some entry).
Proof.
  destruct (database_keeps_values (HO:=canonical_order) "db" (∅ : Disk) EntitiesReputation 9 entry
    ltac:(by vm_compute) ltac:(by vm_compute) written ltac:(reflexivity))
    as (env & disk' & Hi & Hr & _). by exists env, disk'.
Defined.

(** a key of the wrong length panics, a value that cannot be read is an error *)
Example wrong_key : wrap_hash_decode WrapAddress_n [Byte.x01] = Panic.
Proof. done. Qed.
Example wrong_value : decompress BySender [Byte.x01] = Err DecodeError.
Proof. done. Qed.
Example page_sizes : default_page_size 512 = 4096 ∧ default_page_size 16384 = 16384 ∧
  default_page_size 131072 = 65536.
Proof. done. Qed.
End Example.
