(* ===== verification/EntryPoint.v ===== *)
(** The entry point client ([crates/contracts/src/entry_point.rs], [error.rs])
    and the frames of the two tracers ([tracer.rs], [executor_tracer.rs]).  The
    Ethereum node behind the client is a parameter: what it answers to each
    call, and the library codecs applied to its answers. *)

From S2P Require Import Prelude Primitives Errors AbiStd.

(** ** Results the contract reports by reverting *)
Record ReturnInfo := {
  ri_pre_op_gas : U256;
  ri_prefund : U256;
  ri_sig_failed : bool;
  ri_valid_after : Z;
  ri_valid_until : Z;
  ri_paymaster_context : bytes;
}.

(** [ValidationResult] and, with an aggregator, [ValidationResultWithAggregation];
    stake infos are (stake, unstake delay) pairs *)
Record ValidationResult := {
  vr_return_info : ReturnInfo;
  vr_sender_info : U256 * U256;
  vr_factory_info : U256 * U256;
  vr_paymaster_info : U256 * U256;
}.

Inductive SimulateValidationResult :=
| SimValidationResult (res : ValidationResult)
| SimValidationResultWithAggregation (res : ValidationResult).

Record ExecutionResult := {
  er_pre_op_gas : U256;
  er_paid : U256;
  er_valid_after : Z;
  er_valid_until : Z;
  er_target_success : bool;
  er_target_result : bytes;
}.

Inductive EntryPointAPIErrors :=
| ApiFailedOp (op_index : U256) (reason : string)
| ApiValidationResult (res : ValidationResult)
| ApiValidationResultWithAggregation (res : ValidationResult)
| ApiExecutionResult (res : ExecutionResult)
| ApiSenderAddressResult (sender : Address)
| ApiSignatureValidationFailed (aggregator : Address)
| ApiRevertString (reason : string).

Record DepositInfo := {
  di_deposit : Z;
  di_staked : bool;
  di_stake : Z;
  di_unstake_delay_sec : Z;
  di_withdraw_time : Z;
}.

(** ** Errors of the node client, with their [Debug] texts *)
Inductive JsonValue := JString (s : string) | JOther (debug : string).
Record JsonRpcError := { je_data : option JsonValue; je_debug : string }.
Inductive ProviderError :=
| JsonRpcClientError (response : option JsonRpcError) (debug : string)
| HTTPError (debug : string)
| OtherProviderError (debug : string).
Record MiddlewareError := {
  as_error_response : option JsonRpcError;
  as_provider_error : option ProviderError;
  mw_debug : string;
}.
Inductive ContractError :=
| DecodingError (e : string)
| AbiError (e : string)
| CMiddlewareError (e : MiddlewareError)
| CProviderError (e : ProviderError)
| Revert (data : bytes)
| OtherContractError (e : string).
Definition contract_error_debug (e : ContractError) : string :=
  match e with
  | DecodingError s | AbiError s | OtherContractError s => s
  | CMiddlewareError m => m.(mw_debug)
  | CProviderError _ => "provider error"
  | Revert _ => "revert"
  end.

(** ** Tracer frames *)
Record ReadsAndWrites := { reads : gmap string string; writes : gmap string Z }.
Record ContractSizeInfo := { cs_opcode : string; cs_contract_size : Z }.
Record TopLevelCallInfo := {
  top_level_method_sig : bytes;
  top_level_target_address : bytes;
  access : gmap Address ReadsAndWrites;
  opcodes : gmap string Z;
  contract_size : gmap Address ContractSizeInfo;
  ext_code_access_info : gmap Address string;
  oog : option bool;
}.
Record Log := { log_topics : list string; log_data : bytes }.
Record Call := {
  c_typ : string;
  c_gas_used : option Z;
  c_data : option bytes;
  c_from : option Address;
  c_to : option Address;
  c_method : option bytes;
  c_gas : option Z;
  c_value : option U256;
}.
Record CallEntry := {
  ce_typ : string;
  ce_from : option Address;
  ce_to : option Address;
  ce_method : option string;
  ce_ret : option bytes;
  ce_rev : option bytes;
  ce_value : option U256;
}.
Record JsTracerFrame := {
  calls_from_entry_point : list TopLevelCallInfo;
  keccak : list bytes;
  js_logs : list Log;
  calls : list Call;
  js_debug : list string;
}.

Record LogInfo := { li_topics : list string; li_data : string }.
Record ExecutorTracerResult := {
  et_reverts : list string;
  validation_oog : bool;
  execution_oog : bool;
  execution_gas_limit : Z;
  user_op_event : option LogInfo;
  user_op_revert_event : option LogInfo;
  et_output : string;
  et_error : string;
}.

Record Block := { b_base_fee_per_gas : option U256; b_hash : option H256 }.

(** A [GethTrace]: one of the tracers built into the node, or the JSON value a
    JavaScript tracer returned. *)
Inductive GethTrace (Json : Type) := GKnown (debug : string) | GUnknown (val : Json).
Arguments GKnown {Json}.
Arguments GUnknown {Json}.

(** ** The node: the answers to one request's calls *)
Class Node := {
  Json : Type;
  (** [serde_json::from_value], with the error text *)
  parse_js_frame : Json → string + JsTracerFrame;
  parse_executor_frame : Json → string + ExecutorTracerResult;
  (** contract calls; a simulation that does not revert is [None] *)
  call_simulate_validation : UserOperationSigned → option ContractError;
  call_simulate_handle_op : UserOperationSigned → option ContractError;
  call_handle_ops : list UserOperationSigned → Address → option ContractError;
  call_get_deposit_info : Address → ContractError + DepositInfo;
  call_balance_of : Address → ContractError + U256;
  call_get_nonce : Address → U256 → ContractError + U256;
  call_get_sender_address : bytes → option ContractError;
  (** node calls *)
  trace_simulate_validation : UserOperationSigned → MiddlewareError + GethTrace Json;
  trace_simulate_handle_op : UserOperationSigned → MiddlewareError + GethTrace Json;
  eth_call : Address → Address → bytes → string + bytes;
  get_code : Address → string + bytes;
  get_block_latest : string + option Block;
  (** codecs: ABI decoding of the error enum and of a string, the first match
      of [0x[0-9a-fA-F]+], hexadecimal decoding *)
  decode_api_error : bytes → option EntryPointAPIErrors;
  decode_string : bytes → option string;
  find_hex : string → option string;
  bytes_from_str : string → option bytes;
}.

Section entry_point.
Context {N : Node} {D : Display}.

(** ** [error.rs] *)
Definition ERROR_SELECTOR : bytes := [Byte.x08; Byte.xc3; Byte.x79; Byte.xa0].

(** [split_at(4)] panics on fewer than 4 bytes *)
Definition decode_revert_string (data : bytes) : comp EntryPointError (option string) :=
  if bool_decide (length data < 4)%nat then Panic
  else if bool_decide (take 4 data = ERROR_SELECTOR) then Ok (decode_string (drop 4 data))
  else Ok None.

Definition decode_revert_error (data : bytes) : comp EntryPointError EntryPointAPIErrors :=
  match decode_api_error data with
  | Some res => Ok res
  | None =>
      let* o := decode_revert_string data in
      match o with
      | Some error_str => Ok (ApiRevertString error_str)
      | None => Err (EPDecode "data field can't be deserialized to EntryPointAPIErrors error")
      end
  end.

Definition from_json_rpc_error (err : JsonRpcError) : comp EntryPointError EntryPointAPIErrors :=
  match err.(je_data) with
  | Some (JString data) =>
      match find_hex data with
      | None => Err (EPDecode ("hex string not found in " +:+ data))
      | Some hex =>
          match bytes_from_str hex with
          | None => Err (EPDecode ("string " +:+ data +:+ " could not be converted to bytes"))
          | Some b =>
              match decode_revert_error b with
              | Ok res => Ok res
              | Err e => Err (EPProvider ("failed to decode revert error: "
                                            +:+ EntryPointError_to_string e))
              | Panic => Panic
              end
          end
      end
  | Some (JOther other) => Err (EPDecode ("json-rpc return data is not a string: " +:+ other))
  | None => Err (EPProvider ("json-rpc error doesn't contain data field: " +:+ err.(je_debug)))
  end.

Definition from_provider_error (err : ProviderError) : comp EntryPointError EntryPointAPIErrors :=
  match err with
  | JsonRpcClientError (Some e) _ => from_json_rpc_error e
  | JsonRpcClientError None d => Err (EPProvider ("unknwon json-rpc client error: " +:+ d))
  | HTTPError d => Err (EPProvider ("HTTP error: " +:+ d))
  | OtherProviderError d => Err (EPProvider ("unknown provider error: " +:+ d))
  end.

Definition from_middleware_error (err : MiddlewareError) : comp EntryPointError EntryPointAPIErrors :=
  match err.(as_error_response) with
  | Some e => from_json_rpc_error e
  | None =>
      match err.(as_provider_error) with
      | Some e => from_provider_error e
      | None => Err (EPProvider ("middleware error: " +:+ err.(mw_debug)))
      end
  end.

(** ** [entry_point.rs] *)
Definition deserialize_error_msg (err : ContractError) : comp EntryPointError EntryPointAPIErrors :=
  match err with
  | DecodingError e => Err (EPDecode e)
  | AbiError e => Err (EPABI e)
  | CMiddlewareError e => from_middleware_error e
  | CProviderError e => from_provider_error e
  | Revert data => decode_revert_error data
  | OtherContractError e => Err (EPOther e)
  end.

Definition simulate_validation (uo : UserOperationSigned)
  : comp EntryPointError SimulateValidationResult :=
  match call_simulate_validation uo with
  | None => Err (NoRevert "simulate_validation")
  | Some e =>
      let* op := deserialize_error_msg e in
      match op with
      | ApiFailedOp i r => Err (FailedOp i r)
      | ApiValidationResult res => Ok (SimValidationResult res)
      | ApiValidationResultWithAggregation res => Ok (SimValidationResultWithAggregation res)
      | _ => Err (EPOther "simulate validation error")
      end
  end.

(** [.map_err(|e| from_middleware_error(e).expect_err(..))] *)
Definition trace_result {A} (r : MiddlewareError + A) : comp EntryPointError A :=
  match r with
  | inr a => Ok a
  | inl e =>
      match from_middleware_error e with
      | Err err => Err err
      | Ok _ => Panic
      | Panic => Panic
      end
  end.

Definition simulate_validation_trace (uo : UserOperationSigned)
  : comp EntryPointError (GethTrace Json) := trace_result (trace_simulate_validation uo).
Definition simulate_handle_op_trace (uo : UserOperationSigned)
  : comp EntryPointError (GethTrace Json) := trace_result (trace_simulate_handle_op uo).

Definition handle_ops (uos : list UserOperationSigned) (beneficiary : Address)
  : comp EntryPointError () :=
  match call_handle_ops uos beneficiary with
  | None => Ok ()
  | Some e =>
      let* op := deserialize_error_msg e in
      match op with
      | ApiFailedOp i r => Err (FailedOp i r)
      | _ => Err (EPOther "handle ops error")
      end
  end.

(** [todo!()] *)
Definition handle_aggregated_ops (uos_per_aggregator : list UserOperationSigned) (beneficiary : Address)
  : comp EntryPointError () := Panic.

Definition view_call {A} (what : string) (r : ContractError + A) : comp EntryPointError A :=
  match r with
  | inr a => Ok a
  | inl err => Err (EPOther (what +:+ contract_error_debug err))
  end.

Definition get_deposit_info (addr : Address) : comp EntryPointError DepositInfo :=
  view_call "get deposit info error: " (call_get_deposit_info addr).
Definition balance_of (addr : Address) : comp EntryPointError U256 :=
  view_call "balance of error: " (call_balance_of addr).
Definition get_nonce (address : Address) (key : U256) : comp EntryPointError U256 :=
  view_call "get nonce error: " (call_get_nonce address key).

Definition get_sender_address (init_code : bytes) : comp EntryPointError Address :=
  match call_get_sender_address init_code with
  | None => Err (NoRevert "get_sender_address")
  | Some e =>
      let* op := deserialize_error_msg e in
      match op with
      | ApiSenderAddressResult res => Ok res
      | ApiFailedOp i r => Err (FailedOp i r)
      | _ => Err (EPOther "get sender address error")
      end
  end.

Definition simulate_execution (ep : Address) (uo : UserOperationSigned)
  : comp EntryPointError bytes :=
  match eth_call ep uo.(uo_sender) uo.(uo_call_data) with
  | inr b => Ok b
  | inl err => Err (EPProvider err)
  end.

Definition simulate_handle_op (uo : UserOperationSigned) : comp EntryPointError ExecutionResult :=
  match call_simulate_handle_op uo with
  | None => Err (NoRevert "simulate_handle_op")
  | Some e =>
      let* op := deserialize_error_msg e in
      match op with
      | ApiFailedOp i r => Err (FailedOp i r)
      | ApiExecutionResult res => Ok res
      | _ => Err (EPOther "Simulate handle op error")
      end
  end.

(** [TryFrom<GethTrace>] for the two frames *)
Definition js_frame_of_trace (val : GethTrace Json) : comp string JsTracerFrame :=
  match val with
  | GKnown d => Err ("Invalid geth trace: " +:+ d)
  | GUnknown v =>
      match parse_js_frame v with
      | inr f => Ok f
      | inl e => Err ("Failed to parse geth trace: " +:+ e)
      end
  end.
Definition executor_of_trace (val : GethTrace Json) : comp string ExecutorTracerResult :=
  match val with
  | GKnown d => Err ("Invalid geth trace: " +:+ d)
  | GUnknown v =>
      match parse_executor_frame v with
      | inr f => Ok f
      | inl e => Err ("Failed to parse geth trace: " +:+ e)
      end
  end.

(** ** Properties *)
(** Decoding revert data: the contract's own errors win;
    a [require] message is recovered from the standard [Error(string)] encoding;
    every other payload of at least four bytes is a decoding error, and a shorter
    one panics. *)
Theorem revert_decoding (data : bytes) :
  match decode_revert_error data with
  | Ok res =>
      decode_api_error data = Some res ∨
      decode_api_error data = None ∧
      ∃ payload s, data = ERROR_SELECTOR ++ payload ∧ decode_string payload = Some s ∧
        res = ApiRevertString s
  | Err e =>
      decode_api_error data = None ∧ (4 ≤ length data)%nat ∧
      (∃ m, e = EPDecode m) ∧
      ∀ payload, data = ERROR_SELECTOR ++ payload → decode_string payload = None
  | Panic => decode_api_error data = None ∧ (length data < 4)%nat
  end.
Proof.
  unfold decode_revert_error. destruct (decode_api_error data) as [res|] eqn:Hd; [by left|].
  unfold decode_revert_string. case_bool_decide as Hl; [done|].
  assert (Hsplit : data = take 4 data ++ drop 4 data) by (by rewrite take_drop).
  case_bool_decide as Hsel; simpl.
  - rewrite Hsel in Hsplit. destruct (decode_string (drop 4 data)) as [s|] eqn:Hs.
    + right. split; [done|]. by exists (drop 4 data), s.
    + split_and!; [done|lia|by eexists|]. intros payload Hp.
      rewrite Hp in Hs. by rewrite <-Hs.
  - split_and!; [done|lia|by eexists|]. intros payload Hp. destruct Hsel. by rewrite Hp.
Qed.

(** A simulated validation succeeds exactly
    when the call reverts with one of the two validation results; a call that
    does not revert is reported as an error. *)
Theorem simulate_validation_by_revert (uo : UserOperationSigned) res :
  simulate_validation uo = Ok res ↔
  ∃ e, call_simulate_validation uo = Some e ∧
    deserialize_error_msg e = Ok (match res with
                                  | SimValidationResult r => ApiValidationResult r
                                  | SimValidationResultWithAggregation r =>
                                      ApiValidationResultWithAggregation r
                                  end).
Proof.
  unfold simulate_validation. split.
  - destruct (call_simulate_validation uo) as [e|]; [|done]. intros H. exists e. split; [done|].
    destruct (deserialize_error_msg e) as [op|?|]; simplify_eq/=. by destruct op; simplify_eq.
  - intros (e & -> & ->). by destruct res.
Qed.
End entry_point.
