(* ===== verification/Fixture.v ===== *)
(** A concrete environment for evaluations: a node that answers every call, the
    in-memory stores, and two user operations.  Nothing here models the program;
    the components' examples instantiate their parameters with it. *)

From S2P Require Import Prelude Primitives Errors AbiStd Reputation Mempool.
From S2P Require Import MemoryStore EntryPoint.

Definition fx_profile : Profile := true.

Definition no_return_info : ReturnInfo := {|
  ri_pre_op_gas := 60000; ri_prefund := 1000000; ri_sig_failed := false; ri_valid_after := 0;
  ri_valid_until := 2000000000; ri_paymaster_context := [] |}.
Definition fx_validation : ValidationResult := {|
  vr_return_info := no_return_info; vr_sender_info := (0, 0); vr_factory_info := (0, 0);
  vr_paymaster_info := (100, 100) |}.
Definition fx_execution : ExecutionResult := {|
  er_pre_op_gas := 60000; er_paid := 1000000; er_valid_after := 0; er_valid_until := 0;
  er_target_success := true; er_target_result := [] |}.
Definition fx_deposit : DepositInfo := {|
  di_deposit := 1000000; di_staked := true; di_stake := 100; di_unstake_delay_sec := 100;
  di_withdraw_time := 0 |}.

(** every address but 11 is a contract; reverts are told apart by their length *)
Definition fx_node : Node := {|
  Json := JsTracerFrame + ExecutorTracerResult;
  parse_js_frame j := match j with inl f => inr f | inr _ => inl "other tracer"%string end;
  parse_executor_frame j := match j with inr f => inr f | inl _ => inl "other tracer"%string end;
  call_simulate_validation _ := Some (Revert (repeat Byte.x01 4));
  call_simulate_handle_op _ := Some (Revert (repeat Byte.x01 5));
  call_handle_ops _ _ := None;
  call_get_deposit_info _ := inr fx_deposit;
  call_balance_of _ := inr 0;
  call_get_nonce _ _ := inr 0;
  call_get_sender_address _ := None;
  trace_simulate_validation _ := inr (GUnknown (inl {| calls_from_entry_point := []; keccak := [];
    js_logs := []; calls := []; js_debug := [] |}));
  trace_simulate_handle_op _ := inr (GUnknown (inr {| et_reverts := []; validation_oog := false;
    execution_oog := false; execution_gas_limit := 30000; user_op_event := None;
    user_op_revert_event := None; et_output := ""; et_error := "" |}));
  eth_call _ _ _ := inr [];
  get_code a := inr (if bool_decide (a = 11) then [] else [Byte.x60]);
  get_block_latest := inr (Some {| b_base_fee_per_gas := Some 5; b_hash := Some 77 |});
  decode_api_error b :=
    if bool_decide (length b = 4)%nat then Some (ApiValidationResult fx_validation)
    else if bool_decide (length b = 5)%nat then Some (ApiExecutionResult fx_execution) else None;
  decode_string _ := Some "reason"%string;
  find_hex s := Some s;
  bytes_from_str _ := Some [];
|}.

(** an operation of account 9, paid for by paymaster 7 *)
Definition fx_uo (h nonce fee : Z) : UserOperation := from_user_operation_signed h {|
  uo_sender := 9; uo_nonce := nonce; uo_init_code := []; uo_call_data := [];
  uo_call_gas_limit := 21900; uo_verification_gas_limit := 100000;
  uo_pre_verification_gas := 100000; uo_max_fee_per_gas := 10 * fee;
  uo_max_priority_fee_per_gas := fee;
  uo_paymaster_and_data := repeat Byte.x00 19 ++ [Byte.x07]; uo_signature := [] |}.

Definition fx_store : MemStore :=
  (Mempool.add (H:=mem_store (HO:=canonical_order)) (fx_uo 1 0 10) MemStore_default).2.
Definition fx_pool : Pool := {| p_uos := {[1 := fx_uo 1 0 10 : UserOperationSigned]}; p_codes := ∅ |}.

Lemma fx_refines : refines (ML:=mem_laws (HO:=canonical_order)) fx_store fx_pool.
Proof.
  pose (ML := mem_laws (HO:=canonical_order)).
  destruct (exec_refines_lemma (ML:=ML) (OpAdd (fx_uo 1 0 10)) MemStore_default
    {| p_uos := ∅; p_codes := ∅ |}) as (s' & Hs & Hr); [|done|].
  - split_and!; [done..|]. split.
    + intros [] a h; unfold idx; simpl; rewrite lookup_empty; simpl; set_solver.
    + intros [] a hs; simpl; by rewrite lookup_empty.
  - assert (s' = fx_store) as -> by (by apply (f_equal snd) in Hs). exact Hr.
Qed.

Definition fx_reputation : Reputation (gmap Address ReputationEntry) := {|
  min_inclusion_denominator := MIN_INCLUSION_RATE_DENOMINATOR;
  throttling_slack := THROTTLING_SLACK; ban_slack := BAN_SLACK;
  min_stake := 1; min_unstake_delay := 0; whitelist := ∅; blacklist := ∅; entities := ∅ |}.
