(* ===== verification/Shared.v ===== *)
(** Storage behind [Arc<RwLock<_>>] ([crates/mempool/src/mempool.rs] and
    [reputation.rs]): a handle is an address in a heap, every trait method takes
    the lock and calls the method of the value inside, and a clone of a handle is
    the same address.  The operations of a mempool or a reputation over handles
    are those over the values, seen through the heap, so that clones share their
    contents and other handles do not notice. *)

From S2P Require Import Prelude Primitives Errors AbiStd Reputation Mempool MemoryStore Fixture.

Abbreviation Handle := nat (only parsing).

Section locks.
Context {T : Type}.
Abbreviation Heap := (gmap nat T).

(** [self.write().f(..)]: an [Arc] always points to a value, so the last case is
    not reached *)
Definition locked {E A} (p : Handle) (m : ST T E A) : ST Heap E A := λ h,
  match h !! p with
  | Some v => let '(r, v') := m v in (r, <[p := v']> h)
  | None => (Panic, h)
  end.
(** [self.read().f(..)] *)
Definition locked_get {E A} (p : Handle) (f : T → comp E A) (h : Heap) : comp E A :=
  match h !! p with Some v => f v | None => Panic end.
Definition locked_list {A} (p : Handle) (f : T → list A) (h : Heap) : list A :=
  match h !! p with Some v => f v | None => [] end.

(** ** The storage traits *)
Section instances.
Context `{MempoolStore T} (p : Handle).
Definition lock_user_op : AddRemoveUserOp Heap := {|
  store_add uo := locked p (store_add uo);
  remove_by_uo_hash h := locked p (remove_by_uo_hash h);
|}.
Definition lock_user_op_hash : AddRemoveUserOpHash Heap := {|
  hash_add t a h := locked p (hash_add t a h);
  remove_uo_hash t a h := locked p (remove_uo_hash t a h);
|}.
Definition lock_op : UserOperationOp Heap := {|
  get_by_uo_hash s h := locked_get p (λ v, get_by_uo_hash v h) s;
  store_sorted s := locked_get p store_sorted s;
  store_all s := locked_get p store_all s;
|}.
Definition lock_addr_op : UserOperationAddrOp Heap :=
  λ t s a, locked_list p (λ v, get_all_by_address t v a) s.
Definition lock_code_hash_op : UserOperationCodeHashOp Heap := {|
  store_has_code_hashes s h := locked_get p (λ v, store_has_code_hashes v h) s;
  store_set_code_hashes h hs := locked p (store_set_code_hashes h hs);
  store_get_code_hashes s h := locked_get p (λ v, store_get_code_hashes v h) s;
  remove_code_hashes h := locked p (remove_code_hashes h);
|}.
Definition lock_clear : ClearOp Heap := λ E t, locked p (clear_table t).
Definition lock_store : MempoolStore Heap := {|
  ms_uo := lock_user_op; ms_hash := lock_user_op_hash; ms_op := lock_op; ms_addr := lock_addr_op;
  ms_code := lock_code_hash_op; ms_clear := @lock_clear;
|}.
End instances.

Section reputation_instance.
Context `{ReputationEntryOp T} (p : Handle).
Definition lock_entries : ReputationEntryOp Heap := {|
  get_entry s a := locked_get p (λ v, get_entry v a) s;
  set_entry e := locked p (set_entry e);
  contains_entry s a := locked_get p (λ v, contains_entry v a) s;
  rep_entries s := locked_list p rep_entries s;
  rep_clear E := locked p rep_clear;
|}.
(** [update] is overridden: one lock for the whole loop *)
Definition lock_update {P : Profile} : ST Heap ReputationError () := locked p update.
End reputation_instance.

(** [HashSetOp]: the lists of a reputation *)
Definition lock_add_into_list (p : Handle) (addr : Address) (h : gmap nat (gset Address))
  : bool * gmap nat (gset Address) :=
  let '(b, l) := add_into_list addr (h !!! p) in (b, <[p := l]> h).
Definition lock_remove_from_list (p : Handle) (addr : Address) (h : gmap nat (gset Address))
  : bool * gmap nat (gset Address) :=
  let '(b, l) := remove_from_list addr (h !!! p) in (b, <[p := l]> h).
Definition lock_is_in_list (p : Handle) (addr : Address) (h : gmap nat (gset Address)) : bool :=
  is_in_list addr (h !!! p).

(** ** Operations seen through the heap *)
(** [m'] is [m] on the value at [p] *)
Definition through {E A} (p : Handle) (m' : ST Heap E A) (m : ST T E A) : Prop :=
  ∀ h v, h !! p = Some v → m' h = ((m v).1, <[p := (m v).2]> h).

Lemma through_locked {E A} p (m : ST T E A) : through p (locked p m) m.
Proof. intros h v Hv. unfold locked. rewrite Hv. by destruct (m v). Qed.
Lemma through_ret {E A} p (a : A) : through (E:=E) p (st_ret a) (st_ret a).
Proof. intros h v Hv. simpl. unfold st_ret. simpl. by rewrite insert_id. Qed.
Lemma through_lift {E A} p (m : comp E A) : through p (st_lift m) (st_lift m).
Proof. intros h v Hv. unfold st_lift. simpl. by rewrite insert_id. Qed.
Lemma through_get {E A} p (f : Heap → comp E A) (g : T → comp E A) :
  (∀ h v, h !! p = Some v → f h = g v) → through p (st_get f) (st_get g).
Proof. intros Hfg h v Hv. unfold st_get. simpl. rewrite (Hfg h v Hv). by rewrite insert_id. Qed.
Lemma through_bind {E A B} p (m' : ST Heap E A) m (k' : A → ST Heap E B) k :
  through p m' m → (∀ a, through p (k' a) (k a)) → through p (st_bind m' k') (st_bind m k).
Proof.
  intros Hm Hk h v Hv. unfold st_bind. rewrite (Hm h v Hv). destruct (m v) as [[a|e|] v1]; simpl; try done.
  rewrite (Hk a (<[p := v1]> h) v1) by (by rewrite lookup_insert_eq). by rewrite insert_insert_eq.
Qed.
Lemma through_for {E A} p (xs : list A) (body' : A → ST Heap E ()) body :
  (∀ a, through p (body' a) (body a)) → through p (st_for xs body') (st_for xs body).
Proof.
  intros Hb. induction xs as [|x xs IH]; simpl; [apply through_ret|]. by apply through_bind.
Qed.
End locks.

Ltac through_step :=
  first [ apply through_locked | apply through_ret | apply through_for; intros ?
        | apply through_bind; [|intros ?] | apply through_get; intros ?h ?v ?Hv ].

(** ** The mempool over handles *)
Section mempool.
Context {T : Type} {MS : MempoolStore T} (p : Handle).
#[local] Instance locked_store : MempoolStore (gmap nat T) := lock_store p.

Lemma through_when_some {A B} (o : option A) (f' : A → ST (gmap nat T) MempoolErrorKind B) f :
  (∀ a, through p (f' a) (f a)) → through p (when_some o f') (when_some o f).
Proof.
  intros Hf. destruct o; simpl; [|apply through_ret]. apply through_bind; [done|]. intros _. apply through_ret.
Qed.

Lemma through_add uo : through p (Mempool.add uo) (Mempool.add (H:=MS) uo).
Proof.
  unfold Mempool.add. destruct (get_entities uo) as [[sender factory] paymaster].
  repeat first [through_step | apply through_when_some; intros ?].
Qed.
Lemma through_remove h : through p (Mempool.remove h) (Mempool.remove (H:=MS) h).
Proof.
  unfold Mempool.remove. apply through_bind.
  - apply through_get. intros hp v Hv.
    change (locked_get p (λ v, get_by_uo_hash v h) hp = get_by_uo_hash v h).
    unfold locked_get. by rewrite Hv.
  - intros [uo|]; [|apply through_ret]. destruct (get_entities uo) as [[sender factory] paymaster].
    repeat first [through_step | apply through_when_some; intros ?].
Qed.
Lemma through_remove_by_entity a :
  through p (Mempool.remove_by_entity a) (Mempool.remove_by_entity (H:=MS) a).
Proof.
  unfold Mempool.remove_by_entity. apply through_bind.
  - apply through_get. intros hp v Hv. f_equal.
    change (locked_list p (λ v, get_all_by_address UserOperationsByEntity v a) hp =
            get_all_by_address UserOperationsByEntity v a). unfold locked_list. by rewrite Hv.
  - intros uos. apply through_for. intros h. apply through_bind; [apply through_remove|].
    intros _. apply through_ret.
Qed.
Lemma through_clear {E} : through p (Mempool.clear (E:=E)) (Mempool.clear (H:=MS)).
Proof. unfold Mempool.clear. repeat through_step. Qed.
Lemma through_set_code_hashes h hs :
  through p (Mempool.set_code_hashes h hs) (Mempool.set_code_hashes (H:=MS) h hs).
Proof. apply through_locked. Qed.

(** the steps of a mempool: its operations that change it, and what they return *)
Inductive MempoolStep :=
| StAdd (uo : UserOperation)
| StRemove (h : UserOperationHash)
| StRemoveByEntity (a : Address)
| StSetCodes (h : UserOperationHash) (hs : list CodeHash)
| StClear.
End mempool.

Definition step_mempool {S : Type} `{MempoolStore S} (st : MempoolStep) : ST S MempoolErrorKind () :=
  match st with
  | StAdd uo => do* _ := Mempool.add uo in st_ret ()
  | StRemove h => do* _ := Mempool.remove h in st_ret ()
  | StRemoveByEntity a => Mempool.remove_by_entity a
  | StSetCodes h hs => Mempool.set_code_hashes h hs
  | StClear => Mempool.clear
  end.

Section clones.
Context {T : Type} {MS : MempoolStore T}.

Lemma through_step_mempool p st :
  through p (step_mempool (H:=lock_store p) st) (step_mempool (H:=MS) st).
Proof.
  destruct st; simpl.
  - apply through_bind; [apply through_add|]. intros _. apply through_ret.
  - apply through_bind; [apply through_remove|]. intros _. apply through_ret.
  - apply through_remove_by_entity.
  - apply through_set_code_hashes.
  - apply through_clear.
Qed.

(** a pool's steps, each through the handle it was made with; a failed step keeps
    what it did and the next one follows *)
Fixpoint run_steps (sts : list (Handle * MempoolStep)) (h : gmap nat T) : gmap nat T :=
  match sts with
  | [] => h
  | (p, st) :: sts => run_steps sts (step_mempool (H:=lock_store p) st h).2
  end.
Fixpoint run_local (sts : list MempoolStep) (v : T) : T :=
  match sts with
  | [] => v
  | st :: sts => run_local sts (step_mempool st v).2
  end.
Definition steps_at (p : Handle) (sts : list (Handle * MempoolStep)) : list MempoolStep :=
  (filter (λ x, x.1 = p) sts).*2.

(** C22. Mempools made from clones of one handle are one mempool, and mempools of
    different handles are independent: after any interleaving of operations
    through handles, the value behind a handle is what its own operations, in
    their order and no others, make of it, whichever of its clones they went
    through. *)
Theorem clones_share_handles_separate sts h p v :
  h !! p = Some v → (∀ q, q ∈ sts.*1 → is_Some (h !! q)) →
  run_steps sts h !! p = Some (run_local (steps_at p sts) v).
Proof.
  revert h v. induction sts as [|[q st] sts IH]; intros h v Hv Hall; [done|]. simpl.
  destruct (Hall q ltac:(by left)) as [w Hw].
  rewrite (through_step_mempool q st h w Hw). simpl. unfold steps_at in *. rewrite filter_cons. simpl.
  assert (Hall' : ∀ w', ∀ q', q' ∈ sts.*1 → is_Some (<[q := w']> h !! q')).
  { intros w' q' Hq'. apply lookup_insert_is_Some'. right. apply Hall. by right. }
  case_decide as Hqp.
  - subst q. rewrite Hv in Hw. injection Hw as <-. simpl. apply IH; [by rewrite lookup_insert_eq|auto].
  - apply IH; [by rewrite lookup_insert_ne|auto].
Qed.
End clones.

(** ** The reputation over handles *)
Section reputation.
Context {P : Profile} {T : Type} {RO : ReputationEntryOp T} (p : Handle).

(** the overridden [update] and the provided one, run alone, do the same *)
Lemma lock_update_same h v :
  h !! p = Some v → update (H:=lock_entries p) h = lock_update p h.
Proof.
  intros Hv. unfold lock_update. rewrite (through_locked p update h v Hv).
  unfold update at 1. change (rep_entries h) with (locked_list p rep_entries h).
  unfold locked_list. rewrite Hv. unfold update.
  match goal with |- st_for _ ?b' _ = ((st_for _ ?b _).1, _) =>
    apply (through_for p (rep_entries v) b' b); [|done] end.
  intros ent. apply through_bind; [apply through_lift|intros seen].
  apply through_bind; [apply through_lift|intros included].
  apply through_bind; [apply through_locked|intros _]. apply through_ret.
Qed.
End reputation.

(** ** Concrete evaluations *)
Module Example.
#[local] Existing Instances canonical_order.

(** two pools with clones of handle 0, a third with handle 1 *)
Definition heap : gmap nat MemStore := {[0%nat := MemStore_default; 1%nat := MemStore_default]}.
Definition steps : list (Handle * MempoolStep) :=
  [(0%nat, StAdd (fx_uo 1 0 10)); (1%nat, StAdd (fx_uo 2 0 20)); (0%nat, StAdd (fx_uo 3 1 30))].
Lemma clones_share_handles_separate_witness :
  run_steps steps heap !! 0%nat =
  Some (run_local [StAdd (fx_uo 1 0 10); StAdd (fx_uo 3 1 30)] MemStore_default).
Proof.
  apply (clones_share_handles_separate steps heap 0%nat MemStore_default); [done|].
  intros q Hq. simpl in Hq. repeat (apply elem_of_cons in Hq as [->|Hq]; [by eexists|]).
  by apply not_elem_of_nil in Hq.
Defined.
End Example.
