(* ===== verification/Sanity.v ===== *)
(** The sanity checks of a user operation
    ([crates/mempool/src/validate/sanity]), their order, and what an operation
    that passes all of them satisfies. *)

From Stdlib Require Import SpecFloat.
From S2P Require Import Prelude Primitives Errors AbiStd Gas Reputation Mempool.
From S2P Require Import MemoryStore EntryPoint Fixture.

(** ** [f64] as the standard library's binary64 specification *)
Definition f64_of_u64 (z : Z) : spec_float := binary_normalize 53 1024 z 0 false.
Definition f64_div (a b : spec_float) : spec_float := SFdiv 53 1024 a b.
Definition f64_mul (a b : spec_float) : spec_float := SFmul 53 1024 a b.

(** [as u64]: truncates, saturates, and maps NaN to 0 *)
Definition f64_to_u64 (f : spec_float) : Z :=
  match f with
  | S754_zero _ | S754_nan => 0
  | S754_infinity s => if s then 0 else U64_MAX
  | S754_finite s m e =>
      if s then 0
      else Z.min U64_MAX (if bool_decide (0 ≤ e) then Z.pos m * 2 ^ e else Z.pos m / 2 ^ (- e))
  end.

Lemma f64_to_u64_range f : is_u64 (f64_to_u64 f).
Proof.
  unfold is_u64. assert (0 ≤ U64_MAX) by done. destruct f as [|[]| |[] m e]; simpl; try lia.
  case_bool_decide.
  - assert (0 ≤ Z.pos m * 2 ^ e) by (apply Z.mul_nonneg_nonneg; [lia|]; apply Z.pow_nonneg; lia). lia.
  - assert (0 ≤ Z.pos m / 2 ^ (- e)) by (apply Z.div_pos; [lia|]; apply Z.pow_pos_nonneg; lia). lia.
Qed.

(** configuration shared by the checks: [SanityHelper] and the validator's own *)
Record SanityHelper := {
  sh_val_config : ValidationConfig;
  max_verification_gas : U256;
  min_priority_fee_per_gas : U256;
}.

Section checks.
Context {P : Profile} {A : Abi} {D : Display} {N : Node}.
Context {S : Type} `{MempoolStore S} {R : Type} `{ReputationEntryOp R}.
Implicit Types (uo : UserOperation) (mempool : S) (reputation : Reputation R).

Definition sanity_provider {B} (r : string + B) : comp SanityError B :=
  match r with inr b => Ok b | inl e => Err (SanProvider e) end.

(** ** [call_gas.rs] *)
Definition check_call_gas uo : comp SanityError () :=
  let call_gas_limit := 9100 in
  if bool_decide (call_gas_limit ≤ uo.(uo_call_gas_limit)) then Ok ()
  else Err (CallGasLimitTooLow uo.(uo_call_gas_limit) call_gas_limit).

(** ** [verification_gas.rs] *)
Definition required_pre_verification_gas uo : U256 :=
  div_ceil (saturating_mul (calculate_pre_verification_gas Overhead_default uo) 90) 100.

Definition check_verification_gas (h : SanityHelper) uo : comp SanityError () :=
  if bool_decide (h.(max_verification_gas) < uo.(uo_verification_gas_limit)) then
    Err (VerificationGasLimitTooHigh uo.(uo_verification_gas_limit) h.(max_verification_gas))
  else
    let pre_gas := required_pre_verification_gas uo in
    if bool_decide (uo.(uo_pre_verification_gas) < pre_gas) then
      Err (PreVerificationGasTooLow uo.(uo_pre_verification_gas) pre_gas)
    else Ok ().

(** ** [max_fee.rs] *)
Definition check_max_fee (h : SanityHelper) uo : comp SanityError () :=
  if bool_decide (uo.(uo_max_fee_per_gas) < uo.(uo_max_priority_fee_per_gas)) then
    Err (MaxPriorityFeePerGasTooHigh uo.(uo_max_priority_fee_per_gas) uo.(uo_max_fee_per_gas))
  else
    let* o := sanity_provider get_block_latest in
    let* block := ok_or (SanOther "No block found") o in
    let* base_fee_per_gas := ok_or (SanOther "No base fee") block.(b_base_fee_per_gas) in
    if bool_decide (uo.(uo_max_fee_per_gas) < base_fee_per_gas) then
      Err (MaxFeePerGasTooLow uo.(uo_max_fee_per_gas) base_fee_per_gas)
    else if bool_decide (uo.(uo_max_priority_fee_per_gas) < h.(min_priority_fee_per_gas)) then
      Err (MaxPriorityFeePerGasTooLow uo.(uo_max_priority_fee_per_gas) h.(min_priority_fee_per_gas))
    else Ok ().

(** ** [paymaster.rs] *)
Definition check_paymaster uo : comp SanityError () :=
  if bool_decide (uo.(uo_paymaster_and_data) ≠ []) then
    match get_address uo.(uo_paymaster_and_data) with
    | Some addr =>
        let* code := sanity_provider (get_code addr) in
        if bool_decide (code ≠ []) then
          let* deposit_info := map_err sanity_of_entry_point (get_deposit_info addr) in
          if bool_decide (uo.(uo_max_fee_per_gas) ≤ deposit_info.(di_deposit)) then Ok ()
          else Err (SanPaymaster "Problem with paymaster")
        else Err (SanPaymaster "Problem with paymaster")
    | None => Err (SanPaymaster "Problem with paymaster")
    end
  else Ok ().

(** ** [sender.rs] *)
Definition is_empty (b : bytes) : bool := bool_decide (b = []).

(** the first stored operation of the sender with the nonce *)
Definition prev_by_nonce (h : SanityHelper) uo mempool : comp SanityError (option UserOperation) :=
  if negb h.(sh_val_config).(vc_ignore_prev) then
    let* uos := get_all_by_sender mempool uo.(uo_sender) in
    Ok (snd <$> list_find (λ uo_prev : UserOperation, uo_prev.(uo_nonce) = uo.(uo_nonce)) uos)
  else Ok None.

Definition check_sender (h : SanityHelper) uo mempool : comp SanityError () :=
  let* code := sanity_provider (get_code uo.(uo_sender)) in
  if (is_empty code && is_empty uo.(uo_init_code))
     || (negb (is_empty code) && negb (is_empty uo.(uo_init_code))) then
    Err (SanSender ("sender " +:+ show_address uo.(uo_sender)
      +:+ " is an existing contract, or the initCode " +:+ show_bytes uo.(uo_init_code)
      +:+ " is not empty (but not both)"))
  else if bool_decide (get_number_by_sender mempool uo.(uo_sender) = 0%nat) then Ok ()
  else
    let* uo_prev := prev_by_nonce h uo mempool in
    match uo_prev with
    | Some uo_prev =>
        if bool_decide (uo.(uo_max_fee_per_gas)
             < calculate_valid_gas uo_prev.(uo_max_fee_per_gas) GAS_INCREASE_PERC)
           || bool_decide (uo.(uo_max_priority_fee_per_gas)
             < calculate_valid_gas uo_prev.(uo_max_priority_fee_per_gas) GAS_INCREASE_PERC) then
          Err (SanSender (show_address uo.(uo_sender)
            +:+ " couldn't replace user operation (gas increase too low)"))
        else Ok ()
    | None => Ok ()
    end.

(** ** [entities.rs] *)
Definition entity_status reputation (addr : Address) : comp SanityError Status :=
  let* c := map_err SanReputation (Reputation.get_status reputation addr) in Ok (status_of_code c).

Definition check_banned (entity : string) (addr : Address) (status : Status) : comp SanityError () :=
  if bool_decide (status = BANNED) then Err (SanReputation (BannedEntity entity addr)) else Ok ().

Definition check_throttled (entity : string) (addr : Address) (status : Status) mempool
  : comp SanityError () :=
  if bool_decide (status = THROTTLED) &&
     bool_decide (THROTTLED_ENTITY_MEMPOOL_COUNT ≤
                  get_number_by_sender mempool addr + get_number_by_entity mempool addr)%nat then
    Err (SanReputation (ThrottledEntity entity addr))
  else Ok ().

Definition check_entity (entity : string) (addr : Address) mempool reputation
  : comp SanityError () :=
  let* status := entity_status reputation addr in
  let* _ := check_banned entity addr status in
  check_throttled entity addr status mempool.

(** [if let Some(a) = o { f(a)?; }] *)
Definition comp_when {X E} (o : option X) (f : X → comp E ()) : comp E () :=
  match o with Some x => f x | None => Ok () end.

Definition check_entities uo mempool reputation : comp SanityError () :=
  let '(sender, factory, paymaster) := get_entities uo in
  let* _ := check_entity SENDER sender mempool reputation in
  let* _ := comp_when factory (λ f, check_entity FACTORY f mempool reputation) in
  comp_when paymaster (λ p, check_entity PAYMASTER p mempool reputation).

(** ** [unstaked_entities.rs] *)
Definition get_stake (addr : Address) : comp SanityError StakeInfo :=
  let* info := map_err sanity_of_entry_point (get_deposit_info addr) in
  Ok {| si_address := addr; si_stake := info.(di_stake);
        si_unstake_delay := info.(di_unstake_delay_sec) |}.

Definition calculate_allowed_user_operations {E} (entity : ReputationEntry) : comp E Z :=
  if bool_decide (entity.(uo_seen) = 0) then Ok SAME_UNSTAKED_ENTITY_MEMPOOL_COUNT
  else
    let rate := f64_to_u64 (f64_mul
      (f64_div (f64_of_u64 entity.(uo_included)) (f64_of_u64 entity.(uo_seen)))
      (f64_of_u64 INCLUSION_RATE_FACTOR)) in
    let* x := u64_add SAME_UNSTAKED_ENTITY_MEMPOOL_COUNT rate in
    u64_add x (Z.min entity.(uo_included) 10000).

(** factory and paymaster are treated alike; [EntityRoles] names the sender *)
Definition check_unstaked_entity (h : SanityHelper) (entity : string) (addr sender : Address)
    mempool reputation : comp SanityError () :=
  if bool_decide (0 < get_number_by_sender mempool addr)%nat then
    Err (EntityRoles entity sender "sender")
  else
    let* stake := get_stake addr in
    if is_err (verify_stake reputation entity (Some stake) h.(sh_val_config).(vc_min_stake)
                 h.(sh_val_config).(vc_min_unstake_delay)) then
      let* ent := map_err SanReputation (Reputation.get reputation addr) in
      let* uos_allowed := calculate_allowed_user_operations ent in
      if bool_decide (uos_allowed ≤ Z.of_nat (get_number_by_entity mempool addr)) then
        Err (SanReputation (UnstakedEntity entity addr))
      else Ok ()
    else Ok ().

Definition check_unstaked_entities (h : SanityHelper) uo mempool reputation
  : comp SanityError () :=
  let '(sender, factory, paymaster) := get_entities uo in
  if bool_decide (0 < get_number_by_entity mempool sender)%nat then
    Err (EntityRoles SENDER sender "different")
  else
    let* sender_stake := get_stake sender in
    if is_err (verify_stake reputation SENDER (Some sender_stake)
                 h.(sh_val_config).(vc_min_stake) h.(sh_val_config).(vc_min_unstake_delay))
       && bool_decide (SAME_SENDER_MEMPOOL_COUNT ≤ get_number_by_sender mempool uo.(uo_sender))%nat
    then Err (SanReputation (UnstakedEntity SENDER uo.(uo_sender)))
    else
      let* _ := comp_when factory (λ f, check_unstaked_entity h FACTORY f sender mempool reputation) in
      comp_when paymaster (λ p, check_unstaked_entity h PAYMASTER p sender mempool reputation).

(** ** The tuple of checks, in the order of [new_canonical] *)
Definition sanity_checks (h : SanityHelper) uo mempool reputation : comp SanityError () :=
  let* _ := check_sender h uo mempool in
  let* _ := check_verification_gas h uo in
  let* _ := check_call_gas uo in
  let* _ := check_max_fee h uo in
  let* _ := check_paymaster uo in
  let* _ := check_entities uo mempool reputation in
  check_unstaked_entities h uo mempool reputation.
End checks.

(** ** What each check establishes *)
Section rules.
Context {P : Profile} {A : Abi} {D : Display} {N : Node}.
Context {S : Type} `{ML : MempoolLaws S} {R : Type} `{RL : ReputationEntryLaws R}.
Implicit Types (uo : UserOperation) (mempool : S) (reputation : Reputation R) (h : SanityHelper).

Lemma sanity_checks_ok h uo mempool reputation :
  sanity_checks h uo mempool reputation = Ok () ↔
  check_sender h uo mempool = Ok () ∧ check_verification_gas h uo = Ok () ∧
  check_call_gas uo = Ok () ∧ check_max_fee h uo = Ok () ∧ check_paymaster uo = Ok () ∧
  check_entities uo mempool reputation = Ok () ∧
  check_unstaked_entities h uo mempool reputation = Ok ().
Proof.
  unfold sanity_checks. rewrite !comp_bind_ok. split.
  - intros ([] & ? & H1). repeat (rewrite comp_bind_ok in H1; destruct H1 as ([] & ? & H1)).
    by split_and!.
  - intros (? & ? & ? & ? & ? & ? & ?). exists (). split; [done|].
    repeat (rewrite comp_bind_ok; exists (); split; [done|]). done.
Qed.

(** the entities of an operation with their roles *)
Definition roles uo : list (string * Address) :=
  (SENDER, uo.(uo_sender)) ::
  option_list ((λ f, (FACTORY, f)) <$> factory_of uo) ++
  option_list ((λ p, (PAYMASTER, p)) <$> paymaster_of uo).

Lemma comp_when_ok {X E} (o : option X) (f : X → comp E ()) :
  comp_when o f = Ok () ↔ ∀ x, o = Some x → f x = Ok ().
Proof. destruct o; naive_solver. Qed.

Lemma check_entity_ok entity a mempool reputation :
  check_entity entity a mempool reputation = Ok () ↔
  ∃ c, Reputation.get_status reputation a = Ok c ∧ status_of_code c ≠ BANNED ∧
    (status_of_code c = THROTTLED →
     (get_number_by_sender mempool a + get_number_by_entity mempool a
        < THROTTLED_ENTITY_MEMPOOL_COUNT)%nat).
Proof.
  unfold check_entity, entity_status, check_banned, check_throttled. split.
  - intros Hx. apply comp_bind_ok in Hx as (st & Hst & Hx). apply comp_bind_ok in Hst as (c & Hc & Hst).
    apply map_err_ok in Hc. injection Hst as <-. exists c. split; [done|].
    apply comp_bind_ok in Hx as ([] & Hb & Hx).
    destruct (bool_decide_reflect (status_of_code c = BANNED)); [done|]. split; [done|].
    intros Ht. rewrite (bool_decide_eq_true_2 _ Ht) in Hx. simpl in Hx.
    case_bool_decide; [done|]. lia.
  - intros (c & -> & Hb & Ht). simpl. rewrite bool_decide_eq_false_2 by done. simpl.
    case_bool_decide as Hc; [|done]. rewrite bool_decide_eq_false_2; [done|].
    specialize (Ht Hc). lia.
Qed.

Lemma check_entities_ok uo mempool reputation :
  check_entities uo mempool reputation = Ok () ↔
  ∀ entity a, (entity, a) ∈ roles uo → check_entity entity a mempool reputation = Ok ().
Proof.
  unfold check_entities, roles; simpl. fold (factory_of uo) (paymaster_of uo).
  setoid_rewrite elem_of_cons. setoid_rewrite elem_of_app. split.
  - intros Hx entity a. apply comp_bind_ok in Hx as ([] & Hs & Hx).
    apply comp_bind_ok in Hx as ([] & Hf & Hp). rewrite comp_when_ok in Hf.
    rewrite comp_when_ok in Hp. intros [[= -> ->]|[Hin|Hin]]; [done|..].
    + destruct (factory_of uo); simpl in Hin; [|set_solver].
      apply list_elem_of_singleton in Hin as [= -> ->]. by apply Hf.
    + destruct (paymaster_of uo); simpl in Hin; [|set_solver].
      apply list_elem_of_singleton in Hin as [= -> ->]. by apply Hp.
  - intros Hx. apply comp_bind_ok. exists (). split; [apply Hx; by left|].
    apply comp_bind_ok. exists (). rewrite !comp_when_ok. split.
    + intros f Hf. apply Hx. right. left. rewrite Hf. simpl. set_solver.
    + intros p Hp. apply Hx. right. right. rewrite Hp. simpl. set_solver.
Qed.

Lemma check_unstaked_entity_ok h entity a sender mempool reputation :
  check_unstaked_entity h entity a sender mempool reputation = Ok () →
  get_number_by_sender mempool a = 0%nat.
Proof. unfold check_unstaked_entity. case_bool_decide; [done|]. lia. Qed.

Lemma check_unstaked_ok h uo mempool reputation :
  check_unstaked_entities h uo mempool reputation = Ok () →
  get_number_by_entity mempool uo.(uo_sender) = 0%nat ∧
  (∀ a, factory_of uo = Some a ∨ paymaster_of uo = Some a →
        get_number_by_sender mempool a = 0%nat) ∧
  ∃ stake, get_stake uo.(uo_sender) = Ok stake ∧
    (verify_stake reputation SENDER (Some stake) h.(sh_val_config).(vc_min_stake)
       h.(sh_val_config).(vc_min_unstake_delay) = Ok () ∨
     (get_number_by_sender mempool uo.(uo_sender) < SAME_SENDER_MEMPOOL_COUNT)%nat).
Proof.
  unfold check_unstaked_entities, get_entities. cbv beta iota. fold (factory_of uo) (paymaster_of uo).
  case_bool_decide; [done|]. intros Hr. apply comp_bind_ok in Hr as (stake & Hst & Hr).
  set (b := is_err _) in Hr. destruct (b && _) eqn:Hb; [done|].
  apply comp_bind_ok in Hr as ([] & Hf & Hp). rewrite comp_when_ok in Hf. rewrite comp_when_ok in Hp.
  split; [lia|]. split.
  - intros a [Ha|Ha]; eapply check_unstaked_entity_ok; [by apply Hf|by apply Hp].
  - exists stake. split; [done|]. apply andb_false_iff in Hb as [Hb|Hb].
    + left. unfold b in Hb. destruct (verify_stake reputation _ _ _ _) as [[]|e|] eqn:Hv; [done..|].
      unfold verify_stake in Hv. by repeat case_match.
    + right. apply bool_decide_eq_false in Hb. lia.
Qed.

End rules.

(** ** Roles *)
(** no pooled operation shares an address with another in a different role *)
Definition roles_separate (uo : UserOperation) (p : Pool) : Prop :=
  ∀ q u, p.(p_uos) !! q = Some u →
    factory_of u ≠ Some uo.(uo_sender) ∧ paymaster_of u ≠ Some uo.(uo_sender) ∧
    factory_of uo ≠ Some u.(uo_sender) ∧ paymaster_of uo ≠ Some u.(uo_sender).

Section roles.
Context {P : Profile} {A : Abi} {D : Display} {N : Node}.
Context {S : Type} `{PS : PoolStorage S} {R : Type} `{RL : ReputationEntryLaws R}.

Lemma sanity_roles_holds h uo (mempool : S) (reputation : Reputation R) g :
  holds mempool g → sanity_checks h uo mempool reputation = Ok () →
  roles_separate uo (ghost_pool g).
Proof.
  intros Hg (_ & _ & _ & _ & _ & _ & Hu)%sanity_checks_ok q u Hq.
  apply check_unstaked_ok in Hu as (Hs & Hfp & _).
  pose proof (no_index_holds UserOperationsByEntity _ g _ Hg Hs q u Hq) as Hne.
  split; [naive_solver|]. split; [naive_solver|].
  split; intros Ha; specialize (Hfp _ ltac:(eauto));
    by eapply (no_index_holds UserOperationsBySender _ g _ Hg Hfp q u Hq).
Qed.
End roles.

Section rules.
Context {P : Profile} {A : Abi} {D : Display} {N : Node}.
Context {S : Type} `{ML : MempoolLaws S} {R : Type} `{RL : ReputationEntryLaws R}.
Implicit Types (uo : UserOperation) (mempool : S) (reputation : Reputation R) (h : SanityHelper).

(** An operation that passes the sanity checks pays and
    reserves enough: its call gas covers a value-bearing CALL, its verification
    gas stays below the configured maximum, its pre-verification gas is at least
    90% of the computed one, its priority fee lies between the configured minimum
    and its fee cap, and its fee cap is at least the base fee of the latest block. *)
Theorem sanity_fee_rules h uo mempool reputation :
  sanity_checks h uo mempool reputation = Ok () →
  9100 ≤ uo.(uo_call_gas_limit) ∧
  uo.(uo_verification_gas_limit) ≤ h.(max_verification_gas) ∧
  required_pre_verification_gas uo ≤ uo.(uo_pre_verification_gas) ∧
  h.(min_priority_fee_per_gas) ≤ uo.(uo_max_priority_fee_per_gas) ≤ uo.(uo_max_fee_per_gas) ∧
  ∃ b base, get_block_latest = inr (Some b) ∧ b.(b_base_fee_per_gas) = Some base ∧
    base ≤ uo.(uo_max_fee_per_gas).
Proof.
  intros (_ & Hv & Hc & Hm & _)%sanity_checks_ok.
  unfold check_verification_gas in Hv. unfold check_call_gas in Hc. unfold check_max_fee in Hm.
  split_guard Hm.
  apply comp_bind_ok in Hm as (o & Ho & Hm). apply comp_bind_ok in Hm as (b & Hb & Hm).
  apply comp_bind_ok in Hm as (base & Hbase & Hm). apply ok_or_ok in Hb, Hbase. subst o.
  repeat case_bool_decide; try done.
  split_and!; [lia..|]. exists b, base. split_and!; [|done|lia].
  unfold sanity_provider in Ho. destruct get_block_latest; by simplify_eq/=.
Qed.

(** C10. No entity of an operation that passes the
    sanity checks is banned, and a throttled one has fewer than
    [THROTTLED_ENTITY_MEMPOOL_COUNT] operations in the pool, counting those it
    sends and those it serves as factory or paymaster. *)
Theorem sanity_reputation_rules h uo mempool reputation p entity a :
  refines mempool p →
  sanity_checks h uo mempool reputation = Ok () → (entity, a) ∈ roles uo →
  ∃ c, Reputation.get_status reputation a = Ok c ∧ status_of_code c ≠ BANNED ∧
    (status_of_code c = THROTTLED →
     (size (filter (λ kv, kv.2.(uo_sender) = a) p.(p_uos)) +
      size (filter (λ kv, factory_of kv.2 = Some a ∨ paymaster_of kv.2 = Some a) p.(p_uos)) < 4)%nat).
Proof.
  intros Hr (_ & _ & _ & _ & _ & He & _)%sanity_checks_ok Hin.
  apply check_entities_ok with (entity := entity) (a := a) in He; [|done].
  apply check_entity_ok in He as (c & Hc & Hb & Ht). exists c. split; [done|]. split; [done|].
  intros HT. specialize (Ht HT). unfold get_number_by_sender, get_number_by_entity,
    get_number_by_address in Ht. rewrite !(refines_index_perm mempool p) in Ht by done.
  by rewrite !length_fmap, !length_map_to_list in Ht.
Qed.

Lemma refines_no_index mempool p t a : refines mempool p →
  get_number_by_address t mempool a = 0%nat →
  ∀ q u, p.(p_uos) !! q = Some u → ¬ relevant t a u.
Proof. exact (no_index_holds (PS:=laws_storage) t mempool p a). Qed.

Lemma sanity_roles h uo mempool reputation p :
  refines mempool p → sanity_checks h uo mempool reputation = Ok () → roles_separate uo p.
Proof. exact (sanity_roles_holds (PS:=laws_storage) h uo mempool reputation p). Qed.

(** An operation that passes the sanity checks
    keeps the roles apart: its sender is neither factory nor paymaster of a
    pooled operation, and its factory and paymaster send no pooled operation. *)
Theorem sanity_role_separation h uo mempool reputation p :
  refines mempool p → sanity_checks h uo mempool reputation = Ok () →
  ∀ q u, p.(p_uos) !! q = Some u →
    factory_of u ≠ Some uo.(uo_sender) ∧ paymaster_of u ≠ Some uo.(uo_sender) ∧
    factory_of uo ≠ Some u.(uo_sender) ∧ paymaster_of uo ≠ Some u.(uo_sender).
Proof. apply sanity_roles. Qed.

(** A sender without a sufficient stake has fewer
    than [SAME_SENDER_MEMPOOL_COUNT] operations in the pool when one more of its
    operations passes the sanity checks. *)
Theorem unstaked_sender_limit h uo mempool reputation p stake :
  refines mempool p → sanity_checks h uo mempool reputation = Ok () →
  get_stake uo.(uo_sender) = Ok stake →
  verify_stake reputation SENDER (Some stake) h.(sh_val_config).(vc_min_stake)
    h.(sh_val_config).(vc_min_unstake_delay) ≠ Ok () →
  (size (filter (λ kv, kv.2.(uo_sender) = uo.(uo_sender)) p.(p_uos)) < 4)%nat.
Proof.
  intros Hr (_ & _ & _ & _ & _ & _ & Hu)%sanity_checks_ok Hst Hv.
  apply check_unstaked_ok in Hu as (_ & _ & stake' & Hst' & [Hv'|Hn]); [congruence|].
  unfold get_number_by_sender, get_number_by_address in Hn.
  rewrite (refines_index_perm mempool p) in Hn by done.
  by rewrite length_fmap, length_map_to_list in Hn.
Qed.

Lemma valid_gas_bound price fee : 0 ≤ price → price * 110 ≤ U256_MAX →
  calculate_valid_gas price GAS_INCREASE_PERC ≤ fee → 110 * price ≤ 100 * fee.
Proof.
  intros Hp Hmax Hle. unfold calculate_valid_gas, GAS_INCREASE_PERC in Hle.
  change (saturating_add 10 100) with 110 in Hle.
  unfold saturating_mul in Hle. rewrite Z.min_l in Hle by lia.
  assert (is_u256 (price * 110)) as Hu by (unfold is_u256; lia).
  pose proof (proj1 (div_ceil_spec (price * 110) 100 _ Hu ltac:(lia)) eq_refl). lia.
Qed.

(** C13. Where previous operations are looked at ([ignore_prev] unset, as for direct
    submissions and for what peers gossip; the network service sets it for the
    operations it sends back to their own pool): when the pool holds one operation
    with the sender and nonce of a new one, with fees whose multiple by 110 fits
    256 bits, the new one passes the sanity checks only if it raises both fees of
    that operation by at least 10%. *)
Theorem replacement_needs_fee_bump h uo mempool reputation p q old :
  refines mempool p → sanity_checks h uo mempool reputation = Ok () →
  h.(sh_val_config).(vc_ignore_prev) = false →
  0 ≤ old.(uo_max_fee_per_gas) → old.(uo_max_fee_per_gas) * 110 ≤ U256_MAX →
  0 ≤ old.(uo_max_priority_fee_per_gas) → old.(uo_max_priority_fee_per_gas) * 110 ≤ U256_MAX →
  p.(p_uos) !! q = Some old → old.(uo_sender) = uo.(uo_sender) → old.(uo_nonce) = uo.(uo_nonce) →
  (∀ k u, p.(p_uos) !! k = Some u → u.(uo_sender) = uo.(uo_sender) → u.(uo_nonce) = uo.(uo_nonce) →
     k = q) →
  110 * old.(uo_max_fee_per_gas) ≤ 100 * uo.(uo_max_fee_per_gas) ∧
  110 * old.(uo_max_priority_fee_per_gas) ≤ 100 * uo.(uo_max_priority_fee_per_gas).
Proof.
  intros Hr (Hs & _)%sanity_checks_ok Hig ???? Hq Hsd Hn Hone. unfold check_sender in Hs.
  apply comp_bind_ok in Hs as (code & _ & Hs). destruct (_ || _); [done|].
  case_bool_decide as Hz.
  { by destruct (refines_no_index mempool p UserOperationsBySender _ Hr Hz q old Hq). }
  apply comp_bind_ok in Hs as (o & Ho & Hs). unfold prev_by_nonce, get_all_by_sender in Ho.
  rewrite Hig, (get_many_spec mempool p) in Ho by done. simpl in Ho.
  set (l := omap _ _) in Ho. injection Ho as <-.
  destruct (list_find _ l) as [[i prev]|] eqn:Hf.
  - apply list_find_Some in Hf as (Hl & Hpn & _). apply list_elem_of_lookup_2 in Hl.
    apply (get_many_elem mempool p) in Hl as [Hl Hps]; [|done]. simpl in Hs.
    destruct (_ || _) eqn:Hor; [done|]. apply orb_false_iff in Hor as [Hm Hp].
    apply bool_decide_eq_false in Hm, Hp.
    assert (prev.(user_operation) = old) as Heq.
    { pose proof (Hone _ _ Hl Hps Hpn) as He. rewrite He, Hq in Hl. by injection Hl. }
    rewrite Heq in Hm, Hp. split.
    + apply valid_gas_bound; [done..|lia].
    + apply valid_gas_bound; [done..|lia].
  - apply list_find_None in Hf. rewrite Forall_forall in Hf.
    destruct (Hf (from_user_operation_signed q old)); [|done].
    by apply (get_many_elem mempool p).
Qed.
End rules.

(** An unstaked entity is always allowed ten pooled
    operations, plus one per operation included so far up to 10000, whatever the
    floating-point inclusion rate contributes; the sum never exceeds 64 bits
    unless the rate alone does. *)
Theorem unstaked_allowance {P : Profile} {E} (e : ReputationEntry) n :
  overflow_checks = true → 0 ≤ e.(uo_included) → e.(uo_seen) ≠ 0 →
  calculate_allowed_user_operations (E:=E) e = Ok n →
  10 + Z.min e.(uo_included) 10000 ≤ n ≤ U64_MAX.
Proof.
  intros Hoc Hi Hs. unfold calculate_allowed_user_operations.
  rewrite bool_decide_eq_false_2 by done. cbv zeta.
  set (rate := f64_to_u64 _). assert (is_u64 rate) as [Hr0 Hr1] by apply f64_to_u64_range.
  unfold u64_add, u64_norm. rewrite Hoc. unfold SAME_UNSTAKED_ENTITY_MEMPOOL_COUNT.
  case_bool_decide; simpl; [|done]. case_bool_decide; [|done]. intros [= <-]. lia.
Qed.

(** ** Concrete evaluations *)
Module Example.
#[local] Existing Instances fx_profile std_abi std_display fx_node canonical_order.

Definition helper : SanityHelper := {|
  sh_val_config := ValidationConfig_default; max_verification_gas := 5000000;
  min_priority_fee_per_gas := 0 |}.

(** a replacement of the pooled operation with 10% higher fees passes *)
Lemma replacement_passes :
  sanity_checks helper (fx_uo 2 0 11) fx_store fx_reputation = Ok ().
Proof. by vm_compute. Qed.

(** a 9% increase does not *)
Lemma small_increase_fails :
  is_err (sanity_checks helper (fx_uo 2 0 10) fx_store fx_reputation) = true.
Proof. by vm_compute. Qed.

Lemma sanity_fee_rules_witness : 9100 ≤ (fx_uo 2 0 11).(uo_call_gas_limit).
Proof.
  exact (proj1 (sanity_fee_rules helper (fx_uo 2 0 11) fx_store fx_reputation replacement_passes)).
Defined.

Lemma sanity_reputation_rules_witness :
  ∃ c, Reputation.get_status fx_reputation 7 = Ok c ∧ status_of_code c ≠ BANNED.
Proof.
  destruct (sanity_reputation_rules helper (fx_uo 2 0 11) fx_store fx_reputation fx_pool PAYMASTER 7
    fx_refines replacement_passes) as (c & Hc & Hb & _).
  - apply (bool_decide_unpack _). by vm_compute.
  - by exists c.
Defined.

Lemma sanity_role_separation_witness : paymaster_of (fx_uo 2 0 11) ≠ Some 9.
Proof.
  exact (proj2 (proj2 (proj2 (sanity_role_separation helper (fx_uo 2 0 11) fx_store fx_reputation
    fx_pool fx_refines replacement_passes 1 (fx_uo 1 0 10) eq_refl)))).
Defined.

(** the same pool under a configuration with a higher required stake *)
Definition strict : SanityHelper := {|
  sh_val_config := {| vc_min_stake := Some 1000; vc_min_unstake_delay := None; vc_topic := None;
                      vc_ignore_prev := false |};
  max_verification_gas := 5000000; min_priority_fee_per_gas := 0 |}.

Lemma unstaked_sender_limit_witness :
  (size (filter (λ kv, kv.2.(uo_sender) = 9%Z) fx_pool.(p_uos)) < 4)%nat.
Proof.
  apply (unstaked_sender_limit strict (fx_uo 2 0 11) fx_store fx_reputation fx_pool
    {| si_address := 9; si_stake := 100; si_unstake_delay := 100 |} fx_refines);
    by vm_compute.
Defined.

Lemma replacement_needs_fee_bump_witness :
  110 * (fx_uo 1 0 10).(uo_max_fee_per_gas) ≤ 100 * 110 ∧
  110 * (fx_uo 1 0 10).(uo_max_priority_fee_per_gas) ≤ 100 * 11.
Proof.
  apply (replacement_needs_fee_bump helper (fx_uo 2 0 11) fx_store fx_reputation fx_pool 1
    (fx_uo 1 0 10) fx_refines replacement_passes); try (by vm_compute).
  intros k u. simpl. rewrite lookup_singleton_Some. by intros [<- _].
Defined.

Lemma unstaked_allowance_witness : 10 + Z.min 3 10000 ≤ 20 ≤ U64_MAX.
Proof.
  apply (unstaked_allowance (P:=fx_profile) (E:=SanityError)
    {| re_address := 7; uo_seen := 4; uo_included := 3; re_status := 0 |} 20);
    by vm_compute.
Defined.
End Example.
