(* ===== verification/Simulation.v ===== *)
(** The checks on a simulated validation ([crates/mempool/src/validate/simulation])
    and the helpers that read its result ([validate/utils.rs]). *)

From S2P Require Import Prelude Primitives Errors AbiStd Reputation Mempool.
From S2P Require Import MemoryStore EntryPoint Fixture.

(** ** [validate/utils.rs] *)
Definition result_of (sim_res : SimulateValidationResult) : ValidationResult :=
  match sim_res with
  | SimValidationResult res => res
  | SimValidationResultWithAggregation res => res
  end.

Definition extract_verification_gas_limit (sim_res : SimulateValidationResult) : U256 :=
  (result_of sim_res).(vr_return_info).(ri_pre_op_gas).
Definition extract_pre_fund (sim_res : SimulateValidationResult) : U256 :=
  (result_of sim_res).(vr_return_info).(ri_prefund).
Definition extract_timestamps (sim_res : SimulateValidationResult) : U256 * U256 :=
  ((result_of sim_res).(vr_return_info).(ri_valid_after),
   (result_of sim_res).(vr_return_info).(ri_valid_until)).

(** factory, account, paymaster *)
Definition extract_stake_info (uo : UserOperation) (sim_res : SimulateValidationResult)
  : list StakeInfo :=
  let res := result_of sim_res in
  [ {| si_address := default 0 (get_address uo.(uo_init_code));
       si_stake := res.(vr_factory_info).1; si_unstake_delay := res.(vr_factory_info).2 |};
    {| si_address := uo.(uo_sender);
       si_stake := res.(vr_sender_info).1; si_unstake_delay := res.(vr_sender_info).2 |};
    {| si_address := default 0 (get_address uo.(uo_paymaster_and_data));
       si_stake := res.(vr_paymaster_info).1; si_unstake_delay := res.(vr_paymaster_info).2 |} ].

Section storage_maps.
Context {HO : HashOrder}.

(** a later level replaces what an earlier one read at the same address *)
Definition extract_storage_map (js_trace : JsTracerFrame) : StorageMap := {|
  root_hashes := ∅;
  slots := fold_left (λ m l,
    fold_left (λ m '(addr, acc), <[addr := acc.(reads)]> m) (iter_map l.(access)) m)
    js_trace.(calls_from_entry_point) ∅;
|}.

Definition merge_one (merged_map map : StorageMap) : StorageMap :=
  let m1 := fold_left (λ mm '(addr, entry),
    {| root_hashes := <[addr := entry]> mm.(root_hashes); slots := delete addr mm.(slots) |})
    (iter_map map.(root_hashes)) merged_map in
  fold_left (λ mm '(addr, entry),
    if bool_decide (is_Some (mm.(root_hashes) !! addr)) then mm
    else
      {| root_hashes := mm.(root_hashes);
         slots := match mm.(slots) !! addr with
                  | Some s => <[addr := fold_left (λ s '(slot, value), <[slot := value]> s)
                                          (iter_map entry) s]> mm.(slots)
                  | None => <[addr := entry]> mm.(slots)
                  end |})
    (iter_map map.(slots)) m1.

Definition merge_storage_maps (storage_maps : list StorageMap) : StorageMap :=
  fold_left merge_one storage_maps StorageMap_default.
End storage_maps.

(** ** [simulation/*.rs]; the state is [helper.valid_after] *)
Class Clock := { now_secs : string + Z }.

Section checks.
Context {CK : Clock} {D : Display}.
Implicit Types (uo : UserOperation) (sim_res : SimulateValidationResult).

Definition check_signature sim_res : ST (option U256) SimulationError () :=
  if (result_of sim_res).(vr_return_info).(ri_sig_failed) then st_lift (Err SimSignature)
  else st_ret ().

Definition check_timestamp sim_res : ST (option U256) SimulationError () :=
  let '(valid_after, valid_until) := extract_timestamps sim_res in
  match now_secs with
  | inl err => st_lift (Err (SimOther err))
  | inr now =>
      if bool_decide (valid_until < now) then st_lift (Err (SimTimestamp "already expired"))
      else
        do* limit := st_lift (u256_add now EXPIRATION_TIMESTAMP_DIFF) in
        if bool_decide (valid_until ≤ limit) then st_lift (Err (SimTimestamp "expires too soon"))
        else if bool_decide (now < valid_after) then st_mod (λ _, Some valid_after)
        else st_ret ()
  end.

(** both subtractions and [as_u64] panic out of range *)
Definition check_verification_extra_gas uo sim_res : ST (option U256) SimulationError () :=
  let pre_op_gas := (result_of sim_res).(vr_return_info).(ri_pre_op_gas) in
  st_lift (
    let* used := u256_sub pre_op_gas uo.(uo_pre_verification_gas) in
    let* extra_gas := u256_sub uo.(uo_verification_gas_limit) used in
    let* extra := as_u64 extra_gas in
    if bool_decide (extra < MIN_EXTRA_GAS) then
      Err (SimValidation ("Verification gas should have extra 2000 gas (has $"
             +:+ show_u256 extra_gas +:+ ")"))
    else Ok ()).

Definition simulation_checks uo sim_res : ST (option U256) SimulationError () :=
  do* _ := check_signature sim_res in
  do* _ := check_timestamp sim_res in
  check_verification_extra_gas uo sim_res.

(** ** Properties *)
(** C14. The simulation checks accept exactly an operation
    whose signature was not rejected, that stays valid for more than 30 seconds
    and that has between 2000 and 2^64-1 units of verification gas left; a start
    of validity in the future is passed on, any other leaves none. *)
Theorem simulation_accepts uo sim_res now va :
  now_secs = inr now → is_u256 (now + EXPIRATION_TIMESTAMP_DIFF) →
  simulation_checks uo sim_res None = (Ok (), va) ↔
  let info := (result_of sim_res).(vr_return_info) in
  let used := info.(ri_pre_op_gas) - uo.(uo_pre_verification_gas) in
  info.(ri_sig_failed) = false ∧
  now + EXPIRATION_TIMESTAMP_DIFF < info.(ri_valid_until) ∧
  0 ≤ used ∧ used + MIN_EXTRA_GAS ≤ uo.(uo_verification_gas_limit) ≤ used + U64_MAX ∧
  va = if bool_decide (now < info.(ri_valid_after)) then Some info.(ri_valid_after) else None.
Proof.
  intros Hnow [_ Hmax]. unfold simulation_checks, check_signature, check_timestamp,
    check_verification_extra_gas, extract_timestamps. rewrite Hnow. cbv zeta.
  set (info := vr_return_info _). destruct (ri_sig_failed info); [by naive_solver|].
  unfold u256_add, u256_sub, as_u64, st_bind, st_lift, st_ret, st_mod,
    EXPIRATION_TIMESTAMP_DIFF, MIN_EXTRA_GAS in *.
  destruct (bool_decide_reflect (ri_valid_until info < now)); [naive_solver lia|].
  rewrite (bool_decide_eq_true_2 (now + 30 ≤ U256_MAX)) by lia.
  destruct (bool_decide_reflect (ri_valid_until info ≤ now + 30)); [naive_solver lia|].
  destruct (bool_decide_reflect (now < ri_valid_after info));
    (destruct (bool_decide_reflect (uo_pre_verification_gas uo ≤ ri_pre_op_gas info)); simpl;
      [|naive_solver lia]);
    (case_bool_decide; simpl; [|naive_solver lia]);
    (case_bool_decide; simpl; [|naive_solver lia]);
    case_bool_decide; naive_solver lia.
Qed.
End checks.

(** ** Merging storage maps *)
Section merge.
Context {HO : HashOrder}.

Lemma fold_insert_list `{Countable K} {V} (l : list (K * V)) (s : gmap K V) :
  NoDup l.*1 → fold_left (λ s '(k, v), <[k := v]> s) l s = list_to_map l ∪ s.
Proof.
  revert s. induction l as [|[k v] l IH]; intros s Hn; simpl; [by rewrite map_empty_union|].
  apply NoDup_cons in Hn as [Hk Hn]. rewrite IH by done.
  rewrite <-insert_union_l. apply map_eq. intros i.
  destruct (decide (i = k)) as [->|Hi].
  - rewrite lookup_insert_eq, lookup_union_r; [apply lookup_insert_eq|].
    by apply not_elem_of_list_to_map_1.
  - rewrite lookup_insert_ne by done. rewrite !lookup_union, lookup_insert_ne by done. done.
Qed.

Lemma list_to_map_iter `{Countable K} {V} (m : gmap K V) : list_to_map (iter_map m) = m.
Proof.
  rewrite (list_to_map_proper _ (map_to_list m)); [apply list_to_map_to_list| |].
  - apply NoDup_iter_map_fst.
  - apply iter_map_perm.
Qed.

Lemma fold_insert_iter `{Countable K} {V} (m s : gmap K V) :
  fold_left (λ s '(k, v), <[k := v]> s) (iter_map m) s = m ∪ s.
Proof. rewrite fold_insert_list by apply NoDup_iter_map_fst. by rewrite list_to_map_iter. Qed.

(** slots are only kept for addresses without a root hash *)
Definition storage_wf (m : StorageMap) : Prop :=
  ∀ a, is_Some (m.(root_hashes) !! a) → m.(slots) !! a = None.

Lemma merge_roots (l : list (Address * H256)) mm : NoDup l.*1 →
  let r := fold_left (λ mm '(addr, entry),
    {| root_hashes := <[addr := entry]> mm.(root_hashes); slots := delete addr mm.(slots) |}) l mm in
  r.(root_hashes) = list_to_map l ∪ mm.(root_hashes) ∧
  ∀ a, (a ∈ l.*1 → r.(slots) !! a = None) ∧ (a ∉ l.*1 → r.(slots) !! a = mm.(slots) !! a).
Proof.
  revert mm. induction l as [|[k v] l IH]; intros mm Hn; simpl.
  { split; [by rewrite map_empty_union|]. set_solver. }
  apply NoDup_cons in Hn as [Hk Hn].
  destruct (IH {| root_hashes := <[k := v]> mm.(root_hashes); slots := delete k mm.(slots) |} Hn)
    as [Hr Hs]. split.
  - rewrite Hr. simpl. rewrite <-insert_union_l. apply map_eq. intros i.
    destruct (decide (i = k)) as [->|Hi].
    + rewrite lookup_insert_eq, lookup_union_r; [apply lookup_insert_eq|].
      by apply not_elem_of_list_to_map_1.
    + rewrite lookup_insert_ne by done. rewrite !lookup_union, lookup_insert_ne by done. done.
  - intros a. destruct (Hs a) as [Hs1 Hs2]. simpl in Hs2. split.
    + intros [->|Ha]%elem_of_cons; [|by apply Hs1]. rewrite Hs2 by done. apply lookup_delete_eq.
    + intros Ha. rewrite Hs2 by set_solver. apply lookup_delete_ne. set_solver.
Qed.

Definition merge_slots (new old : option (gmap string string)) : option (gmap string string) :=
  match new, old with
  | Some e, Some s => Some (e ∪ s)
  | Some e, None => Some e
  | None, o => o
  end.

Lemma merge_slot_maps (l : list (Address * gmap string string)) mm : NoDup l.*1 →
  let r := fold_left (λ mm '(addr, entry),
    if bool_decide (is_Some (mm.(root_hashes) !! addr)) then mm
    else
      {| root_hashes := mm.(root_hashes);
         slots := match mm.(slots) !! addr with
                  | Some s => <[addr := fold_left (λ s '(slot, value), <[slot := value]> s)
                                          (iter_map entry) s]> mm.(slots)
                  | None => <[addr := entry]> mm.(slots)
                  end |}) l mm in
  r.(root_hashes) = mm.(root_hashes) ∧
  ∀ a, r.(slots) !! a =
    if decide (is_Some (mm.(root_hashes) !! a)) then mm.(slots) !! a
    else merge_slots ((list_to_map l : gmap Address _) !! a) (mm.(slots) !! a).
Proof.
  revert mm. induction l as [|[k e] l IH]; intros mm Hn; simpl.
  { split; [done|]. intros a. by case_decide. }
  apply NoDup_cons in Hn as [Hk Hn]. case_bool_decide as Hroot.
  - destruct (IH mm Hn) as [Hr Hs]. split; [done|]. intros a. rewrite Hs.
    case_decide; [done|]. rewrite lookup_insert_ne; [done|]. by intros ->.
  - match goal with |- context [fold_left _ l ?m] => destruct (IH m Hn) as [Hr Hs]; set (m1 := m) in * end.
    split; [done|]. intros a. rewrite Hs. change (root_hashes m1) with (root_hashes mm).
    case_decide as Hd; unfold m1; simpl.
    + assert (a ≠ k) by (by intros ->). destruct (slots mm !! k); by rewrite lookup_insert_ne.
    + destruct (decide (a = k)) as [->|Hne].
      * rewrite lookup_insert_eq, (not_elem_of_list_to_map_1 l k) by done. simpl.
        destruct (slots mm !! k) eqn:Hsk; rewrite lookup_insert_eq; [|done].
        by rewrite fold_insert_iter.
      * rewrite lookup_insert_ne by done. destruct (slots mm !! k); by rewrite lookup_insert_ne.
Qed.

Lemma merge_one_spec m1 m2 : storage_wf m1 →
  (merge_one m1 m2).(root_hashes) = m2.(root_hashes) ∪ m1.(root_hashes) ∧
  ∀ a, (merge_one m1 m2).(slots) !! a =
    if decide (is_Some ((m2.(root_hashes) ∪ m1.(root_hashes)) !! a)) then None
    else merge_slots (m2.(slots) !! a) (m1.(slots) !! a).
Proof.
  intros Hwf. unfold merge_one.
  destruct (merge_roots (iter_map m2.(root_hashes)) m1 (NoDup_iter_map_fst _)) as [Hr Hs].
  match goal with |- context [fold_left _ (iter_map m2.(slots)) ?m] => set (mm := m) in * end.
  destruct (merge_slot_maps (iter_map m2.(slots)) mm (NoDup_iter_map_fst _)) as [Hr' Hs'].
  rewrite list_to_map_iter in Hr. split; [by rewrite Hr', Hr|].
  intros a. rewrite Hs', list_to_map_iter, Hr. destruct (Hs a) as [Hs1 Hs2].
  assert (Hin : a ∈ (iter_map m2.(root_hashes)).*1 ↔ is_Some (m2.(root_hashes) !! a)).
  { rewrite list_elem_of_fmap. split.
    - intros ([? v] & -> & Hv%elem_of_iter_map). by exists v.
    - intros [v Hv]. exists (a, v). by rewrite elem_of_iter_map. }
  case_decide as Hd.
  - destruct (decide (is_Some (m2.(root_hashes) !! a))); [by apply Hs1, Hin|].
    rewrite Hs2 by (by rewrite Hin). apply Hwf. rewrite lookup_union_is_Some in Hd. tauto.
  - rewrite Hs2; [done|]. rewrite Hin. intros ?. apply Hd. rewrite lookup_union_is_Some. by left.
Qed.

Lemma merge_one_wf m1 m2 : storage_wf m1 → storage_wf (merge_one m1 m2).
Proof.
  intros Hwf a Ha. destruct (merge_one_spec m1 m2 Hwf) as [Hr Hs]. rewrite Hs, decide_True; [done|].
  by rewrite <-Hr.
Qed.

(** the slots recorded for an address by the last map that knows the slot *)
Definition last_slot (ms : list StorageMap) (a : Address) (slot : string) : option string :=
  fold_left (λ o m, match m.(slots) !! a ≫= lookup slot with Some v => Some v | None => o end) ms None.

(** Merging the storage maps of a bundle keeps,
    for every slot, the value of the last map that recorded it when no map has
    root hashes; an address with a root hash keeps no slots.  The result does not
    depend on the iteration order of the hash maps. *)
Theorem merged_storage_is_latest ms :
  storage_wf (merge_storage_maps ms) ∧
  (Forall (λ m, m.(root_hashes) = ∅) ms →
   (merge_storage_maps ms).(root_hashes) = ∅ ∧
   ∀ a slot, (merge_storage_maps ms).(slots) !! a ≫= lookup slot = last_slot ms a slot).
Proof.
  assert (Hgen : ∀ ms, storage_wf (merge_storage_maps ms)).
  { unfold merge_storage_maps. induction ms0 as [|m ms0 IH] using rev_ind.
    - intros a; simpl. by rewrite lookup_empty.
    - rewrite fold_left_app. simpl. by apply merge_one_wf. }
  split; [apply Hgen|]. induction ms as [|m ms IH] using rev_ind; intros Hroots.
  { split; [done|]. intros a slot. simpl. by rewrite lookup_empty. }
  apply Forall_app in Hroots as [Hroots Hm]. rewrite Forall_singleton in Hm.
  destruct (IH Hroots) as [Hr IHs]. 
  assert (Happ : merge_storage_maps (ms ++ [m]) = merge_one (merge_storage_maps ms) m)
    by (unfold merge_storage_maps; by rewrite fold_left_app).
  rewrite Happ.
  destruct (merge_one_spec (merge_storage_maps ms) m (Hgen ms)) as [Hr' Hs'].
  assert (Hu : root_hashes m ∪ root_hashes (merge_storage_maps ms) = ∅)
    by (by rewrite Hr, Hm, map_empty_union).
  split; [by rewrite Hr'|].
  intros a slot. rewrite Hs', decide_False by (rewrite Hu, lookup_empty; by intros []).
  unfold last_slot. rewrite fold_left_app. simpl. fold (last_slot ms a slot).
  rewrite <-(IHs a slot). unfold merge_slots.
  destruct (slots m !! a) as [e|] eqn:He, (slots (merge_storage_maps ms) !! a) as [s|]; simpl.
  - rewrite lookup_union. destruct (e !! slot), (s !! slot); done.
  - by destruct (e !! slot).
  - done.
  - done.
Qed.
End merge.

(** ** Concrete evaluations *)
Module Example.
#[local] Existing Instances std_display canonical_order.
#[local] Instance clock : Clock := {| now_secs := inr 1000 |}.

(** 60000 units used before the call, 100000 + 100000 reserved *)
Definition res : SimulateValidationResult := SimValidationResult {|
  vr_return_info := {| ri_pre_op_gas := 160000; ri_prefund := 1000000; ri_sig_failed := false;
    ri_valid_after := 2000; ri_valid_until := 2000000000; ri_paymaster_context := [] |};
  vr_sender_info := (0, 0); vr_factory_info := (0, 0); vr_paymaster_info := (100, 100) |}.

Lemma simulation_accepts_witness :
  simulation_checks (fx_uo 1 0 10) res None = (Ok (), Some 2000).
Proof.
  apply (simulation_accepts (fx_uo 1 0 10) res 1000 (Some 2000)); by vm_compute.
Defined.

(** an operation that used less than its pre-verification gas panics the check *)
Lemma extra_gas_panics :
  (simulation_checks (fx_uo 1 0 10) (SimValidationResult fx_validation) None).1 = Panic.
Proof. by vm_compute. Qed.

Definition map1 : StorageMap :=
  {| root_hashes := ∅; slots := {[1 := {["a"%string := "x"%string; "b"%string := "y"%string]}]} |}.
Definition map2 : StorageMap :=
  {| root_hashes := ∅; slots := {[1 := {["a"%string := "z"%string]}]} |}.

Lemma merged_storage_is_latest_witness :
  (merge_storage_maps [map1; map2]).(slots) !! 1 ≫= lookup "a"%string = Some "z"%string.
Proof.
  apply (proj2 (proj2 (merged_storage_is_latest [map1; map2]) ltac:(by repeat constructor))).
Defined.
End Example.
