(* ===== verification/Trace.v ===== *)
(** The checks on the trace of a simulated validation
    ([crates/mempool/src/validate/simulation_trace]): gas, opcodes, external
    contracts, storage access, call stack and code hashes. *)

From S2P Require Import Prelude Primitives Errors AbiStd Gas Reputation Mempool.
From S2P Require Import MemoryStore EntryPoint Fixture Simulation.

(** Selectors and names of the generated contract bindings, and library code
    applied to traces. *)
Class TraceLib := {
  create_sender_selector : bytes;
  validate_user_op_selector : bytes;
  validate_paymaster_selector : bytes;
  selector_name : bytes → option string;
  (** [U256::from_str_radix(slot, 16)] *)
  parse_hex_u256 : string → option Z;
  (** [Address::to_string] *)
  address_to_string : Address → string;
  (** decoding of [validatePaymasterUserOp]'s result: its context *)
  decode_paymaster_context : bytes → option bytes;
  (** the order in which spawned tasks complete *)
  join_order : ∀ {X : Type}, list X → list X;
  join_order_perm : ∀ {X : Type} (l : list X), join_order l ≡ₚ l;
}.

(** configuration of the trace checks *)
Record TraceHelper := {
  th_entry_point : Address;
  th_val_config : ValidationConfig;
}.

Section checks.
Context {A : Abi} {D : Display} {N : Node} {TL : TraceLib} {HO : HashOrder}.
Context {S : Type} `{MempoolStore S} {R : Type} `{ReputationEntryOp R}.
Implicit Types (uo : UserOperation) (js_trace : JsTracerFrame) (helper : TraceHelper).

(** [SELECTORS_INDICES.get]: later insertions win *)
Definition selector_index (sig : bytes) : option nat :=
  if bool_decide (sig = validate_paymaster_selector) then Some PAYMASTER_LEVEL
  else if bool_decide (sig = validate_user_op_selector) then Some SENDER_LEVEL
  else if bool_decide (sig = create_sender_selector) then Some FACTORY_LEVEL
  else None.

Definition level_of (c : TopLevelCallInfo) : option nat := selector_index c.(top_level_method_sig).

(** [for call_info in ... { if let Some(l) = level { body } }] *)
Definition for_levels js_trace (body : nat → TopLevelCallInfo → comp SimulationError ())
  : comp SimulationError () :=
  comp_for js_trace.(calls_from_entry_point) (λ c,
    match level_of c with Some l => body l c | None => Ok () end).

(** ** [gas.rs] *)
Definition check_gas js_trace : comp SimulationError () :=
  comp_for js_trace.(calls_from_entry_point) (λ c,
    if default false c.(oog) then Err SimOutOfGas else Ok ()).

(** ** [opcodes.rs] *)
Definition check_opcodes js_trace : comp SimulationError () :=
  for_levels js_trace (λ l c,
    let* _ := comp_for (iter_map c.(opcodes)).*1 (λ op,
      if bool_decide (op ∈ FORBIDDEN_OPCODES) then Err (SimOpcode (LEVEL_TO_ENTITY l) op)
      else Ok ()) in
    match c.(opcodes) !! CREATE2_OPCODE with
    | Some n =>
        if bool_decide (LEVEL_TO_ENTITY l = FACTORY) && bool_decide (n = 1) then Ok ()
        else Err (SimOpcode (LEVEL_TO_ENTITY l) CREATE2_OPCODE)
    | None => Ok ()
    end).

(** ** [external_contracts.rs] *)
Definition check_external_contracts helper uo js_trace : comp SimulationError () :=
  for_levels js_trace (λ l c,
    let* _ := comp_for (iter_map c.(contract_size)) (λ '(addr, size),
      if bool_decide (addr ≠ uo.(uo_sender)) && bool_decide (size.(cs_contract_size) ≤ 2)
         && bool_decide (size.(cs_opcode) ≠ CREATE2_OPCODE)
      then Err (SimOpcode (LEVEL_TO_ENTITY l) size.(cs_opcode)) else Ok ()) in
    comp_for (iter_map c.(ext_code_access_info)) (λ '(addr, info),
      if bool_decide (addr = helper.(th_entry_point)) then Err (SimOpcode (LEVEL_TO_ENTITY l) info)
      else Ok ())).

(** ** [storage_access.rs] *)
Definition padded_address (a : Address) : bytes := repeat Byte.x00 12 ++ address_bytes a.

Definition parse_slots (keccak : list bytes) (info : list StakeInfo)
  : gmap Address (gset bytes) :=
  fold_left (λ slots kecc,
    fold_left (λ slots entity,
      if bool_decide (entity.(si_address) = 0) then slots
      else if bool_decide (padded_address entity.(si_address) `prefix_of` kecc) then
        <[entity.(si_address) :=
            {[keccak256 kecc]} ∪ default ∅ (slots !! entity.(si_address))]> slots
      else slots) info slots) keccak ∅.

(** [for slot in slots { if .. { return Ok(true) } }] *)
Fixpoint in_slot_range (slot_num : Z) (bases : list bytes) : comp SimulationError bool :=
  match bases with
  | [] => Ok false
  | b :: bases =>
      let slot_ent_num := be_to_Z b in
      if bool_decide (slot_ent_num ≤ slot_num) then
        let* limit := u256_add slot_ent_num 128 in
        if bool_decide (slot_num < limit) then Ok true else in_slot_range slot_num bases
      else in_slot_range slot_num bases
  end.

Definition associated_with_slot (addr : Address) (slot : string) (slots : gmap Address (gset bytes))
  : comp SimulationError bool :=
  if bool_decide (slot = address_to_string addr) then Ok true
  else
    match slots !! addr with
    | None => Ok false
    | Some bases =>
        let* slot_num := ok_or (SimStorageAccess slot) (parse_hex_u256 slot) in
        in_slot_range slot_num (iter_set bases)
    end.

(** [a || b?]: the second operand is only evaluated when needed *)
Definition or_else (a : bool) (b : comp SimulationError bool) : comp SimulationError bool :=
  if a then Ok true else b.

(** one slot; the accumulator is [slot_staked] *)
Definition check_slot uo (slots : gmap Address (gset bytes)) (info_l factory : StakeInfo)
    (addr : Address) (acc : ReadsAndWrites) (slot_staked : string) (slot : string)
  : comp SimulationError string :=
  let* own := associated_with_slot uo.(uo_sender) slot slots in
  if own then
    if negb (bool_decide (uo.(uo_init_code) = []) ||
             (bool_decide (uo.(uo_sender) = info_l.(si_address)) && is_staked factory))
    then Ok slot else Ok slot_staked
  else
    let* entity_slot := or_else (bool_decide (addr = info_l.(si_address)))
      (let* assoc := associated_with_slot info_l.(si_address) slot slots in
       Ok (assoc || bool_decide (acc.(writes) !! slot = None))) in
    if entity_slot then Ok slot else Err (SimStorageAccess slot).

Definition check_access helper uo (slots : gmap Address (gset bytes)) (info : list StakeInfo)
    (l : nat) (addr : Address) (acc : ReadsAndWrites) : comp SimulationError () :=
  if bool_decide (addr = uo.(uo_sender)) || bool_decide (addr = helper.(th_entry_point)) then Ok ()
  else
    let info_l := nth l info StakeInfo_default in
    let* slot_staked := comp_fold
      (check_slot uo slots info_l (nth FACTORY_LEVEL info StakeInfo_default) addr acc) ""%string
      ((iter_map acc.(reads)).*1 ++ (iter_map acc.(writes)).*1) in
    if bool_decide (slot_staked ≠ ""%string) && negb (is_staked info_l) then
      Err (SimUnstaked (LEVEL_TO_ENTITY l) info_l.(si_address) ("accessed slot " +:+ slot_staked))
    else Ok ().

Definition check_storage_access helper uo (sim_res : SimulateValidationResult) js_trace
  : comp SimulationError () :=
  let info := extract_stake_info uo sim_res in
  let slots := parse_slots js_trace.(keccak) info in
  for_levels js_trace (λ l c,
    comp_for (iter_map c.(access)) (λ '(addr, acc), check_access helper uo slots info l addr acc)).

(** ** [call_stack.rs] *)
(** [str::contains] *)
Fixpoint str_contains (s sub : string) : bool :=
  String.prefix sub s ||
  match s with String _ s' => str_contains s' sub | EmptyString => false end.

Definition call_entry (top call : Call) : CallEntry :=
  if str_contains top.(c_typ) CREATE_OPCODE then
    {| ce_typ := top.(c_typ); ce_from := top.(c_from); ce_to := top.(c_to); ce_method := None;
       ce_ret := None; ce_rev := None; ce_value := None |}
  else
    let m := top.(c_method) ≫= selector_name in
    if bool_decide (call.(c_typ) = REVERT_OPCODE) then
      {| ce_typ := top.(c_typ); ce_from := top.(c_from); ce_to := top.(c_to); ce_method := m;
         ce_ret := None; ce_rev := call.(c_data); ce_value := top.(c_value) |}
    else
      {| ce_typ := top.(c_typ); ce_from := top.(c_from); ce_to := top.(c_to); ce_method := m;
         ce_ret := call.(c_data); ce_rev := None; ce_value := top.(c_value) |}.

Definition is_exit (call : Call) : bool :=
  bool_decide (call.(c_typ) = REVERT_OPCODE) || bool_decide (call.(c_typ) = RETURN_OPCODE).

(** one call of the trace; the state is the open calls and the parsed entries *)
Definition parse_step (st : list Call * list CallEntry) (call : Call)
  : list Call * list CallEntry :=
  if is_exit call then
    match st.1 with
    | top :: rest => (rest, st.2 ++ [call_entry top call])
    | [] => ([], st.2)
    end
  else (call :: st.1, st.2).

Definition parse_call_stack (trace : list Call) : list CallEntry :=
  (fold_left parse_step trace ([], [])).2.

Definition check_call helper (reputation : Reputation R) (info : list StakeInfo) (call : CallEntry)
  : comp SimulationError () :=
  let ep := helper.(th_entry_point) in
  if bool_decide (default 0 call.(ce_to) = ep) && bool_decide (default 0 call.(ce_from) ≠ ep)
     && (bool_decide (is_Some call.(ce_method))
         && bool_decide (default ""%string call.(ce_method) ≠ "depositTo"%string))
  then Err (SimCallStack "Illegal call into entry point during validation {call:?}")
  else if bool_decide (default 0 call.(ce_to) ≠ ep) && bool_decide (default 0 call.(ce_value) ≠ 0)
  then Err (SimCallStack "Illegal call {call:?}")
  else
    comp_for (imap pair info) (λ '(i, stake_info),
      if bool_decide (LEVEL_TO_ENTITY i = PAYMASTER)
         && bool_decide (call.(ce_method) = Some VALIDATE_PAYMASTER_USER_OP_FUNCTION)
         && bool_decide (call.(ce_to) = Some stake_info.(si_address))
      then
        match call.(ce_ret) with
        | Some ret =>
            let* context := ok_or
              (SimValidation "Error during simulate validation on entry point")
              (decode_paymaster_context ret) in
            if bool_decide (context ≠ []) &&
               is_err (verify_stake reputation PAYMASTER (Some stake_info)
                         helper.(th_val_config).(vc_min_stake)
                         helper.(th_val_config).(vc_min_unstake_delay))
            then Err (SimUnstaked PAYMASTER stake_info.(si_address) "must not return context")
            else Ok ()
        | None => Ok ()
        end
      else Ok ()).

Definition check_call_stack helper uo (sim_res : SimulateValidationResult) js_trace
    (reputation : Reputation R) : comp SimulationError () :=
  comp_for (parse_call_stack js_trace.(calls))
    (check_call helper reputation (extract_stake_info uo sim_res)).

(** ** [code_hashes.rs] *)
Definition fetch_code_hash (addr : Address) : comp SimulationError CodeHash :=
  match get_code addr with
  | inr code => Ok {| ch_address := addr; ch_hash := from_slice (keccak256 code) |}
  | inl _ => Err (SimOther "Failed to retrieve code hashes")
  end.

(** tasks are joined in completion order; the first failure is returned *)
Fixpoint join_all (addrs : list Address) : comp SimulationError (list CodeHash) :=
  match addrs with
  | [] => Ok []
  | a :: addrs =>
      let* h := fetch_code_hash a in
      let* hs := join_all addrs in
      Ok (h :: hs)
  end.

Definition trace_code_hashes js_trace : comp SimulationError (list CodeHash) :=
  join_all (join_order
    (js_trace.(calls_from_entry_point) ≫= λ l, (iter_map l.(contract_size)).*1)).

(** the state is [helper.code_hashes] *)
Definition check_code_hashes uo (mempool : S) js_trace
  : ST (option (list CodeHash)) SimulationError () :=
  do* hashes := st_lift (trace_code_hashes js_trace) in
  do* known := st_lift (map_err (λ err, SimOther (MempoolErrorKind_to_string err))
                          (Mempool.has_code_hashes mempool uo.(uo_hash))) in
  if known then
    do* hashes_prev := st_lift (map_err (λ err, SimOther (MempoolErrorKind_to_string err))
                                  (Mempool.get_code_hashes mempool uo.(uo_hash))) in
    if negb (equal_code_hashes hashes hashes_prev) then st_lift (Err SimCodeHashes)
    else st_mod (λ _, Some hashes)
  else st_mod (λ _, Some hashes).

(** ** The tuple of checks, in the order of [new_canonical] *)
Definition simulation_trace_checks helper uo (mempool : S) (reputation : Reputation R)
    (sim_res : SimulateValidationResult) js_trace
  : ST (option (list CodeHash)) SimulationError () :=
  do* _ := st_lift (check_gas js_trace) in
  do* _ := st_lift (check_opcodes js_trace) in
  do* _ := st_lift (check_external_contracts helper uo js_trace) in
  do* _ := st_lift (check_storage_access helper uo sim_res js_trace) in
  do* _ := st_lift (check_call_stack helper uo sim_res js_trace reputation) in
  check_code_hashes uo mempool js_trace.
End checks.

(** ** Rules that a passing trace obeys *)
Section rules.
Context {A : Abi} {D : Display} {N : Node} {TL : TraceLib} {HO : HashOrder}.
Context {S : Type} `{ML : MempoolLaws S} {R : Type} `{RL : ReputationEntryLaws R}.
Implicit Types (uo : UserOperation) (js_trace : JsTracerFrame) (helper : TraceHelper).

Lemma for_levels_ok js_trace body :
  for_levels js_trace body = Ok () ↔
  ∀ c l, c ∈ js_trace.(calls_from_entry_point) → level_of c = Some l → body l c = Ok ().
Proof.
  unfold for_levels. rewrite comp_for_ok, Forall_forall. split.
  - intros Hf c l Hc Hl. specialize (Hf c Hc). by rewrite Hl in Hf.
  - intros Hb c Hc. destruct (level_of c) eqn:Hl; [by apply Hb|done].
Qed.

Lemma comp_for_iter `{Countable K} {V} (m : gmap K V) (f : K * V → comp SimulationError ()) :
  comp_for (iter_map m) f = Ok () ↔ ∀ k v, m !! k = Some v → f (k, v) = Ok ().
Proof.
  rewrite comp_for_ok, Forall_forall. split.
  - intros Hf k v Hk. apply Hf. by rewrite elem_of_iter_map.
  - intros Hf [k v] Hk%elem_of_iter_map. by apply Hf.
Qed.

Lemma comp_for_keys `{Countable K} {V} (m : gmap K V) (f : K → comp SimulationError ()) :
  comp_for (iter_map m).*1 f = Ok () ↔ ∀ k v, m !! k = Some v → f k = Ok ().
Proof.
  rewrite comp_for_ok, Forall_forall. split.
  - intros Hf k v Hk. apply Hf, list_elem_of_fmap. exists (k, v). by rewrite elem_of_iter_map.
  - intros Hf k ([k' v] & -> & Hk%elem_of_iter_map)%list_elem_of_fmap. by eapply Hf.
Qed.

Lemma guard_ok {E} (b : bool) (e : E) : (if b then Err e else Ok ()) = Ok () ↔ b = false.
Proof. by destruct b. Qed.

Lemma level_is_factory l : LEVEL_TO_ENTITY l = FACTORY ↔ l = FACTORY_LEVEL.
Proof. by destruct l as [|[|l]]. Qed.

Lemma bind_unit_ok {E} (m k : comp E ()) :
  (let* _ := m in k) = Ok () ↔ m = Ok () ∧ k = Ok ().
Proof. destruct m as [[]| |]; naive_solver. Qed.

Lemma check_gas_ok js_trace :
  check_gas js_trace = Ok () ↔
  ∀ c, c ∈ js_trace.(calls_from_entry_point) → c.(oog) ≠ Some true.
Proof.
  unfold check_gas. rewrite comp_for_ok, Forall_forall. setoid_rewrite guard_ok.
  assert (Hoog : ∀ c, default false (oog c) = false ↔ oog c ≠ Some true).
  { intros c. destruct (oog c) as [[]|]; naive_solver. }
  by setoid_rewrite Hoog.
Qed.

Definition opcode_rule (l : nat) (c : TopLevelCallInfo) : Prop :=
  (∀ op n, c.(opcodes) !! op = Some n → op ∉ FORBIDDEN_OPCODES) ∧
  (∀ n, c.(opcodes) !! CREATE2_OPCODE = Some n → l = FACTORY_LEVEL ∧ n = 1).

Lemma check_opcodes_ok js_trace :
  check_opcodes js_trace = Ok () ↔
  ∀ c l, c ∈ js_trace.(calls_from_entry_point) → level_of c = Some l → opcode_rule l c.
Proof.
  unfold check_opcodes, opcode_rule. rewrite for_levels_ok.
  do 4 (apply forall_proper; intros ?). rewrite bind_unit_ok, comp_for_keys. f_equiv.
  - do 3 (apply forall_proper; intros ?). by rewrite guard_ok, bool_decide_eq_false.
  - destruct (_ !! CREATE2_OPCODE) as [n|]; [|naive_solver].
    pose proof (level_is_factory x0). repeat case_bool_decide; naive_solver.
Qed.

Definition external_rule helper uo (c : TopLevelCallInfo) : Prop :=
  (∀ addr sz, c.(contract_size) !! addr = Some sz →
     addr = uo.(uo_sender) ∨ 2 < sz.(cs_contract_size) ∨ sz.(cs_opcode) = CREATE2_OPCODE) ∧
  c.(ext_code_access_info) !! helper.(th_entry_point) = None.

Lemma check_external_ok helper uo js_trace :
  check_external_contracts helper uo js_trace = Ok () ↔
  ∀ c l, c ∈ js_trace.(calls_from_entry_point) → level_of c = Some l → external_rule helper uo c.
Proof.
  unfold check_external_contracts, external_rule. rewrite for_levels_ok.
  do 4 (apply forall_proper; intros ?). rewrite bind_unit_ok, !comp_for_iter. f_equiv.
  - apply forall_proper; intros addr. apply forall_proper; intros sz.
    apply forall_proper; intros _. rewrite guard_ok.
    destruct (decide (addr = uo_sender uo)), (decide (cs_opcode sz = CREATE2_OPCODE)),
      (decide (2 < cs_contract_size sz)); repeat case_bool_decide; simpl; try done;
      split; intros; try done; first [tauto | lia | (exfalso; tauto) | (exfalso; lia)].
  - split.
    + intros Hall. apply eq_None_not_Some. intros [info Hi]. specialize (Hall _ _ Hi).
      by rewrite bool_decide_eq_true_2 in Hall.
    + intros Hnone addr info Hi. rewrite guard_ok, bool_decide_eq_false. intros ->. congruence.
Qed.

(** A trace passes the gas, opcode and external
    contract checks exactly when no top-level call ran out of gas and every
    factory, account and paymaster call avoids the forbidden opcodes, uses
    CREATE2 at most as a single deployment by the factory, touches no address
    without code other than the sender, and reads no code of the entry point. *)
Theorem trace_opcode_rules helper uo js_trace :
  (check_gas js_trace = Ok () ∧ check_opcodes js_trace = Ok () ∧
   check_external_contracts helper uo js_trace = Ok ()) ↔
  (∀ c, c ∈ js_trace.(calls_from_entry_point) → c.(oog) ≠ Some true) ∧
  ∀ c l, c ∈ js_trace.(calls_from_entry_point) → level_of c = Some l →
    ((∀ op n, c.(opcodes) !! op = Some n → op ∉ FORBIDDEN_OPCODES) ∧
     (∀ n, c.(opcodes) !! CREATE2_OPCODE = Some n → l = FACTORY_LEVEL ∧ n = 1)) ∧
    ((∀ addr sz, c.(contract_size) !! addr = Some sz →
        addr = uo.(uo_sender) ∨ 2 < sz.(cs_contract_size) ∨ sz.(cs_opcode) = CREATE2_OPCODE) ∧
     c.(ext_code_access_info) !! helper.(th_entry_point) = None).
Proof.
  rewrite check_gas_ok, check_opcodes_ok, check_external_ok. split.
  - intros (Hg & Ho & Hx). split; [done|]. intros c l Hc Hl.
    split; [by apply Ho|by apply (Hx c l)].
  - intros (Hg & Hr). split; [done|].
    split; intros c l Hc Hl; [apply (proj1 (Hr c l Hc Hl))|apply (proj2 (Hr c l Hc Hl))].
Qed.

(** ** Storage access *)
Lemma fold_keeps_empty {E} (f : string → string → comp E string) xs :
  (∀ b x b', x ∈ xs → f b x = Ok b' → b' = b ∨ b' = x) → (∀ x, x ∈ xs → x ≠ ""%string) →
  ∀ b, comp_fold f b xs = Ok ""%string → b = ""%string ∧ ∀ x, x ∈ xs → f ""%string x = Ok ""%string.
Proof.
  intros Hf Hne. induction xs as [|x xs IH]; intros b Hb; simpl in Hb.
  { simplify_eq. split; [done|set_solver]. }
  apply comp_bind_ok in Hb as (b1 & Hx & Hb).
  destruct (IH ltac:(set_solver) ltac:(set_solver) b1 Hb) as [-> Hall].
  assert (b = ""%string) as ->.
  { destruct (Hf b x ""%string ltac:(set_solver) Hx) as [?|Hd]; [done|].
    by destruct (Hne x ltac:(set_solver)). }
  split; [done|]. intros y [->|?]%elem_of_cons; auto.
Qed.

Lemma check_slot_acc uo slots info_l factory addr acc b x b' :
  check_slot uo slots info_l factory addr acc b x = Ok b' → b' = b ∨ b' = x.
Proof.
  unfold check_slot. intros Hc. apply comp_bind_ok in Hc as ([] & _ & Hc).
  - case_match; naive_solver.
  - apply comp_bind_ok in Hc as ([] & _ & Hc); naive_solver.
Qed.

Lemma storage_access_rule helper uo sim_res js_trace c l addr acc slot :
  check_storage_access helper uo sim_res js_trace = Ok () →
  c ∈ js_trace.(calls_from_entry_point) → level_of c = Some l →
  c.(access) !! addr = Some acc → addr ≠ uo.(uo_sender) → addr ≠ helper.(th_entry_point) →
  (∀ k, k ∈ dom acc.(reads) ∪ dom acc.(writes) → k ≠ ""%string) →
  slot ∈ dom acc.(reads) ∪ dom acc.(writes) →
  let info := extract_stake_info uo sim_res in
  let slots := parse_slots js_trace.(keccak) info in
  let info_l := nth l info StakeInfo_default in
  (slot ∈ dom acc.(writes) →
     associated_with_slot uo.(uo_sender) slot slots = Ok true ∨ addr = info_l.(si_address) ∨
     associated_with_slot info_l.(si_address) slot slots = Ok true) ∧
  (is_staked info_l = false →
     associated_with_slot uo.(uo_sender) slot slots = Ok true ∧
     (uo.(uo_init_code) = [] ∨
      uo.(uo_sender) = info_l.(si_address) ∧
      is_staked (nth FACTORY_LEVEL info StakeInfo_default) = true)).
Proof.
  intros Hck Hc Hl Hacc Hs Hep Hne Hslot info slots info_l.
  unfold check_storage_access in Hck. rewrite for_levels_ok in Hck. specialize (Hck c l Hc Hl).
  rewrite comp_for_iter in Hck. specialize (Hck addr acc Hacc). fold info slots in Hck.
  unfold check_access in Hck. rewrite !bool_decide_eq_false_2 in Hck by done.
  cbn [orb] in Hck. fold info_l in Hck. apply comp_bind_ok in Hck as (staked & Hfold & Hst).
  set (xs := _ ++ _) in Hfold.
  assert (Hxs : ∀ k, k ∈ xs ↔ k ∈ dom acc.(reads) ∪ dom acc.(writes)).
  { intros k. unfold xs. rewrite elem_of_app, elem_of_union, !elem_of_dom, !list_elem_of_fmap.
    f_equiv; (split; [intros ([? v] & -> & Hv%elem_of_iter_map); by exists v|]);
      intros [v Hv]; exists (k, v); by rewrite elem_of_iter_map. }
  split.
  - intros Hw. destruct (comp_fold_elem _ _ _ _ slot Hfold) as (b1 & b2 & Hcs); [by apply Hxs|].
    unfold check_slot in Hcs. apply comp_bind_ok in Hcs as ([] & Ho & Hcs); [by left|].
    apply comp_bind_ok in Hcs as (es & He & Hcs). destruct es; [|done]. right.
    unfold or_else in He. case_bool_decide; [by left|]. right.
    apply comp_bind_ok in He as (assoc & Ha & He). rewrite bool_decide_eq_false_2 in He.
    + rewrite orb_false_r in He. by simplify_eq.
    + apply elem_of_dom in Hw as [? ->]. done.
  - intros Hus. rewrite Hus, andb_true_r in Hst. case_bool_decide as Hemp; [done|].
    subst staked.
    destruct (fold_keeps_empty _ xs (λ b x b' _, check_slot_acc _ _ _ _ _ _ b x b')
      (λ x Hx, Hne x (proj1 (Hxs x) Hx)) _ Hfold) as [_ Hall].
    specialize (Hall slot (proj2 (Hxs slot) Hslot)). unfold check_slot in Hall.
    apply comp_bind_ok in Hall as ([] & Ho & Hall).
    + split; [done|]. destruct (negb _) eqn:Hn in Hall.
      * by destruct (Hne slot Hslot); simplify_eq.
      * apply negb_false_iff, orb_true_iff in Hn as [Hn|Hn].
        { left. by apply bool_decide_eq_true in Hn. }
        { right. apply andb_true_iff in Hn as [Hn ?]. by apply bool_decide_eq_true in Hn. }
    + exfalso. apply comp_bind_ok in Hall as ([] & _ & Hall); [|done].
      by destruct (Hne slot Hslot); simplify_eq.
Qed.

(** In a trace that passes the storage check, at
    every factory, account or paymaster call and every address other than the
    sender and the entry point: a slot that is written is associated with the
    sender, or belongs to or is associated with the calling entity; and a call
    by an unstaked entity only touches slots associated with the sender, of an
    account that exists already or is being deployed by a staked factory. *)
Theorem storage_access_rules helper uo sim_res js_trace c l addr acc slot :
  check_storage_access helper uo sim_res js_trace = Ok () →
  c ∈ js_trace.(calls_from_entry_point) → level_of c = Some l →
  c.(access) !! addr = Some acc → addr ≠ uo.(uo_sender) → addr ≠ helper.(th_entry_point) →
  (∀ k, k ∈ dom acc.(reads) ∪ dom acc.(writes) → k ≠ ""%string) →
  slot ∈ dom acc.(reads) ∪ dom acc.(writes) →
  let info := extract_stake_info uo sim_res in
  let slots := parse_slots js_trace.(keccak) info in
  let info_l := nth l info StakeInfo_default in
  (slot ∈ dom acc.(writes) →
     associated_with_slot uo.(uo_sender) slot slots = Ok true ∨ addr = info_l.(si_address) ∨
     associated_with_slot info_l.(si_address) slot slots = Ok true) ∧
  (is_staked info_l = false →
     associated_with_slot uo.(uo_sender) slot slots = Ok true ∧
     (uo.(uo_init_code) = [] ∨
      uo.(uo_sender) = info_l.(si_address) ∧
      is_staked (nth FACTORY_LEVEL info StakeInfo_default) = true)).
Proof. apply storage_access_rule. Qed.

(** ** Call stack *)
(** a well-bracketed trace: each call with its inner calls, then its exit *)
Inductive forest :=
| FNil
| FCons (enter exit : Call) (inner rest : forest).

Fixpoint flatten (f : forest) : list Call :=
  match f with
  | FNil => []
  | FCons enter exit inner rest => enter :: flatten inner ++ exit :: flatten rest
  end.
Fixpoint well_bracketed (f : forest) : Prop :=
  match f with
  | FNil => True
  | FCons enter exit inner rest =>
      is_exit enter = false ∧ is_exit exit = true ∧ well_bracketed inner ∧ well_bracketed rest
  end.
(** inner calls first *)
Fixpoint postorder (f : forest) : list CallEntry :=
  match f with
  | FNil => []
  | FCons enter exit inner rest => postorder inner ++ call_entry enter exit :: postorder rest
  end.

Lemma parse_forest f st entries : well_bracketed f →
  fold_left parse_step (flatten f) (st, entries) = (st, entries ++ postorder f).
Proof.
  revert st entries. induction f as [|enter exit inner IHi rest IHr]; intros st entries; simpl.
  { by rewrite app_nil_r. }
  intros (Hen & Hex & Hi & Hr). unfold parse_step at 2. rewrite Hen. simpl.
  rewrite fold_left_app, IHi by done. simpl. unfold parse_step at 2. rewrite Hex. simpl.
  rewrite IHr by done. by rewrite <-!app_assoc.
Qed.

(** The call stack parser pairs every call with its own
    exit: on a well-bracketed trace it returns one entry per call, inner calls
    before the call that made them. *)
Theorem call_stack_parsed f : well_bracketed f → parse_call_stack (flatten f) = postorder f.
Proof. intros Hw. unfold parse_call_stack. by rewrite parse_forest. Qed.

(** In a trace that passes the call stack check, a call
    from outside into the entry point is [depositTo] or hits no known function,
    and a call that carries value goes to the entry point. *)
Theorem call_stack_rules helper uo sim_res js_trace (reputation : Reputation R) call :
  check_call_stack helper uo sim_res js_trace reputation = Ok () →
  call ∈ parse_call_stack js_trace.(calls) →
  (default 0 call.(ce_to) = helper.(th_entry_point) →
   default 0 call.(ce_from) ≠ helper.(th_entry_point) →
   call.(ce_method) = None ∨ call.(ce_method) = Some "depositTo"%string) ∧
  (default 0 call.(ce_value) ≠ 0 → default 0 call.(ce_to) = helper.(th_entry_point)).
Proof.
  unfold check_call_stack. rewrite comp_for_ok, Forall_forall. intros Hall Hin.
  specialize (Hall call Hin). unfold check_call in Hall. cbv zeta in Hall.
  destruct (_ && (_ && _)) eqn:H1; [done|]. destruct (_ && _) eqn:H2 in Hall; [done|]. clear Hall.
  apply andb_false_iff in H2. split.
  - intros Hto Hfrom. rewrite (bool_decide_eq_true_2 _ Hto), (bool_decide_eq_true_2 _ Hfrom) in H1.
    simpl in H1. destruct (ce_method call) as [m|]; [|by left]. simpl in H1.
    apply bool_decide_eq_false, dec_stable in H1. right. by subst m.
  - intros Hv. destruct H2 as [Hd|Hd]; apply bool_decide_eq_false, dec_stable in Hd; done.
Qed.

(** ** Code hashes *)
Lemma join_all_ok addrs hs :
  join_all addrs = Ok hs ↔ Forall2 (λ a h, fetch_code_hash a = Ok h) addrs hs.
Proof.
  revert hs. induction addrs as [|a addrs IH]; intros hs; simpl.
  - split; [intros [= <-]; constructor|by inversion 1].
  - rewrite comp_bind_ok. split.
    + intros (h & Hh & Hr). apply comp_bind_ok in Hr as (hs' & Hj & [= <-]).
      constructor; [done|]. by apply IH.
    + inversion 1 as [|? h ? hs' Hh Hf]; subst. exists h. split; [done|].
      apply comp_bind_ok. exists hs'. split; [by apply IH|done].
Qed.

(** The code hash check, when it passes, records the
    code hash of every contract the trace visited, in whatever order the tasks
    finish; and in a second simulation it passes only if these agree with the
    hashes recorded for the operation before. *)
Theorem code_hashes_recorded uo (mempool : S) p js_trace st st' :
  refines mempool p →
  check_code_hashes uo mempool js_trace st = (Ok (), st') →
  ∃ hs, st' = Some hs ∧
    Forall (λ h, ∃ code, get_code h.(ch_address) = inr code ∧
                         h.(ch_hash) = from_slice (keccak256 code)) hs ∧
    ch_address <$> hs ≡ₚ
      (js_trace.(calls_from_entry_point) ≫= λ l, (iter_map l.(contract_size)).*1) ∧
    ∀ prev, p.(p_codes) !! uo.(uo_hash) = Some prev → equal_code_hashes hs prev = true.
Proof.
  intros (_ & Hcodes & _) Hck. unfold check_code_hashes in Hck.
  apply st_bind_ok in Hck as (hs & s1 & [= Hj <-] & Hck).
  apply st_bind_ok in Hck as (known & s2 & [= Hk <-] & Hck).
  exists hs. unfold trace_code_hashes in Hj. set (addrs := _ ≫= _) in *.
  apply join_all_ok in Hj.
  assert (Hout : st' = Some hs ∧
    ∀ prev, p.(p_codes) !! uo.(uo_hash) = Some prev → equal_code_hashes hs prev = true).
  { unfold Mempool.has_code_hashes, Mempool.get_code_hashes in *.
    rewrite has_code_hashes_law, Hcodes in Hk. injection Hk as <-.
    destruct (p.(p_codes) !! uo.(uo_hash)) as [prev|] eqn:Hp.
    - rewrite bool_decide_eq_true_2 in Hck by done.
      rewrite get_code_hashes_law, Hcodes, Hp in Hck. unfold st_lift, st_bind in Hck. simpl in Hck.
      destruct (equal_code_hashes hs prev) eqn:He; simpl in Hck; [|done].
      injection Hck as <-. split; [done|]. by intros ? [= <-].
    - rewrite bool_decide_eq_false_2 in Hck by (by intros []). injection Hck as <-. done. }
  destruct Hout as [-> Heq]. split; [done|]. split; [|split; [|done]].
  - clear -Hj. induction Hj as [|a h l k Hh _ IH]; constructor; [|done].
    unfold fetch_code_hash in Hh. destruct (get_code a) as [|code] eqn:Hg; [done|].
    injection Hh as <-. by exists code.
  - rewrite <-(join_order_perm addrs). apply reflexive_eq. symmetry. clear -Hj.
    induction Hj as [|a h l k Hh _ IH]; csimpl; [done|]. rewrite IH. f_equal.
    unfold fetch_code_hash in Hh. destruct (get_code a); [done|]. by injection Hh as <-.
Qed.
End rules.

(** ** Concrete evaluations *)
Module Example.
#[local] Existing Instances std_abi std_display fx_node canonical_order fx_profile.

#[local] Instance lib : TraceLib := {|
  create_sender_selector := [Byte.x57; Byte.x0e; Byte.x1a; Byte.x36];
  validate_user_op_selector := [Byte.x3a; Byte.x87; Byte.x1c; Byte.xdd];
  validate_paymaster_selector := [Byte.xf4; Byte.x65; Byte.xc7; Byte.x7e];
  selector_name _ := Some "depositTo"%string;
  parse_hex_u256 _ := Some 0;
  address_to_string a := if bool_decide (a = 9) then "nine"%string else "other"%string;
  decode_paymaster_context _ := Some [];
  join_order _ l := l;
  join_order_perm _ l := Permutation_refl l;
|}.

Definition helper : TraceHelper := {| th_entry_point := 1; th_val_config := ValidationConfig_default |}.
(** validateUserOp reads slot "nine" and writes nothing at contract 20 *)
Definition acc : ReadsAndWrites := {| reads := {["nine"%string := "1"%string]}; writes := ∅ |}.
Definition info : TopLevelCallInfo := {|
  top_level_method_sig := [Byte.x3a; Byte.x87; Byte.x1c; Byte.xdd];
  top_level_target_address := []; access := {[20 := acc]}; opcodes := {["SLOAD"%string := 1]};
  contract_size := {[20 := {| cs_opcode := "CALL"; cs_contract_size := 100 |}]};
  ext_code_access_info := ∅; oog := None |}.
Definition enter : Call := {| c_typ := "CALL"; c_gas_used := None; c_data := None; c_from := Some 9;
  c_to := Some 1; c_method := Some []; c_gas := Some 10; c_value := Some 5 |}.
Definition exit : Call := {| c_typ := "RETURN"; c_gas_used := Some 3; c_data := Some [];
  c_from := None; c_to := None; c_method := None; c_gas := None; c_value := None |}.
Definition trace : JsTracerFrame := {| calls_from_entry_point := [info]; keccak := [];
  js_logs := []; calls := [enter; exit]; js_debug := [] |}.
Definition res : SimulateValidationResult := SimValidationResult fx_validation.

Lemma storage_access_rules_witness :
  associated_with_slot 9 "nine" (parse_slots [] (extract_stake_info (fx_uo 1 0 10) res)) = Ok true.
Proof.
  destruct (storage_access_rules helper (fx_uo 1 0 10) res trace info 1 20 acc "nine"
    ltac:(by vm_compute) ltac:(set_solver) ltac:(by vm_compute) ltac:(done) ltac:(done) ltac:(done))
    as [_ Hu].
  - intros k. unfold acc; simpl. rewrite dom_singleton_L, dom_empty_L. set_solver.
  - unfold acc; simpl. rewrite dom_singleton_L. set_solver.
  - by apply Hu.
Defined.

Lemma call_stack_parsed_witness :
  parse_call_stack [enter; exit] = [call_entry enter exit].
Proof. apply (call_stack_parsed (FCons enter exit FNil FNil)). by vm_compute. Defined.

Lemma call_stack_rules_witness :
  (call_entry enter exit).(ce_method) = None ∨
  (call_entry enter exit).(ce_method) = Some "depositTo"%string.
Proof.
  apply (call_stack_rules helper (fx_uo 1 0 10) res trace fx_reputation (call_entry enter exit));
    [by vm_compute| |done|done].
  change (call_entry enter exit ∈ [call_entry enter exit]). set_solver.
Defined.

Lemma code_hashes_recorded_witness :
  ∃ hs, Some [{| ch_address := 20; ch_hash := 352 |}] = Some hs ∧ ch_address <$> hs ≡ₚ [20].
Proof.
  destruct (code_hashes_recorded (fx_uo 1 0 10) fx_store fx_pool trace None
    (Some [{| ch_address := 20; ch_hash := 352 |}]) fx_refines) as (hs & Hs & _ & Hp & _).
  - by vm_compute.
  - exists hs. split; [done|]. exact Hp.
Defined.
End Example.
