(* ===== verification/Tracer.v ===== *)
(** The JavaScript tracer that the node runs over a simulated validation
    ([crates/contracts/src/tracer.rs], [JS_TRACER]): its state, its handlers and
    what its result says about the execution it watched.  A handler that throws
    ends the trace with an error, so the handlers are computations that fail; the
    objects the node hands to them are records of what their methods return.  An
    address is kept as a number where the tracer uses its hexadecimal text as a
    key, and byte strings where the frame that is read back has byte strings. *)

From Stdlib Require Import Ascii.
From stdpp Require Import pretty.
From S2P Require Import Prelude Primitives Errors AbiStd HexStd Gas Reputation Mempool.
From S2P Require Import MemoryStore EntryPoint Fixture Simulation Trace.

(** ** JavaScript numbers and texts *)
(** an integer as a double: 53 significant bits, ties to even *)
Definition round_half_even (a b : Z) : Z :=
  let q := a / b in
  let r := 2 * (a mod b) in
  if bool_decide (r < b) then q
  else if bool_decide (b < r) then q + 1
  else if Z.even q then q else q + 1.
Definition js_number (z : Z) : Z :=
  let e := Z.log2 (Z.abs z) - 52 in
  if bool_decide (e ≤ 0) then z
  else Z.sgn z * (round_half_even (Z.abs z) (2 ^ e) * 2 ^ e).

(** [toString(16)] of a 256-bit word *)
Fixpoint strip_zeros (s : string) : string :=
  match s with
  | String "0" s' => match s' with EmptyString => s | _ => strip_zeros s' end
  | _ => s
  end.
Definition to_string16 (z : Z) : string := strip_zeros (to_hex (Z_to_be 32 z)).

(** ** The regular expressions of the tracer *)
Definition is_digit (c : ascii) : bool :=
  let n := N_of_ascii c in bool_decide (48 ≤ n ≤ 57)%N.
Definition is_word_char (c : ascii) : bool :=
  let n := N_of_ascii c in
  bool_decide (48 ≤ n ≤ 57)%N || bool_decide (65 ≤ n ≤ 90)%N
  || bool_decide (97 ≤ n ≤ 122)%N || bool_decide (n = 95)%N.
Fixpoint all_chars (p : ascii → bool) (s : string) : bool :=
  match s with EmptyString => true | String c s => p c && all_chars p s end.
(** [p+] *)
Definition one_or_more (p : ascii → bool) (s : string) : bool :=
  negb (bool_decide (s = ""%string)) && all_chars p s.
Definition starts_with (s p : string) : bool := String.prefix p s.
(** [^p\d+$] *)
Definition numbered (p s : string) : bool :=
  starts_with s p &&
  one_or_more is_digit (String.substring (String.length p) (String.length s - String.length p) s).

Definition plain_unimportant : list string :=
  [ "POP"; "ADD"; "SUB"; "MUL"; "DIV"; "EQ"; "LT"; "LTE"; "GT"; "GTE"; "SGT"; "SGTE"; "SLT";
    "SHL"; "SHR"; "AND"; "OR"; "NOT"; "ISZERO" ]%string.
Definition unimportant (opcode : string) : bool :=
  numbered "DUP" opcode || numbered "PUSH" opcode || numbered "SWAP" opcode ||
  bool_decide (opcode ∈ plain_unimportant).

Definition is_ext (opcode : string) : bool := starts_with opcode "EXT".
(** [/^(EXT.*|CALL|CALLCODE|DELEGATECALL|STATICCALL)$/] *)
Definition touches_code (opcode : string) : bool :=
  is_ext opcode ||
  bool_decide (opcode ∈ ["CALL"; "CALLCODE"; "DELEGATECALL"; "STATICCALL"]%string).

(** [/^(\w+) EXTCODESIZE ISZERO$/] *)
Definition safe_tail : string := " EXTCODESIZE ISZERO".
Definition safe_extcodesize (s : string) : bool :=
  let n := (String.length s - String.length safe_tail)%nat in
  bool_decide (String.substring n (String.length safe_tail) s = safe_tail) &&
  one_or_more is_word_char (String.substring 0 n s).

(** ** What the node hands to the tracer *)
Class TracerHost := {
  toHex : bytes → string;
  toAddress : string → bytes;
  toWord : string → bytes;
}.
(** their documented behaviour: 0x-prefixed text, and the last 20 or 32 bytes of
    the number a text denotes *)
Class TracerHostOk (T : TracerHost) := {
  toHex_law b : toHex b = "0x" +:+ to_hex b;
  toAddress_law w : is_u256 w → toAddress (to_string16 w) = Z_to_be 20 w;
  toWord_law w : is_u256 w → toWord (to_string16 w) = Z_to_be 32 w;
}.

Record StepLog := {
  op : string;
  stack_length : nat;
  peek : nat → comp string Z;
  memory_slice : Z → Z → comp string bytes;
  getGas : Z;
  getCost : Z;
  getDepth : Z;
  log_getError : string;
  contract_getAddress : Address;
}.
Record StateDb := {
  getCode : Address → bytes;
  getState : Address → bytes → bytes;
}.
Record CallFrame := {
  getType : string;
  getFrom : Address;
  getTo : Address;
  getInput : bytes;
  frame_getGas : Z;
  getValue : option U256;
}.
Record FrameResult := {
  getGasUsed : Z;
  getOutput : bytes;
  getError : option string;
}.

(** ** The tracer's object *)
Record OpcodeInfo := { oi_opcode : string; stackTop3 : list Z }.
Record Collector := {
  callsFromEntryPoint : list TopLevelCallInfo;
  (** the position in [callsFromEntryPoint] of the object it refers to, or null *)
  currentLevel : option nat;
  ct_keccak : list bytes;
  ct_calls : list Call;
  ct_logs : list Log;
  ct_debug : list string;
  lastOp : string;
  lastThreeOpcodes : list OpcodeInfo;
  stopCollecting : bool;
  topLevelCallCounter : nat;
}.
Definition js_tracer : Collector := {|
  callsFromEntryPoint := []; currentLevel := None; ct_keccak := []; ct_calls := [];
  ct_logs := []; ct_debug := []; lastOp := ""; lastThreeOpcodes := [];
  stopCollecting := false; topLevelCallCounter := 0 |}.
Definition stopCollectingTopic : string :=
  "bb47ee3e183a558b1a2ff0874b079f3fc5478b7454eacf2bfc5af2ff5878f972".

(** assignments to the fields *)
Definition with_levels (f : list TopLevelCallInfo → list TopLevelCallInfo) (t : Collector) : Collector := {|
  callsFromEntryPoint := f t.(callsFromEntryPoint); currentLevel := t.(currentLevel);
  ct_keccak := t.(ct_keccak); ct_calls := t.(ct_calls); ct_logs := t.(ct_logs);
  ct_debug := t.(ct_debug); lastOp := t.(lastOp); lastThreeOpcodes := t.(lastThreeOpcodes);
  stopCollecting := t.(stopCollecting); topLevelCallCounter := t.(topLevelCallCounter) |}.
Definition with_current (c : option nat) (n : nat) (t : Collector) : Collector := {|
  callsFromEntryPoint := t.(callsFromEntryPoint); currentLevel := c;
  ct_keccak := t.(ct_keccak); ct_calls := t.(ct_calls); ct_logs := t.(ct_logs);
  ct_debug := t.(ct_debug); lastOp := t.(lastOp); lastThreeOpcodes := t.(lastThreeOpcodes);
  stopCollecting := t.(stopCollecting); topLevelCallCounter := n |}.
Definition with_output (k : list bytes) (cs : list Call) (ls : list Log) (d : list string)
    (t : Collector) : Collector := {|
  callsFromEntryPoint := t.(callsFromEntryPoint); currentLevel := t.(currentLevel);
  ct_keccak := t.(ct_keccak) ++ k; ct_calls := t.(ct_calls) ++ cs; ct_logs := t.(ct_logs) ++ ls;
  ct_debug := t.(ct_debug) ++ d; lastOp := t.(lastOp); lastThreeOpcodes := t.(lastThreeOpcodes);
  stopCollecting := t.(stopCollecting); topLevelCallCounter := t.(topLevelCallCounter) |}.
Definition with_history (o : string) (l : list OpcodeInfo) (t : Collector) : Collector := {|
  callsFromEntryPoint := t.(callsFromEntryPoint); currentLevel := t.(currentLevel);
  ct_keccak := t.(ct_keccak); ct_calls := t.(ct_calls); ct_logs := t.(ct_logs);
  ct_debug := t.(ct_debug); lastOp := o; lastThreeOpcodes := l;
  stopCollecting := t.(stopCollecting); topLevelCallCounter := t.(topLevelCallCounter) |}.
Definition with_stop (t : Collector) : Collector := {|
  callsFromEntryPoint := t.(callsFromEntryPoint); currentLevel := t.(currentLevel);
  ct_keccak := t.(ct_keccak); ct_calls := t.(ct_calls); ct_logs := t.(ct_logs);
  ct_debug := t.(ct_debug); lastOp := t.(lastOp); lastThreeOpcodes := t.(lastThreeOpcodes);
  stopCollecting := true; topLevelCallCounter := t.(topLevelCallCounter) |}.

(** assignments to the fields of a level *)
Definition with_oog (c : TopLevelCallInfo) : TopLevelCallInfo := {|
  top_level_method_sig := c.(top_level_method_sig);
  top_level_target_address := c.(top_level_target_address);
  access := c.(access); opcodes := c.(opcodes); contract_size := c.(contract_size);
  ext_code_access_info := c.(ext_code_access_info); oog := Some true |}.
Definition with_maps (acc : gmap Address ReadsAndWrites) (ops : gmap string Z)
    (sz : gmap Address ContractSizeInfo) (ext : gmap Address string) (c : TopLevelCallInfo)
  : TopLevelCallInfo := {|
  top_level_method_sig := c.(top_level_method_sig);
  top_level_target_address := c.(top_level_target_address);
  access := acc; opcodes := ops; contract_size := sz; ext_code_access_info := ext;
  oog := c.(oog) |}.

(** [this.currentLevel.f = ..]: a TypeError on null *)
Definition on_level (f : TopLevelCallInfo → TopLevelCallInfo) (t : Collector) : comp string Collector :=
  match t.(currentLevel) with
  | None => Err "TypeError"
  | Some i => Ok (with_levels (alter f i) t)
  end.
Definition level (t : Collector) : comp string TopLevelCallInfo :=
  ok_or "TypeError"%string (t.(currentLevel) ≫= λ i, t.(callsFromEntryPoint) !! i).

(** an assignment to an element of an array, at its end or inside *)
Definition js_set {A} (i : nat) (x : A) (l : list A) : list A :=
  if bool_decide (i = length l) then l ++ [x] else <[i := x]> l.

Section handlers.
Context {T : TracerHost}.
Implicit Types (t : Collector) (log : StepLog) (db : StateDb).

Definition fault log t : Collector :=
  with_output [] [] [] ["fault depth=" +:+ pretty log.(getDepth) +:+ " gas=" +:+ pretty log.(getGas)
    +:+ " cost=" +:+ pretty log.(getCost) +:+ " err=" +:+ log.(log_getError)]%string t.

Definition result t : JsTracerFrame := {|
  calls_from_entry_point := t.(callsFromEntryPoint); keccak := t.(ct_keccak);
  js_logs := t.(ct_logs); calls := t.(ct_calls); js_debug := t.(ct_debug) |}.

(** [toHex(..).slice(0, 10)] keeps the prefix and four bytes *)
Definition enter (frame : CallFrame) t : Collector :=
  if t.(stopCollecting) then t
  else with_output [] [{| c_typ := frame.(getType); c_gas_used := None; c_data := None;
         c_from := Some frame.(getFrom); c_to := Some frame.(getTo);
         c_method := Some (take 4 frame.(getInput)); c_gas := Some frame.(frame_getGas);
         c_value := frame.(getValue) |}] [] [] t.

(** [toHex(..).slice(0, 4000)] keeps the prefix and 1999 bytes *)
Definition exit_record (typ : string) (gas_used : Z) (data : bytes) : Call :=
  {| c_typ := typ; c_gas_used := Some gas_used; c_data := Some (take 1999 data); c_from := None;
     c_to := None; c_method := None; c_gas := None; c_value := None |}.
Definition exit (frame : FrameResult) t : Collector :=
  if t.(stopCollecting) then t
  else with_output [] [exit_record
         (if bool_decide (frame.(getError) = None) then "RETURN" else "REVERT")%string
         frame.(getGasUsed) frame.(getOutput)] [] [] t.

Definition countSlot (key : string) (m : gmap string Z) : gmap string Z :=
  <[key := default 0 (m !! key) + 1]> m.

(** [parseInt(log.stack.peek(i).toString())] *)
Definition peek_int log (i : nat) : comp string Z := map_ok js_number (log.(peek) i).
(** [log.memory.slice(ofs, ofs + len)] *)
Definition slice log (ofs len : Z) : comp string bytes :=
  log.(memory_slice) ofs (js_number (ofs + len)).
(** [toAddress(w.toString(16))] *)
Definition word_address (w : Z) : Address := be_to_Z (toAddress (to_string16 w)).

(** *** [step] *)
Definition stack_top3 log : comp string (list Z) :=
  comp_map log.(peek) (seq 0 (Nat.min 3 log.(stack_length))).
Definition remember log t : comp string Collector :=
  let* top := stack_top3 log in
  let l := t.(lastThreeOpcodes) ++ [{| oi_opcode := log.(op); stackTop3 := top |}] in
  Ok (with_history t.(lastOp) (if bool_decide (3 < length l)%nat then tail l else l) t).

Definition runs_out log : bool :=
  bool_decide (log.(getGas) < log.(getCost)) ||
  (bool_decide (log.(op) = "SSTORE"%string) && bool_decide (log.(getGas) < 2300)).
Definition flag_oog log t : comp string Collector :=
  if runs_out log then on_level with_oog t else Ok t.

Definition is_return (o : string) : bool :=
  bool_decide (o = "REVERT"%string) || bool_decide (o = "RETURN"%string).
Definition record_return log t : comp string Collector :=
  if is_return log.(op) then
    let* t := (if bool_decide (log.(getDepth) = 1) then
      let* ofs := peek_int log 0 in
      let* len := peek_int log 1 in
      let* data := slice log ofs len in
      Ok (with_output [] [exit_record log.(op) 0 data] [] [] t)
    else Ok t) in
    Ok (with_history t.(lastOp) [] t)
  else Ok t.

Definition opens_level (o : string) : bool :=
  bool_decide (o = "CALL"%string) || bool_decide (o = "STATICCALL"%string).
Definition new_level (sig target : bytes) : TopLevelCallInfo := {|
  top_level_method_sig := sig; top_level_target_address := target; access := ∅; opcodes := ∅;
  contract_size := ∅; ext_code_access_info := ∅; oog := None |}.
Definition top_level_step log t : comp string Collector :=
  let* t :=
    (if opens_level log.(op) then
      let* addr := log.(peek) 1 in
      let* ofs := peek_int log 3 in
      let* sig := log.(memory_slice) ofs (js_number (ofs + 4)) in
      let n := t.(topLevelCallCounter) in
      Ok (with_current (Some n) (n + 1)
            (with_levels (js_set n (new_level sig (toAddress (to_string16 addr)))) t))
    else if bool_decide (log.(op) = "LOG1"%string) then
      let* topic := log.(peek) 2 in
      Ok (if bool_decide (to_string16 topic = stopCollectingTopic) then with_stop t else t)
    else Ok t) in
  Ok (with_history "" t.(lastThreeOpcodes) t).

(** [lastThreeOpcodes[lastThreeOpcodes.length - 2]] *)
Definition last_op_info t : option OpcodeInfo :=
  match rev t.(lastThreeOpcodes) with _ :: i :: _ => Some i | _ => None end.
Definition last3opcodesString t : string :=
  String.concat " " (oi_opcode <$> t.(lastThreeOpcodes)).
Definition record_ext log t : comp string Collector :=
  match last_op_info t with
  | Some info =>
      if is_ext info.(oi_opcode) then
        let* w := ok_or "TypeError"%string (info.(stackTop3) !! 0%nat) in
        if safe_extcodesize (last3opcodesString t) then Ok t
        else on_level (λ c, with_maps c.(access) c.(opcodes) c.(contract_size)
               (<[word_address w := log.(op)]> c.(ext_code_access_info)) c) t
      else Ok t
  | None => Ok t
  end.

Definition isAllowedPrecompiled (a : Address) : bool :=
  bool_decide (0 < js_number a) && bool_decide (js_number a < 10).
Definition record_size log db t : comp string Collector :=
  if touches_code log.(op) then
    let* w := log.(peek) (if is_ext log.(op) then 0 else 1)%nat in
    let addr := word_address w in
    let* c := level t in
    if bool_decide (c.(contract_size) !! addr = None) && negb (isAllowedPrecompiled addr) then
      on_level (λ c, with_maps c.(access) c.(opcodes)
        (<[addr := {| cs_opcode := log.(op);
                      cs_contract_size := Z.of_nat (length (db.(getCode) addr)) |}]>
           c.(contract_size)) c.(ext_code_access_info) c) t
    else Ok t
  else Ok t.

Definition count_op (key : string) t : comp string Collector :=
  on_level (λ c, with_maps c.(access) (countSlot key c.(opcodes)) c.(contract_size)
                   c.(ext_code_access_info) c) t.
Definition count_opcodes log t : comp string Collector :=
  let* t :=
    (if bool_decide (t.(lastOp) = "GAS"%string) && negb (str_contains log.(op) "CALL")
     then count_op "GAS" t else Ok t) in
  let* t :=
    (if bool_decide (log.(op) ≠ "GAS"%string) && negb (unimportant log.(op))
     then count_op log.(op) t else Ok t) in
  Ok (with_history log.(op) t.(lastThreeOpcodes) t).

Definition touch (is_read : bool) (slot value : string) (acc : ReadsAndWrites) : ReadsAndWrites :=
  if is_read then
    if bool_decide (acc.(reads) !! slot = None) && bool_decide (acc.(writes) !! slot = None)
    then {| reads := <[slot := value]> acc.(reads); writes := acc.(writes) |}
    else acc
  else {| reads := acc.(reads); writes := countSlot slot acc.(writes) |}.
Definition no_access : ReadsAndWrites := {| reads := ∅; writes := ∅ |}.
Definition is_storage_op (o : string) : bool :=
  bool_decide (o = "SLOAD"%string) || bool_decide (o = "SSTORE"%string).
Definition record_access log db t : comp string Collector :=
  if is_storage_op log.(op) then
    let* w := log.(peek) 0%nat in
    let slot := toWord (to_string16 w) in
    let addr := log.(contract_getAddress) in
    on_level (λ c, with_maps
      (<[addr := touch (bool_decide (log.(op) = "SLOAD"%string)) (toHex slot)
                   (toHex (db.(getState) addr slot)) (default no_access (c.(access) !! addr))]>
         c.(access)) c.(opcodes) c.(contract_size) c.(ext_code_access_info) c) t
  else Ok t.

(** [parseInt] of the digits of LOG0 .. LOG4; NaN, for other texts, compares as no topics *)
Definition log_count (opcode : string) : nat :=
  if bool_decide (opcode = "LOG1"%string) then 1
  else if bool_decide (opcode = "LOG2"%string) then 2
  else if bool_decide (opcode = "LOG3"%string) then 3
  else if bool_decide (opcode = "LOG4"%string) then 4 else 0.
Definition record_hash_or_log log t : comp string Collector :=
  if bool_decide (log.(op) = "KECCAK256"%string) then
    let* ofs := peek_int log 0 in
    let* len := peek_int log 1 in
    if bool_decide (20 < len) && bool_decide (len < 512) then
      let* data := slice log ofs len in
      Ok (with_output [data] [] [] [] t)
    else Ok t
  else if starts_with log.(op) "LOG" then
    let* ofs := peek_int log 0 in
    let* len := peek_int log 1 in
    let* ws := comp_map log.(peek) (seq 2 (log_count log.(op))) in
    let* data := slice log ofs len in
    Ok (with_output [] []
          [{| log_topics := (λ w, "0x" +:+ to_string16 w) <$> ws; log_data := data |}] [] t)
  else Ok t.

Definition deep_step log db t : comp string Collector :=
  let* t := record_ext log t in
  let* t := record_size log db t in
  let* t := count_opcodes log t in
  let* t := record_access log db t in
  record_hash_or_log log t.

Definition step log db t : comp string Collector :=
  if t.(stopCollecting) then Ok t
  else
    let* t := remember log t in
    let* t := flag_oog log t in
    let* t := record_return log t in
    if bool_decide (log.(getDepth) = 1) then top_level_step log t else deep_step log db t.

(** ** A run *)
Inductive TracerEvent :=
| EvStep (log : StepLog) (db : StateDb)
| EvFault (log : StepLog)
| EvEnter (frame : CallFrame)
| EvExit (frame : FrameResult).
Definition handle t (e : TracerEvent) : comp string Collector :=
  match e with
  | EvStep log db => step log db t
  | EvFault log => Ok (fault log t)
  | EvEnter frame => Ok (enter frame t)
  | EvExit frame => Ok (exit frame t)
  end.
Definition run_tracer (evs : list TracerEvent) t : comp string Collector := comp_fold handle t evs.
End handlers.

(** ** What a step does, field by field *)
Section updates.
Context {T : TracerHost}.
Implicit Types (t : Collector) (log : StepLog) (db : StateDb) (c : TopLevelCallInfo).

Definition levels_alter (f : TopLevelCallInfo → TopLevelCallInfo) (o : option nat)
    (l : list TopLevelCallInfo) : list TopLevelCallInfo :=
  match o with Some i => alter f i l | None => l end.

(** the word whose code the previous instruction looked at *)
Definition ext_target t : option Z :=
  info ← last_op_info t;
  if is_ext info.(oi_opcode) && negb (safe_extcodesize (last3opcodesString t))
  then info.(stackTop3) !! 0%nat else None.
Definition ext_update log t (m : gmap Address string) : gmap Address string :=
  match ext_target t with Some w => <[word_address w := log.(op)]> m | None => m end.

(** the word of the address whose code an instruction uses *)
Definition code_target log : option Z :=
  if touches_code log.(op) then
    match log.(peek) (if is_ext log.(op) then 0 else 1)%nat with Ok w => Some w | _ => None end
  else None.
Definition size_update log db (m : gmap Address ContractSizeInfo) : gmap Address ContractSizeInfo :=
  match code_target log with
  | Some w =>
      let addr := word_address w in
      if bool_decide (m !! addr = None) && negb (isAllowedPrecompiled addr) then
        <[addr := {| cs_opcode := log.(op);
                     cs_contract_size := Z.of_nat (length (db.(getCode) addr)) |}]> m
      else m
  | None => m
  end.

(** a GAS that no call follows is counted when the next instruction is seen *)
Definition counts_gas (prev o : string) : bool :=
  bool_decide (prev = "GAS"%string) && negb (str_contains o "CALL").
Definition counts_op (o : string) : bool :=
  bool_decide (o ≠ "GAS"%string) && negb (unimportant o).
Definition ops_update (prev o : string) (m : gmap string Z) : gmap string Z :=
  let m := if counts_gas prev o then countSlot "GAS" m else m in
  if counts_op o then countSlot o m else m.

(** the slot an instruction reads or writes *)
Definition slot_target log : option bytes :=
  if is_storage_op log.(op) then
    match log.(peek) 0%nat with Ok w => Some (toWord (to_string16 w)) | _ => None end
  else None.
Definition access_update log db (m : gmap Address ReadsAndWrites) : gmap Address ReadsAndWrites :=
  match slot_target log with
  | Some slot =>
      let addr := log.(contract_getAddress) in
      <[addr := touch (bool_decide (log.(op) = "SLOAD"%string)) (toHex slot)
                  (toHex (db.(getState) addr slot)) (default no_access (m !! addr))]> m
  | None => m
  end.

Definition deep_level log db t c : TopLevelCallInfo :=
  with_maps (access_update log db c.(access)) (ops_update t.(lastOp) log.(op) c.(opcodes))
    (size_update log db c.(contract_size)) (ext_update log t c.(ext_code_access_info)) c.

(** what a handler keeps and what it does to the current level *)
Record updates (f : TopLevelCallInfo → TopLevelCallInfo) t t' : Prop := {
  up_levels : t'.(callsFromEntryPoint) = levels_alter f t.(currentLevel) t.(callsFromEntryPoint);
  up_current : t'.(currentLevel) = t.(currentLevel);
  up_counter : t'.(topLevelCallCounter) = t.(topLevelCallCounter);
  up_stop : t'.(stopCollecting) = t.(stopCollecting);
}.

Lemma levels_alter_id f o l : (∀ c, f c = c) → levels_alter f o l = l.
Proof. intros Hf. destruct o; [|done]. by apply list_alter_id. Qed.
Lemma levels_alter_compose f g o l : levels_alter (g ∘ f) o l = levels_alter g o (levels_alter f o l).
Proof. destruct o as [i|]; [|done]. simpl. revert i. induction l as [|x l IH]; intros [|i]; [done..|].
  cbn. f_equal. apply IH.
Qed.

Lemma updates_trans f g t t1 t2 : updates f t t1 → updates g t1 t2 → updates (g ∘ f) t t2.
Proof.
  intros [L1 C1 N1 S1] [L2 C2 N2 S2]. split; try congruence.
  by rewrite L2, C1, L1, levels_alter_compose.
Qed.
Lemma updates_refl f t : (∀ c, f c = c) → updates f t t.
Proof. intros Hf. split; try done. by rewrite levels_alter_id. Qed.
Lemma updates_ext f g t t' :
  (∀ c, level t = Ok c → f c = g c) → updates f t t' → updates g t t'.
Proof.
  unfold level. intros Hfg [L C N S]. split; try done. rewrite L. unfold levels_alter.
  destruct (currentLevel t) as [i|]; [|done]. simpl in Hfg.
  apply list_alter_ext; [|done]. intros c Hc. apply Hfg. by rewrite Hc.
Qed.
Lemma updates_on_level f t t' : on_level f t = Ok t' → updates f t t'.
Proof. unfold on_level. destruct (currentLevel t) eqn:E; [|done]. intros [= <-]. split; try done. simpl. by rewrite E. Qed.
Lemma updates_output k cs ls d t : updates id t (with_output k cs ls d t).
Proof. split; try done. simpl. by rewrite levels_alter_id. Qed.
Lemma updates_history o l t : updates id t (with_history o l t).
Proof. split; try done. simpl. by rewrite levels_alter_id. Qed.

Lemma with_maps_same c : with_maps c.(access) c.(opcodes) c.(contract_size) c.(ext_code_access_info) c = c.
Proof. by destruct c. Qed.

(** handlers leave the history as it is, except where they say so *)
Definition same_history t t' : Prop :=
  t'.(lastOp) = t.(lastOp) ∧ t'.(lastThreeOpcodes) = t.(lastThreeOpcodes).
Lemma history_on_level f t t' : on_level f t = Ok t' → same_history t t'.
Proof. unfold on_level. destruct (currentLevel t); [|done]. by intros [= <-]. Qed.

Definition on_ext log t c : TopLevelCallInfo :=
  with_maps c.(access) c.(opcodes) c.(contract_size) (ext_update log t c.(ext_code_access_info)) c.
Definition on_size log db c : TopLevelCallInfo :=
  with_maps c.(access) c.(opcodes) (size_update log db c.(contract_size)) c.(ext_code_access_info) c.
Definition on_ops (prev o : string) c : TopLevelCallInfo :=
  with_maps c.(access) (ops_update prev o c.(opcodes)) c.(contract_size) c.(ext_code_access_info) c.
Definition on_access log db c : TopLevelCallInfo :=
  with_maps (access_update log db c.(access)) c.(opcodes) c.(contract_size) c.(ext_code_access_info) c.

Lemma record_ext_updates log t t' :
  record_ext log t = Ok t' → updates (on_ext log t) t t' ∧ same_history t t'.
Proof.
  unfold record_ext, on_ext, ext_update, ext_target. intros Hr.
  destruct (last_op_info t) as [info|]; simpl; [|simplify_eq; split; [apply updates_refl, with_maps_same|done]].
  destruct (is_ext (oi_opcode info)); simpl; [|simplify_eq; split; [apply updates_refl, with_maps_same|done]].
  apply comp_bind_ok in Hr as (w & Hw%ok_or_ok & Hr).
  destruct (safe_extcodesize _); simpl; [simplify_eq; split; [apply updates_refl, with_maps_same|done]|].
  rewrite Hw. split; [by apply updates_on_level|by eapply history_on_level].
Qed.

Lemma record_size_updates log db t t' :
  record_size log db t = Ok t' →
  updates (on_size log db) t t' ∧ same_history t t' ∧
  (touches_code log.(op) = true → is_Some (code_target log) ∧ is_Some t.(currentLevel)).
Proof.
  unfold record_size, on_size, size_update, code_target. intros Hr.
  destruct (touches_code (op log)); [|simplify_eq; split_and!; [apply updates_refl, with_maps_same|done..]].
  apply comp_bind_ok in Hr as (w & Hw & Hr). apply comp_bind_ok in Hr as (c & Hc & Hr).
  rewrite Hw. assert (is_Some (currentLevel t)) as Hcur
    by (unfold level in Hc; destruct (currentLevel t); [done|discriminate]).
  destruct (_ && _) eqn:Hg in Hr.
  - split_and!; [|by eapply history_on_level|done].
    eapply updates_ext; [|by apply updates_on_level]. intros c' Hc'. rewrite Hc in Hc'.
    injection Hc' as <-. cbv zeta. by rewrite Hg.
  - simplify_eq. split_and!; [|done|done].
    eapply updates_ext; [|by apply (updates_refl id)]. intros c' Hc'.
    rewrite Hc in Hc'. injection Hc' as <-. cbv zeta. rewrite Hg. symmetry. apply with_maps_same.
Qed.

Definition bump (b : bool) (key : string) c : TopLevelCallInfo :=
  with_maps c.(access) (if b then countSlot key c.(opcodes) else c.(opcodes)) c.(contract_size)
    c.(ext_code_access_info) c.
Lemma bump_updates (b : bool) key t t' :
  (if b then count_op key t else Ok t) = Ok t' → updates (bump b key) t t' ∧ same_history t t'.
Proof.
  unfold bump. destruct b.
  - intros Hr. split; [by apply updates_on_level|by eapply history_on_level].
  - intros [= <-]. split; [apply updates_refl, with_maps_same|done].
Qed.

Lemma count_opcodes_updates log t t' :
  count_opcodes log t = Ok t' →
  updates (on_ops t.(lastOp) log.(op)) t t' ∧
  t'.(lastOp) = log.(op) ∧ t'.(lastThreeOpcodes) = t.(lastThreeOpcodes).
Proof.
  unfold count_opcodes. intros Hr.
  apply comp_bind_ok in Hr as (t1 & [U1 [_ H1]]%bump_updates & Hr).
  apply comp_bind_ok in Hr as (t2 & [U2 [_ H2]]%bump_updates & [= <-]).
  split; [|simpl; split; [done|congruence]].
  eapply updates_ext; [|eapply updates_trans; [exact U1|eapply updates_trans; [exact U2|apply updates_history]]].
  intros c _. done.
Qed.

Lemma record_access_updates log db t t' :
  record_access log db t = Ok t' →
  updates (on_access log db) t t' ∧ same_history t t' ∧
  (is_storage_op log.(op) = true → is_Some (slot_target log) ∧ is_Some t.(currentLevel)).
Proof.
  unfold record_access, on_access, access_update, slot_target. intros Hr.
  destruct (is_storage_op (op log)); [|simplify_eq; split_and!; [apply updates_refl, with_maps_same|done..]].
  apply comp_bind_ok in Hr as (w & Hw & Hr). rewrite Hw.
  split_and!; [by apply updates_on_level|by eapply history_on_level|].
  intros _. split; [done|]. unfold on_level in Hr. by destruct (currentLevel t).
Qed.

Lemma record_hash_updates log t t' :
  record_hash_or_log log t = Ok t' → updates id t t' ∧ same_history t t'.
Proof.
  unfold record_hash_or_log. intros Hr.
  assert (Hk : ∀ k cs ls d, updates id t (with_output k cs ls d t) ∧ same_history t (with_output k cs ls d t))
    by (intros; split; [apply updates_output|done]).
  assert (Hid : updates id t t ∧ same_history t t) by (split; [by apply updates_refl|done]).
  repeat (apply comp_bind_ok in Hr as (? & _ & Hr) || case_match); simplify_eq; auto.
Qed.

Lemma deep_step_updates log db t t' :
  deep_step log db t = Ok t' →
  updates (deep_level log db t) t t' ∧
  t'.(lastOp) = log.(op) ∧ t'.(lastThreeOpcodes) = t.(lastThreeOpcodes) ∧
  (touches_code log.(op) = true → is_Some (code_target log) ∧ is_Some t.(currentLevel)) ∧
  (is_storage_op log.(op) = true → is_Some (slot_target log) ∧ is_Some t.(currentLevel)).
Proof.
  unfold deep_step. intros Hr.
  apply comp_bind_ok in Hr as (t1 & [U1 [O1 H1]]%record_ext_updates & Hr).
  apply comp_bind_ok in Hr as (t2 & (U2 & [O2 H2] & T2)%record_size_updates & Hr).
  apply comp_bind_ok in Hr as (t3 & (U3 & O3 & H3)%count_opcodes_updates & Hr).
  apply comp_bind_ok in Hr as (t4 & (U4 & [O4 H4] & T4)%record_access_updates & Hr).
  apply record_hash_updates in Hr as (U5 & O5 & H5).
  pose proof (up_current _ _ _ U1) as C1. pose proof (up_current _ _ _ U2) as C2.
  pose proof (up_current _ _ _ U3) as C3.
  split_and!; [|congruence|congruence|by rewrite <-C1|by rewrite <-C1, <-C2, <-C3].
  eapply updates_ext; [|eapply updates_trans; [exact U1|eapply updates_trans; [exact U2|
    eapply updates_trans; [exact U3|eapply updates_trans; [exact U4|exact U5]]]]].
  intros c _. unfold deep_level. rewrite O2, O1. by destruct c.
Qed.
End updates.

(** ** What the tracer has seen *)
Section runs.
Context {T : TracerHost}.
Implicit Types (t : Collector) (log : StepLog) (db : StateDb) (c : TopLevelCallInfo).

(** how far an execution has come: whether the validation is over, how many calls
    the entry point has made, and the last instruction below it *)
Record Phase := { ph_stopped : bool; ph_levels : nat; ph_prev : string }.
Definition stops log : bool :=
  bool_decide (log.(op) = "LOG1"%string) &&
  match log.(peek) 2%nat with
  | Ok w => bool_decide (to_string16 w = stopCollectingTopic)
  | _ => false
  end.
Definition phase_step (p : Phase) (e : TracerEvent) : Phase :=
  if p.(ph_stopped) then p
  else match e with
       | EvStep log _ =>
           if bool_decide (log.(getDepth) = 1) then
             {| ph_stopped := stops log;
                ph_levels := if opens_level log.(op) then S p.(ph_levels) else p.(ph_levels);
                ph_prev := "" |}
           else {| ph_stopped := false; ph_levels := p.(ph_levels); ph_prev := log.(op) |}
       | _ => p
       end.
Definition phase_from (p : Phase) (evs : list TracerEvent) : Phase := fold_left phase_step evs p.
Definition phase : list TracerEvent → Phase :=
  phase_from {| ph_stopped := false; ph_levels := 0; ph_prev := "" |}.
Definition phase_of t : Phase :=
  {| ph_stopped := t.(stopCollecting); ph_levels := length t.(callsFromEntryPoint);
     ph_prev := t.(lastOp) |}.

(** the tracer's references into its own array *)
Record level_refs t : Prop := {
  lr_counter : t.(topLevelCallCounter) = length t.(callsFromEntryPoint);
  lr_current : t.(currentLevel) =
    match length t.(callsFromEntryPoint) with O => None | S i => Some i end;
}.

Lemma length_levels_alter f o l : length (levels_alter f o l) = length l.
Proof. destruct o; [apply length_alter|done]. Qed.
Lemma updates_length f t t' :
  updates f t t' → length t'.(callsFromEntryPoint) = length t.(callsFromEntryPoint).
Proof. intros U. by rewrite (up_levels _ _ _ U), length_levels_alter. Qed.
Lemma updates_refs f t t' : updates f t t' → level_refs t → level_refs t'.
Proof.
  intros U [Hc Hl]. pose proof (updates_length _ _ _ U) as Hlen. destruct U as [_ C N _].
  split; [congruence|by rewrite C, Hlen].
Qed.
Lemma updates_lookup f t t' i c :
  updates f t t' → t.(callsFromEntryPoint) !! i = Some c →
  t'.(callsFromEntryPoint) !! i = Some (if bool_decide (t.(currentLevel) = Some i) then f c else c).
Proof.
  intros U Hi. rewrite (up_levels _ _ _ U). unfold levels_alter.
  destruct (currentLevel t) as [j|]; [|done]. destruct (decide (j = i)) as [->|Hne].
  - rewrite bool_decide_eq_true_2 by done. by rewrite list_lookup_alter_eq, Hi.
  - rewrite bool_decide_eq_false_2 by congruence. by rewrite list_lookup_alter_ne.
Qed.

Definition oog_update log c : TopLevelCallInfo := if runs_out log then with_oog c else c.

(** the part of [step] before its cases *)
Lemma step_prepare log db t t' :
  step log db t = Ok t' → t.(stopCollecting) = false →
  ∃ t1, updates (oog_update log) t t1 ∧ t1.(lastOp) = t.(lastOp) ∧
    (runs_out log = true → is_Some t.(currentLevel)) ∧
    (if bool_decide (log.(getDepth) = 1) then top_level_step log t1 else deep_step log db t1) = Ok t'.
Proof.
  unfold step. intros Hs Hst. rewrite Hst in Hs.
  apply comp_bind_ok in Hs as (ta & Ha & Hs). apply comp_bind_ok in Hs as (tb & Hb & Hs).
  apply comp_bind_ok in Hs as (tc & Hc & Hs). exists tc.
  assert (updates id t ta ∧ lastOp ta = lastOp t) as [Ua La].
  { unfold remember in Ha. apply comp_bind_ok in Ha as (top & _ & [= <-]).
    split; [apply updates_history|done]. }
  assert (updates (oog_update log) ta tb ∧ lastOp tb = lastOp ta ∧
          (runs_out log = true → is_Some (currentLevel ta))) as (Ub & Lb & Rb).
  { unfold flag_oog in Hb. unfold oog_update. destruct (runs_out log).
    - split_and!; [by apply updates_on_level|by apply (history_on_level _ _ _ Hb)|].
      intros _. unfold on_level in Hb. by destruct (currentLevel ta).
    - simplify_eq. by split_and!; [apply updates_refl|..]. }
  assert (updates id tb tc ∧ lastOp tc = lastOp tb) as [Uc Lc].
  { unfold record_return in Hc. destruct (is_return (op log)).
    - apply comp_bind_ok in Hc as (td & Hd & [= <-]). destruct (bool_decide (getDepth log = 1)).
      + repeat (apply comp_bind_ok in Hd as (? & _ & Hd)). simplify_eq. split; [|done].
        eapply (updates_trans id id); [apply updates_output|apply updates_history].
      + simplify_eq. split; [apply updates_history|done].
    - simplify_eq. split; [by apply updates_refl|done]. }
  split_and!; [|congruence|by rewrite (up_current _ _ _ Ua) in Rb|done].
  eapply updates_ext; [|eapply updates_trans; [exact Ua|eapply updates_trans; [exact Ub|exact Uc]]].
  done.
Qed.

Lemma top_level_step_spec log t t' :
  top_level_step log t = Ok t' → level_refs t →
  level_refs t' ∧ t'.(lastOp) = ""%string ∧ t'.(stopCollecting) = t.(stopCollecting) || stops log ∧
  if opens_level log.(op)
  then ∃ sig addr, t'.(callsFromEntryPoint) = t.(callsFromEntryPoint) ++ [new_level sig addr]
  else t'.(callsFromEntryPoint) = t.(callsFromEntryPoint).
Proof.
  unfold top_level_step. intros Hs [Hn Hc]. apply comp_bind_ok in Hs as (t1 & H1 & [= <-]). simpl.
  destruct (opens_level (op log)) eqn:Ho.
  - apply comp_bind_ok in H1 as (a & _ & H1). apply comp_bind_ok in H1 as (ofs & _ & H1).
    apply comp_bind_ok in H1 as (sig & _ & [= <-]). simpl.
    split_and!; [|done| |unfold js_set; rewrite bool_decide_eq_true_2 by done; by eexists _, _].
    + split; simpl; unfold js_set; rewrite bool_decide_eq_true_2, length_app by done; simpl; [lia|].
      by rewrite Nat.add_1_r, Hn.
    + unfold stops, opens_level in *. rewrite (bool_decide_eq_false_2 (op log = "LOG1"%string)).
      * simpl. by rewrite orb_false_r.
      * intros Hl. rewrite Hl in Ho. done.
  - unfold stops. case_bool_decide as Hl; [|simplify_eq; simpl; rewrite orb_false_r; by split_and!].
    apply comp_bind_ok in H1 as (topic & Ht & H1). rewrite Ht.
    destruct (bool_decide (to_string16 topic = stopCollectingTopic)); injection H1 as <-; simpl;
      rewrite ?orb_true_r, ?orb_false_r; by split_and!.
Qed.

Lemma output_phase k cs ls d t :
  level_refs t → level_refs (with_output k cs ls d t) ∧ phase_of (with_output k cs ls d t) = phase_of t.
Proof. intros Hr. split; [|done]. eapply updates_refs, Hr. apply updates_output. Qed.

Lemma handle_phase e t t' :
  handle t e = Ok t' → level_refs t → level_refs t' ∧ phase_of t' = phase_step (phase_of t) e.
Proof.
  intros Hh Hr. unfold phase_step. simpl.
  assert (Hid : (if stopCollecting t then phase_of t else phase_of t) = phase_of t)
    by (by destruct (stopCollecting t)).
  destruct e as [log db|log|frame|frame]; cbn [handle] in Hh.
  - destruct (stopCollecting t) eqn:Hst.
    { unfold step in Hh. rewrite Hst in Hh. by simplify_eq. }
    apply step_prepare in Hh as (t1 & U1 & L1 & _ & Hh); [|done].
    pose proof (updates_refs _ _ _ U1 Hr) as Hr1. pose proof (updates_length _ _ _ U1) as Hlen.
    destruct (bool_decide (getDepth log = 1)).
    + apply top_level_step_spec in Hh as (Hr' & Lo & St & Hcalls); [|done]. split; [done|].
      unfold phase_of. rewrite Lo, St, (up_stop _ _ _ U1), Hst. simpl. f_equal.
      destruct (opens_level (op log)); [|by rewrite Hcalls].
      destruct Hcalls as (? & ? & ->). rewrite length_app, Hlen. simpl. lia.
    + apply deep_step_updates in Hh as (U & Lo & _). split; [by eapply updates_refs|].
      unfold phase_of. rewrite Lo, (up_stop _ _ _ U), (up_stop _ _ _ U1), Hst.
      by rewrite (updates_length _ _ _ U), Hlen.
  - injection Hh as <-. rewrite Hid. by apply output_phase.
  - injection Hh as <-. rewrite Hid. unfold enter. destruct (stopCollecting t); [done|by apply output_phase].
  - injection Hh as <-. rewrite Hid. unfold exit. destruct (stopCollecting t); [done|by apply output_phase].
Qed.

Lemma run_tracer_phase evs t t' :
  run_tracer evs t = Ok t' → level_refs t →
  level_refs t' ∧ phase_of t' = phase_from (phase_of t) evs.
Proof.
  revert t. induction evs as [|e evs IH]; intros t Hrun Hr; [by injection Hrun as <-|].
  apply comp_bind_ok in Hrun as (t1 & H1 & Hrun).
  apply handle_phase in H1 as [Hr1 Hp]; [|done]. destruct (IH t1 Hrun Hr1) as [Hr' Hp'].
  split; [done|]. simpl. by rewrite Hp', Hp.
Qed.

Lemma run_tracer_app evs1 evs2 t t' :
  run_tracer (evs1 ++ evs2) t = Ok t' ↔
  ∃ t1, run_tracer evs1 t = Ok t1 ∧ run_tracer evs2 t1 = Ok t'.
Proof.
  unfold run_tracer. revert t. induction evs1 as [|e evs1 IH]; intros t; simpl.
  - split; [by exists t|]. by intros (? & [= <-] & ?).
  - destruct (handle t e); simpl; [apply IH|naive_solver..].
Qed.

Lemma js_tracer_refs : level_refs js_tracer.
Proof. by split. Qed.
End runs.

(** ** What is recorded stays recorded *)
Section growth.
Context {T : TracerHost}.
Implicit Types (t : Collector) (log : StepLog) (db : StateDb) (c : TopLevelCallInfo).

Definition op_count c (o : string) : Z := default 0 (c.(opcodes) !! o).
Definition touched_slots (acc : ReadsAndWrites) : gset string := dom acc.(reads) ∪ dom acc.(writes).

Record grown c c' : Prop := {
  g_sig : c'.(top_level_method_sig) = c.(top_level_method_sig);
  g_target : c'.(top_level_target_address) = c.(top_level_target_address);
  g_oog : c.(oog) = Some true → c'.(oog) = Some true;
  g_ops : ∀ o, op_count c o ≤ op_count c' o;
  g_size : c.(contract_size) ⊆ c'.(contract_size);
  g_ext : dom c.(ext_code_access_info) ⊆ dom c'.(ext_code_access_info);
  g_access : ∀ a acc, c.(access) !! a = Some acc →
    ∃ acc', c'.(access) !! a = Some acc' ∧ dom acc.(writes) ⊆ dom acc'.(writes) ∧
            touched_slots acc ⊆ touched_slots acc';
}.

#[export] Instance grown_preorder : PreOrder grown.
Proof.
  split.
  - intros c. split; try done. intros a acc Ha. by exists acc.
  - intros c1 c2 c3 G1 G2. split.
    + by rewrite (g_sig _ _ G2), (g_sig _ _ G1).
    + by rewrite (g_target _ _ G2), (g_target _ _ G1).
    + intros H. by apply (g_oog _ _ G2), (g_oog _ _ G1).
    + intros o. pose proof (g_ops _ _ G1 o). pose proof (g_ops _ _ G2 o). lia.
    + etrans; [apply (g_size _ _ G1)|apply (g_size _ _ G2)].
    + etrans; [apply (g_ext _ _ G1)|apply (g_ext _ _ G2)].
    + intros a acc Ha. destruct (g_access _ _ G1 a acc Ha) as (acc1 & H1 & W1 & T1).
      destruct (g_access _ _ G2 a acc1 H1) as (acc2 & H2 & W2 & T2).
      exists acc2. split_and!; [done|set_solver|set_solver].
Qed.

Lemma op_count_slot (m : gmap string Z) key o :
  default 0 (countSlot key m !! o) = default 0 (m !! o) + (if bool_decide (o = key) then 1 else 0).
Proof.
  unfold countSlot. case_bool_decide as Ho.
  - subst o. by rewrite lookup_insert_eq.
  - rewrite lookup_insert_ne by done. lia.
Qed.

(** how often one instruction counts for [o], after [prev] *)
Definition contribution (prev o' o : string) : Z :=
  (if counts_gas prev o' && bool_decide (o = "GAS"%string) then 1 else 0) +
  (if counts_op o' && bool_decide (o = o') then 1 else 0).

Lemma ops_update_count prev o' (m : gmap string Z) o :
  default 0 (ops_update prev o' m !! o) = default 0 (m !! o) + contribution prev o' o.
Proof.
  unfold ops_update, contribution.
  destruct (counts_gas prev o'), (counts_op o'); simpl; rewrite ?op_count_slot; lia.
Qed.
Lemma contribution_nonneg prev o' o : 0 ≤ contribution prev o' o.
Proof. unfold contribution. repeat case_match; lia. Qed.

Lemma touch_grows is_read slot value acc :
  dom acc.(writes) ⊆ dom (touch is_read slot value acc).(writes) ∧
  {[slot]} ∪ touched_slots acc ⊆ touched_slots (touch is_read slot value acc) ∧
  (is_read = false → slot ∈ dom (touch is_read slot value acc).(writes)).
Proof.
  unfold touch, touched_slots, countSlot. destruct is_read; [|simpl; rewrite !dom_insert_L; set_solver].
  destruct (_ && _) eqn:Hn; simpl; [rewrite dom_insert_L; set_solver|].
  split_and!; [done| |done].
  apply union_least; [|done]. apply singleton_subseteq_l, elem_of_union. rewrite !elem_of_dom.
  apply andb_false_iff in Hn as [Hn|Hn]; apply bool_decide_eq_false, not_eq_None_Some in Hn; auto.
Qed.

Lemma deep_level_grown log db t c : grown c (deep_level log db t c).
Proof.
  split; try done; simpl.
  - intros o. unfold op_count. simpl. rewrite ops_update_count.
    pose proof (contribution_nonneg (lastOp t) (op log) o). lia.
  - unfold size_update. destruct (code_target log) as [w|]; [|done]. cbv zeta.
    destruct (_ && _) eqn:Hn; [|done]. apply andb_true_iff in Hn as [Hn _].
    apply bool_decide_eq_true in Hn. by apply insert_subseteq.
  - unfold ext_update. destruct (ext_target t); [|done]. rewrite dom_insert_L. set_solver.
  - intros a acc Ha. unfold access_update. destruct (slot_target log) as [slot|]; [|by exists acc].
    cbv zeta. destruct (decide (a = contract_getAddress log)) as [->|Hne].
    + rewrite lookup_insert_eq, Ha. simpl. eexists. split; [done|].
      match goal with |- context [touch ?r ?s ?v acc] =>
        pose proof (touch_grows r s v acc) as (Hw & Ht & _) end. set_solver.
    + rewrite lookup_insert_ne by done. by exists acc.
Qed.
Lemma oog_update_grown log c : grown c (oog_update log c).
Proof.
  unfold oog_update. destruct (runs_out log); [|done]. split; try done. intros a acc Ha. by exists acc.
Qed.

Lemma updates_grown f t t' i c :
  updates f t t' → (∀ c, grown c (f c)) → t.(callsFromEntryPoint) !! i = Some c →
  ∃ c', t'.(callsFromEntryPoint) !! i = Some c' ∧ grown c c'.
Proof.
  intros U Hf Hi. eexists. split; [by eapply updates_lookup|]. case_bool_decide; [apply Hf|done].
Qed.

Lemma handle_grown e t t' i c :
  handle t e = Ok t' → level_refs t → t.(callsFromEntryPoint) !! i = Some c →
  ∃ c', t'.(callsFromEntryPoint) !! i = Some c' ∧ grown c c'.
Proof.
  intros Hh Hr Hi. destruct e as [log db|log|frame|frame]; cbn [handle] in Hh.
  - destruct (stopCollecting t) eqn:Hst.
    { unfold step in Hh. rewrite Hst in Hh. injection Hh as <-. by exists c. }
    apply step_prepare in Hh as (t1 & U1 & L1 & _ & Hh); [|done].
    destruct (updates_grown _ _ _ i c U1 (oog_update_grown log) Hi) as (c1 & Hc1 & G1).
    destruct (bool_decide (getDepth log = 1)).
    + exists c1. split; [|done].
      apply top_level_step_spec in Hh as (_ & _ & _ & Hcalls); [|by eapply updates_refs].
      destruct (opens_level (op log)); [|by rewrite Hcalls].
      destruct Hcalls as (? & ? & ->). by apply lookup_app_l_Some.
    + apply deep_step_updates in Hh as (U & _).
      destruct (updates_grown _ _ _ i c1 U (deep_level_grown log db t1) Hc1) as (c2 & Hc2 & G2).
      exists c2. split; [done|by etrans].
  - injection Hh as <-. by exists c.
  - injection Hh as <-. unfold enter. exists c. by destruct (stopCollecting t).
  - injection Hh as <-. unfold exit. exists c. by destruct (stopCollecting t).
Qed.

Lemma run_tracer_grown evs t t' i c :
  run_tracer evs t = Ok t' → level_refs t → t.(callsFromEntryPoint) !! i = Some c →
  ∃ c', t'.(callsFromEntryPoint) !! i = Some c' ∧ grown c c'.
Proof.
  revert t c. induction evs as [|e evs IH]; intros t c Hrun Hr Hi; [injection Hrun as <-; by exists c|].
  apply comp_bind_ok in Hrun as (t1 & H1 & Hrun).
  destruct (handle_grown _ _ _ i c H1 Hr Hi) as (c1 & Hc1 & G1).
  destruct (IH t1 c1 Hrun (proj1 (handle_phase _ _ _ H1 Hr)) Hc1) as (c2 & Hc2 & G2).
  exists c2. split; [done|by etrans].
Qed.

(** ** Every instruction below the entry point is recorded *)
(** a position in an execution: the tracer's level there, and the level the trace
    ends with *)
Lemma deep_step_recorded pre log db post t i :
  run_tracer (pre ++ EvStep log db :: post) js_tracer = Ok t →
  (phase pre).(ph_stopped) = false → log.(getDepth) ≠ 1 → (phase pre).(ph_levels) = S i →
  ∃ t0 c0 c, run_tracer pre js_tracer = Ok t0 ∧ t0.(lastOp) = (phase pre).(ph_prev) ∧
    t0.(callsFromEntryPoint) !! i = Some c0 ∧ t.(callsFromEntryPoint) !! i = Some c ∧
    ∃ t1, t1.(lastOp) = t0.(lastOp) ∧ grown (deep_level log db t1 (oog_update log c0)) c ∧
      (touches_code log.(op) = true → is_Some (code_target log)) ∧
      (is_storage_op log.(op) = true → is_Some (slot_target log)).
Proof.
  intros Hrun Hstop Hdeep Hlev. apply run_tracer_app in Hrun as (t0 & Hpre & Hrun).
  apply comp_bind_ok in Hrun as (t2 & Hstep & Hpost). cbn [handle] in Hstep.
  destruct (run_tracer_phase _ _ _ Hpre js_tracer_refs) as [Hr Hph].
  change (phase_from (phase_of js_tracer) pre) with (phase pre) in Hph.
  rewrite <-Hph in Hstop, Hlev |- *. simpl in Hstop, Hlev.
  assert (is_Some (callsFromEntryPoint t0 !! i)) as [c0 Hc0] by (apply lookup_lt_is_Some; lia).
  assert (currentLevel t0 = Some i) as Hcur by (by rewrite (lr_current _ Hr), Hlev).
  pose proof (handle_phase (EvStep log db) _ _ Hstep Hr) as [Hr2 _].
  apply step_prepare in Hstep as (t1 & U1 & L1 & _ & Hstep); [|done].
  rewrite bool_decide_eq_false_2 in Hstep by done.
  apply deep_step_updates in Hstep as (U2 & _ & _ & Hcode & Hslot).
  pose proof (updates_lookup _ _ _ _ _ U1 Hc0) as Hc1. rewrite bool_decide_eq_true_2 in Hc1 by done.
  pose proof (updates_lookup _ _ _ _ _ U2 Hc1) as Hc2.
  rewrite (up_current _ _ _ U1), bool_decide_eq_true_2 in Hc2 by done.
  destruct (run_tracer_grown _ _ _ _ _ Hpost Hr2 Hc2) as (c & Hc & G).
  exists t0, c0, c. split_and!; try done. exists t1. split_and!; [done|done|naive_solver|naive_solver].
Qed.
End growth.

(** ** The counters are exact *)
Section counts.
Context {T : TracerHost}.
Implicit Types (t : Collector) (log : StepLog) (db : StateDb) (c : TopLevelCallInfo).

(** the instructions executed below the entry point before the validation is
    over: the call they belong to, the instruction before them, and they *)
Fixpoint executed (p : Phase) (evs : list TracerEvent) : list (nat * string * string) :=
  match evs with
  | [] => []
  | e :: evs =>
      match e with
      | EvStep log _ =>
          if negb p.(ph_stopped) && negb (bool_decide (log.(getDepth) = 1))
          then [(p.(ph_levels), p.(ph_prev), log.(op))] else []
      | _ => []
      end ++ executed (phase_step p e) evs
  end.
Definition counted (i : nat) (o : string) (xs : list (nat * string * string)) : Z :=
  foldr (λ '(n, prev, o') k, (if bool_decide (n = S i) then contribution prev o' o else 0) + k) 0 xs.

Definition level_count t (i : nat) (o : string) : Z :=
  match t.(callsFromEntryPoint) !! i with Some c => op_count c o | None => 0 end.

Lemma counted_steps_app i o xs ys : counted i o (xs ++ ys) = counted i o xs + counted i o ys.
Proof. unfold counted. induction xs as [|[[n prev] o'] xs IH]; simpl; [done|]. rewrite IH. lia. Qed.

Lemma updates_count f t t' i o :
  updates f t t' → (∀ c, op_count (f c) o = op_count c o) → level_count t' i o = level_count t i o.
Proof.
  intros U Hf. unfold level_count. rewrite (up_levels _ _ _ U). unfold levels_alter.
  destruct (currentLevel t) as [j|]; [|done]. destruct (decide (j = i)) as [->|Hne].
  - rewrite list_lookup_alter_eq. destruct (_ !! i); simpl; auto.
  - by rewrite list_lookup_alter_ne.
Qed.

Lemma handle_count e t t' i o :
  handle t e = Ok t' → level_refs t →
  level_count t' i o = level_count t i o + counted i o (executed (phase_of t) [e]).
Proof.
  intros Hh Hr. cbn [executed]. destruct e as [log db|log|frame|frame]; cbn [handle] in Hh.
  - destruct (stopCollecting t) eqn:Hst.
    { unfold step in Hh. rewrite Hst in Hh. injection Hh as <-. simpl. rewrite Hst. simpl. lia. }
    apply step_prepare in Hh as (t1 & U1 & L1 & _ & Hh); [|done].
    assert (level_count t1 i o = level_count t i o) as <-.
    { eapply updates_count; [exact U1|]. intros c. unfold oog_update. by destruct (runs_out log). }
    cbn [phase_of ph_stopped ph_levels ph_prev]. rewrite Hst. cbn [negb andb].
    destruct (bool_decide (getDepth log = 1)); cbn [negb app counted foldr].
    + apply top_level_step_spec in Hh as (_ & _ & _ & Hcalls); [|by eapply updates_refs].
      unfold level_count. destruct (opens_level (op log)); [|rewrite Hcalls; lia].
      destruct Hcalls as (sig & addr & ->). destruct (decide (i = length (callsFromEntryPoint t1))) as [->|Hne].
      * rewrite (list_lookup_middle _ []) by done. rewrite (lookup_ge_None_2 _ _ (Nat.le_refl _)). done.
      * destruct (callsFromEntryPoint t1 !! i) as [c|] eqn:Hi.
        { rewrite (lookup_app_l_Some _ _ _ _ Hi). lia. }
        { rewrite lookup_ge_None_2; [lia|]. apply lookup_ge_None_1 in Hi. rewrite length_app. simpl. lia. }
    + apply deep_step_updates in Hh as (U & _).
      unfold level_count. rewrite (up_levels _ _ _ U), (up_current _ _ _ U1), (lr_current _ Hr), <-(updates_length _ _ _ U1).
      destruct (length (callsFromEntryPoint t1)) as [|n] eqn:Hlen.
      { apply nil_length_inv in Hlen. rewrite Hlen. rewrite bool_decide_eq_false_2 by lia. simpl. lia. }
      cbn [levels_alter]. destruct (decide (n = i)) as [->|Hne].
      * rewrite bool_decide_eq_true_2 by done. rewrite list_lookup_alter_eq.
        destruct (lookup_lt_is_Some_2 (callsFromEntryPoint t1) i ltac:(lia)) as [c Hi]. rewrite Hi. simpl.
        unfold op_count. simpl. rewrite ops_update_count, L1. lia.
      * rewrite bool_decide_eq_false_2 by lia. rewrite list_lookup_alter_ne by done. lia.
  - injection Hh as <-. simpl. unfold level_count. simpl. lia.
  - injection Hh as <-. unfold enter, level_count. simpl. destruct (stopCollecting t); simpl; lia.
  - injection Hh as <-. unfold exit, level_count. simpl. destruct (stopCollecting t); simpl; lia.
Qed.

Lemma run_tracer_count evs t t' i o :
  run_tracer evs t = Ok t' → level_refs t →
  level_count t' i o = level_count t i o + counted i o (executed (phase_of t) evs).
Proof.
  revert t. induction evs as [|e evs IH]; intros t Hrun Hr.
  { injection Hrun as <-. simpl. lia. }
  apply comp_bind_ok in Hrun as (t1 & H1 & Hrun). pose proof (handle_phase _ _ _ H1 Hr) as [Hr1 Hp].
  rewrite (IH t1 Hrun Hr1), (handle_count _ _ _ i o H1 Hr), Hp.
  assert (executed (phase_of t) (e :: evs) =
          executed (phase_of t) [e] ++ executed (phase_step (phase_of t) e) evs) as ->.
  { cbn [executed]. by rewrite app_nil_r. }
  rewrite counted_steps_app. lia.
Qed.

Lemma opcode_counts evs t i o :
  run_tracer evs js_tracer = Ok t →
  level_count t i o = counted i o (executed (phase []) evs).
Proof. intros Hrun. rewrite (run_tracer_count _ _ _ _ _ Hrun js_tracer_refs). done. Qed.
End counts.

(** ** What a trace that passes the checks says of the execution *)
Section rules.
Context {T : TracerHost} {A : Abi} {D : Display} {N : Node} {TL : TraceLib} {HO : HashOrder}.
Implicit Types (t : Collector) (log : StepLog) (db : StateDb) (c : TopLevelCallInfo).

(** a property of levels that every update keeps *)
Lemma run_tracer_levels (P : TopLevelCallInfo → Prop) evs t t' :
  (∀ sig addr, P (new_level sig addr)) → (∀ c, P c → P (with_oog c)) →
  (∀ log db t c, EvStep log db ∈ evs → P c → P (deep_level log db t c)) →
  Forall P t.(callsFromEntryPoint) → level_refs t → run_tracer evs t = Ok t' →
  Forall P t'.(callsFromEntryPoint).
Proof.
  intros Hnew Hoog. revert t. induction evs as [|e evs IH]; intros t Hdeep Ht Hr Hrun.
  { by injection Hrun as <-. }
  apply comp_bind_ok in Hrun as (t1 & H1 & Hrun). pose proof (handle_phase _ _ _ H1 Hr) as [Hr1 _].
  eapply (IH t1); [|clear IH Hrun|done|done].
  { intros log db t2 c Hin. apply Hdeep. apply elem_of_cons. by right. }
  assert (Hup : ∀ f t t', updates f t t' → (∀ c, P c → P (f c)) →
            Forall P (callsFromEntryPoint t) → Forall P (callsFromEntryPoint t')).
  { intros f u u' U Hf Hu. rewrite (up_levels _ _ _ U). unfold levels_alter.
    destruct (currentLevel u); [|done]. by apply Forall_alter; [|intros; apply Hf]. }
  destruct e as [log db|log|frame|frame]; cbn [handle] in H1.
  - destruct (stopCollecting t) eqn:Hst.
    { unfold step in H1. rewrite Hst in H1. by injection H1 as <-. }
    apply step_prepare in H1 as (ta & U1 & L1 & _ & Hh); [|done].
    assert (Forall P (callsFromEntryPoint ta)) as Ha.
    { eapply Hup; [exact U1| |done]. intros c Hc. unfold oog_update. destruct (runs_out log); auto. }
    destruct (bool_decide (getDepth log = 1)).
    + apply top_level_step_spec in Hh as (_ & _ & _ & Hcalls); [|by eapply updates_refs].
      destruct (opens_level (op log)); [|by rewrite Hcalls].
      destruct Hcalls as (sig & addr & ->). apply Forall_app; split; [done|]. by constructor.
    + apply deep_step_updates in Hh as (U & _). eapply Hup; [exact U| |done].
      intros c. apply Hdeep. by left.
  - by injection H1 as <-.
  - injection H1 as <-. unfold enter. by destruct (stopCollecting t).
  - injection H1 as <-. unfold exit. by destruct (stopCollecting t).
Qed.

(** an entry of [contractSize] is the size seen by an instruction of the execution *)
Definition sizes_seen (evs : list TracerEvent) c : Prop :=
  ∀ a sz, c.(contract_size) !! a = Some sz →
    touches_code sz.(cs_opcode) = true ∧
    ∃ log db, EvStep log db ∈ evs ∧ sz.(cs_contract_size) = Z.of_nat (length (db.(getCode) a)).

Lemma run_sizes_seen evs t i c :
  run_tracer evs js_tracer = Ok t → t.(callsFromEntryPoint) !! i = Some c → sizes_seen evs c.
Proof.
  intros Hrun Hi.
  assert (Forall (sizes_seen evs) (callsFromEntryPoint t)) as Hall.
  { eapply run_tracer_levels; [| | | |apply js_tracer_refs|exact Hrun].
    - intros sig addr a sz Ha. simpl in Ha. by rewrite lookup_empty in Ha.
    - intros c' Hc' a sz Ha. by apply Hc'.
    - intros log db t' c' Hin Hc' a sz Ha. simpl in Ha. unfold size_update in Ha.
      destruct (code_target log) as [w|] eqn:Hw; [|by apply Hc']. cbv zeta in Ha.
      destruct (_ && _) in Ha; [|by apply Hc'].
      apply lookup_insert_Some in Ha as [[<- <-]|[_ Ha]]; [|by apply Hc'].
      unfold code_target in Hw. destruct (touches_code (op log)) eqn:Ht; [|done].
      split; [done|]. by exists log, db.
    - constructor. }
  rewrite Forall_lookup in Hall. by eapply Hall.
Qed.

Lemma executed_app p evs1 evs2 :
  executed p (evs1 ++ evs2) = executed p evs1 ++ executed (phase_from p evs1) evs2.
Proof.
  revert p. induction evs1 as [|e evs1 IH]; intros p; [done|]. cbn [executed app].
  by rewrite IH, <-app_assoc.
Qed.
Lemma executed_at pre log db post :
  (phase pre).(ph_stopped) = false → log.(getDepth) ≠ 1 →
  ((phase pre).(ph_levels), (phase pre).(ph_prev), log.(op))
    ∈ executed (phase []) (pre ++ EvStep log db :: post).
Proof.
  intros Hs Hd. rewrite executed_app. apply elem_of_app. right.
  change (phase_from (phase []) pre) with (phase pre). cbn [executed].
  rewrite Hs, bool_decide_eq_false_2 by done. simpl. by left.
Qed.
Lemma counted_nonneg i o xs : 0 ≤ counted i o xs.
Proof.
  unfold counted. induction xs as [|[[n prev] o'] xs IH]; simpl; [done|].
  pose proof (contribution_nonneg prev o' o). case_match; lia.
Qed.
Lemma counted_elem i prev o' o xs :
  (S i, prev, o') ∈ xs → contribution prev o' o ≤ counted i o xs.
Proof.
  induction xs as [|[[n p] q] xs IH]; [by intros ?%not_elem_of_nil|].
  pose proof (counted_nonneg i o xs). pose proof (contribution_nonneg p q o).
  intros [Heq|Hin]%elem_of_cons.
  - injection Heq as <- <- <-. cbn [counted foldr]. rewrite bool_decide_eq_true_2 by done.
    fold (counted i o xs). lia.
  - specialize (IH Hin). cbn [counted foldr]. fold (counted i o xs). case_match; lia.
Qed.

Lemma op_count_recorded c o : 0 < op_count c o → c.(opcodes) !! o = Some (op_count c o).
Proof. unfold op_count. by destruct (opcodes c !! o). Qed.

Lemma forbidden_important o : o ∈ FORBIDDEN_OPCODES → o ≠ "GAS"%string → counts_op o = true.
Proof.
  intros Ho Hg. unfold counts_op. rewrite bool_decide_eq_true_2 by done.
  assert (forallb (λ o, negb (unimportant o)) (elements FORBIDDEN_OPCODES) = true) as Hall
    by (by vm_compute).
  revert Ho Hall. generalize FORBIDDEN_OPCODES. intros F Ho Hall.
  rewrite forallb_forall in Hall. by apply Hall, list_elem_of_In, elem_of_elements.
Qed.

(** a double holds small integers exactly, and stays large when the integer is *)
Lemma js_number_small z : 0 ≤ z < 2 ^ 53 → js_number z = z.
Proof.
  intros Hz. unfold js_number. rewrite bool_decide_eq_true_2; [done|].
  rewrite Z.abs_eq by lia. destruct (decide (z = 0)) as [->|]; [done|].
  assert (Z.log2 z < 53) by (apply Z.log2_lt_pow2; lia). lia.
Qed.
Lemma round_half_even_le a b : a / b ≤ round_half_even a b ≤ a / b + 1.
Proof. unfold round_half_even. repeat case_match; lia. Qed.
Lemma js_number_large z : 2 ^ 53 ≤ z → 2 ^ 52 ≤ js_number z.
Proof.
  intros Hz. unfold js_number. rewrite Z.abs_eq by lia.
  assert (53 ≤ Z.log2 z) by (apply Z.log2_le_pow2; lia).
  rewrite bool_decide_eq_false_2 by lia. rewrite Z.sgn_pos, Z.mul_1_l by lia.
  set (e := Z.log2 z - 52). assert (0 < 2 ^ e) by (apply Z.pow_pos_nonneg; lia).
  pose proof (round_half_even_le z (2 ^ e)) as [Hle _].
  assert (2 ^ 52 ≤ z / 2 ^ e).
  { apply Z.div_le_lower_bound; [done|]. rewrite <-Z.pow_add_r by lia.
    replace (e + 52) with (Z.log2 z) by lia. apply Z.log2_spec. lia. }
  nia.
Qed.
Lemma allowed_precompiled a : 0 ≤ a → isAllowedPrecompiled a = true ↔ 1 ≤ a ≤ 9.
Proof.
  intros Ha. unfold isAllowedPrecompiled. rewrite andb_true_iff, !bool_decide_eq_true.
  destruct (decide (a < 2 ^ 53)); [rewrite js_number_small by lia; lia|].
  pose proof (js_number_large a ltac:(lia)). lia.
Qed.

Lemma be_to_Z_mod n z : be_to_Z (Z_to_be n z) = z mod 2 ^ (8 * Z.of_nat n).
Proof. unfold be_to_Z, Z_to_be. rewrite rev_involutive, LittleEndianList.le_combine_split. f_equal. f_equal. lia. Qed.
Lemma word_address_mod `{!TracerHostOk T} w : is_u256 w → word_address w = w mod 2 ^ 160.
Proof. intros Hw. unfold word_address. rewrite toAddress_law by done. by rewrite be_to_Z_mod. Qed.

Context {S : Type} `{ML : MempoolLaws S} {R : Type} `{RL : ReputationEntryLaws R}.

(** one instruction below the entry point, in a trace that is accepted *)
Definition obeys_rules uo (pre evs : list TracerEvent) log (i l : nat) : Prop :=
  runs_out log = false ∧
  (log.(op) ≠ "GAS"%string → log.(op) ∉ FORBIDDEN_OPCODES) ∧
  ((phase pre).(ph_prev) = "GAS"%string → str_contains log.(op) "CALL" = true) ∧
  (log.(op) = CREATE2_OPCODE →
     l = FACTORY_LEVEL ∧ counted i CREATE2_OPCODE (executed (phase []) evs) = 1) ∧
  (∀ w, code_target log = Some w → is_u256 w →
     let addr := w mod 2 ^ 160 in
     1 ≤ addr ≤ 9 ∨ addr = uo.(uo_sender) ∨
     ∃ log' db', EvStep log' db' ∈ evs ∧ (2 < length (db'.(getCode) addr))%nat).

(** C15. A validation whose trace passes the gas, opcode and external contract
    checks obeyed their rules at every instruction: for each step below the
    entry point, made before the validation was over and inside a factory,
    account or paymaster call, the instruction did not run out of gas, is not
    forbidden, is a call when the one before it is GAS, is CREATE2 at most once
    and in the factory's call, and uses the code only of a precompiled contract,
    of the sender or of an address seen with more than two bytes of code. *)
Theorem traced_execution_obeys_rules `{!TracerHostOk T} helper uo evs pre log db post t i c l :
  run_tracer evs js_tracer = Ok t → evs = pre ++ EvStep log db :: post →
  check_gas (result t) = Ok () → check_opcodes (result t) = Ok () →
  check_external_contracts helper uo (result t) = Ok () →
  (phase pre).(ph_stopped) = false → log.(getDepth) ≠ 1 → (phase pre).(ph_levels) = Datatypes.S i →
  t.(callsFromEntryPoint) !! i = Some c → level_of c = Some l →
  obeys_rules uo pre evs log i l.
Proof.
  intros Hrun Hevs Hgas Hops Hext Hstop Hdeep Hlev Hc Hl.
  pose proof (opcode_counts evs t i) as Hcount. pose proof (run_sizes_seen evs t i c Hrun Hc) as Hseen.
  assert (Hin : (Datatypes.S i, ph_prev (phase pre), op log) ∈ executed (phase []) evs).
  { rewrite <-Hlev, Hevs. by apply executed_at. }
  assert (Hrec : ∀ o, 0 < contribution (ph_prev (phase pre)) (op log) o →
                   opcodes c !! o = Some (counted i o (executed (phase []) evs))).
  { intros o Ho. pose proof (counted_elem _ _ _ o _ Hin). specialize (Hcount o Hrun).
    unfold level_count in Hcount. rewrite Hc in Hcount. rewrite <-Hcount. apply op_count_recorded. lia. }
  assert (c ∈ calls_from_entry_point (result t)) as Hcin by (by apply list_elem_of_lookup_2 in Hc).
  rewrite check_gas_ok in Hgas. rewrite check_opcodes_ok in Hops. rewrite check_external_ok in Hext.
  specialize (Hgas c Hcin). specialize (Hops c l Hcin Hl) as [Hforb Hcr2].
  specialize (Hext c l Hcin Hl) as [Hsize _].
  subst evs. destruct (deep_step_recorded _ _ _ _ _ i Hrun Hstop Hdeep Hlev)
    as (t0 & c0 & c' & _ & _ & _ & Hc' & t1 & _ & G & _). rewrite Hc in Hc'. injection Hc' as <-.
  split_and!.
  - destruct (runs_out log) eqn:Ho; [|done]. exfalso. apply Hgas, (g_oog _ _ G). simpl.
    unfold oog_update. by rewrite Ho.
  - intros Hg Hf. eapply Hforb; [|exact Hf]. apply Hrec. unfold contribution.
    rewrite forbidden_important, (bool_decide_eq_true_2 (op log = op log)) by done. simpl. case_match; lia.
  - intros Hg. destruct (str_contains (op log) "CALL") eqn:Hcall; [done|]. exfalso.
    eapply (Hforb "GAS"%string); [|by apply (bool_decide_unpack _); vm_compute]. apply Hrec. unfold contribution, counts_gas.
    rewrite Hg, Hcall, bool_decide_eq_true_2 by done. simpl. case_match; lia.
  - intros Ho. apply Hcr2, Hrec. rewrite Ho. unfold contribution.
    rewrite (bool_decide_eq_true_2 (CREATE2_OPCODE = CREATE2_OPCODE)) by done.
    change (counts_op CREATE2_OPCODE) with true. simpl. case_match; lia.
  - intros w Hw Hu. cbv zeta. rewrite <-(word_address_mod w Hu).
    assert (0 ≤ word_address w) as Ha by (rewrite word_address_mod by done; apply Z.mod_pos_bound; lia).
    destruct (isAllowedPrecompiled (word_address w)) eqn:Hp; [left; by apply allowed_precompiled|right].
    assert (is_Some (contract_size c !! word_address w)) as [sz Hsz].
    { assert (is_Some (size_update log db (contract_size (oog_update log c0)) !! word_address w)) as [sz Hsz].
      { unfold size_update. rewrite Hw, Hp. cbv zeta. rewrite andb_true_r.
        case_bool_decide as Hn; [rewrite lookup_insert_eq; eauto|by apply not_eq_None_Some]. }
      exists sz. eapply lookup_weaken; [exact Hsz|]. apply (g_size _ _ G). }
    destruct (Hseen _ _ Hsz) as (Htc & log' & db' & Hin' & Hlen).
    destruct (Hsize _ _ Hsz) as [Hs|[Hs|Hs]]; [by left| |by rewrite Hs in Htc].
    right. exists log', db'. split; [done|lia].
Qed.

Definition slots_named c : Prop :=
  ∀ a acc k, c.(access) !! a = Some acc → k ∈ touched_slots acc → k ≠ ""%string.
Lemma touch_slots is_read slot value acc k :
  k ∈ touched_slots (touch is_read slot value acc) → k = slot ∨ k ∈ touched_slots acc.
Proof.
  unfold touch, touched_slots, countSlot.
  destruct is_read; [destruct (_ && _)|]; simpl; rewrite ?dom_insert_L; set_solver.
Qed.
Lemma run_slots_named `{!TracerHostOk T} evs t i c :
  run_tracer evs js_tracer = Ok t → t.(callsFromEntryPoint) !! i = Some c → slots_named c.
Proof.
  intros Hrun Hi. assert (Forall slots_named (callsFromEntryPoint t)) as Hall.
  { eapply run_tracer_levels; [| | | |apply js_tracer_refs|exact Hrun]; [| | |constructor].
    - intros sig addr a acc k Ha. simpl in Ha. by rewrite lookup_empty in Ha.
    - intros c' Hc' a acc k Ha. by apply (Hc' a acc k).
    - intros log db t' c' _ Hc' a acc k Ha Hk. simpl in Ha. unfold access_update in Ha.
      destruct (slot_target log) as [slot|]; [|by apply (Hc' a acc k)]. cbv zeta in Ha.
      apply lookup_insert_Some in Ha as [[<- <-]|[_ Ha]]; [|by apply (Hc' a acc k)].
      apply touch_slots in Hk as [->|Hk]; [by rewrite toHex_law|].
      destruct (access c' !! contract_getAddress log) as [acc'|] eqn:Ha; [exact (Hc' _ acc' k Ha Hk)|].
      simpl in Hk. unfold touched_slots in Hk. simpl in Hk. set_solver. }
  rewrite Forall_lookup in Hall. by eapply Hall.
Qed.

(** C16. In a validation whose trace passes the storage check, every SLOAD and
    SSTORE below the entry point, made before the validation was over and inside
    a factory, account or paymaster call, on a contract other than the sender and
    the entry point, obeyed the storage rules: a written slot is associated with
    the sender, or belongs to or is associated with the calling entity; an
    unstaked entity only touched slots associated with the sender of an account
    that exists or is deployed by a staked factory. *)
Theorem traced_storage_obeys_rules `{!TracerHostOk T} helper uo sim_res evs pre log db post t i c l slot :
  run_tracer evs js_tracer = Ok t → evs = pre ++ EvStep log db :: post →
  check_storage_access helper uo sim_res (result t) = Ok () →
  (phase pre).(ph_stopped) = false → log.(getDepth) ≠ 1 → (phase pre).(ph_levels) = Datatypes.S i →
  t.(callsFromEntryPoint) !! i = Some c → level_of c = Some l →
  slot_target log = Some slot →
  log.(contract_getAddress) ≠ uo.(uo_sender) → log.(contract_getAddress) ≠ helper.(th_entry_point) →
  let key := "0x" +:+ to_hex slot in
  let info := extract_stake_info uo sim_res in
  let slots := parse_slots t.(ct_keccak) info in
  let info_l := nth l info StakeInfo_default in
  (log.(op) = "SSTORE"%string →
     associated_with_slot uo.(uo_sender) key slots = Ok true ∨
     log.(contract_getAddress) = info_l.(si_address) ∨
     associated_with_slot info_l.(si_address) key slots = Ok true) ∧
  (is_staked info_l = false →
     associated_with_slot uo.(uo_sender) key slots = Ok true ∧
     (uo.(uo_init_code) = [] ∨
      uo.(uo_sender) = info_l.(si_address) ∧
      is_staked (nth FACTORY_LEVEL info StakeInfo_default) = true)).
Proof.
  intros Hrun -> Hck Hstop Hdeep Hlev Hc Hl Hslot Hs Hep key.
  pose proof (run_slots_named _ _ _ _ Hrun Hc) as Hnamed.
  destruct (deep_step_recorded _ _ _ _ _ i Hrun Hstop Hdeep Hlev)
    as (t0 & c0 & c' & _ & _ & _ & Hc' & t1 & _ & G & _). rewrite Hc in Hc'. injection Hc' as <-.
  destruct (g_access _ _ G (contract_getAddress log)
    (touch (bool_decide (op log = "SLOAD"%string)) key (toHex (getState db (contract_getAddress log) slot))
       (default no_access (access (oog_update log c0) !! contract_getAddress log))))
    as (acc & Hacc & Hw & Ht).
  { simpl. unfold access_update. rewrite Hslot. cbv zeta. by rewrite lookup_insert_eq, toHex_law. }
  match type of Ht with context [touch ?r ?k ?v ?a] => pose proof (touch_grows r k v a) as (_ & Hk & Hwr) end.
  assert (key ∈ touched_slots acc) as Hkey by set_solver.
  destruct (storage_access_rule helper uo sim_res (result t) c l (contract_getAddress log) acc key
    Hck ltac:(by eapply list_elem_of_lookup_2) Hl Hacc Hs Hep (λ k, Hnamed _ _ k Hacc) Hkey) as [Hrule Hun].
  split; [|exact Hun]. intros Ho. apply Hrule, Hw, Hwr. by rewrite Ho.
Qed.
End rules.

(** ** The calls are recorded with their exits *)
Section call_trees.
Context {T : TracerHost} {A : Abi} {D : Display} {N : Node} {TL : TraceLib}.
Implicit Types (t : Collector) (log : StepLog) (db : StateDb).

(** what happens inside a call: instructions, and calls with what happens inside *)
Inductive exec_tree :=
| TDone
| TStep (log : StepLog) (db : StateDb) (rest : exec_tree)
| TCall (frame : CallFrame) (inner : exec_tree) (res : FrameResult) (rest : exec_tree).
Fixpoint tree_events (x : exec_tree) : list TracerEvent :=
  match x with
  | TDone => []
  | TStep log db rest => EvStep log db :: tree_events rest
  | TCall frame inner res rest =>
      EvEnter frame :: tree_events inner ++ EvExit res :: tree_events rest
  end.
(** instructions below the entry point only; no call is named as an exit *)
Fixpoint below_entry_point (x : exec_tree) : Prop :=
  match x with
  | TDone => True
  | TStep log _ rest => log.(getDepth) ≠ 1 ∧ below_entry_point rest
  | TCall frame inner _ rest =>
      is_return frame.(getType) = false ∧ below_entry_point inner ∧ below_entry_point rest
  end.
Definition enter_call (frame : CallFrame) : Call :=
  {| c_typ := frame.(getType); c_gas_used := None; c_data := None;
     c_from := Some frame.(getFrom); c_to := Some frame.(getTo);
     c_method := Some (take 4 frame.(getInput)); c_gas := Some frame.(frame_getGas);
     c_value := frame.(getValue) |}.
Definition exit_call (res : FrameResult) : Call :=
  exit_record (if bool_decide (res.(getError) = None) then "RETURN" else "REVERT")%string
    res.(getGasUsed) res.(getOutput).
Fixpoint tree_forest (x : exec_tree) : forest :=
  match x with
  | TDone => FNil
  | TStep _ _ rest => tree_forest rest
  | TCall frame inner res rest =>
      FCons (enter_call frame) (exit_call res) (tree_forest inner) (tree_forest rest)
  end.

Lemma tree_well_bracketed x : below_entry_point x → well_bracketed (tree_forest x).
Proof.
  induction x as [|log db rest IH|frame inner IHi res rest IHr]; simpl; [done|naive_solver|].
  intros (Hret & Hi & Hr). split_and!; [|unfold exit_call; by case_bool_decide|auto..].
  unfold is_exit, is_return in *. exact Hret.
Qed.

Lemma calls_on_level f t t' : on_level f t = Ok t' → t'.(ct_calls) = t.(ct_calls).
Proof. unfold on_level. destruct (currentLevel t); [|done]. by intros [= <-]. Qed.
Lemma calls_bump (b : bool) key t t' :
  (if b then count_op key t else Ok t) = Ok t' → t'.(ct_calls) = t.(ct_calls).
Proof. destruct b; [apply calls_on_level|by intros [= <-]]. Qed.

Lemma deep_step_calls log db t t' : deep_step log db t = Ok t' → t'.(ct_calls) = t.(ct_calls).
Proof.
  unfold deep_step. intros Hs.
  apply comp_bind_ok in Hs as (t1 & H1 & Hs). apply comp_bind_ok in Hs as (t2 & H2 & Hs).
  apply comp_bind_ok in Hs as (t3 & H3 & Hs). apply comp_bind_ok in Hs as (t4 & H4 & Hs).
  trans (ct_calls t4); [|trans (ct_calls t3); [|trans (ct_calls t2); [|trans (ct_calls t1)]]].
  - unfold record_hash_or_log in Hs.
    repeat (apply comp_bind_ok in Hs as (? & _ & Hs) || case_match); simplify_eq; simpl;
      by rewrite ?app_nil_r.
  - unfold record_access in H4. case_match; [|by simplify_eq].
    apply comp_bind_ok in H4 as (? & _ & H4). by eapply calls_on_level.
  - unfold count_opcodes in H3. apply comp_bind_ok in H3 as (ta & Ha%calls_bump & H3).
    apply comp_bind_ok in H3 as (tb & Hb%calls_bump & [= <-]). simpl. congruence.
  - unfold record_size in H2. case_match; [|by simplify_eq].
    apply comp_bind_ok in H2 as (? & _ & H2). apply comp_bind_ok in H2 as (? & _ & H2).
    case_match; [by eapply calls_on_level|by simplify_eq].
  - unfold record_ext in H1. destruct (last_op_info t) as [info|]; [|by simplify_eq].
    destruct (is_ext (oi_opcode info)); [|by simplify_eq].
    apply comp_bind_ok in H1 as (? & _ & H1). case_match; [by simplify_eq|by eapply calls_on_level].
Qed.

Lemma step_calls log db t t' :
  step log db t = Ok t' → log.(getDepth) ≠ 1 → t'.(ct_calls) = t.(ct_calls).
Proof.
  unfold step. intros Hs Hd. case_match; [by simplify_eq|].
  apply comp_bind_ok in Hs as (t1 & H1 & Hs). apply comp_bind_ok in Hs as (t2 & H2 & Hs).
  apply comp_bind_ok in Hs as (t3 & H3 & Hs). rewrite bool_decide_eq_false_2 in Hs by done.
  rewrite (deep_step_calls _ _ _ _ Hs). trans (ct_calls t2); [|trans (ct_calls t1)].
  - unfold record_return in H3. case_match; [|by simplify_eq].
    rewrite bool_decide_eq_false_2 in H3 by done. by simplify_eq/=.
  - unfold flag_oog in H2. case_match; [by eapply calls_on_level|by simplify_eq].
  - unfold remember in H1. by apply comp_bind_ok in H1 as (? & _ & [= <-]).
Qed.

Lemma tree_calls x : below_entry_point x → ∀ t t',
  run_tracer (tree_events x) t = Ok t' → level_refs t → t.(stopCollecting) = false →
  level_refs t' ∧ t'.(stopCollecting) = false ∧
  t'.(ct_calls) = t.(ct_calls) ++ flatten (tree_forest x).
Proof.
  induction x as [|log db rest IH|frame inner IHi res rest IHr]; intros Hx t t' Hrun Hr Hst.
  { injection Hrun as <-. cbn. by rewrite app_nil_r. }
  - destruct Hx as [Hd Hx]. apply comp_bind_ok in Hrun as (t1 & H1 & Hrun).
    destruct (handle_phase _ _ _ H1 Hr) as [Hr1 Hp]. cbn [handle] in H1.
    assert (stopCollecting t1 = false) as Hst1.
    { apply (f_equal ph_stopped) in Hp. unfold phase_step in Hp. simpl in Hp.
      by rewrite Hst, bool_decide_eq_false_2 in Hp. }
    destruct (IH Hx _ _ Hrun Hr1 Hst1) as (? & ? & ->). split_and!; [done..|].
    by rewrite (step_calls _ _ _ _ H1 Hd).
  - destruct Hx as (_ & Hxi & Hxr). cbn [tree_events] in Hrun.
    change (?e :: ?a ++ ?f :: ?b) with ([e] ++ a ++ [f] ++ b) in Hrun.
    apply run_tracer_app in Hrun as (t1 & H1 & Hrun). apply run_tracer_app in Hrun as (t2 & H2 & Hrun).
    apply run_tracer_app in Hrun as (t3 & H3 & Hrun).
    assert (t1 = enter frame t) as -> by (by injection H1 as <-).
    assert (t3 = exit res t2) as -> by (by injection H3 as <-).
    unfold enter in H2. rewrite Hst in H2.
    destruct (IHi Hxi _ _ H2 (proj1 (output_phase _ _ _ _ _ Hr)) Hst) as (Hr2 & Hst2 & Hc2).
    unfold exit in Hrun. rewrite Hst2 in Hrun.
    destruct (IHr Hxr _ _ Hrun (proj1 (output_phase _ _ _ _ _ Hr2)) Hst2) as (Hr3 & Hst3 & ->).
    split_and!; [done..|]. simpl. rewrite Hc2. simpl. by rewrite <-!app_assoc.
Qed.

(** The tracer and the call stack check agree on what a call is: whatever happens
    below the entry point, the parsed stack holds exactly the calls that were
    made, each with its own result, inner calls first. *)
Theorem call_tree_parsed x t :
  run_tracer (tree_events x) js_tracer = Ok t → below_entry_point x →
  parse_call_stack (result t).(calls) = postorder (tree_forest x).
Proof.
  intros Hrun Hx. destruct (tree_calls x Hx _ _ Hrun js_tracer_refs eq_refl) as (_ & _ & Hc).
  cbn [result calls]. rewrite Hc. by apply call_stack_parsed, tree_well_bracketed.
Qed.
End call_trees.

(** ** A host, and the text of words *)
Fixpoint hex_num (acc : Z) (s : string) : Z :=
  match s with
  | EmptyString => acc
  | String ch s => hex_num (16 * acc + default 0 (hex_value ch)) s
  end.
Definition std_host : TracerHost := {|
  toHex b := "0x" +:+ to_hex b;
  toAddress s := Z_to_be 20 (hex_num 0 s);
  toWord s := Z_to_be 32 (hex_num 0 s);
|}.

Lemma lor_shiftl a b n : 0 ≤ n → 0 ≤ a < 2 ^ n → Z.lor a (Z.shiftl b n) = a + b * 2 ^ n.
Proof.
  intros Hn Ha. rewrite <-Z.shiftl_mul_pow2 by done. symmetry. apply Z.add_nocarry_lor.
  apply Z.bits_inj'. intros k Hk. rewrite Z.land_spec, Z.bits_0.
  destruct (decide (k < n)); [rewrite (Z.shiftl_spec_low b n k) by done; apply andb_false_r|].
  rewrite <-(Z.mod_small a (2 ^ n)) by done. rewrite Z.mod_pow2_bits_high by lia. done.
Qed.
Lemma be_to_Z_cons x b : be_to_Z (x :: b) = byte.unsigned x * 2 ^ (8 * Z.of_nat (length b)) + be_to_Z b.
Proof.
  pose proof (be_to_Z_bound b) as Hb. unfold be_to_Z in *. cbn [rev].
  rewrite LittleEndianList.le_combine_app, length_rev. rewrite (Z.mul_comm (Z.of_nat _) 8).
  assert (le_combine [x] = byte.unsigned x) as -> by (cbn; apply Z.lor_0_r).
  rewrite lor_shiftl by lia. lia.
Qed.
Lemma hex_num_to_hex b acc : hex_num acc (to_hex b) = acc * 2 ^ (8 * Z.of_nat (length b)) + be_to_Z b.
Proof.
  revert acc. induction b as [|x b IH]; intros acc; [change (be_to_Z []) with 0; simpl; lia|]. cbn [to_hex hex_num].
  pose proof (byte.unsigned_range x).
  rewrite !hex_value_digit by (split; [Z.to_euclidean_division_equations; lia|]; Z.to_euclidean_division_equations; lia).
  cbn [default]. rewrite IH, be_to_Z_cons. cbn [length].
  replace (8 * Z.of_nat (Datatypes.S (length b))) with (8 + 8 * Z.of_nat (length b)) by lia.
  rewrite Z.pow_add_r by lia. pose proof (Z.div_mod (byte.unsigned x) 16 ltac:(lia)) as Hd.
  rewrite Hd at 3. generalize (2 ^ (8 * Z.of_nat (length b))). intros p. change (2 ^ 8) with 256. unfold id. lia.
Qed.
Lemma hex_num_strip s : hex_num 0 (strip_zeros s) = hex_num 0 s.
Proof.
  induction s as [|ch s IH]; [done|]. cbn [strip_zeros].
  destruct ch as [[] [] [] [] [] [] [] []]; try done. destruct s; [done|]. exact IH.
Qed.
Lemma hex_num_word w : is_u256 w → hex_num 0 (to_string16 w) = w.
Proof.
  intros [H1 H2]. unfold to_string16. rewrite hex_num_strip, hex_num_to_hex, be_to_Z_to_be; [lia|].
  unfold U256_MAX in H2. change (8 * Z.of_nat 32) with 256. lia.
Qed.
Lemma std_host_ok : TracerHostOk std_host.
Proof.
  split; [reflexivity| |]; intros w Hw; cbn [toAddress toWord std_host]; rewrite hex_num_word by done;
    reflexivity.
Qed.

(** ** Concrete executions *)
Module Example.
#[local] Existing Instances std_abi std_display fx_node canonical_order std_host std_host_ok.

#[local] Instance lib : TraceLib := {|
  create_sender_selector := [Byte.x57; Byte.x0e; Byte.x1a; Byte.x36];
  validate_user_op_selector := [Byte.x3a; Byte.x87; Byte.x1c; Byte.xdd];
  validate_paymaster_selector := [Byte.xf4; Byte.x65; Byte.xc7; Byte.x7e];
  selector_name _ := None;
  parse_hex_u256 s := Some (hex_num 0 (strip_0x s));
  address_to_string a := hash_display 20 a;
  decode_paymaster_context _ := Some [];
  join_order _ l := l;
  join_order_perm _ l := Permutation_refl l;
|}.

Definition stack_of (l : list Z) (i : nat) : comp string Z :=
  ok_or "tracer accessed out of bound stack"%string (l !! i).
(** memory starts with a selector, or with the padded account 9 *)
Definition memory_of (m : bytes) (ofs till : Z) : comp string bytes :=
  Ok (take (Z.to_nat (till - ofs)) (drop (Z.to_nat ofs) m)).
Definition mk (o : string) (d : Z) (stack : list Z) (m : bytes) (a : Address) : StepLog := {|
  op := o; stack_length := length stack; peek := stack_of stack; memory_slice := memory_of m;
  getGas := 100000; getCost := 3; getDepth := d; log_getError := ""; contract_getAddress := a |}.
Definition world : StateDb := {| getCode _ := repeat Byte.x60 3; getState _ _ := repeat Byte.x00 32 |}.
Definition at_depth (o : string) (d : Z) (stack : list Z) : TracerEvent := EvStep (mk o d stack [] 9) world.

(** the entry point calls validateUserOp of account 9; the account hashes a key
    of a mapping, calls token 20, which reads that slot of its own, and returns *)
Definition key : bytes := padded_address 9 ++ repeat Byte.x00 32.
Definition call_account : TracerEvent :=
  EvStep (mk "CALL" 1 [50000; 9; 0; 0; 4; 0; 0] [Byte.x3a; Byte.x87; Byte.x1c; Byte.xdd] 1) world.
Definition gas_call : list TracerEvent := [at_depth "PUSH1" 2 []; at_depth "GAS" 2 []].
Definition call_token : StepLog := mk "CALL" 2 [1000; 20; 0; 0; 0; 0; 0] [] 9.
Definition sload : StepLog := mk "SLOAD" 3 [be_to_Z (keccak256 key) + 1] [] 20.
Definition prefix : list TracerEvent :=
  [call_account; EvStep (mk "KECCAK256" 2 [0; 64] key 9) world] ++ gas_call.
Definition stop_word : Z := 84709593116368801709752651863694392938626944120885149121649688216604593682802.
Definition suffix : list TracerEvent :=
  [ EvStep sload world; at_depth "RETURN" 3 [0; 0]; at_depth "RETURN" 2 [0; 0];
    EvStep (mk "LOG1" 1 [0; 0; stop_word] [] 1) world;
    at_depth "TIMESTAMP" 2 [] ].
Definition run1 : list TracerEvent := prefix ++ EvStep call_token world :: suffix.
Definition final (evs : list TracerEvent) : Collector :=
  match run_tracer evs js_tracer with Ok t => t | _ => js_tracer end.
Definition is_run (evs : list TracerEvent) : bool :=
  match run_tracer evs js_tracer with Ok _ => true | _ => false end.
Lemma run_final evs : is_run evs = true → run_tracer evs js_tracer = Ok (final evs).
Proof. unfold is_run, final. by destruct (run_tracer evs js_tracer). Qed.
Definition first_level (evs : list TracerEvent) : TopLevelCallInfo :=
  default (new_level [] []) ((final evs).(callsFromEntryPoint) !! 0%nat).
Lemma first_level_lookup evs :
  bool_decide (is_Some ((final evs).(callsFromEntryPoint) !! 0%nat)) = true →
  (final evs).(callsFromEntryPoint) !! 0%nat = Some (first_level evs).
Proof. intros [c Hc]%bool_decide_eq_true. unfold first_level. by rewrite Hc. Qed.
Definition passes {E} (m : comp E ()) : bool := match m with Ok _ => true | _ => false end.
Lemma passes_ok {E} (m : comp E ()) : passes m = true → m = Ok ().
Proof. by destruct m as [[]| |]. Qed.

Lemma traced_execution_obeys_rules_witness :
  obeys_rules (fx_uo 1 0 10) prefix run1 call_token 0 SENDER_LEVEL.
Proof.
  refine (traced_execution_obeys_rules Trace.Example.helper (fx_uo 1 0 10) run1 prefix call_token world
    suffix (final run1) 0 (first_level run1) SENDER_LEVEL (run_final run1 _) eq_refl
    (passes_ok _ _) (passes_ok _ _) (passes_ok _ _) _ _ _ (first_level_lookup run1 _) _);
    by vm_compute.
Defined.

Lemma traced_storage_obeys_rules_witness :
  associated_with_slot 9 ("0x" +:+ to_hex (Z_to_be 32 (be_to_Z (keccak256 key) + 1)))
    (parse_slots (final run1).(ct_keccak) (extract_stake_info (fx_uo 1 0 10) Trace.Example.res)) = Ok true.
Proof.
  assert (run1 = (prefix ++ [EvStep call_token world]) ++ EvStep sload world :: tail suffix) as Hrun
    by (unfold run1; by rewrite <-app_assoc).
  refine (proj1 (proj2 (traced_storage_obeys_rules Trace.Example.helper (fx_uo 1 0 10)
    Trace.Example.res run1 (prefix ++ [EvStep call_token world]) sload world (tail suffix) (final run1) 0
    (first_level run1) SENDER_LEVEL (Z_to_be 32 (be_to_Z (keccak256 key) + 1)) (run_final run1 _) Hrun
    (passes_ok _ _) _ _ _ (first_level_lookup run1 _) _ _ _ _) _));
    by vm_compute.
Defined.

(** the account looks at the code size of the entry point, contract 1: what is
    reported is the instruction after EXTCODESIZE, and nothing when that is
    RETURN or REVERT *)
Definition peeks_at_entry_point (next : TracerEvent) : list TracerEvent :=
  [ call_account; at_depth "PUSH1" 2 []; at_depth "EXTCODESIZE" 2 [1; 0]; next ].
Definition external_check (evs : list TracerEvent) : comp SimulationError () :=
  check_external_contracts Trace.Example.helper (fx_uo 1 0 10) (result (final evs)).
Definition before_pop : list TracerEvent := peeks_at_entry_point (at_depth "POP" 2 [3; 0]).
Definition before_return : list TracerEvent := peeks_at_entry_point (at_depth "RETURN" 2 [3; 0]).
Theorem extcode_before_return_unseen :
  is_run before_pop = true ∧ is_run before_return = true ∧
  external_check before_pop = Err (SimOpcode SENDER "POP") ∧
  external_check before_return = Ok ().
Proof. by vm_compute. Qed.

(** a static call by the entry point: the length of its input is taken for the
    offset, so the selector is read at the wrong place *)
Definition static_account : TracerEvent :=
  EvStep (mk "STATICCALL" 1 [50000; 9; 0; 4; 0; 0]
    [Byte.x3a; Byte.x87; Byte.x1c; Byte.xdd; Byte.x00; Byte.x00; Byte.x00; Byte.x00] 1) world.
Theorem static_call_selector_misread :
  (first_level [call_account]).(top_level_method_sig) = validate_user_op_selector ∧
  (first_level [static_account]).(top_level_method_sig) = repeat Byte.x00 4.
Proof. by vm_compute. Qed.

(** an instruction of the entry point itself that runs out of gas before any call
    makes the tracer throw *)
Theorem early_out_of_gas_throws :
  run_tracer [EvStep {| op := "SLOAD"; stack_length := 0; peek := stack_of [];
    memory_slice := memory_of []; getGas := 1; getCost := 2100; getDepth := 1; log_getError := "";
    contract_getAddress := 1 |} world] js_tracer = Err "TypeError"%string.
Proof. by vm_compute. Qed.
End Example.
