(* ===== verification/Texts.v ===== *)
(** The texts of the primitives ([crates/primitives/src/utils.rs]), the hash type
    of user operations ([user_operation/hash.rs]), the setters of an operation
    ([user_operation/mod.rs]) and the conversions to and from the contract's
    operation ([crates/contracts/src/utils.rs]). *)

From Stdlib Require Import Ascii.
From stdpp Require Import pretty.
From S2P Require Import Prelude Primitives Errors AbiStd HexStd Gas Reputation Mempool.
From S2P Require Import MemoryStore EntryPoint Fixture Simulation Trace Tracer.

(** a double as the parser of the standard library returns it *)
Inductive F64 := FFinite (m e : Z) | FInfinite (negative : bool) | FNan.
Class TextLib := {
  (** the EIP-55 text of an address: its digits in mixed case *)
  to_checksum : Address → string;
  (** [str::parse::<f64>] *)
  parse_f64 : string → option F64;
  (** [serde_hex] with the strict prefixed style *)
  strict_hex_u64 : Z → string;
}.
Class TextLibOk (L : TextLib) := {
  checksum_decodes a : is_address a → from_hex (strip_0x (to_checksum a)) = Some (address_bytes a);
  checksum_prefixed a : ∃ s, to_checksum a = "0x" +:+ s ∧ String.length s = 40%nat;
  parse_f64_range s m e : parse_f64 s = Some (FFinite m e) → Z.abs m < 2 ^ 53;
}.

(** ** [utils.rs] *)
Section serializers.
Context {L : TextLib}.

Definition as_checksum_addr (val : Address) : string := to_checksum val.
(** [replace_range(0..42, ..)] *)
Definition as_checksum_bytes (val : bytes) : string :=
  let str := "0x" +:+ to_hex val in
  if bool_decide (20 ≤ length val)%nat then
    let addr := from_slice (take 20 val) in
    to_checksum addr +:+ String.substring 42 (String.length str - 42) str
  else str.
(** [as_u64] of a number of 2^64 or more panics *)
Definition as_u64 {E} (val : U256) : comp E string := map_ok (λ v : Z, pretty v) (Prelude.as_u64 val).
Definition as_hex_string (val : Z) : string := strict_hex_u64 val.

(** [f * 1e18]: the exact product, rounded to 53 bits *)
Definition mul_1e18 (f : F64) : F64 :=
  match f with
  | FFinite m e =>
      let p := m * 10 ^ 18 in
      let s := Z.log2 (Z.abs p) - 52 in
      if bool_decide (s ≤ 0) then FFinite p e
      else
        let q := round_half_even (Z.abs p) (2 ^ s) in
        if bool_decide (1024 ≤ s + e + 53 ∧ 2 ^ 1024 ≤ q * 2 ^ (s + e)) then FInfinite (bool_decide (m < 0))
        else FFinite (Z.sgn p * q) (e + s)
  | _ => f
  end.
(** [round]: ties away from zero *)
Definition f64_round (f : F64) : F64 :=
  match f with
  | FFinite m e =>
      if bool_decide (0 ≤ e) then FFinite m e
      else FFinite (Z.sgn m * ((2 * Z.abs m + 2 ^ (- e)) / 2 ^ (1 - e))) 0
  | _ => f
  end.
Definition U128_MAX : Z := 2 ^ 128 - 1.
(** [as u128] saturates; NaN is 0 *)
Definition as_u128 (f : F64) : Z :=
  match f with
  | FFinite m e => Z.max 0 (Z.min U128_MAX (m * 2 ^ Z.max 0 e))
  | FInfinite negative => if negative then 0 else U128_MAX
  | FNan => 0
  end.
(** a text that is not a number counts as 0.0 *)
Definition deserialize_stringified_float (s : string) : U256 :=
  let f := default (FFinite 0 0) (parse_f64 s) in as_u128 (f64_round (mul_1e18 f)).
End serializers.

(** ** [user_operation/hash.rs] *)
Definition hash_of_array (value : bytes) : UserOperationHash := from_slice value.
Definition uo_hash_from_str (s : string) : option UserOperationHash := hash_from_str 32 s.
Definition as_fixed_bytes (h : UserOperationHash) : bytes := Z_to_be 32 h.
Definition repeat_byte (b : byte) : UserOperationHash := from_slice (repeat b 32).
Definition zero_hash : UserOperationHash := repeat_byte Byte.x00.
(** [copy_from_slice] panics when the lengths differ *)
Definition assign_from_slice {E} (src : bytes) (self : bytes) : comp E bytes :=
  if bool_decide (length src = length self) then Ok src else Panic.
Definition uo_hash_from_slice {E} (src : bytes) : comp E UserOperationHash :=
  map_ok from_slice (assign_from_slice src (as_fixed_bytes zero_hash)).

(** ** The setters of [UserOperationSigned] *)
Section setters.
Implicit Types uo : UserOperationSigned.
Definition set_fields (sender : Address) (nonce : U256) (init_code call_data : bytes)
    (call_gas_limit verification_gas_limit pre_verification_gas max_fee_per_gas
     max_priority_fee_per_gas : U256) (paymaster_and_data : bytes) uo : UserOperationSigned := {|
  uo_sender := sender; uo_nonce := nonce; uo_init_code := init_code; uo_call_data := call_data;
  uo_call_gas_limit := call_gas_limit; uo_verification_gas_limit := verification_gas_limit;
  uo_pre_verification_gas := pre_verification_gas; uo_max_fee_per_gas := max_fee_per_gas;
  uo_max_priority_fee_per_gas := max_priority_fee_per_gas;
  uo_paymaster_and_data := paymaster_and_data; uo_signature := uo.(uo_signature) |}.
Definition set_sender (x : Address) uo := set_fields x uo.(uo_nonce) uo.(uo_init_code) uo.(uo_call_data)
  uo.(uo_call_gas_limit) uo.(uo_verification_gas_limit) uo.(uo_pre_verification_gas)
  uo.(uo_max_fee_per_gas) uo.(uo_max_priority_fee_per_gas) uo.(uo_paymaster_and_data) uo.
Definition set_nonce (x : U256) uo := set_fields uo.(uo_sender) x uo.(uo_init_code) uo.(uo_call_data)
  uo.(uo_call_gas_limit) uo.(uo_verification_gas_limit) uo.(uo_pre_verification_gas)
  uo.(uo_max_fee_per_gas) uo.(uo_max_priority_fee_per_gas) uo.(uo_paymaster_and_data) uo.
Definition set_init_code (x : bytes) uo := set_fields uo.(uo_sender) uo.(uo_nonce) x uo.(uo_call_data)
  uo.(uo_call_gas_limit) uo.(uo_verification_gas_limit) uo.(uo_pre_verification_gas)
  uo.(uo_max_fee_per_gas) uo.(uo_max_priority_fee_per_gas) uo.(uo_paymaster_and_data) uo.
Definition set_call_data (x : bytes) uo := set_fields uo.(uo_sender) uo.(uo_nonce) uo.(uo_init_code) x
  uo.(uo_call_gas_limit) uo.(uo_verification_gas_limit) uo.(uo_pre_verification_gas)
  uo.(uo_max_fee_per_gas) uo.(uo_max_priority_fee_per_gas) uo.(uo_paymaster_and_data) uo.
Definition set_call_gas_limit (x : U256) uo := set_fields uo.(uo_sender) uo.(uo_nonce)
  uo.(uo_init_code) uo.(uo_call_data) x uo.(uo_verification_gas_limit) uo.(uo_pre_verification_gas)
  uo.(uo_max_fee_per_gas) uo.(uo_max_priority_fee_per_gas) uo.(uo_paymaster_and_data) uo.
Definition set_verification_gas_limit (x : U256) uo := set_fields uo.(uo_sender) uo.(uo_nonce)
  uo.(uo_init_code) uo.(uo_call_data) uo.(uo_call_gas_limit) x uo.(uo_pre_verification_gas)
  uo.(uo_max_fee_per_gas) uo.(uo_max_priority_fee_per_gas) uo.(uo_paymaster_and_data) uo.
Definition set_pre_verification_gas (x : U256) uo := set_fields uo.(uo_sender) uo.(uo_nonce)
  uo.(uo_init_code) uo.(uo_call_data) uo.(uo_call_gas_limit) uo.(uo_verification_gas_limit) x
  uo.(uo_max_fee_per_gas) uo.(uo_max_priority_fee_per_gas) uo.(uo_paymaster_and_data) uo.
Definition set_max_fee_per_gas (x : U256) uo := set_fields uo.(uo_sender) uo.(uo_nonce)
  uo.(uo_init_code) uo.(uo_call_data) uo.(uo_call_gas_limit) uo.(uo_verification_gas_limit)
  uo.(uo_pre_verification_gas) x uo.(uo_max_priority_fee_per_gas) uo.(uo_paymaster_and_data) uo.
Definition set_max_priority_fee_per_gas (x : U256) uo := set_fields uo.(uo_sender) uo.(uo_nonce)
  uo.(uo_init_code) uo.(uo_call_data) uo.(uo_call_gas_limit) uo.(uo_verification_gas_limit)
  uo.(uo_pre_verification_gas) uo.(uo_max_fee_per_gas) x uo.(uo_paymaster_and_data) uo.
Definition set_paymaster_and_data (x : bytes) uo := set_fields uo.(uo_sender) uo.(uo_nonce)
  uo.(uo_init_code) uo.(uo_call_data) uo.(uo_call_gas_limit) uo.(uo_verification_gas_limit)
  uo.(uo_pre_verification_gas) uo.(uo_max_fee_per_gas) uo.(uo_max_priority_fee_per_gas) x uo.
End setters.

(** ** [contracts/src/utils.rs] *)
(** the operation of the generated bindings *)
Record ApiUserOperation := {
  api_sender : Address; api_nonce : U256; api_init_code : bytes; api_call_data : bytes;
  api_call_gas_limit : U256; api_verification_gas_limit : U256; api_pre_verification_gas : U256;
  api_max_fee_per_gas : U256; api_max_priority_fee_per_gas : U256;
  api_paymaster_and_data : bytes; api_signature : bytes;
}.
Definition api_of_signed (uo : UserOperationSigned) : ApiUserOperation := {|
  api_sender := uo.(uo_sender); api_nonce := uo.(uo_nonce); api_init_code := uo.(uo_init_code);
  api_call_data := uo.(uo_call_data); api_call_gas_limit := uo.(uo_call_gas_limit);
  api_verification_gas_limit := uo.(uo_verification_gas_limit);
  api_pre_verification_gas := uo.(uo_pre_verification_gas);
  api_max_fee_per_gas := uo.(uo_max_fee_per_gas);
  api_max_priority_fee_per_gas := uo.(uo_max_priority_fee_per_gas);
  api_paymaster_and_data := uo.(uo_paymaster_and_data); api_signature := uo.(uo_signature) |}.
Definition signed_of_api (uo : ApiUserOperation) : UserOperationSigned := {|
  uo_sender := uo.(api_sender); uo_nonce := uo.(api_nonce); uo_init_code := uo.(api_init_code);
  uo_call_data := uo.(api_call_data); uo_call_gas_limit := uo.(api_call_gas_limit);
  uo_verification_gas_limit := uo.(api_verification_gas_limit);
  uo_pre_verification_gas := uo.(api_pre_verification_gas);
  uo_max_fee_per_gas := uo.(api_max_fee_per_gas);
  uo_max_priority_fee_per_gas := uo.(api_max_priority_fee_per_gas);
  uo_paymaster_and_data := uo.(api_paymaster_and_data); uo_signature := uo.(api_signature) |}.

(** the calls of the contract: [handleOps], and the others *)
Inductive EntryPointCall :=
| HandleOps (ops : list ApiUserOperation) (beneficiary : Address)
| OtherCall.
Definition parse_from_input_data (decode : bytes → option EntryPointCall) (data : bytes)
  : option (list UserOperationSigned) :=
  match decode data with
  | Some (HandleOps ops _) => Some (signed_of_api <$> ops)
  | _ => None
  end.

(** ** Properties *)
Lemma api_signed uo : signed_of_api (api_of_signed uo) = uo.
Proof. by destruct uo. Qed.
Lemma signed_api a : api_of_signed (signed_of_api a) = a.
Proof. by destruct a. Qed.

(** The operations of a bundle can be read back from the transaction that carries
    them, and only from a call of [handleOps]. *)
Theorem input_data_roundtrip (encode : EntryPointCall → bytes) decode :
  (∀ c, decode (encode c) = Some c) →
  (∀ uos beneficiary,
     parse_from_input_data decode (encode (HandleOps (api_of_signed <$> uos) beneficiary)) = Some uos) ∧
  parse_from_input_data decode (encode OtherCall) = None.
Proof.
  intros Hd. split; [|unfold parse_from_input_data; by rewrite Hd].
  intros uos beneficiary. unfold parse_from_input_data. rewrite Hd. f_equal.
  rewrite <-list_fmap_compose. rewrite <-(list_fmap_id uos) at 2. apply list_fmap_ext.
  intros i uo _. apply api_signed.
Qed.

(** an operation built field by field is the operation with these fields *)
Lemma builder_sets uo base :
  base.(uo_signature) = uo.(uo_signature) →
  set_paymaster_and_data uo.(uo_paymaster_and_data)
    (set_max_priority_fee_per_gas uo.(uo_max_priority_fee_per_gas)
    (set_max_fee_per_gas uo.(uo_max_fee_per_gas)
    (set_pre_verification_gas uo.(uo_pre_verification_gas)
    (set_verification_gas_limit uo.(uo_verification_gas_limit)
    (set_call_gas_limit uo.(uo_call_gas_limit)
    (set_call_data uo.(uo_call_data)
    (set_init_code uo.(uo_init_code)
    (set_nonce uo.(uo_nonce)
    (set_sender uo.(uo_sender) base))))))))) = uo.
Proof. destruct uo, base. simpl. by intros ->. Qed.

Lemma hash_from_slice_spec {E} src :
  uo_hash_from_slice (E:=E) src = if bool_decide (length src = 32%nat) then Ok (from_slice src) else Panic.
Proof.
  unfold uo_hash_from_slice, assign_from_slice, as_fixed_bytes. rewrite length_Z_to_be.
  by case_bool_decide.
Qed.
Lemma hash_bytes_roundtrip {E} h : is_u256 h → uo_hash_from_slice (E:=E) (as_fixed_bytes h) = Ok h.
Proof.
  intros [H1 H2]. unfold U256_MAX in H2. rewrite hash_from_slice_spec. unfold as_fixed_bytes.
  rewrite bool_decide_eq_true_2 by apply length_Z_to_be. f_equal. apply be_to_Z_to_be.
  change (8 * Z.of_nat 32) with 256. lia.
Qed.

Lemma append_assoc (s t u : string) : (s +:+ t) +:+ u = s +:+ (t +:+ u).
Proof.
  induction s as [|c s IH]; [done|]. change (String c ((s +:+ t) +:+ u) = String c (s +:+ t +:+ u)).
  by rewrite IH.
Qed.
Lemma to_hex_app a b : to_hex (a ++ b) = to_hex a +:+ to_hex b.
Proof. induction a as [|x a IH]; [done|]. cbn [app to_hex]. rewrite IH. done. Qed.
Lemma from_hex_even n s t a :
  String.length s = (2 * n)%nat → from_hex s = Some a →
  from_hex (s +:+ t) = (λ b, a ++ b) <$> from_hex t.
Proof.
  revert s a. induction n as [|n IH]; intros s a Hl Hs.
  { destruct s; [|done]. injection Hs as <-. change (EmptyString +:+ t) with t.
    by destruct (from_hex t). }
  destruct s as [|c1 [|c2 s]]; [done..|]. cbn [from_hex] in Hs |- *.
  change (String c1 (String c2 s) +:+ t) with (String c1 (String c2 (s +:+ t))). cbn [from_hex].
  destruct (hex_value c1) as [h|]; [|done]. destruct (hex_value c2) as [l|]; [|done]. cbn in Hs |- *.
  destruct (from_hex s) as [b|] eqn:Hb; [|done]. injection Hs as <-.
  change (String.append s t) with (s +:+ t).
  rewrite (IH s b) by (done || (simpl in Hl; lia)). by destruct (from_hex t).
Qed.
Lemma substring_append s t :
  String.substring (String.length s) (String.length (s +:+ t) - String.length s) (s +:+ t) = t.
Proof.
  induction s as [|c s IH]; [|exact IH]. change (EmptyString +:+ t) with t.
  cbn [String.length]. rewrite Nat.sub_0_r.
  induction t as [|c t IH]; [done|]. cbn [String.length String.substring]. by rewrite IH.
Qed.
Lemma string_length_app (s t : string) : String.length (s +:+ t) = (String.length s + String.length t)%nat.
Proof.
  induction s as [|c s IH]; [done|].
  change (Datatypes.S (String.length (s +:+ t)) = Datatypes.S (String.length s + String.length t)).
  by rewrite IH.
Qed.

Section checksum.
Context {L : TextLib} {LOk : TextLibOk L}.

(** The checksummed text of a byte string still denotes the byte string: only the
    case of the digits of the address it starts with changes. *)
Theorem checksum_bytes_decode val : from_hex (strip_0x (as_checksum_bytes val)) = Some val.
Proof using LOk.
  unfold as_checksum_bytes. case_bool_decide as Hlen; [|by rewrite strip_prefix, from_to_hex].
  set (a := from_slice (take 20 val)).
  assert (length (take 20 val) = 20%nat) as Ht by (rewrite length_take; lia).
  assert (is_address a) as Ha.
  { pose proof (be_to_Z_bound (take 20 val)) as Hb. rewrite Ht in Hb. exact Hb. }
  assert (address_bytes a = take 20 val) as Hab.
  { unfold a, address_bytes, from_slice. rewrite <-Ht at 1. apply Z_to_be_to_Z. }
  destruct (checksum_prefixed a) as (s & Hs & Hsl). pose proof (checksum_decodes a Ha) as Hd.
  rewrite Hs in Hd |- *. rewrite strip_prefix in Hd. rewrite append_assoc, strip_prefix.
  assert ("0x" +:+ to_hex val = ("0x" +:+ to_hex (take 20 val)) +:+ to_hex (drop 20 val)) as ->.
  { rewrite append_assoc, <-to_hex_app. by rewrite take_drop. }
  assert (String.length ("0x" +:+ to_hex (take 20 val)) = 42%nat) as H42.
  { rewrite string_length_app. change (String.length "0x") with 2%nat.
    assert (∀ b, String.length (to_hex b) = (2 * length b)%nat) as ->; [|rewrite Ht; lia].
    induction b as [|x b IH]; [done|]. cbn [to_hex String.length length]. rewrite IH. lia. }
  rewrite <-H42 at 1 2. rewrite substring_append.
  rewrite (from_hex_even 20 s _ _ Hsl Hd), from_to_hex, Hab.
  cbn. by rewrite take_drop.
Qed.

(** The stake of a mempool configuration: always a 128-bit amount; a text that is
    no number, a negative number and NaN are read as no stake at all. *)
Theorem stake_text_read s :
  0 ≤ deserialize_stringified_float s ≤ U128_MAX ∧
  (parse_f64 s = None → deserialize_stringified_float s = 0) ∧
  (parse_f64 s = Some FNan → deserialize_stringified_float s = 0) ∧
  (∀ m e, parse_f64 s = Some (FFinite m e) → m < 0 → deserialize_stringified_float s = 0).
Proof.
  unfold deserialize_stringified_float. split; [|split_and!].
  - destruct (f64_round _) as [m e|[]|]; simpl; unfold U128_MAX; lia.
  - intros ->. done.
  - intros ->. done.
  - intros m e -> Hm. cbn [default]. unfold id, mul_1e18. cbv zeta.
    assert (∀ m' e', m' ≤ 0 → as_u128 (f64_round (FFinite m' e')) = 0) as Hneg.
    { intros m' e' Hm'. unfold f64_round. case_bool_decide as He; simpl.
      - assert (0 < 2 ^ Z.max 0 e') by (apply Z.pow_pos_nonneg; lia). unfold U128_MAX. nia.
      - assert (0 < 2 ^ (- e')) by (apply Z.pow_pos_nonneg; lia).
        assert (0 < 2 ^ (1 - e')) by (apply Z.pow_pos_nonneg; lia).
        assert (0 ≤ (2 * Z.abs m' + 2 ^ (- e')) / 2 ^ (1 - e')) by (apply Z.div_pos; lia).
        assert (Z.sgn m' ≤ 0) by (destruct (Z.sgn_spec m'); lia).
        unfold U128_MAX. nia. }
    case_bool_decide; [apply Hneg; lia|].
    assert (0 ≤ round_half_even (Z.abs (m * 10 ^ 18)) (2 ^ (Z.log2 (Z.abs (m * 10 ^ 18)) - 52))) as Hq.
    { pose proof (round_half_even_le (Z.abs (m * 10 ^ 18)) (2 ^ (Z.log2 (Z.abs (m * 10 ^ 18)) - 52))).
      assert (0 ≤ Z.abs (m * 10 ^ 18) / 2 ^ (Z.log2 (Z.abs (m * 10 ^ 18)) - 52)); [|lia].
      apply Z.div_pos; [lia|]. apply Z.pow_pos_nonneg; lia. }
    case_bool_decide; [by rewrite bool_decide_eq_true_2|]. apply Hneg.
    rewrite (Z.sgn_neg (m * 10 ^ 18)) by lia. lia.
Qed.
End checksum.

(** ** Concrete evaluations *)
Module Example.
#[local] Instance lib : TextLib := {|
  to_checksum a := "0x" +:+ to_hex (address_bytes a);
  parse_f64 s := if bool_decide (s = "0.5"%string) then Some (FFinite 1 (-1)) else None;
  strict_hex_u64 v := "0x" +:+ to_hex (Z_to_be 8 v);
|}.
#[local] Instance lib_ok : TextLibOk lib.
Proof.
  split.
  - intros a _. cbn [to_checksum lib]. by rewrite strip_prefix, from_to_hex.
  - intros a. eexists. split; [reflexivity|].
    assert (∀ b, String.length (to_hex b) = (2 * length b)%nat) as ->.
    { induction b as [|x b IH]; [done|]. cbn [to_hex String.length length]. rewrite IH. lia. }
    unfold address_bytes. by rewrite length_Z_to_be.
  - intros s m e. cbn [parse_f64 lib]. case_bool_decide; [|done]. by intros [= <- <-].
Qed.
Example half_ether : deserialize_stringified_float "0.5" = 5 * 10 ^ 17.
Proof. done. Qed.
Example not_a_number : deserialize_stringified_float "1,5" = 0.
Proof. done. Qed.
Lemma checksum_bytes_decode_witness :
  from_hex (strip_0x (as_checksum_bytes (repeat Byte.xab 24))) = Some (repeat Byte.xab 24).
Proof. exact (checksum_bytes_decode (repeat Byte.xab 24)). Defined.
End Example.
