(* ===== verification/Validator.v ===== *)
(** The user operation validator ([crates/mempool/src/validate/validator.rs]):
    sanity checks, the simulated validation with its checks, and the traced
    simulation with its checks, as the mode asks. *)

From S2P Require Import Prelude Primitives Errors AbiStd Gas Reputation Mempool.
From S2P Require Import MemoryStore EntryPoint Fixture Sanity Simulation Trace.

Inductive UserOperationValidatorMode := MSanity | MSimulation | MSimulationTrace.
#[global] Instance UserOperationValidatorMode_eq_dec : EqDecision UserOperationValidatorMode.
Proof. solve_decision. Defined.

Record UserOperationValidationOutcome := {
  out_val_config : ValidationConfig;
  out_prev_hash : option UserOperationHash;
  out_pre_fund : U256;
  out_verification_gas_limit : U256;
  out_valid_after : option U256;
  out_code_hashes : option (list CodeHash);
  out_storage_map : StorageMap;
  out_verified_block : U256;
}.

(** [StandardUserOperationValidator]: [new_canonical] builds the [Standard] one,
    [new_canonical_unsafe] the [Unsafe] one, whose tuple of trace checks is empty *)
Record Validator := {
  val_entry_point : Address;
  val_max_verification_gas : U256;
  val_min_priority_fee_per_gas : U256;
  val_kind : UoPoolMode;
}.

Definition new_canonical (ep : Address) (max_verification_gas min_priority_fee_per_gas : U256)
  : Validator :=
  {| val_entry_point := ep; val_max_verification_gas := max_verification_gas;
     val_min_priority_fee_per_gas := min_priority_fee_per_gas; val_kind := Standard |}.
Definition new_canonical_unsafe (ep : Address)
    (max_verification_gas min_priority_fee_per_gas : U256) : Validator :=
  {| val_entry_point := ep; val_max_verification_gas := max_verification_gas;
     val_min_priority_fee_per_gas := min_priority_fee_per_gas; val_kind := Unsafe |}.

Section validator.
Context {P : Profile} {A : Abi} {D : Display} {N : Node} {TL : TraceLib} {CK : Clock}
  {HO : HashOrder}.
Context {S : Type} `{MempoolStore S} {R : Type} `{ReputationEntryOp R}.
Implicit Types (v : Validator) (uo : UserOperation) (mempool : S) (reputation : Reputation R).

Definition simulation_error (err : EntryPointError) : SimulationError :=
  match err with
  | FailedOp _ reason => SimValidation reason
  | EPProvider inner => SimProvider inner
  | _ => SimOther (EntryPointError_to_string err)
  end.

Definition val_simulate_validation uo : comp SimulationError SimulateValidationResult :=
  map_err simulation_error (simulate_validation uo).
Definition val_simulate_validation_trace uo : comp SimulationError (GethTrace Json) :=
  map_err simulation_error (simulate_validation_trace uo).

(** the simulated validation with its checks, and the start of validity *)
Definition simulate uo (mode : list UserOperationValidatorMode)
  : comp SimulationError (SimulateValidationResult * option U256) :=
  let* sim_res := val_simulate_validation uo in
  if bool_decide (MSimulation ∈ mode) then
    match simulation_checks uo sim_res None with
    | (Ok _, valid_after) => Ok (sim_res, valid_after)
    | (Err e, _) => Err e
    | (Panic, _) => Panic
    end
  else Ok (sim_res, None).

Definition trace_checks v uo mempool reputation val_config sim_res js_trace
  : ST (option (list CodeHash)) SimulationError () :=
  match v.(val_kind) with
  | Standard => simulation_trace_checks
      {| th_entry_point := v.(val_entry_point); th_val_config := val_config |}
      uo mempool reputation sim_res js_trace
  | Unsafe => st_ret ()
  end.

(** the traced simulation with its checks: code hashes and storage map *)
Definition simulate_trace v uo mempool reputation val_config sim_res
    (mode : list UserOperationValidatorMode)
  : comp SimulationError (option (list CodeHash) * StorageMap) :=
  if bool_decide (MSimulationTrace ∈ mode) then
    let* geth_trace := val_simulate_validation_trace uo in
    let* js_trace := map_err SimValidation (js_frame_of_trace geth_trace) in
    match trace_checks v uo mempool reputation val_config sim_res js_trace None with
    | (Ok _, code_hashes) => Ok (code_hashes, extract_storage_map js_trace)
    | (Err e, _) => Err e
    | (Panic, _) => Panic
    end
  else Ok (None, StorageMap_default).

(** the hash of the latest block; a missing block or hash panics *)
Definition verified_block : comp SanityError U256 :=
  let* o := sanity_provider get_block_latest in
  let* block := expect o in
  expect block.(b_hash).

Definition validate_user_operation v uo mempool reputation (val_config : option ValidationConfig)
    (mode : list UserOperationValidatorMode)
  : comp InvalidMempoolUserOperationError UserOperationValidationOutcome :=
  let config := default {| vc_min_stake := Some reputation.(min_stake);
                           vc_min_unstake_delay := Some reputation.(min_unstake_delay);
                           vc_topic := None; vc_ignore_prev := false |} val_config in
  let check_config := default ValidationConfig_default val_config in
  let* _ := if bool_decide (MSanity ∈ mode) then
      map_err InvSanity (sanity_checks
        {| sh_val_config := check_config;
           max_verification_gas := v.(val_max_verification_gas);
           min_priority_fee_per_gas := v.(val_min_priority_fee_per_gas) |}
        uo mempool reputation)
    else Ok () in
  let* prev := get_prev_by_sender mempool uo in
  let* sim := map_err InvSimulation (simulate uo mode) in
  let '(sim_res, valid_after) := sim in
  let* block := map_err InvSanity verified_block in
  let* tr := map_err InvSimulation
    (simulate_trace v uo mempool reputation check_config sim_res mode) in
  let '(code_hashes, storage_map) := tr in
  Ok {| out_val_config := config;
        out_prev_hash := uo_hash <$> prev;
        out_pre_fund := extract_pre_fund sim_res;
        out_verification_gas_limit := extract_verification_gas_limit sim_res;
        out_valid_after := valid_after;
        out_code_hashes := code_hashes;
        out_storage_map := storage_map;
        out_verified_block := block |}.

(** ** What a successful validation establishes *)
Lemma validate_ok v uo mempool reputation cfg mode out :
  validate_user_operation v uo mempool reputation cfg mode = Ok out →
  (MSanity ∈ mode → sanity_checks
     {| sh_val_config := default ValidationConfig_default cfg;
        max_verification_gas := v.(val_max_verification_gas);
        min_priority_fee_per_gas := v.(val_min_priority_fee_per_gas) |}
     uo mempool reputation = Ok ()) ∧
  (∃ prev, get_prev_by_sender (F:=InvalidMempoolUserOperationError) mempool uo = Ok prev ∧
           out.(out_prev_hash) = uo_hash <$> prev) ∧
  ∃ sim_res,
    val_simulate_validation uo = Ok sim_res ∧
    out.(out_pre_fund) = extract_pre_fund sim_res ∧
    out.(out_verification_gas_limit) = extract_verification_gas_limit sim_res ∧
    (MSimulation ∈ mode → simulation_checks uo sim_res None = (Ok (), out.(out_valid_after))) ∧
    (MSimulationTrace ∈ mode → ∃ js_trace,
       trace_checks v uo mempool reputation (default ValidationConfig_default cfg) sim_res
         js_trace None = (Ok (), out.(out_code_hashes)) ∧
       out.(out_storage_map) = extract_storage_map js_trace).
Proof.
  unfold validate_user_operation. intros Hv.
  apply comp_bind_ok in Hv as ([] & Hsan & Hv).
  apply comp_bind_ok in Hv as (prev & Hprev & Hv).
  apply comp_bind_ok in Hv as ([sim_res va] & Hsim & Hv). apply map_err_ok in Hsim.
  apply comp_bind_ok in Hv as (block & _ & Hv).
  apply comp_bind_ok in Hv as ([ch sm] & Htr & Hv). apply map_err_ok in Htr.
  injection Hv as <-. cbn [out_prev_hash out_pre_fund out_verification_gas_limit out_valid_after out_code_hashes
    out_storage_map].
  split; [|split; [by exists prev|]].
  - intros Hm. rewrite bool_decide_eq_true_2 in Hsan by done. by apply map_err_ok in Hsan.
  - unfold simulate in Hsim. apply comp_bind_ok in Hsim as (res & Hres & Hsim).
    exists sim_res. unfold simulate_trace in Htr. split_and!.
    + destruct (bool_decide (MSimulation ∈ mode)); [|by simplify_eq].
      destruct (simulation_checks uo res None) as [[]]; by simplify_eq.
    + done.
    + done.
    + intros Hm. rewrite bool_decide_eq_true_2 in Hsim by done.
      destruct (simulation_checks uo res None) as [[[]|?|] ?] eqn:Hc; by simplify_eq.
    + intros Hm. rewrite bool_decide_eq_true_2 in Htr by done.
      apply comp_bind_ok in Htr as (gt & _ & Htr). apply comp_bind_ok in Htr as (js & _ & Htr).
      exists js. destruct (trace_checks _ _ _ _ _ _ _ _) as [[[]|?|] ?] eqn:Hc; by simplify_eq.
Qed.
End validator.
