(* ===== verification/Checks.v ===== *)
(** Tuples of checks ([crates/mempool/src/validate/mod.rs]): the three check
    traits are implemented for [()] and, by macros, for tuples, which run their
    members in order and stop at the first failure.  The canonical validators are
    such tuples; the sequences of the components are equal to them. *)

From S2P Require Import Prelude Primitives Errors AbiStd Gas Reputation Mempool.
From S2P Require Import MemoryStore EntryPoint Fixture Sanity Simulation Trace Validator.

(** ** The traits *)
Section traits.
Context {S R : Type}.
Definition SanityCheck : Type :=
  UserOperation → S → Reputation R → SanityHelper → comp SanityError ().
(** the state is what the check may write in its helper *)
Definition SimulationCheck : Type :=
  UserOperation → SimulateValidationResult → ST (option U256) SimulationError ().
Record TraceInput := {
  ti_helper : TraceHelper;
  ti_sim_res : SimulateValidationResult;
  ti_trace : JsTracerFrame;
}.
Definition SimulationTraceCheck : Type :=
  UserOperation → S → Reputation R → TraceInput → ST (option (list CodeHash)) SimulationError ().

(** ** [sanity_check_impls!], [simulation_check_impls!], [simulation_trace_check_impls!] *)
Definition sanity_tuple (checks : list SanityCheck) : SanityCheck := λ uo mempool reputation helper,
  comp_for checks (λ ck, ck uo mempool reputation helper).
Definition simulation_tuple (checks : list SimulationCheck) : SimulationCheck := λ uo sim_res,
  st_for checks (λ ck, ck uo sim_res).
Definition simulation_trace_tuple (checks : list SimulationTraceCheck) : SimulationTraceCheck :=
  λ uo mempool reputation input, st_for checks (λ ck, ck uo mempool reputation input).
End traits.
Arguments SanityCheck : clear implicits.
Arguments SimulationTraceCheck : clear implicits.

(** ** The canonical validators *)
Section canonical.
Context {P : Profile} {A : Abi} {D : Display} {N : Node} {TL : TraceLib} {CK : Clock} {HO : HashOrder}.
Context {S : Type} `{MempoolStore S} {R : Type} `{ReputationEntryOp R}.

Definition canonical_sanity : list (SanityCheck S R) :=
  [ (λ uo m r h, check_sender h uo m); (λ uo m r h, check_verification_gas h uo);
    (λ uo m r h, check_call_gas uo); (λ uo m r h, check_max_fee h uo);
    (λ uo m r h, check_paymaster uo); (λ uo m r h, check_entities uo m r);
    (λ uo m r h, check_unstaked_entities h uo m r) ].
Definition canonical_simulation : list SimulationCheck :=
  [ (λ uo res, check_signature res); (λ uo res, check_timestamp res); check_verification_extra_gas ].
Definition canonical_trace : list (SimulationTraceCheck S R) :=
  [ (λ uo m r i, st_lift (check_gas i.(ti_trace))); (λ uo m r i, st_lift (check_opcodes i.(ti_trace)));
    (λ uo m r i, st_lift (check_external_contracts i.(ti_helper) uo i.(ti_trace)));
    (λ uo m r i, st_lift (check_storage_access i.(ti_helper) uo i.(ti_sim_res) i.(ti_trace)));
    (λ uo m r i, st_lift (check_call_stack i.(ti_helper) uo i.(ti_sim_res) i.(ti_trace) r));
    (λ uo m r i, check_code_hashes uo m i.(ti_trace)) ].
End canonical.

(** ** Tuples stop at the first failure *)
Lemma comp_for_app {E X} (xs ys : list X) (f : X → comp E ()) :
  comp_for (xs ++ ys) f = let* _ := comp_for xs f in comp_for ys f.
Proof. induction xs as [|x xs IH]; simpl; [done|]. destruct (f x) as [[]| |]; simpl; auto. Qed.

Section tuples.
Context {S R : Type}.
Implicit Types (checks : list (SanityCheck S R)).

(** a check that fails after others that pass decides the answer *)
Lemma sanity_first_failure pre ck post uo m r h e :
  Forall (λ c : SanityCheck S R, c uo m r h = Ok ()) pre → ck uo m r h = Err e →
  sanity_tuple (pre ++ ck :: post) uo m r h = Err e.
Proof.
  intros Hpre Hck. unfold sanity_tuple. rewrite comp_for_app.
  rewrite (proj2 (comp_for_ok pre _)) by done. simpl. by rewrite Hck.
Qed.

(** the order of a tuple does not matter for what it accepts *)
Lemma sanity_order checks checks' uo m r h :
  checks ≡ₚ checks' → sanity_tuple checks uo m r h = Ok () ↔ sanity_tuple checks' uo m r h = Ok ().
Proof. intros Hp. unfold sanity_tuple. rewrite !comp_for_ok. by rewrite Hp. Qed.
End tuples.

Section equivalence.
Context {P : Profile} {A : Abi} {D : Display} {N : Node} {TL : TraceLib} {CK : Clock} {HO : HashOrder}.
Context {S : Type} `{MempoolStore S} {R : Type} `{ReputationEntryOp R}.

Lemma bind_unit {E} (m : comp E ()) : (let* _ := m in Ok ()) = m.
Proof. by destruct m as [[]| |]. Qed.
Lemma st_bind_unit {X E} (m : ST X E ()) s : (do* _ := m in st_ret ()) s = m s.
Proof. unfold st_bind, st_ret. by destruct (m s) as [[[]| |] s']. Qed.
Lemma st_bind_ext {X E Y Z} (m : ST X E Y) (k k' : Y → ST X E Z) s :
  (∀ y s, k y s = k' y s) → st_bind m k s = st_bind m k' s.
Proof. intros Hk. unfold st_bind. destruct (m s) as [[y| |] s']; auto. Qed.

(** The canonical tuples run the checks in the order in which the validator's
    components list them, with the empty tuple accepting everything. *)
Theorem canonical_tuples uo (m : S) (r : Reputation R) :
  (∀ h, sanity_tuple canonical_sanity uo m r h = sanity_checks h uo m r) ∧
  (∀ res va, simulation_tuple canonical_simulation uo res va = simulation_checks uo res va) ∧
  (∀ helper res trace ch,
     simulation_trace_tuple canonical_trace uo m r
       {| ti_helper := helper; ti_sim_res := res; ti_trace := trace |} ch =
     simulation_trace_checks helper uo m r res trace ch) ∧
  (∀ i ch, simulation_trace_tuple [] uo m r i ch = (Ok (), ch)).
Proof.
  split_and!; [..|done].
  - intros h. unfold sanity_tuple, canonical_sanity, sanity_checks. cbn [comp_for].
    by rewrite bind_unit.
  - intros res va. unfold simulation_tuple, canonical_simulation, simulation_checks. cbn [st_for].
    do 2 (apply st_bind_ext; intros [] ?). apply st_bind_unit.
  - intros helper res trace ch. unfold simulation_trace_tuple, canonical_trace, simulation_trace_checks.
    cbn [st_for ti_helper ti_sim_res ti_trace].
    do 5 (apply st_bind_ext; intros [] ?). apply st_bind_unit.
Qed.
End equivalence.
