(* ===== verification/UoPool.v ===== *)
(** The user operation pool ([crates/mempool/src/uopool.rs]) and its block
    updates ([builder.rs]): admission, replacement, removal, bundling and the
    queries served to the RPC layer, over any storage, reputation store and
    validator. *)

From S2P Require Import Prelude Primitives Errors AbiStd Gas Reputation Mempool.
From S2P Require Import MemoryStore EntryPoint Fixture Sanity Simulation Trace.
From S2P Require Import Validator.

(** ** The trait [UserOperationValidator] *)
Class UserOperationValidator (S R : Type) :=
  validate : UserOperation → S → Reputation R → option ValidationConfig →
    list UserOperationValidatorMode →
    comp InvalidMempoolUserOperationError UserOperationValidationOutcome.

Definition all_modes : list UserOperationValidatorMode := [MSanity; MSimulation; MSimulationTrace].
Definition second_modes : list UserOperationValidatorMode := [MSimulation; MSimulationTrace].

(** ** State *)
Record Publish := {
  pub_user_operation : UserOperation;
  pub_verified_at_block_hash : U256;
  pub_validation_config : ValidationConfig;
}.

Record UoPool (S R : Type) := {
  up_mempool : S;
  up_reputation : Reputation R;
  (** messages sent to the p2p network so far *)
  up_published : list Publish;
}.
Arguments up_mempool {S R}.
Arguments up_reputation {S R}.
Arguments up_published {S R}.

(** [network] is the channel, if there is one, and whether its receiver lives *)
Record UoPoolConfig := {
  cfg_mode : UoPoolMode;
  cfg_entry_point : Address;
  cfg_max_verification_gas : U256;
  cfg_chain_id : Z;
  cfg_network : option bool;
}.

(** ** Chain data used by the queries *)
Record LogMeta := {
  lm_transaction_hash : H256;
  lm_block_hash : H256;
  lm_block_number : Z;
}.
Record UserOperationEvent := {
  ev_user_op_hash : H256;
  ev_sender : Address;
  ev_paymaster : Address;
  ev_nonce : U256;
  ev_success : bool;
  ev_actual_gas_cost : U256;
  ev_actual_gas_used : U256;
}.
Record Transaction := { tx_input : bytes; tx_to : option Address }.
Class ChainData := {
  get_block_number : string + Z;
  (** events of one user operation at an entry point from a block on, oldest first *)
  query_events : Address → Z → UserOperationHash → string + list (UserOperationEvent * LogMeta);
  get_transaction : H256 → string + option Transaction;
  get_transaction_receipt : H256 → string + option TransactionReceipt;
  get_block_txs : H256 → string + option (list Transaction);
  (** ABI decoding of a [handleOps] call *)
  decode_handle_ops : bytes → option (list UserOperationSigned);
}.

Record UserOperationByHash := {
  bh_user_operation : UserOperationSigned;
  bh_entry_point : Address;
  bh_transaction_hash : H256;
  bh_block_hash : H256;
  bh_block_number : Z;
}.
Record UserOperationReceipt := {
  rc_user_operation_hash : UserOperationHash;
  rc_sender : Address;
  rc_nonce : U256;
  rc_paymaster : option Address;
  rc_actual_gas_cost : U256;
  rc_actual_gas_used : U256;
  rc_success : bool;
  rc_reason : string;
  rc_logs : list ChainLog;
  rc_tx_receipt : TransactionReceipt;
}.
Record UserOperationGasEstimation := {
  ge_pre_verification_gas : U256;
  ge_verification_gas_limit : U256;
  ge_call_gas_limit : U256;
}.

Section pool.
Context {P : Profile} {A : Abi} {D : Display} {N : Node} {HO : HashOrder}.
Context {S : Type} `{MempoolStore S} {R : Type} `{ReputationEntryOp R}.
Context `{V : UserOperationValidator S R} (cfg : UoPoolConfig).
Implicit Types (self : UoPool S R) (uo : UserOperation).

Definition with_mempool (m : S) self : UoPool S R :=
  {| up_mempool := m; up_reputation := self.(up_reputation); up_published := self.(up_published) |}.
Definition with_reputation (r : Reputation R) self : UoPool S R :=
  {| up_mempool := self.(up_mempool); up_reputation := r; up_published := self.(up_published) |}.
Definition publish (m : Publish) self : UoPool S R :=
  {| up_mempool := self.(up_mempool); up_reputation := self.(up_reputation);
     up_published := self.(up_published) ++ [m] |}.

Definition on_mempool {E X} (m : ST S E X) : ST (UoPool S R) E X :=
  st_zoom up_mempool with_mempool m.
Definition on_reputation {E X} (m : ST (Reputation R) E X) : ST (UoPool S R) E X :=
  st_zoom up_reputation with_reputation m.

(** ** Queries and bulk operations *)
Definition pool_get_all self : comp MempoolErrorKind (list UserOperation) :=
  Mempool.get_all self.(up_mempool).
(** [unwrap_or_default] *)
Definition get_reputation {E} self : comp E (list ReputationEntry) :=
  match Reputation.get_all self.(up_reputation) with
  | Ok l => Ok l
  | Err _ => Ok []
  | Panic => Panic
  end.
Definition set_reputation (es : list ReputationEntry) : ST (UoPool S R) ReputationError () :=
  on_reputation (set_entities es).
Definition clear_mempool {E} : ST (UoPool S R) E () := on_mempool Mempool.clear.
Definition clear_reputation {E} : ST (UoPool S R) E () := on_reputation Reputation.clear.
Definition pool_clear {E} : ST (UoPool S R) E () :=
  do* _ := clear_mempool in clear_reputation.

(** ** Removal: errors of the storage are ignored *)
Definition remove_user_operation {E} (h : UserOperationHash) : ST (UoPool S R) E () :=
  st_ignore (on_mempool (Mempool.remove h)).
Definition remove_user_operation_by_entity {E} (entity : Address) : ST (UoPool S R) E () :=
  st_ignore (on_mempool (Mempool.remove_by_entity entity)).

Definition count_included {E} (o : option Address) : ST (UoPool S R) E () :=
  match o with
  | Some addr => st_ignore (on_reputation (increment_included addr))
  | None => st_ret ()
  end.

Definition remove_user_operations {E} (uos : list UserOperation) : ST (UoPool S R) E () :=
  st_for uos (λ uo,
    do* _ := remove_user_operation uo.(uo_hash) in
    do* _ := count_included (Some uo.(uo_sender)) in
    do* _ := count_included (get_address uo.(uo_paymaster_and_data)) in
    count_included (get_address uo.(uo_init_code))).

(** ** Admission *)
Definition validate_user_operation self uo (val_config : option ValidationConfig)
  : comp InvalidMempoolUserOperationError UserOperationValidationOutcome :=
  validate uo self.(up_mempool) self.(up_reputation) val_config all_modes.

Definition mempool_error (h : UserOperationHash) (k : MempoolErrorKind) : MempoolError :=
  {| me_hash := h; me_kind := k |}.

Definition count_seen (h : UserOperationHash) (o : option Address)
  : ST (UoPool S R) MempoolError () :=
  match o with
  | Some addr => st_map_err (λ e, mempool_error h (kind_of_reputation e))
                   (on_reputation (increment_seen addr))
  | None => st_ret ()
  end.

Definition send_to_network uo (out : UserOperationValidationOutcome)
  : ST (UoPool S R) MempoolError () :=
  match cfg.(cfg_network) with
  | Some true => st_mod (publish {| pub_user_operation := uo;
      pub_verified_at_block_hash := out.(out_verified_block);
      pub_validation_config := out.(out_val_config) |})
  | Some false => st_lift Panic
  | None => st_ret ()
  end.

(** [self.mempool.add], the code hashes (a failure is only logged) and the
    reputation of the entities *)
Definition insert_validated uo (out : UserOperationValidationOutcome)
  : ST (UoPool S R) MempoolError UserOperationHash :=
  do* h := st_map_err (mempool_error uo.(uo_hash)) (on_mempool (Mempool.add uo)) in
  do* _ := match out.(out_code_hashes) with
           | Some code_hashes => st_ignore (on_mempool (Mempool.set_code_hashes h code_hashes))
           | None => st_ret ()
           end in
  do* _ := count_seen h (Some uo.(uo_sender)) in
  do* _ := count_seen h (get_address uo.(uo_init_code)) in
  do* _ := count_seen h (get_address uo.(uo_paymaster_and_data)) in
  st_ret h.

Definition add_user_operation uo
    (res : InvalidMempoolUserOperationError + UserOperationValidationOutcome)
  : ST (UoPool S R) MempoolError UserOperationHash :=
  match res with
  | inl err =>
      do* _ := match err with
               | InvSanity (SanReputation (BannedEntity _ address)) =>
                   remove_user_operation_by_entity address
               | _ => st_ret ()
               end in
      st_lift (Err (mempool_error uo.(uo_hash) (InvalidUserOperation err)))
  | inr out =>
      do* _ := match out.(out_prev_hash) with
               | Some h => remove_user_operation h
               | None => st_ret ()
               end in
      do* _ := send_to_network uo out in
      insert_validated uo out
  end.

(** a [Result] passed on as a value *)
Definition as_result {E F X} (m : comp E X) : comp F (E + X) :=
  match m with Ok x => Ok (inr x) | Err e => Ok (inl e) | Panic => Panic end.

Definition add_user_operations (uos : list UserOperation) (val_config : option ValidationConfig)
  : ST (UoPool S R) MempoolError () :=
  st_for uos (λ uo,
    do* res := st_get (λ self, as_result (validate_user_operation self uo val_config)) in
    do* _ := add_user_operation uo res in
    st_ret ()).

Definition get_sorted_user_operations self : comp MempoolErrorKind (list UserOperation) :=
  Mempool.get_sorted self.(up_mempool).

(** ** Bundling *)
Record Bundling := {
  uos_valid : list UserOperation;
  senders : gset Address;
  gas_total : U256;
  paymaster_dep : gmap Address U256;
  staked_entity_c : gmap Address Z;
  storage_maps : list StorageMap;
}.
Definition Bundling_default : Bundling :=
  {| uos_valid := []; senders := ∅; gas_total := 0; paymaster_dep := ∅; staked_entity_c := ∅;
     storage_maps := [] |}.

(** [continue] and [break] *)
Inductive Flow := Continue (b : Bundling) | Break (b : Bundling).

Definition push_storage (m : StorageMap) (b : Bundling) : Bundling :=
  {| uos_valid := b.(uos_valid); senders := b.(senders); gas_total := b.(gas_total);
     paymaster_dep := b.(paymaster_dep); staked_entity_c := b.(staked_entity_c);
     storage_maps := b.(storage_maps) ++ [m] |}.
Definition count_of (b : Bundling) (o : option Address) : Z :=
  match o with Some a => default 0 (b.(staked_entity_c) !! a) | None => 0 end.
Definition count_entity (a : Address) (c : gmap Address Z) : gmap Address Z :=
  match c !! a with Some n => <[a := n + 1]> c | None => <[a := 1]> c end.

Definition touches_other_sender uo (senders_all : gset Address) (m : StorageMap) : bool :=
  existsb (λ addr, bool_decide (addr ≠ uo.(uo_sender)) && bool_decide (addr ∈ senders_all))
    ((iter_map m.(root_hashes)).*1 ++ (iter_map m.(slots)).*1).

Definition deposit_error (p : Address) (err : EntryPointError) : string :=
  "Getting balance of paymaster " +:+ show_address p +:+ " failed with error: "
    +:+ debug_entry_point_error err.

(** the paymaster's deposit after paying [pre_fund]; [None] if it is too small *)
Definition charge (b : Bundling) (p : Address) (pre_fund : U256)
  : comp string (option U256) :=
  let* balance := match b.(paymaster_dep) !! p with
                  | Some n => Ok n
                  | None => map_err (deposit_error p) (balance_of p)
                  end in
  Ok (if bool_decide (balance < pre_fund) then None else Some (saturating_sub balance pre_fund)).

(** what happens to an operation whose second validation succeeded *)
Definition bundle_validated uo (senders_all : gset Address) (b : Bundling)
    (out : UserOperationValidationOutcome) : comp string Flow :=
  if bool_decide (is_Some out.(out_valid_after)) then Ok (Continue b)
  else if touches_other_sender uo senders_all out.(out_storage_map) then Ok (Continue b)
  else
    let b := push_storage out.(out_storage_map) b in
    let gas_cost := saturating_add out.(out_verification_gas_limit) uo.(uo_call_gas_limit) in
    let gas_total_new := saturating_add b.(gas_total) gas_cost in
    if bool_decide (cfg.(cfg_max_verification_gas) < gas_total_new) then Ok (Break b)
    else
      let accept (dep : gmap Address U256) (c : gmap Address Z) :=
        let c := match get_address uo.(uo_init_code) with
                 | Some f => count_entity f c
                 | None => c
                 end in
        Ok (Continue {| uos_valid := b.(uos_valid) ++ [uo];
                        senders := {[uo.(uo_sender)]} ∪ b.(senders);
                        gas_total := gas_total_new; paymaster_dep := dep; staked_entity_c := c;
                        storage_maps := b.(storage_maps) |}) in
      match get_address uo.(uo_paymaster_and_data) with
      | Some p =>
          let* o := charge b p out.(out_pre_fund) in
          match o with
          | None => Ok (Continue b)
          | Some rest => accept (<[p := rest]> b.(paymaster_dep)) (count_entity p b.(staked_entity_c))
          end
      | None => accept b.(paymaster_dep) b.(staked_entity_c)
      end.

Definition status_from_bytes self (b : bytes) : comp string Status :=
  let* c := map_err (λ err, "Error getting reputation status with error: "
                             +:+ debug_reputation_error err)
              (get_status_from_bytes self.(up_reputation) b) in
  Ok (status_of_code c).

(** [text]: what the error message says before the error *)
Definition drop_from_mempool (text : string) uo : ST (UoPool S R) string () :=
  do* _ := st_map_err (λ err, text +:+ debug_mempool_error err)
             (on_mempool (Mempool.remove uo.(uo_hash))) in
  st_ret ().

Definition bundle_step (senders_all : gset Address) (b : Bundling) uo
  : ST (UoPool S R) string Flow :=
  if bool_decide (uo.(uo_sender) ∈ b.(senders)) then st_ret (Continue b)
  else
    do* p_st := st_get (λ self, status_from_bytes self uo.(uo_paymaster_and_data)) in
    do* f_st := st_get (λ self, status_from_bytes self uo.(uo_init_code)) in
    let p_c := count_of b (get_address uo.(uo_paymaster_and_data)) in
    let f_c := count_of b (get_address uo.(uo_init_code)) in
    if bool_decide (p_st = BANNED) || bool_decide (f_st = BANNED) then
      do* _ := drop_from_mempool ("Removing a banned user operation " +:+ debug_hash uo.(uo_hash)
                 +:+ " failed with error: ") uo in
      st_ret (Continue b)
    else if bool_decide (p_st = THROTTLED) && bool_decide (THROTTLED_ENTITY_BUNDLE_COUNT < p_c)
    then st_ret (Continue b)
    else if bool_decide (f_st = THROTTLED) && bool_decide (THROTTLED_ENTITY_BUNDLE_COUNT < f_c)
    then st_ret (Continue b)
    else
      do* val_out := st_get (λ self, as_result
        (validate uo self.(up_mempool) self.(up_reputation) None second_modes)) in
      match val_out with
      | inr out => st_lift (bundle_validated uo senders_all b out)
      | inl _ =>
          do* _ := drop_from_mempool ("Removing a user operation " +:+ debug_hash uo.(uo_hash)
                     +:+ " with 2nd failed simulation failed with error: ") uo in
          st_ret (Continue b)
      end.

Fixpoint bundle_loop (senders_all : gset Address) (uos : list UserOperation) (b : Bundling)
  : ST (UoPool S R) string Bundling :=
  match uos with
  | [] => st_ret b
  | uo :: uos =>
      do* flow := bundle_step senders_all b uo in
      match flow with
      | Continue b => bundle_loop senders_all uos b
      | Break b => st_ret b
      end
  end.

Definition bundle_user_operations (uos : list UserOperation)
  : ST (UoPool S R) string (list UserOperation * StorageMap) :=
  let senders_all := list_to_set ((λ uo : UserOperation, uo.(uo_sender)) <$> uos) in
  do* b := bundle_loop senders_all uos Bundling_default in
  st_ret (b.(uos_valid), merge_storage_maps b.(storage_maps)).

(** ** Chain queries *)
Definition base_fee_per_gas : comp string U256 :=
  match get_block_latest with
  | inl e => Err e
  | inr o =>
      let* block := ok_or "No block found"%string o in
      ok_or "No base fee found"%string block.(b_base_fee_per_gas)
  end.

Definition get_stake_info self (addr : Address) : comp string StakeInfoResponse :=
  let* info := map_err EntryPointError_to_string (get_deposit_info addr) in
  let stake_info := {| si_address := addr; si_stake := info.(di_stake);
                       si_unstake_delay := info.(di_unstake_delay_sec) |} in
  Ok {| sr_stake_info := stake_info;
        sr_is_staked :=
          match verify_stake self.(up_reputation) "" (Some stake_info) None None with
          | Ok _ => true | _ => false
          end |}.

Context {CD : ChainData}.
Definition of_node {X} (r : string + X) : comp string X :=
  match r with inr x => Ok x | inl e => Err e end.

Definition FILTER_MAX_DEPTH : Z := 10.

(** [latest_block - FILTER_MAX_DEPTH] panics on a chain of fewer blocks; the
    last event wins *)
Definition get_user_operation_event_meta (h : UserOperationHash)
  : comp string (option (UserOperationEvent * LogMeta)) :=
  let* latest_block := of_node get_block_number in
  let* from_block := u256_sub latest_block FILTER_MAX_DEPTH in
  let* res := of_node (query_events cfg.(cfg_entry_point) from_block h) in
  Ok (fold_left (λ _ log_meta, Some log_meta) res None).

Definition find_in_transaction (event : UserOperationEvent) (tx : Transaction)
  : option (UserOperationSigned * Address) :=
  uos ← decode_handle_ops tx.(tx_input);
  ep ← tx.(tx_to);
  uo ← snd <$> list_find (λ uo : UserOperationSigned,
    uo.(uo_sender) = event.(ev_sender) ∧ uo.(uo_nonce) = event.(ev_nonce)) uos;
  Some (uo, ep).

Definition get_user_operation_by_hash (h : UserOperationHash) : comp string UserOperationByHash :=
  let* event := get_user_operation_event_meta h in
  match event with
  | Some (event, log_meta) =>
      let* tx := of_node (get_transaction log_meta.(lm_transaction_hash)) in
      match tx ≫= find_in_transaction event with
      | Some (uo, ep) =>
          Ok {| bh_user_operation := uo; bh_entry_point := ep;
                bh_transaction_hash := log_meta.(lm_transaction_hash);
                bh_block_hash := log_meta.(lm_block_hash);
                bh_block_number := log_meta.(lm_block_number) |}
      | None => Err "No user operation found"%string
      end
  | None => Err "No user operation found"%string
  end.

Definition get_user_operation_receipt (h : UserOperationHash) : comp string UserOperationReceipt :=
  let* event := get_user_operation_event_meta h in
  match event with
  | Some (event, log_meta) =>
      let* o := of_node (get_transaction_receipt log_meta.(lm_transaction_hash)) in
      match o with
      | Some tx_receipt =>
          let* found := get_user_operation_by_hash h in
          Ok {| rc_user_operation_hash := h; rc_sender := event.(ev_sender);
                rc_nonce := event.(ev_nonce);
                rc_paymaster := get_address found.(bh_user_operation).(uo_paymaster_and_data);
                rc_actual_gas_cost := event.(ev_actual_gas_cost);
                rc_actual_gas_used := event.(ev_actual_gas_used);
                rc_success := event.(ev_success); rc_reason := "";
                rc_logs := tx_receipt.(tr_logs); rc_tx_receipt := tx_receipt |}
      | None => Err "No user operation found"%string
      end
  | None => Err "No user operation found"%string
  end.

(** ** [builder.rs]: a new block *)
Definition handle_block_update (block_hash : H256) : ST (UoPool S R) string () :=
  do* txs := st_lift (of_node (get_block_txs block_hash)) in
  match txs with
  | None => st_ret ()
  | Some txs =>
      st_for txs (λ tx,
        if bool_decide (tx.(tx_to) = Some cfg.(cfg_entry_point)) then
          match decode_handle_ops tx.(tx_input) with
          | Some uos =>
              remove_user_operations
                ((λ uo : UserOperationSigned, from_user_operation_signed
                          (hash uo cfg.(cfg_entry_point) cfg.(cfg_chain_id)) uo) <$> uos)
          | None => st_ret ()
          end
        else st_ret ())
  end.
End pool.

(** ** What the pool relies on from a validator *)
Class ValidatorLaws (S R : Type) `{PS : PoolStorage S} `{ReputationEntryOp R}
    `{V : UserOperationValidator S R} := {
  validate_prev : ∀ uo (s : S) (r : Reputation R) c m out,
    validate uo s r c m = Ok out →
    ∃ prev, get_prev_by_sender (F:=InvalidMempoolUserOperationError) s uo = Ok prev ∧
            out.(out_prev_hash) = uo_hash <$> prev;
  validate_roles : ∀ uo (s : S) (r : Reputation R) c m out g,
    MSanity ∈ m → holds s g → validate uo s r c m = Ok out → roles_separate uo (ghost_pool g);
}.

Section standard_validator.
Context {P : Profile} {A : Abi} {D : Display} {N : Node} {TL : TraceLib} {CK : Clock}
  {HO : HashOrder}.
Context {S : Type} `{PS : PoolStorage S} {R : Type} `{RL : ReputationEntryLaws R}.

#[global] Instance standard_validator (v : Validator) : UserOperationValidator S R :=
  Validator.validate_user_operation v.

#[global] Instance standard_validator_laws (v : Validator) :
  ValidatorLaws S R (V:=standard_validator v).
Proof.
  split.
  - intros uo s r c m out Hv. by apply validate_ok in Hv as (_ & ? & _).
  - intros uo s r c m out g Hm Hg Hv. apply validate_ok in Hv as (Hs & _).
    eapply sanity_roles_holds; [done|]. by apply Hs.
Qed.
End standard_validator.

(** ** Pool invariant *)
(** one pooled operation per sender and nonce *)
Definition unique_slots (p : Pool) : Prop :=
  ∀ h1 h2 u1 u2, p.(p_uos) !! h1 = Some u1 → p.(p_uos) !! h2 = Some u2 →
    u1.(uo_sender) = u2.(uo_sender) → u1.(uo_nonce) = u2.(uo_nonce) → h1 = h2.

(** the sender of one pooled operation is no factory or paymaster of another *)
Definition roles_apart (p : Pool) : Prop :=
  ∀ h1 h2 u1 u2, p.(p_uos) !! h1 = Some u1 → p.(p_uos) !! h2 = Some u2 → h1 ≠ h2 →
    factory_of u1 ≠ Some u2.(uo_sender) ∧ paymaster_of u1 ≠ Some u2.(uo_sender).

Definition pool_ok {A : Abi} (ep : Address) (chain_id : Z) (p : Pool) : Prop :=
  unique_slots p ∧ roles_apart p ∧ hashed ep chain_id p.

Lemma pool_ok_subset {A : Abi} ep chain_id p q :
  q.(p_uos) ⊆ p.(p_uos) → pool_ok ep chain_id p → pool_ok ep chain_id q.
Proof.
  intros Hsub (Hu & Hr & Hh).
  assert (Hl : ∀ h u, q.(p_uos) !! h = Some u → p.(p_uos) !! h = Some u)
    by (intros ? ? ?; by eapply lookup_weaken).
  split_and!.
  - intros h1 h2 u1 u2 H1 H2. apply (Hu h1 h2); auto.
  - intros h1 h2 u1 u2 H1 H2. apply (Hr h1 h2); auto.
  - intros h u Hq. apply Hh. auto.
Qed.

Lemma pool_drop_subset hs p : (pool_drop hs p).(p_uos) ⊆ p.(p_uos).
Proof. apply map_filter_subseteq. Qed.

(** ** Invariants of the handlers

    What every handler but an admission preserves: a property of the pool that
    holds of any pool with fewer operations and does not depend on the counters
    of the reputation. *)
Section walk.
Context {P : Profile} {D : Display} {S : Type} `{PS : PoolStorage S} {R : Type} `{ReputationEntryOp R}.
Context `{V : UserOperationValidator S R}.

(** the call changes nothing of the manager but the entries *)
Definition entities_only {E X} (m : ST (Reputation R) E X) : Prop :=
  ∀ r0, preserves (λ r, ∃ ents, r = with_entities ents r0) m.

Lemma on_entities_only {E X} (m : ST R E X) : entities_only (on_entities m).
Proof. intros r0 r [ents ->]. unfold on_entities, st_zoom. destruct (m _). by eexists. Qed.

Lemma modify_entry_only a f : entities_only (modify_entry a f).
Proof.
  intros r0. unfold modify_entry, set_default.
  repeat first [apply preserves_ret | apply preserves_get | apply preserves_lift
    | apply on_entities_only | case_match | apply preserves_bind; [|intros ?]].
Qed.

Lemma set_entities_only es : entities_only (set_entities es).
Proof.
  intros r0. apply preserves_for. intros e. apply preserves_bind; [apply on_entities_only|].
  intros. apply preserves_ret.
Qed.

Class PoolInvariant (I : UoPool S R → Prop) : Prop :=
  hi_shrink : ∀ self s op, (∀ uo, op ≠ OpAdd uo) →
    (∀ g, holds self.(up_mempool) g → holds s (ghost_exec op g)) →
    I self → I (with_mempool s self).
Class HandlerInvariant (I : UoPool S R → Prop) : Prop := {
  #[global] hi_pool :: PoolInvariant I;
  hi_entities : ∀ self ents, I self →
    I (with_reputation (with_entities ents self.(up_reputation)) self);
}.

Section pool.
Context (I : UoPool S R → Prop) `{PI : PoolInvariant I}.
Implicit Types (self : UoPool S R) (uo : UserOperation).

Lemma preserves_on_mempool {E X} (m : ST S E X) op :
  (∀ uo, op ≠ OpAdd uo) →
  (∀ s g, holds s g → holds (m s).2 (ghost_exec op g)) →
  preserves I (on_mempool m).
Proof using PI.
  intros Hop Hm self Hi. specialize (Hm self.(up_mempool)). unfold on_mempool, st_zoom.
  destruct (m _) as [res s']. by apply (hi_shrink self s' op).
Qed.

Lemma preserves_ignore {E F X} (m : ST (UoPool S R) E X) :
  preserves I m → preserves (E:=F) I (st_ignore m).
Proof.
  intros Hm self Hi. specialize (Hm self Hi). unfold st_ignore. by destruct (m self) as [[] ?].
Qed.

Lemma preserves_exec op :
  (∀ uo, op ≠ OpAdd uo) → preserves (E:=MempoolErrorKind) I (on_mempool (exec op)).
Proof using PI.
  intros Hop. apply (preserves_on_mempool _ op Hop). intros s g Hg.
  destruct (holds_exec op s g Hg) as (s' & -> & Hg'); [|done].
  intros uo ->. by destruct (Hop uo).
Qed.

Lemma preserves_remove h : preserves (E:=MempoolErrorKind) I (on_mempool (Mempool.remove h)).
Proof using PI.
  apply (preserves_on_mempool _ (OpRemove h)); [done|]. intros s g Hg.
  by destruct (holds_remove h s g Hg) as (b & s' & -> & Hg').
Qed.

Lemma preserves_drop text uo : preserves I (drop_from_mempool text uo).
Proof using PI.
  unfold drop_from_mempool. apply preserves_bind; [|eauto with silius].
  apply preserves_map_err, preserves_remove.
Qed.

Lemma preserves_remove_user_operation {E} h :
  preserves (E:=E) I (remove_user_operation h).
Proof using PI. apply preserves_ignore, preserves_remove. Qed.

Lemma preserves_clear_mempool {E} : preserves (E:=E) I clear_mempool.
Proof using PI.
  apply (preserves_on_mempool _ OpClear); [done|]. intros s g Hg.
  by destruct (holds_clear E s g Hg) as (s' & -> & Hg').
Qed.
End pool.

Context (cfg : UoPoolConfig) (I : UoPool S R → Prop) `{HI : HandlerInvariant I}.
Implicit Types (self : UoPool S R) (uo : UserOperation).

Lemma preserves_on_reputation {E X} (m : ST (Reputation R) E X) :
  entities_only m → preserves I (on_reputation m).
Proof using HI.
  intros Hm self Hi. unfold on_reputation, st_zoom.
  destruct (Hm self.(up_reputation) self.(up_reputation)) as (ents & Hents).
  { exists self.(up_reputation).(entities). by destruct (up_reputation self). }
  destruct (m _) as [res r']. simpl in Hents. subst r'. by apply hi_entities.
Qed.

Lemma preserves_count_seen h o : preserves I (count_seen h o).
Proof using HI.
  destruct o; simpl; [|apply preserves_ret].
  apply preserves_map_err, preserves_on_reputation, modify_entry_only.
Qed.

Lemma preserves_count_included {E} o : preserves (E:=E) I (count_included o).
Proof using HI.
  destruct o; simpl; [|apply preserves_ret].
  apply preserves_ignore, preserves_on_reputation, modify_entry_only.
Qed.

Lemma preserves_remove_user_operations {E} uos :
  preserves (E:=E) I (remove_user_operations uos).
Proof using HI.
  apply preserves_for. intros uo.
  repeat (apply preserves_bind; [first [apply (preserves_remove_user_operation I)
    | apply preserves_count_included]|intros ?]). apply preserves_count_included.
Qed.

Lemma preserves_reject uo err : preserves I (add_user_operation cfg uo (inl err)).
Proof using HI.
  unfold add_user_operation. apply preserves_bind; [|intros; apply preserves_lift].
  repeat (case_match; try apply preserves_ret).
  apply preserves_ignore. by eapply (preserves_exec I (OpRemoveByEntity _)).
Qed.

Lemma preserves_clear_reputation {E} : preserves (E:=E) I clear_reputation.
Proof using HI. apply preserves_on_reputation, on_entities_only. Qed.

Lemma preserves_pool_clear {E} : preserves (E:=E) I pool_clear.
Proof using HI.
  apply preserves_bind; [apply (preserves_clear_mempool I)|intros; apply preserves_clear_reputation].
Qed.

Lemma preserves_insert_tail uo :
  preserves I (do* _ := st_for [Some uo.(uo_sender); get_address uo.(uo_init_code);
    get_address uo.(uo_paymaster_and_data)] (count_seen uo.(uo_hash)) in st_ret uo.(uo_hash)).
Proof using HI.
  apply preserves_bind; [|intros; apply preserves_ret].
  apply preserves_for. intros o. apply preserves_count_seen.
Qed.
End walk.

Section walk_bundle.
Context {P : Profile} {A : Abi} {D : Display} {N : Node} {HO : HashOrder}.
Context {S : Type} `{PS : PoolStorage S} {R : Type} `{ReputationEntryOp R}.
Context `{V : UserOperationValidator S R}.
Context (cfg : UoPoolConfig) (I : UoPool S R → Prop) `{PI : !PoolInvariant I}.

Lemma preserves_bundle_step all b uo : preserves I (bundle_step cfg all b uo).
Proof using PI.
  assert (Hdrop : ∀ text b, preserves I (do* _ := drop_from_mempool text uo in st_ret (Continue b)))
    by (intros; apply preserves_bind; [by apply preserves_drop|intros; apply preserves_ret]).
  unfold bundle_step. case_match; [apply preserves_ret|].
  apply preserves_bind; [apply preserves_get|intros p_st].
  apply preserves_bind; [apply preserves_get|intros f_st]. cbv zeta.
  do 3 (case_match; [first [apply Hdrop | apply preserves_ret]|]).
  apply preserves_bind; [apply preserves_get|intros [?|?]]; [apply Hdrop|apply preserves_lift].
Qed.

Lemma preserves_bundle_loop all uos b : preserves I (bundle_loop cfg all uos b).
Proof using PI.
  revert b. induction uos as [|uo uos IH]; intros b; simpl; [apply preserves_ret|].
  apply preserves_bind; [apply preserves_bundle_step|]. intros [b'|b']; [apply IH|apply preserves_ret].
Qed.

Lemma preserves_bundle uos : preserves I (bundle_user_operations cfg uos).
Proof using PI.
  apply preserves_bind; [apply preserves_bundle_loop|intros; apply preserves_ret].
Qed.
End walk_bundle.

Section walk_node.
Context {P : Profile} {A : Abi} {D : Display} {N : Node} {HO : HashOrder} {CD : ChainData}.
Context {S : Type} `{PS : PoolStorage S} {R : Type} `{ReputationEntryOp R}.
Context `{V : UserOperationValidator S R}.
Context (cfg : UoPoolConfig) (I : UoPool S R → Prop) `{HI : !HandlerInvariant I}.

Lemma preserves_block h : preserves I (handle_block_update cfg h).
Proof using HI.
  unfold handle_block_update. apply preserves_bind; [apply preserves_lift|intros [txs|]];
    [|apply preserves_ret].
  apply preserves_for. intros tx. repeat case_match; try apply preserves_ret.
  by apply preserves_remove_user_operations.
Qed.
End walk_node.

(** the pool without the operation an outcome replaces *)
Definition without_prev (out : UserOperationValidationOutcome) (p : Pool) : Pool :=
  match out.(out_prev_hash) with
  | Some h => pool_drop (dom p.(p_uos) ∩ {[h]}) p
  | None => p
  end.

Lemma without_prev_subset out p : (without_prev out p).(p_uos) ⊆ p.(p_uos).
Proof. unfold without_prev. destruct (out_prev_hash out); [apply pool_drop_subset|done]. Qed.

(** the pool after an outcome was admitted *)
Definition pool_admit (uo : UserOperation) (out : UserOperationValidationOutcome) (p : Pool) : Pool :=
  let p := pool_exec (OpAdd uo) (without_prev out p) in
  match out.(out_code_hashes) with
  | Some cs => pool_exec (OpSetCodeHashes uo.(uo_hash) cs) p
  | None => p
  end.

Lemma insert_validated_eq {P : Profile} {S} `{MempoolStore S} {R} `{ReputationEntryOp R}
    (uo : UserOperation) out (self : UoPool S R) :
  insert_validated uo out self =
  (do* h := st_map_err (mempool_error uo.(uo_hash)) (on_mempool (Mempool.add uo)) in
   do* _ := match out.(out_code_hashes) with
            | Some cs => st_ignore (on_mempool (Mempool.set_code_hashes h cs))
            | None => st_ret ()
            end in
   do* _ := st_for [Some uo.(uo_sender); get_address uo.(uo_init_code);
                    get_address uo.(uo_paymaster_and_data)] (count_seen h) in
   st_ret h) self.
Proof.
  unfold insert_validated; cbn [st_for]; unfold st_bind, st_ret.
  repeat (lazymatch goal with |- context [match ?m with (_, _) => _ end] =>
    destruct m as [[]?] eqn:? end; simplify_eq; try done).
Qed.

Section storage_steps.
Context {P : Profile} {A : Abi} {AOk : AbiOk A} {D : Display} {N : Node} {HO : HashOrder}.
Context {S : Type} `{PS : PoolStorage S} {R : Type} `{ReputationEntryOp R}.
Context `{V : UserOperationValidator S R} {VL : ValidatorLaws S R} (cfg : UoPoolConfig).
Implicit Types (self : UoPool S R) (uo : UserOperation) (g : ghost).

(** the two together, on what the storage keeps *)
Definition ghost_without_prev (out : UserOperationValidationOutcome) g : ghost :=
  match out.(out_prev_hash) with Some h => ghost_exec (OpRemove h) g | None => g end.
Definition ghost_admit uo (out : UserOperationValidationOutcome) g : ghost :=
  let g := ghost_exec (OpAdd uo) (ghost_without_prev out g) in
  match out.(out_code_hashes) with
  | Some cs => ghost_exec (OpSetCodeHashes uo.(uo_hash) cs) g
  | None => g
  end.

Lemma ghost_without_prev_pool out g :
  ghost_pool (ghost_without_prev out g) = without_prev out (ghost_pool g).
Proof.
  unfold ghost_without_prev, without_prev. destruct (out_prev_hash out); [|done].
  by rewrite ghost_exec_pool.
Qed.

Lemma ghost_admit_pool uo out g : ghost_pool (ghost_admit uo out g) = pool_admit uo out (ghost_pool g).
Proof.
  unfold ghost_admit, pool_admit. destruct (out_code_hashes out);
    by rewrite !ghost_exec_pool, ghost_without_prev_pool.
Qed.

Lemma ghost_without_prev_ops out g v :
  v ∈ ghost_ops (ghost_without_prev out g) → v ∈ ghost_ops g.
Proof.
  unfold ghost_without_prev. destruct (out_prev_hash out) as [h|]; [|done].
  by intros [?|?]%ghost_exec_ops.
Qed.

Lemma ghost_admit_ops uo out g v :
  v ∈ ghost_ops (ghost_admit uo out g) → v ∈ ghost_ops g ∨ v = uo.
Proof.
  unfold ghost_admit. intros Hv.
  assert (v ∈ ghost_ops (ghost_exec (OpAdd uo) (ghost_without_prev out g))) as Hv'.
  { destruct (out_code_hashes out); [|done]. by apply ghost_exec_ops in Hv as [?|?]. }
  apply ghost_exec_ops in Hv' as [?|[= ->]]; [left|by right]. by eapply ghost_without_prev_ops.
Qed.

Lemma remove_user_operation_holds {E} h self g : holds self.(up_mempool) g →
  ∃ self', remove_user_operation (E:=E) h self = (Ok (), self') ∧
    holds self'.(up_mempool) (ghost_exec (OpRemove h) g) ∧
    self'.(up_reputation) = self.(up_reputation) ∧ self'.(up_published) = self.(up_published).
Proof.
  intros Hg. destruct (holds_remove h _ g Hg) as (b & s' & Hs & Hg').
  exists (with_mempool s' self). unfold remove_user_operation, st_ignore, on_mempool, st_zoom.
  by rewrite Hs.
Qed.

Lemma drop_prev_holds out self g : holds self.(up_mempool) g →
  ∃ self', (match out.(out_prev_hash) with
            | Some h => remove_user_operation (E:=MempoolError) h
            | None => st_ret ()
            end) self = (Ok (), self') ∧
    holds self'.(up_mempool) (ghost_without_prev out g) ∧
    self'.(up_reputation) = self.(up_reputation) ∧ self'.(up_published) = self.(up_published).
Proof.
  intros Hg. unfold ghost_without_prev. destruct (out_prev_hash out) as [h|]; [|by exists self].
  by apply remove_user_operation_holds.
Qed.

Lemma store_validated_holds uo out self g :
  holds self.(up_mempool) (ghost_without_prev out g) →
  (∀ v, v ∈ ghost_ops (ghost_without_prev out g) → same_unsigned uo v) →
  ∃ s', holds s' (ghost_admit uo out g) ∧
    insert_validated uo out self =
    (do* _ := st_for [Some uo.(uo_sender); get_address uo.(uo_init_code);
                      get_address uo.(uo_paymaster_and_data)] (count_seen uo.(uo_hash)) in
     st_ret uo.(uo_hash)) (with_mempool s' self).
Proof.
  intros Hg Ha. rewrite insert_validated_eq.
  destruct (holds_add uo _ _ Hg Ha) as (s1 & Hs & Hg1).
  rewrite (st_bind_step _ _ _ uo.(uo_hash) (with_mempool s1 self))
    by (unfold st_map_err, on_mempool, st_zoom; by rewrite Hs).
  unfold ghost_admit. destruct out.(out_code_hashes) as [cs|]; [|by exists s1].
  destruct (holds_exec (OpSetCodeHashes uo.(uo_hash) cs) s1 _ Hg1) as (s2 & Hs2 & Hg2); [done|].
  simpl in Hs2. exists s2. split; [done|].
  rewrite (st_bind_step _ _ _ () (with_mempool s2 self)); [done|].
  unfold st_ignore, on_mempool, st_zoom; simpl. by rewrite Hs2.
Qed.

(** the validator's replacement leaves the sender's nonce free *)
Lemma without_prev_free uo self c m out g :
  holds self.(up_mempool) g → unique_slots (ghost_pool g) →
  validate uo self.(up_mempool) self.(up_reputation) c m = Ok out →
  ∀ h u, (without_prev out (ghost_pool g)).(p_uos) !! h = Some u →
    u.(uo_sender) = uo.(uo_sender) → u.(uo_nonce) ≠ uo.(uo_nonce).
Proof using VL.
  intros Hr Hu Hv h u Hh Hs Hn. destruct (validate_prev _ _ _ _ _ _ Hv) as (prev & Hp & Ho).
  destruct (get_prev_holds (F:=InvalidMempoolUserOperationError) _ g uo Hr) as (o & Hp' & Hspec).
  rewrite Hp in Hp'. injection Hp' as <-. unfold without_prev in Hh. rewrite Ho in Hh.
  destruct prev as [prev|]; simpl in *; [|by eapply Hspec].
  destruct Hspec as (Hprev & Hps & Hpn & _).
  apply map_lookup_filter_Some in Hh as [Hh Hni]. simpl in Hni.
  assert (h = prev.(uo_hash)) as -> by (eapply Hu; [done|done|by rewrite Hs, Hps|by rewrite Hn, Hpn]).
  apply Hni, elem_of_intersection. split; [by eapply elem_of_dom_2|by apply elem_of_singleton].
Qed.

Lemma shrinking_exec op p : (∀ uo, op ≠ OpAdd uo) → (pool_exec op p).(p_uos) ⊆ p.(p_uos).
Proof.
  intros Hop. destruct op as [uo| | | |]; cbn [pool_exec p_uos]; try apply pool_drop_subset; try done;
    [by destruct (Hop uo)|]. apply map_empty_subseteq.
Qed.

(** every operation the storage knows is under its own hash, and these and the
    pooled ones are among [known] *)
Definition hashed_ops (known : list UserOperation) g : Prop :=
  (∀ v, v ∈ ghost_ops g → v ∈ known ∧
    v.(uo_hash) = hash v cfg.(cfg_entry_point) cfg.(cfg_chain_id) ∧ uo_wf v) ∧
  ∀ h u, (ghost_pool g).(p_uos) !! h = Some u → from_user_operation_signed h u ∈ known.

Lemma hashed_ops_shrink known op g : (∀ uo, op ≠ OpAdd uo) →
  hashed_ops known g → hashed_ops known (ghost_exec op g).
Proof.
  intros Hop [Hg Hp]. split.
  - intros v [Hv| ->]%ghost_exec_ops; [by apply Hg|by destruct (Hop v)].
  - intros h u. rewrite ghost_exec_pool. intros Hu. apply Hp. eapply lookup_weaken; [exact Hu|].
    by apply shrinking_exec.
Qed.

(** keccak256 tells the operations of a list apart *)
Definition distinct_ops (uos : list UserOperation) : Prop :=
  told_apart cfg.(cfg_entry_point) cfg.(cfg_chain_id) (user_operation <$> uos).

#[global] Instance distinct_ops_dec uos : Decision (distinct_ops uos).
Proof. unfold distinct_ops. apply _. Defined.

Lemma distinct_ops_subset l l' : l ⊆ l' → distinct_ops l' → distinct_ops l.
Proof.
  intros Hs. apply told_apart_subset. intros u (v & -> & Hv)%list_elem_of_fmap.
  apply list_elem_of_fmap. exists v. split; [done|by apply Hs].
Qed.

Lemma hashed_ops_agree known uo g :
  is_address cfg.(cfg_entry_point) → is_u256 cfg.(cfg_chain_id) →
  uo_wf uo → uo.(uo_hash) = hash uo cfg.(cfg_entry_point) cfg.(cfg_chain_id) →
  hashed_ops known g → distinct_ops (uo :: known) →
  ∀ v, v ∈ ghost_ops g → same_unsigned uo v.
Proof using AOk.
  intros Hep Hci Hwf Hh Hg Hd v Hv He. destruct (proj1 Hg v Hv) as (Hk & Hvh & Hvw).
  eapply (told_apart_hash _ _ _ uo v Hep Hci Hd); [apply list_elem_of_here| |done..|congruence].
  apply list_elem_of_further, list_elem_of_fmap. by exists v.
Qed.

(** a pool in order whose storage has been given the operations [known] *)
Definition pool_inv (known : list UserOperation) self : Prop :=
  ∃ g, holds self.(up_mempool) g ∧
    pool_ok cfg.(cfg_entry_point) cfg.(cfg_chain_id) (ghost_pool g) ∧ hashed_ops known g.

Lemma hashed_ops_mono known known' g : known ⊆ known' → hashed_ops known g → hashed_ops known' g.
Proof.
  intros Hs [Hg Hp]. split; [|intros h u Hu; by apply Hs, (Hp h)].
  intros v Hv. destruct (Hg v Hv). split; [by apply Hs|done].
Qed.

Lemma pool_inv_mono known known' self : known ⊆ known' → pool_inv known self → pool_inv known' self.
Proof. intros Hs (g & ? & ? & ?). exists g. split_and!; [done..|by eapply hashed_ops_mono]. Qed.

#[global] Instance pool_inv_handlers known : HandlerInvariant (pool_inv known).
Proof.
  split; [|done]. intros self s op Hop Hs (g & Hg & Hok & Hh). exists (ghost_exec op g).
  split; [by apply Hs|]. split.
  - rewrite ghost_exec_pool. eapply pool_ok_subset; [|exact Hok]. by apply shrinking_exec.
  - by apply hashed_ops_shrink.
Qed.

Lemma pool_ok_insert uo p :
  pool_ok cfg.(cfg_entry_point) cfg.(cfg_chain_id) p →
  (∀ h u, p.(p_uos) !! h = Some u → u.(uo_sender) = uo.(uo_sender) → u.(uo_nonce) ≠ uo.(uo_nonce)) →
  roles_separate uo p →
  uo.(uo_hash) = hash uo cfg.(cfg_entry_point) cfg.(cfg_chain_id) → uo_wf uo →
  pool_ok cfg.(cfg_entry_point) cfg.(cfg_chain_id) (pool_exec (OpAdd uo) p).
Proof.
  intros (Hu & Hr & Hh) Hfree Hsep Hhash Hwf. unfold roles_separate in Hsep. split_and!.
  - intros h1 h2 u1 u2; simpl. rewrite !lookup_insert_Some.
    intros [[<- <-]|[? Hx1]] [[<- <-]|[? Hx2]] Hs Hn; [done|..].
    + by destruct (Hfree h2 u2 Hx2).
    + by destruct (Hfree h1 u1 Hx1).
    + by eapply Hu.
  - intros h1 h2 u1 u2; simpl. rewrite !lookup_insert_Some.
    intros [[<- <-]|[? Hx1]] [[<- <-]|[? Hx2]] Hne; [done|..].
    + destruct (Hsep h2 u2 Hx2) as (_ & _ & ? & ?). done.
    + destruct (Hsep h1 u1 Hx1) as (? & ? & _ & _). done.
    + by apply (Hr h1 h2).
  - intros h u; simpl. rewrite lookup_insert_Some. intros [[<- <-]|[? Hq]]; [done|by apply Hh].
Qed.

Lemma admit_inv uo out p :
  pool_ok cfg.(cfg_entry_point) cfg.(cfg_chain_id) p → roles_separate uo p →
  (∀ h u, (without_prev out p).(p_uos) !! h = Some u →
     u.(uo_sender) = uo.(uo_sender) → u.(uo_nonce) ≠ uo.(uo_nonce)) →
  uo.(uo_hash) = hash uo cfg.(cfg_entry_point) cfg.(cfg_chain_id) → uo_wf uo →
  pool_ok cfg.(cfg_entry_point) cfg.(cfg_chain_id) (pool_admit uo out p).
Proof.
  intros Hok Hsep Hfree Hh Hwf. pose proof (without_prev_subset out p) as Hsub.
  assert (Hi : pool_ok cfg.(cfg_entry_point) cfg.(cfg_chain_id)
    (pool_exec (OpAdd uo) (without_prev out p))).
  { apply pool_ok_insert; try done; [by eapply pool_ok_subset|].
    intros q u Hq. apply (Hsep q). by eapply lookup_weaken. }
  unfold pool_admit. destruct (out_code_hashes out); [|done]. by eapply pool_ok_subset.
Qed.

(** an admission leaves the pool without the replaced operation or the pool
    with the new one, and the counters of the reputation counted up *)
Lemma add_valid_steps (I : UoPool S R → Prop) `{HI : !HandlerInvariant I} self uo out g :
  holds self.(up_mempool) g → I self →
  (∀ v, v ∈ ghost_ops (ghost_without_prev out g) → same_unsigned uo v) →
  (∀ self' m, self'.(up_reputation) = self.(up_reputation) → I self' →
     holds m (ghost_admit uo out g) → I (with_mempool m self')) →
  (∀ self' pm, I self' → I (publish pm self')) →
  I (add_user_operation cfg uo (inr out) self).2.
Proof.
  intros Hg Hi Ha Hins Hpub. unfold add_user_operation.
  destruct (drop_prev_holds out self g Hg) as (s1 & Hs1 & Hg1 & Hrep & _).
  assert (I s1) as Hi1.
  { assert (preserves I match out_prev_hash out with
      | Some h => remove_user_operation (E:=MempoolError) h | None => st_ret () end) as Hd
      by (case_match; [apply (preserves_remove_user_operation I)|apply preserves_ret]).
    specialize (Hd self Hi). by rewrite Hs1 in Hd. }
  rewrite (st_bind_step _ _ _ _ _ Hs1).
  assert (∃ r s2, send_to_network cfg uo out s1 = (r, s2) ∧ I s2 ∧
    s2.(up_mempool) = s1.(up_mempool) ∧ s2.(up_reputation) = s1.(up_reputation))
    as (r & s2 & Hs2 & Hi2 & Hm2 & Hrep2).
  { unfold send_to_network. destruct (cfg_network cfg) as [[]|]; do 2 eexists;
      (split; [reflexivity|]); split_and!; try done. by apply Hpub. }
  unfold st_bind at 1. rewrite Hs2. destruct r as [[]|e|]; [|exact Hi2..].
  destruct (store_validated_holds uo out s2 g) as (m & Hm & ->); [by rewrite Hm2|done|].
  apply preserves_insert_tail; [done|]. apply Hins; [congruence|done|exact Hm].
Qed.

Lemma ghost_admit_hashed known uo out g :
  uo_wf uo → uo.(uo_hash) = hash uo cfg.(cfg_entry_point) cfg.(cfg_chain_id) →
  hashed_ops known g → hashed_ops (uo :: known) (ghost_admit uo out g).
Proof.
  intros Hwf Hh [Hops Hp]. split.
  - intros v [Hv| ->]%ghost_admit_ops; [|by split; [apply list_elem_of_here|]].
    destruct (Hops v Hv). split; [by apply list_elem_of_further|done].
  - intros h u Hu. rewrite ghost_admit_pool in Hu.
    assert ((pool_exec (OpAdd uo) (without_prev out (ghost_pool g))).(p_uos) !! h = Some u) as Hu'
      by (unfold pool_admit in Hu; by destruct (out_code_hashes out)).
    cbn [pool_exec p_uos] in Hu'. apply lookup_insert_Some in Hu' as [[<- <-]|[_ Hu']].
    + destruct uo. apply list_elem_of_here.
    + apply list_elem_of_further, Hp. eapply lookup_weaken; [exact Hu'|]. apply without_prev_subset.
Qed.

Lemma add_valid_inv known self uo c out :
  is_address cfg.(cfg_entry_point) → is_u256 cfg.(cfg_chain_id) →
  uo_wf uo → uo.(uo_hash) = hash uo cfg.(cfg_entry_point) cfg.(cfg_chain_id) →
  validate_user_operation self uo c = Ok out → distinct_ops (uo :: known) → pool_inv known self →
  pool_inv (uo :: known) (add_user_operation cfg uo (inr out) self).2.
Proof using VL AOk.
  intros Hep Hci Hwf Hh Hv Hd Hi. pose proof Hi as (g & Hg & Hok & Hops).
  eapply add_valid_steps; [apply _|exact Hg| | | |done].
  { eapply pool_inv_mono; [|exact Hi]. intros v Hin. by apply list_elem_of_further. }
  { intros v Hin. eapply hashed_ops_agree; try done. by eapply ghost_without_prev_ops. }
  intros self' m _ _ Hm. exists (ghost_admit uo out g). split; [exact Hm|].
  split; [|by apply ghost_admit_hashed].
  rewrite ghost_admit_pool. apply admit_inv; try done.
  - eapply (validate_roles (S:=S) (R:=R)); [|exact Hg|exact Hv]. by left.
  - eapply without_prev_free; [exact Hg|apply Hok|exact Hv].
Qed.
End storage_steps.

(** ** Effect of an admission *)
Definition entities_of (uo : UserOperation) : list Address :=
  uo.(uo_sender) :: option_list (factory_of uo) ++ option_list (paymaster_of uo).

Definition message_of (uo : UserOperation) (out : UserOperationValidationOutcome) : Publish := {|
  pub_user_operation := uo; pub_verified_at_block_hash := out.(out_verified_block);
  pub_validation_config := out.(out_val_config) |}.

(** how often an address occurs *)
Definition occurrences (a : Address) (l : list Address) : Z :=
  Z.of_nat (length (filter (λ b, b = a) l)).

Section admission.
Context {P : Profile} {A : Abi} {AOk : AbiOk A} {D : Display} {N : Node} {HO : HashOrder}.
Context {S : Type} `{ML : MempoolLaws S} {R : Type} `{RL : ReputationEntryLaws R}.
Context (cfg : UoPoolConfig).
Implicit Types (self : UoPool S R) (uo : UserOperation).

(** the counters of [r] with [l] counted as seen once each *)
Definition seen_once_more (l : list Address) (r r' : Reputation R) : Prop :=
  keyed (rep_view r'.(entities)) ∧ ∀ a,
    (entry_or_default r' a).(uo_seen) = (entry_or_default r a).(uo_seen) + occurrences a l ∧
    (entry_or_default r' a).(uo_included) = (entry_or_default r a).(uo_included).

Definition same_but_reputation self self' : Prop :=
  self'.(up_mempool) = self.(up_mempool) ∧ self'.(up_published) = self.(up_published).

Lemma occurrences_cons a b l : occurrences a (b :: l) = (if bool_decide (b = a) then 1 else 0) + occurrences a l.
Proof. unfold occurrences. rewrite filter_cons. case_decide; case_bool_decide; simpl; lia || done. Qed.

Lemma occurrences_le a l : 0 ≤ occurrences a l ≤ Z.of_nat (length l).
Proof. unfold occurrences. pose proof (length_filter (λ b, b = a) l). lia. Qed.

Lemma seen_once_more_app l1 l2 r r1 r2 :
  seen_once_more l1 r r1 → seen_once_more l2 r1 r2 → seen_once_more (l1 ++ l2) r r2.
Proof.
  intros [_ Hx] [Hk Hy]. split; [done|]. intros a. destruct (Hx a), (Hy a).
  unfold occurrences in *. rewrite filter_app, length_app. lia.
Qed.

Lemma count_seen_spec h o self :
  keyed (rep_view self.(up_reputation).(entities)) →
  (∀ a, is_u64 ((entry_or_default self.(up_reputation) a).(uo_seen) + 1)) →
  ∃ self', count_seen h o self = (Ok (), self') ∧ same_but_reputation self self' ∧
    seen_once_more (option_list o) self.(up_reputation) self'.(up_reputation).
Proof.
  intros Hk Hb. destruct o as [a|]; simpl.
  2: { exists self. split; [done|]. split; [done|]. split; [done|]. intros a. unfold occurrences. simpl. lia. }
  set (e := entry_or_default self.(up_reputation) a).
  destruct (modify_entry_spec self.(up_reputation) a (λ ent,
    let* seen := u64_add ent.(uo_seen) 1 in Ok (with_counters ent seen ent.(uo_included)))
    (with_counters e (e.(uo_seen) + 1) e.(uo_included)) Hk) as (r' & Hm & Hs).
  { unfold u64_add. by rewrite u64_norm_small by apply Hb. }
  { by apply entry_or_default_address. }
  exists (with_reputation r' self). unfold st_map_err, on_reputation, st_zoom, increment_seen.
  rewrite Hm. split; [done|]. split; [done|]. split; [eapply sets_entry_keyed; [done| |done]; by apply entry_or_default_address|].
  intros b. destruct Hs as [Hv _]. rewrite occurrences_cons. unfold entry_or_default at 1 3. simpl.
  rewrite Hv. destruct (decide (a = b)) as [<-|Hne].
  - rewrite lookup_insert_eq, bool_decide_true by done. simpl. fold e. unfold occurrences; simpl. lia.
  - rewrite lookup_insert_ne, bool_decide_false by done. unfold occurrences; simpl.
    unfold entry_or_default. lia.
Qed.

Lemma count_entities_spec h os self :
  keyed (rep_view self.(up_reputation).(entities)) →
  (∀ a, 0 ≤ (entry_or_default self.(up_reputation) a).(uo_seen) ≤ U64_MAX - Z.of_nat (length os)) →
  ∃ self', st_for os (count_seen h) self = (Ok (), self') ∧ same_but_reputation self self' ∧
    seen_once_more (os ≫= option_list) self.(up_reputation) self'.(up_reputation).
Proof.
  revert self. induction os as [|o os IH]; intros self Hk Hb; simpl.
  { exists self. split; [done|]. split; [done|]. split; [done|]. intros a. unfold occurrences; simpl. lia. }
  destruct (count_seen_spec h o self Hk) as (s1 & Hs & Hsame & Hk1 & Hc).
  { intros a. specialize (Hb a). simpl in Hb. unfold is_u64. unfold U64_MAX in *. lia. }
  destruct (IH s1 Hk1) as (s2 & Hs2 & Hsame2 & Hc2).
  { intros a. destruct (Hc a) as [-> _]. specialize (Hb a). simpl in Hb.
    pose proof (occurrences_le a (option_list o)). destruct o; simpl in *; lia. }
  exists s2. rewrite (st_bind_step _ _ _ _ _ Hs). destruct Hsame, Hsame2. split; [done|]. split.
  - split; congruence.
  - eapply seen_once_more_app; [|done]. by split.
Qed.

Lemma remove_user_operation_spec {E} h self p : refines self.(up_mempool) p →
  ∃ self', remove_user_operation (E:=E) h self = (Ok (), self') ∧
    refines self'.(up_mempool) (pool_drop (dom p.(p_uos) ∩ {[h]}) p) ∧
    self'.(up_reputation) = self.(up_reputation) ∧ self'.(up_published) = self.(up_published).
Proof. exact (remove_user_operation_holds (PS:=laws_storage) h self p). Qed.

Lemma ghost_without_prev_laws out (p : Pool) :
  ghost_without_prev (PS:=laws_storage) out p = without_prev out p.
Proof. unfold ghost_without_prev, without_prev. by destruct (out_prev_hash out). Qed.

Lemma ghost_admit_laws uo out (p : Pool) : ghost_admit (PS:=laws_storage) uo out p = pool_admit uo out p.
Proof.
  unfold ghost_admit, pool_admit. rewrite ghost_without_prev_laws. by destruct (out_code_hashes out).
Qed.

Lemma admissible_agrees uo (p : Pool) : admissible (OpAdd uo) p →
  ∀ v, v ∈ ghost_ops (PoolStorage:=laws_storage) p → same_unsigned uo v.
Proof.
  intros Ha v Hv. apply list_elem_of_fmap in Hv as ([h u] & -> & Hin).
  apply elem_of_map_to_list in Hin. cbn [admissible] in Ha. intros He. cbn in He.
  symmetry. apply Ha. by rewrite He.
Qed.

Lemma store_validated_spec uo out self p :
  refines self.(up_mempool) (without_prev out p) → admissible (OpAdd uo) (without_prev out p) →
  ∃ s', refines s' (pool_admit uo out p) ∧
    insert_validated uo out self =
    (do* _ := st_for [Some uo.(uo_sender); get_address uo.(uo_init_code);
                      get_address uo.(uo_paymaster_and_data)] (count_seen uo.(uo_hash)) in
     st_ret uo.(uo_hash)) (with_mempool s' self).
Proof.
  intros Hr Ha.
  destruct (store_validated_holds (PS:=laws_storage) uo out self p) as (s' & Hs & He).
  - by rewrite ghost_without_prev_laws.
  - rewrite ghost_without_prev_laws. by apply admissible_agrees.
  - exists s'. split; [|exact He]. by rewrite ghost_admit_laws in Hs.
Qed.

Lemma drop_prev_spec out self p : refines self.(up_mempool) p →
  ∃ self', (match out.(out_prev_hash) with
            | Some h => remove_user_operation (E:=MempoolError) h
            | None => st_ret ()
            end) self = (Ok (), self') ∧
    refines self'.(up_mempool) (without_prev out p) ∧
    self'.(up_reputation) = self.(up_reputation) ∧ self'.(up_published) = self.(up_published).
Proof.
  intros Hr. destruct (drop_prev_holds (PS:=laws_storage) out self p Hr) as (s' & ? & Hs & ?).
  rewrite ghost_without_prev_laws in Hs. by exists s'.
Qed.

(** [add_user_operation] with the outcome of a successful validation *)
Lemma admission_spec uo out self p :
  refines self.(up_mempool) p → admissible (OpAdd uo) (without_prev out p) →
  cfg.(cfg_network) ≠ Some false →
  keyed (rep_view self.(up_reputation).(entities)) →
  (∀ a, 0 ≤ (entry_or_default self.(up_reputation) a).(uo_seen) ≤ U64_MAX - 3) →
  ∃ self', add_user_operation cfg uo (inr out) self = (Ok uo.(uo_hash), self') ∧
    refines self'.(up_mempool) (pool_admit uo out p) ∧
    self'.(up_published) = self.(up_published) ++
      (if bool_decide (cfg.(cfg_network) = None) then [] else [message_of uo out]) ∧
    seen_once_more (entities_of uo) self.(up_reputation) self'.(up_reputation).
Proof.
  intros Hr Ha Hn Hk Hb. destruct (drop_prev_spec out self p Hr) as (s1 & Hs1 & Hr1 & Hrep1 & Hpub1).
  unfold add_user_operation. rewrite (st_bind_step _ _ _ _ _ Hs1).
  assert (∃ s2, send_to_network cfg uo out s1 = (Ok (), s2) ∧ s2.(up_mempool) = s1.(up_mempool) ∧
    s2.(up_reputation) = s1.(up_reputation) ∧ s2.(up_published) = s1.(up_published) ++
      (if bool_decide (cfg.(cfg_network) = None) then [] else [message_of uo out]))
    as (s2 & Hs2 & Hm2 & Hrep2 & Hpub2).
  { unfold send_to_network. destruct (cfg_network cfg) as [[]|]; [|done|].
    - eexists. by split_and!.
    - exists s1. by rewrite app_nil_r. }
  rewrite (st_bind_step _ _ _ _ _ Hs2).
  destruct (store_validated_spec uo out s2 p) as (m & Hm & ->); [by rewrite Hm2|done|].
  destruct (count_entities_spec uo.(uo_hash) [Some uo.(uo_sender); get_address uo.(uo_init_code);
    get_address uo.(uo_paymaster_and_data)] (with_mempool m s2)) as (s3 & Hs3 & [Hm3 Hp3] & Hc).
  { simpl. by rewrite Hrep2, Hrep1. }
  { intros a. simpl. rewrite Hrep2, Hrep1. apply Hb. }
  rewrite (st_bind_step _ _ _ _ _ Hs3). exists s3. split; [done|]. split; [by rewrite Hm3|]. split.
  - rewrite Hp3. simpl. by rewrite Hpub2, Hpub1.
  - rewrite <-Hrep1, <-Hrep2. unfold entities_of, factory_of, paymaster_of. simpl in Hc.
    by rewrite app_nil_r in Hc.
Qed.

(** C5. Admitting a validated operation cannot fail while
    the network channel, if there is one, is open and the counters are below the
    64-bit limit.  It returns the operation's hash, takes the replaced operation
    out of the pool, puts the new one and its code hashes in, publishes exactly
    one message when the network is enabled and none otherwise, and counts each
    of sender, factory and paymaster as seen once more. *)
Theorem admission_effect uo out self p :
  refines self.(up_mempool) p → admissible (OpAdd uo) (without_prev out p) →
  cfg.(cfg_network) ≠ Some false →
  keyed (rep_view self.(up_reputation).(entities)) →
  (∀ a, 0 ≤ (entry_or_default self.(up_reputation) a).(uo_seen) ≤ U64_MAX - 3) →
  ∃ self', add_user_operation cfg uo (inr out) self = (Ok uo.(uo_hash), self') ∧
    refines self'.(up_mempool) (pool_admit uo out p) ∧
    self'.(up_published) = self.(up_published) ++
      (if bool_decide (cfg.(cfg_network) = None) then [] else [message_of uo out]) ∧
    seen_once_more (entities_of uo) self.(up_reputation) self'.(up_reputation).
Proof. apply admission_spec. Qed.

(** A validation error always comes back as the
    operation's own error.  If the error is that an entity is banned, every
    pooled operation that has this entity as factory or paymaster leaves the
    pool; after any other error the pool is unchanged.  Nothing is published and
    no counter moves. *)
Theorem banned_rejection uo err self p :
  refines self.(up_mempool) p →
  ∃ self', add_user_operation cfg uo (inl err) self =
      (Err (mempool_error uo.(uo_hash) (InvalidUserOperation err)), self') ∧
    refines self'.(up_mempool)
      match err with
      | InvSanity (SanReputation (BannedEntity _ a)) => pool_drop (entity_hashes p a) p
      | _ => p
      end ∧
    self'.(up_reputation) = self.(up_reputation) ∧ self'.(up_published) = self.(up_published).
Proof.
  intros Hr. unfold add_user_operation.
  assert (Hkeep : ∀ q, q = p → ∃ self' : UoPool S R,
    (do* _ := st_ret () in st_lift (Err (mempool_error uo.(uo_hash) (InvalidUserOperation err)))) self
      = (Err (A:=UserOperationHash) (mempool_error uo.(uo_hash) (InvalidUserOperation err)), self') ∧
    refines self'.(up_mempool) q ∧ self'.(up_reputation) = self.(up_reputation) ∧
    self'.(up_published) = self.(up_published)) by (intros q ->; by exists self).
  destruct err as [|[| | | | | | | | |[]| | |]|]; try (by apply Hkeep).
  destruct (exec_refines_lemma (OpRemoveByEntity address) _ p Hr I) as (s' & Hs & Hr').
  exists (with_mempool s' self). simpl in Hs.
  unfold remove_user_operation_by_entity, st_bind, st_ignore, on_mempool, st_zoom. by rewrite Hs.
Qed.
End admission.

(** ** Reachable pools *)
Section reachable.
Context {P : Profile} {A : Abi} {AOk : AbiOk A} {D : Display} {N : Node} {HO : HashOrder}
  {CD : ChainData}.
Context {S : Type} `{PS : PoolStorage S} {R : Type} `{RL : ReputationEntryLaws R}.
Context `{V : UserOperationValidator S R} {VL : ValidatorLaws S R} (cfg : UoPoolConfig).
Implicit Types (self : UoPool S R) (uo : UserOperation).

(** one handler at a time, with the operations that it submits; an operation is
    added with the outcome of validating it in the same state *)
Inductive pool_step : UoPool S R → list UserOperation → UoPool S R → Prop :=
| step_add self uo c res :
    uo_wf uo → uo.(uo_hash) = hash uo cfg.(cfg_entry_point) cfg.(cfg_chain_id) →
    as_result (F:=MempoolError) (validate_user_operation self uo c) = Ok res →
    pool_step self [uo] (add_user_operation cfg uo res self).2
| step_remove self uos : pool_step self [] (remove_user_operations (E:=MempoolError) uos self).2
| step_bundle self uos : pool_step self [] (bundle_user_operations cfg uos self).2
| step_block self h : pool_step self [] (handle_block_update cfg h self).2
| step_set_reputation self es : pool_step self [] (set_reputation es self).2
| step_update_hourly self : pool_step self [] (on_reputation update_hourly self).2
| step_clear_mempool self : pool_step self [] (clear_mempool (E:=MempoolErrorKind) self).2
| step_clear_reputation self : pool_step self [] (clear_reputation (E:=MempoolErrorKind) self).2
| step_clear self : pool_step self [] (pool_clear (E:=MempoolErrorKind) self).2.

(** handlers one after the other, and all that they submit *)
Inductive handler_run : UoPool S R → list UserOperation → UoPool S R → Prop :=
| run_nil self : handler_run self [] self
| run_snoc self uos self1 uos1 self2 :
    handler_run self uos self1 → pool_step self1 uos1 self2 → handler_run self (uos1 ++ uos) self2.

(** every handler but an admission *)
Lemma preserved_or_admitted (I : UoPool S R → Prop) `{HI : !HandlerInvariant I} self uos self' :
  pool_step self uos self' → I self →
  I self' ∨ ∃ uo c out, uos = [uo] ∧ uo_wf uo ∧
    uo.(uo_hash) = hash uo cfg.(cfg_entry_point) cfg.(cfg_chain_id) ∧
    validate_user_operation self uo c = Ok out ∧
    self' = (add_user_operation cfg uo (inr out) self).2.
Proof.
  intros Hst Hi. destruct Hst as [self uo c [err|out] Hwf Hh Hv| | | | | | | |].
  - left. by apply preserves_reject.
  - right. exists uo, c, out. split_and!; [done..| |done]. unfold as_result in Hv.
    by case_match; simplify_eq.
  - left. by apply (preserves_remove_user_operations I).
  - left. by apply (preserves_bundle cfg I).
  - left. by apply (preserves_block cfg I).
  - left. by refine (preserves_on_reputation I _ (set_entities_only es) self Hi).
  - left. by refine (preserves_on_reputation I _ (on_entities_only _) self Hi).
  - left. by apply (preserves_clear_mempool I).
  - left. by refine (preserves_clear_reputation I self Hi).
  - left. by refine (preserves_pool_clear I self Hi).
Qed.

Lemma pool_step_inv known self uos self' :
  is_address cfg.(cfg_entry_point) → is_u256 cfg.(cfg_chain_id) →
  distinct_ops cfg (uos ++ known) → pool_step self uos self' → pool_inv cfg known self →
  pool_inv cfg (uos ++ known) self'.
Proof using VL AOk.
  intros Hep Hci Hd Hst Hi.
  destruct (preserved_or_admitted (pool_inv cfg known) _ _ _ Hst Hi)
    as [?|(uo & c & out & -> & ? & ? & ? & ->)]; [|by eapply add_valid_inv].
  eapply pool_inv_mono; [|done]. intros v Hv. apply elem_of_app. by right.
Qed.

(** C1. Pool integrity.  Starting from a pool in order, every state reached by any
    interleaving of complete handlers (add with validation, removal, bundling,
    block updates, hourly and administrative calls) is in order, over the
    in-memory storage as over the database, as long as keccak256 tells the
    operations apart that the storage was given before and that the handlers
    submit: the storage holds the pool (the sender index exactly), every operation
    is stored under its own hash, a sender has at most one operation per nonce,
    and no sender is the factory or paymaster of another pooled operation. *)
Theorem pool_reachable_invariant known self submitted self' :
  is_address cfg.(cfg_entry_point) → is_u256 cfg.(cfg_chain_id) →
  distinct_ops cfg (submitted ++ known) →
  pool_inv cfg known self → handler_run self submitted self' →
  pool_inv cfg (submitted ++ known) self'.
Proof using VL AOk.
  intros Hep Hci Hd Hi Hrun. induction Hrun as [|self uos self1 uos1 self2 _ IH Hst]; [done|].
  rewrite <-app_assoc in *. eapply pool_step_inv; [done..|]. apply IH; [|done].
  eapply distinct_ops_subset; [|exact Hd]. intros v Hv. apply elem_of_app. by right.
Qed.
End reachable.
