(* ===== verification/Bundling.v ===== *)
(** What a bundle contains: the properties of [UoPool::bundle_user_operations]
    ([crates/mempool/src/uopool.rs]), proved from one induction principle for
    its loop. *)

From S2P Require Import Prelude Primitives Errors AbiStd Gas Reputation Mempool.
From S2P Require Import MemoryStore EntryPoint Fixture Sanity Simulation Trace.
From S2P Require Import Validator UoPool.

(** an operation of the bundle with the outcome of its second validation *)
Definition Entry : Type := UserOperation * UserOperationValidationOutcome.

Definition entry_gas (e : Entry) : Z :=
  e.2.(out_verification_gas_limit) + e.1.(uo_call_gas_limit).
Definition total_gas (log : list Entry) : Z := foldr Z.add 0 (entry_gas <$> log).
(** what a paymaster has to pay in advance for the operations of a bundle *)
Definition prefunds (p : Address) (log : list Entry) : Z :=
  foldr Z.add 0 ((λ e : Entry, e.2.(out_pre_fund)) <$> filter (λ e : Entry, paymaster_of e.1 = Some p) log).
Definition paid_by (p : Address) (log : list Entry) : Z :=
  Z.of_nat (length (filter (λ e : Entry, paymaster_of e.1 = Some p) log)).
Definition made_by (f : Address) (log : list Entry) : Z :=
  Z.of_nat (length (filter (λ e : Entry, factory_of e.1 = Some f) log)).

Section bundling.
Context {P : Profile} {A : Abi} {D : Display} {N : Node} {HO : HashOrder}.
Context {S : Type} `{MempoolStore S} {R : Type} `{ReputationEntryOp R}.
Context `{V : UserOperationValidator S R} (cfg : UoPoolConfig).
Implicit Types (self : UoPool S R) (uo : UserOperation) (r : Reputation R).

(** the status the bundler reads from an operation's bytes *)
Definition status_at r (b : bytes) : comp ReputationError Status :=
  map_ok status_of_code (get_status_from_bytes r b).

(** a part may take part: it is not banned, and not over the count if throttled *)
Definition may_join r (data : bytes) (count : Z) : Prop :=
  ∃ st, status_at r data = Ok st ∧ st ≠ BANNED ∧
    (st = THROTTLED → count ≤ THROTTLED_ENTITY_BUNDLE_COUNT).

(** the deposit the bundler believes a paymaster to have *)
Definition known_deposit (b : Bundling) (p : Address) : comp string U256 :=
  match b.(paymaster_dep) !! p with
  | Some n => Ok n
  | None => map_err (deposit_error p) (balance_of p)
  end.

Definition count_opt (o : option Address) (c : gmap Address Z) : gmap Address Z :=
  match o with Some a => count_entity a c | None => c end.

(** the loop took [uo] into the bundle *)
Record joins (all : gset Address) r (b : Bundling) uo (out : UserOperationValidationOutcome)
    (b' : Bundling) : Prop := {
  j_new : uo.(uo_sender) ∉ b.(senders);
  j_paymaster : may_join r uo.(uo_paymaster_and_data) (count_of b (paymaster_of uo));
  j_factory : may_join r uo.(uo_init_code) (count_of b (factory_of uo));
  j_validated : ∃ s : S, validate uo s r None second_modes = Ok out;
  j_now : out.(out_valid_after) = None;
  j_apart : touches_other_sender uo all out.(out_storage_map) = false;
  j_gas : b'.(gas_total) = saturating_add b.(gas_total)
            (saturating_add out.(out_verification_gas_limit) uo.(uo_call_gas_limit));
  j_gas_max : b'.(gas_total) ≤ cfg.(cfg_max_verification_gas);
  j_deposit : match paymaster_of uo with
    | Some p => ∃ balance, known_deposit b p = Ok balance ∧ out.(out_pre_fund) ≤ balance ∧
        b'.(paymaster_dep) = <[p := saturating_sub balance out.(out_pre_fund)]> b.(paymaster_dep)
    | None => b'.(paymaster_dep) = b.(paymaster_dep)
    end;
  j_counts : b'.(staked_entity_c) =
    count_opt (factory_of uo) (count_opt (paymaster_of uo) b.(staked_entity_c));
  j_uos : b'.(uos_valid) = b.(uos_valid) ++ [uo];
  j_senders : b'.(senders) = {[uo.(uo_sender)]} ∪ b.(senders);
}.

(** only the storage maps may differ *)
Definition same_bundle (b b' : Bundling) : Prop :=
  b'.(uos_valid) = b.(uos_valid) ∧ b'.(senders) = b.(senders) ∧ b'.(gas_total) = b.(gas_total) ∧
  b'.(paymaster_dep) = b.(paymaster_dep) ∧ b'.(staked_entity_c) = b.(staked_entity_c).

Definition step_result all r b uo (flow : Flow) : Prop :=
  match flow with
  | Continue b' => same_bundle b b' ∨ ∃ out, joins all r b uo out b'
  | Break b' => same_bundle b b'
  end.

Lemma same_bundle_refl b : same_bundle b b.
Proof. done. Qed.
Lemma same_bundle_push m b : same_bundle b (push_storage m b).
Proof. done. Qed.

Lemma drop_reputation text uo self : (drop_from_mempool text uo self).2.(up_reputation) = self.(up_reputation).
Proof.
  unfold drop_from_mempool, st_bind, st_map_err, on_mempool, st_zoom.
  destruct (Mempool.remove _ _) as [[] ?]; done.
Qed.

Lemma throttle_guard r data st c :
  status_at r data = Ok st → st ≠ BANNED →
  bool_decide (st = THROTTLED) && bool_decide (THROTTLED_ENTITY_BUNDLE_COUNT < c) = false →
  may_join r data c.
Proof.
  intros Hst Hb Ht. exists st. split; [done|]. split; [done|]. intros ->.
  rewrite bool_decide_true in Ht by done. simpl in Ht.
  destruct (bool_decide_reflect (THROTTLED_ENTITY_BUNDLE_COUNT < c)); [done|lia].
Qed.

Lemma bundle_validated_ok all r b uo (s : S) out flow :
  uo.(uo_sender) ∉ b.(senders) →
  may_join r uo.(uo_paymaster_and_data) (count_of b (paymaster_of uo)) →
  may_join r uo.(uo_init_code) (count_of b (factory_of uo)) →
  validate uo s r None second_modes = Ok out →
  bundle_validated cfg uo all b out = Ok flow → step_result all r b uo flow.
Proof.
  intros Hn Hp Hf Hv. unfold bundle_validated.
  destruct (bool_decide_reflect (is_Some out.(out_valid_after))) as [|Hva];
    [intros [= <-]; by left|].
  apply eq_None_not_Some in Hva.
  destruct (touches_other_sender _ _ _) eqn:Ht; [intros [= <-]; by left|]. cbv zeta.
  case_bool_decide as Hg; [intros [= <-]; apply same_bundle_push|]. apply Z.nlt_ge in Hg.
  assert (Hjoin : ∀ dep, match paymaster_of uo with
      | Some p => ∃ balance, known_deposit b p = Ok balance ∧ out.(out_pre_fund) ≤ balance ∧
          dep = <[p := saturating_sub balance out.(out_pre_fund)]> b.(paymaster_dep)
      | None => dep = b.(paymaster_dep)
      end → step_result all r b uo (Continue {| uos_valid := b.(uos_valid) ++ [uo];
        senders := {[uo.(uo_sender)]} ∪ b.(senders);
        gas_total := saturating_add b.(gas_total)
          (saturating_add out.(out_verification_gas_limit) uo.(uo_call_gas_limit));
        paymaster_dep := dep;
        staked_entity_c := count_opt (factory_of uo) (count_opt (paymaster_of uo) b.(staked_entity_c));
        storage_maps := b.(storage_maps) ++ [out.(out_storage_map)] |})).
  { intros dep Hdep. right. exists out. constructor; try done. by exists s. }
  unfold paymaster_of, factory_of in *.
  destruct (get_address uo.(uo_paymaster_and_data)) as [p|]; simpl in *.
  - unfold charge; simpl. change (match paymaster_dep b !! p with Some n => Ok n
      | None => map_err (deposit_error p) (balance_of p) end) with (known_deposit b p).
    destruct (known_deposit b p) as [bal| |] eqn:Hk; simpl; [|done..].
    case_bool_decide as Hlt; intros [= <-]; [left; apply same_bundle_push|].
    eapply Hjoin. exists bal. split; [done|]. split; [lia|done].
  - intros [= <-]. by apply Hjoin.
Qed.

Lemma status_from_bytes_ok self data st :
  status_from_bytes self data = Ok st → status_at self.(up_reputation) data = Ok st.
Proof.
  unfold status_from_bytes, status_at. destruct (get_status_from_bytes _ _); simpl; [congruence|done..].
Qed.

Lemma drop_step_ok text b uo self flow self' :
  (do* _ := drop_from_mempool text uo in st_ret (Continue b)) self = (Ok flow, self') →
  self'.(up_reputation) = self.(up_reputation) ∧ flow = Continue b.
Proof.
  intros (x & s1 & Hd & Hr)%st_bind_ok. unfold st_ret in Hr. simplify_eq.
  split; [|done]. rewrite <-(drop_reputation text uo self). by rewrite Hd.
Qed.

Lemma bundle_step_ok all b uo self flow self' :
  bundle_step cfg all b uo self = (Ok flow, self') →
  self'.(up_reputation) = self.(up_reputation) ∧
  step_result all self.(up_reputation) b uo flow.
Proof.
  unfold bundle_step. case_bool_decide as Hs; [by intros [= <- <-]; split; [|left]|].
  intros (p_st & s1 & Hp & Hk)%st_bind_ok. unfold st_get in Hp. injection Hp as Hp <-.
  apply st_bind_ok in Hk as (f_st & s2 & Hf & Hk). unfold st_get in Hf. injection Hf as Hf <-.
  apply status_from_bytes_ok in Hp, Hf. cbv zeta in Hk.
  destruct (bool_decide (p_st = BANNED) || bool_decide (f_st = BANNED)) eqn:Hban.
  { apply drop_step_ok in Hk as [? ->]. by split; [|left]. }
  apply orb_false_elim in Hban as [Hpb%bool_decide_eq_false_1 Hfb%bool_decide_eq_false_1].
  destruct (bool_decide (p_st = THROTTLED) && _) eqn:Hpt;
    [unfold st_ret in Hk; simplify_eq; by split; [|left]|].
  destruct (bool_decide (f_st = THROTTLED) && _) eqn:Hft;
    [unfold st_ret in Hk; simplify_eq; by split; [|left]|].
  apply st_bind_ok in Hk as (vo & s3 & Hv & Hk). unfold st_get in Hv. injection Hv as Hv <-.
  destruct vo as [e|out]; [apply drop_step_ok in Hk as [? ->]; by split; [|left]|].
  unfold st_lift in Hk. injection Hk as Hk <-. split; [done|].
  eapply bundle_validated_ok; [done|by eapply throttle_guard|by eapply throttle_guard| |done].
  unfold as_result in Hv. by case_match; simplify_eq.
Qed.

(** induction over the iterations: [I] sees the operations looked at, the
    accumulator, and the log of those taken in *)
Lemma bundle_loop_ind all r (I : list UserOperation → Bundling → list Entry → Prop) :
  (∀ seen b b' log uo, I seen b log → same_bundle b b' → I (seen ++ [uo]) b' log) →
  (∀ seen b b' log uo out, I seen b log → joins all r b uo out b' →
     I (seen ++ [uo]) b' (log ++ [(uo, out)])) →
  ∀ uos seen b log self b' self', self.(up_reputation) = r → I seen b log →
    bundle_loop cfg all uos b self = (Ok b', self') →
    ∃ l log', l `prefix_of` uos ∧ I (seen ++ l) b' log'.
Proof.
  intros Hskip Hjoin uos. induction uos as [|uo uos IH]; intros seen b log self b' self' Hr HI Hl; simpl in Hl.
  { unfold st_ret in Hl. simplify_eq. exists [], log. by rewrite app_nil_r. }
  apply st_bind_ok in Hl as (flow & s1 & Hst & Hl).
  apply bundle_step_ok in Hst as [Hr1 Hres]. rewrite Hr in Hr1, Hres.
  destruct flow as [b1|b1]; simpl in Hres.
  - assert (∃ log1, I (seen ++ [uo]) b1 log1) as (log1 & HI1).
    { destruct Hres as [?|(out & ?)]; eauto. }
    destruct (IH _ _ _ _ _ _ Hr1 HI1 Hl) as (l & log' & Hpre & HI'). exists (uo :: l), log'.
    split; [by apply prefix_cons|]. by rewrite <-app_assoc in HI'.
  - unfold st_ret in Hl. simplify_eq. exists [uo], log. split; [by apply prefix_cons, prefix_nil|].
    by eapply Hskip.
Qed.

(** an invariant of the log, from an empty bundle *)
Lemma bundle_ind all (I : list UserOperation → Bundling → list Entry → Prop) uos self b self' :
  I [] Bundling_default [] →
  (∀ seen b b' log uo, I seen b log → same_bundle b b' → I (seen ++ [uo]) b' log) →
  (∀ seen b b' log uo out, I seen b log → joins all self.(up_reputation) b uo out b' →
     I (seen ++ [uo]) b' (log ++ [(uo, out)])) →
  bundle_loop cfg all uos Bundling_default self = (Ok b, self') →
  ∃ l log, l `prefix_of` uos ∧ I l b log.
Proof.
  intros H0' Hs Hj Hl. exact (bundle_loop_ind all _ I Hs Hj uos [] _ [] self b self' eq_refl H0' Hl).
Qed.

(** *** Log arithmetic *)
Lemma foldr_add_app l k : foldr Z.add 0 (l ++ k) = foldr Z.add 0 l + foldr Z.add 0 k.
Proof. induction l as [|x l IH]; simpl; lia. Qed.

Lemma total_gas_snoc log e : total_gas (log ++ [e]) = total_gas log + entry_gas e.
Proof. unfold total_gas. rewrite fmap_app, foldr_add_app. simpl. lia. Qed.

Lemma prefunds_snoc p log e :
  prefunds p (log ++ [e]) =
  prefunds p log + (if bool_decide (paymaster_of e.1 = Some p) then e.2.(out_pre_fund) else 0).
Proof.
  unfold prefunds. rewrite filter_app, fmap_app, foldr_add_app, filter_cons, filter_nil.
  case_decide; case_bool_decide; try done; simpl; lia.
Qed.

Lemma paid_by_snoc p log e :
  paid_by p (log ++ [e]) = paid_by p log + (if bool_decide (paymaster_of e.1 = Some p) then 1 else 0).
Proof.
  unfold paid_by. rewrite filter_app, length_app, filter_cons, filter_nil.
  case_decide; case_bool_decide; try done; simpl; lia.
Qed.

Lemma made_by_snoc p log e :
  made_by p (log ++ [e]) = made_by p log + (if bool_decide (factory_of e.1 = Some p) then 1 else 0).
Proof.
  unfold made_by. rewrite filter_app, length_app, filter_cons, filter_nil.
  case_decide; case_bool_decide; try done; simpl; lia.
Qed.

Lemma count_opt_lookup o (a : Address) c :
  default 0 (count_opt o c !! a) = default 0 (c !! a) + (if bool_decide (o = Some a) then 1 else 0).
Proof.
  destruct o as [b|]; cbn [count_opt]; [|rewrite bool_decide_false by done; lia].
  unfold count_entity. destruct (decide (b = a)) as [->|Hne].
  - rewrite bool_decide_true by done. destruct (c !! a); by rewrite lookup_insert_eq.
  - rewrite bool_decide_false by congruence.
    destruct (c !! b); rewrite lookup_insert_ne by done; lia.
Qed.

Lemma filter_none_app {B} (Q : B → Prop) `{∀ x, Decision (Q x)} l x :
  filter Q l = [] → ¬ Q x → filter Q (l ++ [x]) = [].
Proof. intros Hl Hx. rewrite filter_app, Hl, filter_cons, filter_nil. by case_decide. Qed.

(** *** What the loop maintains *)
(** a second validation that succeeded for now and stays in its own storage *)
Definition validated (all : gset Address) r (e : Entry) : Prop :=
  (∃ s : S, validate e.1 s r None second_modes = Ok e.2) ∧ e.2.(out_valid_after) = None ∧
  touches_other_sender e.1 all e.2.(out_storage_map) = false.

Definition not_banned r (o : option Address) : Prop :=
  ∀ a, o = Some a → ∃ c, get_status r a = Ok c ∧ status_of_code c ≠ BANNED.

Record selected all r (seen : list UserOperation) (b : Bundling) (log : list Entry) : Prop := {
  sel_uos : b.(uos_valid) = log.*1;
  sel_sub : log.*1 `sublist_of` seen;
  sel_senders : b.(senders) = list_to_set ((λ uo : UserOperation, uo.(uo_sender)) <$> log.*1);
  sel_nodup : NoDup ((λ uo : UserOperation, uo.(uo_sender)) <$> log.*1);
  sel_validated : Forall (validated all r) log;
  sel_not_banned : Forall (λ e : Entry, not_banned r (paymaster_of e.1) ∧ not_banned r (factory_of e.1)) log;
}.

Lemma may_join_not_banned r data c : may_join r data c → not_banned r (get_address data).
Proof.
  intros (st & Hst & Hb & _) a Ha. unfold status_at, get_status_from_bytes in Hst. rewrite Ha in Hst.
  apply map_ok_ok in Hst as (code & Hc & Hst). subst st. by exists code.
Qed.

Lemma selected_nil all r : selected all r [] Bundling_default [].
Proof. constructor; try done. constructor. Qed.

Lemma selected_skip all r seen b b' log uo :
  selected all r seen b log → same_bundle b b' → selected all r (seen ++ [uo]) b' log.
Proof.
  intros [Hu Hsub Hs Hn Hv Hb] (Eu & Es & _). constructor; try done.
  - by rewrite Eu.
  - by apply sublist_inserts_r.
  - by rewrite Es.
Qed.

Lemma selected_join all r seen b b' log uo out :
  selected all r seen b log → joins all r b uo out b' →
  selected all r (seen ++ [uo]) b' (log ++ [(uo, out)]).
Proof.
  intros [Hu Hsub Hs Hn Hv Hb] []. constructor.
  - by rewrite fmap_app, j_uos0, Hu.
  - rewrite fmap_app. by apply sublist_app.
  - rewrite j_senders0, Hs, !fmap_app, list_to_set_app_L. set_solver.
  - rewrite !fmap_app, NoDup_app. rewrite Hs in j_new0. split_and!; [done| |apply NoDup_singleton].
    intros x Hx ->%list_elem_of_singleton. by apply j_new0, elem_of_list_to_set.
  - apply Forall_app. split; [done|]. by apply Forall_singleton.
  - apply Forall_app. split; [done|]. apply Forall_singleton.
    split; by eapply may_join_not_banned.
Qed.

(** the log of a bundle, with whatever else the iterations maintain *)
Lemma selected_with (X : Bundling → list Entry → Prop) uos uos' m self self' :
  let all := list_to_set ((λ uo : UserOperation, uo.(uo_sender)) <$> uos) in
  X Bundling_default [] →
  (∀ b b' log, X b log → same_bundle b b' → X b' log) →
  (∀ b b' log uo out, uo ∈ uos → X b log → joins all self.(up_reputation) b uo out b' →
     X b' (log ++ [(uo, out)])) →
  bundle_user_operations cfg uos self = (Ok (uos', m), self') →
  ∃ log b, uos' = log.*1 ∧ log.*1 `sublist_of` uos ∧
    selected all self.(up_reputation) uos b log ∧ X b log.
Proof.
  intros all X0 Xs Xj (b & s1 & Hl & Hr)%st_bind_ok. unfold st_ret in Hr. simplify_eq.
  destruct (bundle_ind all (λ seen b log, seen `prefix_of` uos → selected all self.(up_reputation) seen b log ∧ X b log)
    uos self b self') as (l & log & Hl' & HI); [by split; [apply selected_nil|]| | |done|].
  - intros seen b0 b1 log uo HI Hsame Hpre.
    destruct HI as [? ?]; [by eapply prefix_app_l|]. split; [by eapply selected_skip|by eapply Xs].
  - intros seen b0 b1 log uo out HI Hj Hpre.
    destruct HI as [? ?]; [by eapply prefix_app_l|]. split; [by eapply selected_join|].
    eapply Xj; [|done..]. eapply elem_of_prefix; [|exact Hpre]. set_solver.
  - destruct (HI Hl') as [[] ?]. exists log, b. split_and!; [done| | |done].
    + etrans; [done|]. destruct Hl' as [k ->]. by apply sublist_inserts_r.
    + constructor; try done. etrans; [done|]. destruct Hl' as [k ->]. by apply sublist_inserts_r.
Qed.

Lemma touches_false uo all m a :
  touches_other_sender uo all m = false →
  is_Some (m.(root_hashes) !! a) ∨ is_Some (m.(slots) !! a) → a ≠ uo.(uo_sender) → a ∉ all.
Proof.
  intros Ht Ha Hne Hin. apply not_true_iff_false in Ht. apply Ht, existsb_exists. exists a. split.
  - apply list_elem_of_In, elem_of_app.
    destruct Ha as [[v Hv]|[v Hv]]; [left|right]; apply list_elem_of_fmap; exists (a, v);
      by rewrite elem_of_iter_map.
  - by rewrite !bool_decide_true.
Qed.

(** *** Budgets *)
(** outcomes and operations hold unsigned numbers *)
Definition outcomes_unsigned : Prop := ∀ uo (s : S) r c m out,
  validate uo s r c m = Ok out → 0 ≤ out.(out_verification_gas_limit) ∧ 0 ≤ out.(out_pre_fund).

Definition within_budget (b : Bundling) (log : list Entry) : Prop :=
  b.(gas_total) = total_gas log ∧ 0 ≤ total_gas log ≤ cfg.(cfg_max_verification_gas) ∧
  ∀ p, match b.(paymaster_dep) !! p with
       | Some n => ∃ balance, balance_of p = Ok balance ∧ n = balance - prefunds p log ∧ 0 ≤ n
       | None => filter (λ e : Entry, paymaster_of e.1 = Some p) log = []
       end.

Lemma saturating_add_below a b m : saturating_add a b ≤ m → m < U256_MAX → saturating_add a b = a + b.
Proof. unfold saturating_add. lia. Qed.

Lemma within_budget_join all r b b' log uo out :
  outcomes_unsigned → cfg.(cfg_max_verification_gas) < U256_MAX → 0 ≤ uo.(uo_call_gas_limit) →
  within_budget b log → joins all r b uo out b' → within_budget b' (log ++ [(uo, out)]).
Proof.
  intros Ht Hmax Hc (Hg & Hb & Hd) []. destruct j_validated0 as [s Hv].
  destruct (Ht _ _ _ _ _ _ Hv) as [Hvg Hpf]. unfold within_budget.
  assert (b'.(gas_total) = total_gas (log ++ [(uo, out)])) as Hg'.
  { rewrite total_gas_snoc. unfold entry_gas; simpl. rewrite j_gas0 in *.
    unfold saturating_add in *. lia. }
  split; [done|]. split.
  { rewrite <-Hg'. split; [|done]. rewrite Hg', total_gas_snoc. unfold entry_gas; simpl. lia. }
  intros q. rewrite prefunds_snoc. cbn [fst snd]. specialize (Hd q) as Hdq.
  destruct (paymaster_of uo) as [p|] eqn:Hp.
  2: { rewrite j_deposit0. destruct (_ !! q).
       - rewrite bool_decide_false by done. destruct Hdq as (? & ? & ? & ?). eexists. split; [done|]. lia.
       - apply filter_none_app; [done|]. simpl. by rewrite Hp. }
  destruct j_deposit0 as (bal & Hk & Hle & ->). destruct (decide (p = q)) as [->|Hne].
  - rewrite lookup_insert_eq, bool_decide_true by done. unfold known_deposit in Hk.
    destruct (_ !! q) as [n|].
    + destruct Hdq as (bal' & Hbal & Hn & _). exists bal'. split; [done|]. injection Hk as ->.
      unfold saturating_sub. lia.
    + apply map_err_ok in Hk. exists bal. split; [done|]. unfold prefunds. rewrite Hdq.
      unfold saturating_sub. simpl. lia.
  - rewrite lookup_insert_ne, bool_decide_false by congruence. destruct (_ !! q).
    + destruct Hdq as (? & ? & ? & ?). eexists. split; [done|]. lia.
    + apply filter_none_app; [done|]. simpl. rewrite Hp. congruence.
Qed.

(** *** Throttling *)
Definition counted r (b : Bundling) (log : list Entry) : Prop :=
  ∀ a, default 0 (b.(staked_entity_c) !! a) = paid_by a log + made_by a log ∧
    (∀ c, get_status r a = Ok c → status_of_code c = THROTTLED →
       paid_by a log ≤ THROTTLED_ENTITY_BUNDLE_COUNT + 1 ∧
       made_by a log ≤ THROTTLED_ENTITY_BUNDLE_COUNT + 1).

Lemma may_join_throttled r data count a c :
  may_join r data count → get_address data = Some a → get_status r a = Ok c →
  status_of_code c = THROTTLED → count ≤ THROTTLED_ENTITY_BUNDLE_COUNT.
Proof.
  intros (st & Hst & _ & Ht) Ha Hc Hc'. apply Ht. unfold status_at, get_status_from_bytes in Hst.
  rewrite Ha, Hc in Hst. simpl in Hst. congruence.
Qed.

Lemma length_filter_fst {B C} (Q : B → Prop) `{∀ x, Decision (Q x)} (l : list (B * C)) :
  length (filter Q l.*1) = length (filter (λ e, Q e.1) l).
Proof.
  induction l as [|e l IH]; [done|]. rewrite fmap_cons, !filter_cons. by case_decide; simpl; rewrite IH.
Qed.

Lemma counted_join all r b b' log uo out :
  counted r b log → joins all r b uo out b' → counted r b' (log ++ [(uo, out)]).
Proof.
  intros Hc [] a. specialize (Hc a) as [Hn Ht].
  rewrite paid_by_snoc, made_by_snoc. cbn [fst]. split.
  - rewrite j_counts0, !count_opt_lookup, Hn. lia.
  - intros c Hst Hth. destruct (Ht c Hst Hth) as [? ?].
    assert (0 ≤ paid_by a log ∧ 0 ≤ made_by a log) by (unfold paid_by, made_by; lia). split.
    + case_bool_decide as Hp; [|lia].
      assert (count_of b (paymaster_of uo) ≤ THROTTLED_ENTITY_BUNDLE_COUNT)
        by (by eapply may_join_throttled).
      rewrite Hp in *. simpl in *. lia.
    + case_bool_decide as Hp; [|lia].
      assert (count_of b (factory_of uo) ≤ THROTTLED_ENTITY_BUNDLE_COUNT)
        by (by eapply may_join_throttled).
      rewrite Hp in *. simpl in *. lia.
Qed.

(** ** Properties *)

(** C6. A bundle is a subsequence of the candidates with at
    most one operation per sender.  Each of its operations passed a second
    validation, is valid from now on, touches no storage of another candidate's
    sender, and has neither a banned paymaster nor a banned factory.  The status of
    the sender is not looked at here. *)
Theorem bundle_selection uos uos' m self self' :
  bundle_user_operations cfg uos self = (Ok (uos', m), self') →
  uos' `sublist_of` uos ∧ NoDup ((λ uo : UserOperation, uo.(uo_sender)) <$> uos') ∧
  ∀ uo, uo ∈ uos' →
    not_banned self.(up_reputation) (paymaster_of uo) ∧
    not_banned self.(up_reputation) (factory_of uo) ∧
    ∃ (s : S) out, validate uo s self.(up_reputation) None second_modes = Ok out ∧
      out.(out_valid_after) = None ∧
      ∀ a (other : UserOperation), is_Some (out.(out_storage_map).(root_hashes) !! a) ∨
                 is_Some (out.(out_storage_map).(slots) !! a) →
        a ≠ uo.(uo_sender) → other ∈ uos → other.(uo_sender) ≠ a.
Proof.
  intros Hb. destruct (selected_with (λ _ _, True) uos uos' m self self') as
    (log & b & -> & Hsub & [] & _); [done..|].
  split_and!; [done..|]. intros uo ([u out] & -> & Hin)%list_elem_of_fmap.
  destruct (proj1 (Forall_forall _ _) sel_not_banned0 _ Hin) as [? ?].
  destruct (proj1 (Forall_forall _ _) sel_validated0 _ Hin) as ((s & ?) & ? & Ht).
  split_and!; [done..|]. exists s, out. split_and!; [done..|].
  intros a other Ha Hne Hother <-. eapply touches_false; [done..|].
  apply elem_of_list_to_set, list_elem_of_fmap. by exists other.
Qed.

(** C7. A bundle stays within its budgets: the verification
    and call gas of its operations sum up to at most the configured maximum, and
    for every paymaster the prefunds of the operations it pays for sum up to at
    most its deposit. *)
Theorem bundle_budgets uos uos' m self self' :
  outcomes_unsigned → 0 ≤ cfg.(cfg_max_verification_gas) < U256_MAX →
  Forall (λ uo : UserOperation, 0 ≤ uo.(uo_call_gas_limit)) uos →
  bundle_user_operations cfg uos self = (Ok (uos', m), self') →
  ∃ log : list Entry, uos' = log.*1 ∧
    Forall (λ e : Entry, ∃ s : S, validate e.1 s self.(up_reputation) None second_modes = Ok e.2) log ∧
    total_gas log ≤ cfg.(cfg_max_verification_gas) ∧
    ∀ p, (∃ uo, uo ∈ uos' ∧ paymaster_of uo = Some p) →
      ∃ balance, balance_of p = Ok balance ∧ prefunds p log ≤ balance.
Proof.
  intros Ht [Hm0 Hm] Hwf Hb.
  destruct (selected_with within_budget uos uos' m self self') as
    (log & b & -> & Hsub & [] & Hg & Htot & Hd); [| | |done|].
  - split; [done|]. split; [by unfold total_gas; simpl|]. intros p. simpl. by rewrite lookup_empty.
  - intros b b' log (Hg & Hr & Hd) (_ & _ & Eg & Ed & _). unfold within_budget. by rewrite Eg, Ed.
  - intros b b' log uo out Hin. apply within_budget_join; [done..|].
    by apply (proj1 (Forall_forall _ _) Hwf).
  - exists log. split_and!; [done| |lia|].
    + eapply Forall_impl; [exact sel_validated0|]. by intros e [? _].
    + intros p (uo & (e & -> & Hin)%list_elem_of_fmap & Hp). specialize (Hd p).
      destruct (_ !! p) as [n|].
      * destruct Hd as (bal & ? & -> & ?). exists bal. split; [done|lia].
      * assert (e ∈ (nil : list Entry)) as []%not_elem_of_nil.
        rewrite <-Hd. by apply list_elem_of_filter.
Qed.

(** A throttled entity pays for, or deploys, at most
    five operations of a bundle: the loop turns an operation away only once the
    count exceeds [THROTTLED_ENTITY_BUNDLE_COUNT], which is four. *)
Theorem bundle_throttling uos uos' m self self' a c :
  bundle_user_operations cfg uos self = (Ok (uos', m), self') →
  get_status self.(up_reputation) a = Ok c → status_of_code c = THROTTLED →
  Z.of_nat (length (filter (λ uo : UserOperation, paymaster_of uo = Some a) uos')) ≤ 5 ∧
  Z.of_nat (length (filter (λ uo : UserOperation, factory_of uo = Some a) uos')) ≤ 5.
Proof.
  intros Hb Hc Hth.
  destruct (selected_with (counted self.(up_reputation)) uos uos' m self self') as
    (log & b & -> & Hsub & _ & Hcount); [| | |done|].
  - intros q. simpl. rewrite lookup_empty. unfold paid_by, made_by, THROTTLED_ENTITY_BUNDLE_COUNT.
    split; [done|]. intros. simpl. lia.
  - intros b b' log Hcnt (_ & _ & _ & _ & Ec) q. rewrite Ec. apply Hcnt.
  - intros b b' log uo out _. apply counted_join.
  - rewrite !length_filter_fst. exact (proj2 (Hcount a) c Hc Hth).
Qed.
End bundling.

(** ** The bundler always answers *)
Section total.
Context {P : Profile} {A : Abi} {D : Display} {N : Node} {HO : HashOrder}.
Context {S : Type} `{ML : MempoolLaws S} {R : Type} `{ReputationEntryOp R}.
Context `{V : UserOperationValidator S R} (cfg : UoPoolConfig).
Implicit Types (self : UoPool S R) (uo : UserOperation) (r : Reputation R).

(** a banned entity, or a failed second validation *)
Definition rejected r uo : Prop :=
  status_at r uo.(uo_paymaster_and_data) = Ok BANNED ∨ status_at r uo.(uo_init_code) = Ok BANNED ∨
  ∃ (s : S) e, validate uo s r None second_modes = Err e.

(** [self'] is [self] without the operations in [gone] *)
Definition lost (gone : gset UserOperationHash) (p : Pool) self self' : Prop :=
  refines self'.(up_mempool) (pool_drop gone p) ∧
  self'.(up_reputation) = self.(up_reputation) ∧ self'.(up_published) = self.(up_published).

Definition environment_answers r (uos : list UserOperation) : Prop :=
  (∀ a, ∃ c, get_status r a = Ok c) ∧ (∀ a, ∃ n, balance_of a = Ok n) ∧
  (∀ uo (s : S), uo ∈ uos → validate uo s r None second_modes ≠ Panic).

Lemma pool_drop_empty p : pool_drop ∅ p = p.
Proof. apply pool_eq; simpl; by apply filter_notin_empty. Qed.

Lemma lost_none p self : refines self.(up_mempool) p → lost ∅ p self self.
Proof. intros ?. split; [by rewrite pool_drop_empty|done]. Qed.

Lemma drop_step_total text b uo p self : refines self.(up_mempool) p →
  ∃ self', (do* _ := drop_from_mempool text uo in st_ret (Continue b)) self = (Ok (Continue b), self') ∧
    lost (dom p.(p_uos) ∩ {[uo.(uo_hash)]}) p self self'.
Proof.
  intros Hr. destruct (remove_refines uo.(uo_hash) _ p Hr) as (x & s' & Hs & Hr').
  exists (with_mempool s' self). split; [|done].
  unfold drop_from_mempool, st_bind, st_map_err, on_mempool, st_zoom. by rewrite Hs.
Qed.

Lemma status_answers r uos data : environment_answers r uos → ∃ st, status_at r data = Ok st.
Proof.
  intros [Hs _]. unfold status_at, get_status_from_bytes. destruct (get_address data) as [a|]; [|by eexists].
  destruct (Hs a) as [c ->]. by eexists.
Qed.

Lemma bundle_validated_total all b uo out r uos : environment_answers r uos →
  ∃ flow, bundle_validated cfg uo all b out = Ok flow.
Proof.
  intros (_ & Hb & _). unfold bundle_validated. case_bool_decide; [by eexists|].
  destruct (touches_other_sender _ _ _); [by eexists|]. cbv zeta.
  case_bool_decide; [by eexists|]. destruct (get_address uo.(uo_paymaster_and_data)) as [q|]; [|by eexists].
  assert (∃ o, charge (push_storage out.(out_storage_map) b) q out.(out_pre_fund) = Ok o) as [[]->];
    [|by eexists..].
  unfold charge. destruct (Hb q) as [n ->]. destruct (_ !! q); by eexists.
Qed.

Lemma bundle_step_total all b uo uos p self :
  environment_answers self.(up_reputation) uos → uo ∈ uos → refines self.(up_mempool) p →
  ∃ flow self' gone, bundle_step cfg all b uo self = (Ok flow, self') ∧ lost gone p self self' ∧
    ∀ h, h ∈ gone → uo.(uo_hash) = h ∧ rejected self.(up_reputation) uo.
Proof.
  intros He Hin Hr. assert (Hnone : ∀ (h : UserOperationHash), h ∈ (∅ : gset UserOperationHash) →
    uo.(uo_hash) = h ∧ rejected self.(up_reputation) uo) by (by intros ? ?%not_elem_of_empty).
  assert (Hkeep : ∀ f : Flow, ∃ flow self' gone, st_ret (E:=string) f self = (Ok flow, self') ∧ lost gone p self self' ∧
    ∀ h, h ∈ gone → uo.(uo_hash) = h ∧ rejected self.(up_reputation) uo).
  { intros f. exists f, self, ∅. split_and!; [done|by apply lost_none|done]. }
  assert (Hdrop : ∀ text, rejected self.(up_reputation) uo → ∃ flow self' gone,
    (do* _ := drop_from_mempool text uo in st_ret (Continue b)) self = (Ok flow, self') ∧ lost gone p self self' ∧
    ∀ h, h ∈ gone → uo.(uo_hash) = h ∧ rejected self.(up_reputation) uo).
  { intros text Hrej. destruct (drop_step_total text b uo p self Hr) as (s' & Hs & Hl).
    do 3 eexists. split_and!; [exact Hs|exact Hl|]. by intros h [_ ->%elem_of_singleton]%elem_of_intersection. }
  unfold bundle_step. case_bool_decide; [apply Hkeep|].
  destruct (status_answers _ uos uo.(uo_paymaster_and_data) He) as [ps Hps].
  destruct (status_answers _ uos uo.(uo_init_code) He) as [fs Hfs].
  assert (Hst : ∀ data st, status_at self.(up_reputation) data = Ok st → status_from_bytes self data = Ok st).
  { intros data st. unfold status_at, status_from_bytes. destruct (get_status_from_bytes _ _); simpl; congruence. }
  unfold st_get. rewrite (st_bind_step _ _ self ps self) by (by rewrite (Hst _ ps)).
  rewrite (st_bind_step _ _ self fs self) by (by rewrite (Hst _ fs)). cbv zeta.
  destruct (bool_decide (ps = BANNED) || bool_decide (fs = BANNED)) eqn:Hban.
  { apply Hdrop. apply orb_true_iff in Hban as [E|E]; apply bool_decide_eq_true_1 in E; subst;
      [by left|by right; left]. }
  case_match; [apply Hkeep|]. case_match; [apply Hkeep|].
  destruct (validate uo self.(up_mempool) self.(up_reputation) None second_modes) as [out|e|] eqn:Hv;
    [| |by destruct (proj2 (proj2 He) _ _ Hin Hv)].
  - rewrite (st_bind_step _ _ self (inr out) self) by (by rewrite Hv).
    destruct (bundle_validated_total all b uo out _ uos He) as [flow Hf]. exists flow, self, ∅.
    split_and!; [by unfold st_lift; rewrite Hf|by apply lost_none|done].
  - rewrite (st_bind_step _ _ self (inl e) self) by (by rewrite Hv). apply Hdrop. right; right. by do 2 eexists.
Qed.

Lemma bundle_loop_total all uos0 uos : ∀ b p self,
  environment_answers self.(up_reputation) uos0 → uos ⊆ uos0 → refines self.(up_mempool) p →
  ∃ b' self' gone, bundle_loop cfg all uos b self = (Ok b', self') ∧ lost gone p self self' ∧
    ∀ h, h ∈ gone → ∃ uo, uo ∈ uos ∧ uo.(uo_hash) = h ∧ rejected self.(up_reputation) uo.
Proof.
  induction uos as [|uo uos IH]; intros b p self He Hsub Hr; cbn [bundle_loop].
  { exists b, self, ∅. split_and!; [done|by apply lost_none|by intros ? ?%not_elem_of_empty]. }
  destruct (bundle_step_total all b uo uos0 p self He (Hsub _ (list_elem_of_here _ _)) Hr) as (flow & s1 & g1 & Hs1 & (Hr1 & Hrep1 & Hpub1) & Hg1).
  rewrite (st_bind_step _ _ _ _ _ Hs1). destruct flow as [b1|b1].
  - destruct (IH b1 (pool_drop g1 p) s1) as (b2 & s2 & g2 & Hs2 & (Hr2 & Hrep2 & Hpub2) & Hg2); [by rewrite Hrep1|intros ? ?; by apply Hsub, list_elem_of_further|done|].
    exists b2, s2, (g1 ∪ g2). split; [done|]. split.
    + split; [by rewrite <-pool_drop_drop|]. split; congruence.
    + intros h [?%Hg1|(u & ? & ? & ?)%Hg2]%elem_of_union.
      * exists uo. split; [by left|done].
      * exists u. rewrite <-Hrep1. split; [by right|done].
  - exists b1, s1, g1. split; [done|]. split; [done|]. intros h Hh%Hg1. exists uo. split; [by left|done].
Qed.

(** C8. Bundling always answers while the node answers
    deposit queries and the validator does not crash, and it takes out of the
    pool only candidates that have a banned entity or failed their second
    validation; reputation and published messages do not change. *)
Theorem bundle_answers uos p self :
  environment_answers self.(up_reputation) uos → refines self.(up_mempool) p →
  ∃ res self' gone, bundle_user_operations cfg uos self = (Ok res, self') ∧ lost gone p self self' ∧
    ∀ h, h ∈ gone → ∃ uo, uo ∈ uos ∧ uo.(uo_hash) = h ∧ rejected self.(up_reputation) uo.
Proof.
  intros He Hr. unfold bundle_user_operations.
  edestruct (bundle_loop_total (list_to_set ((λ uo : UserOperation, uo.(uo_sender)) <$> uos)) uos uos
    Bundling_default p self He ltac:(done) Hr) as (b & s' & gone & Hs & ? & ?).
  rewrite (st_bind_step _ _ _ _ _ Hs). by do 3 eexists.
Qed.
End total.

(** ** Concrete evaluations *)
Module Example.
#[local] Existing Instances std_abi std_abi_ok std_display canonical_order fx_profile.
#[local] Existing Instances Trace.Example.lib.
#[local] Instance clock : Clock := {| now_secs := inr 1000 |}.

(** [fx_node] with a validation result that used 160000 gas, and with deposits *)
#[local] Instance node : Node := {|
  Json := JsTracerFrame + ExecutorTracerResult;
  parse_js_frame := parse_js_frame (Node:=fx_node);
  parse_executor_frame := parse_executor_frame (Node:=fx_node);
  call_simulate_validation := call_simulate_validation (Node:=fx_node);
  call_simulate_handle_op := call_simulate_handle_op (Node:=fx_node);
  call_handle_ops := call_handle_ops (Node:=fx_node);
  call_get_deposit_info := call_get_deposit_info (Node:=fx_node);
  call_balance_of _ := inr 10000000;
  call_get_nonce := call_get_nonce (Node:=fx_node);
  call_get_sender_address := call_get_sender_address (Node:=fx_node);
  trace_simulate_validation := trace_simulate_validation (Node:=fx_node);
  trace_simulate_handle_op := trace_simulate_handle_op (Node:=fx_node);
  eth_call := eth_call (Node:=fx_node);
  get_code := get_code (Node:=fx_node);
  get_block_latest := get_block_latest (Node:=fx_node);
  decode_api_error _ := Some (ApiValidationResult {|
    vr_return_info := {| ri_pre_op_gas := 160000; ri_prefund := 1000000; ri_sig_failed := false;
      ri_valid_after := 0; ri_valid_until := 2000000000; ri_paymaster_context := [] |};
    vr_sender_info := (0, 0); vr_factory_info := (0, 0); vr_paymaster_info := (100, 100) |});
  decode_string := decode_string (Node:=fx_node);
  find_hex := find_hex (Node:=fx_node);
  bytes_from_str := bytes_from_str (Node:=fx_node);
|}.

Definition validator : Validator := new_canonical_unsafe 1 5000000 0.
#[local] Instance standard : UserOperationValidator MemStore (gmap Address ReputationEntry) :=
  standard_validator validator.
Definition cfg : UoPoolConfig := {| cfg_mode := Unsafe; cfg_entry_point := 1;
  cfg_max_verification_gas := 5000000; cfg_chain_id := 5; cfg_network := Some true |}.
Definition pool : UoPool MemStore (gmap Address ReputationEntry) :=
  {| up_mempool := fx_store; up_reputation := fx_reputation; up_published := [] |}.

(** what the validator answers for every operation below *)
Definition outcome : UserOperationValidationOutcome := {|
  out_val_config := {| vc_min_stake := Some 1; vc_min_unstake_delay := Some 0; vc_topic := None;
    vc_ignore_prev := false |};
  out_prev_hash := None; out_pre_fund := 1000000; out_verification_gas_limit := 160000;
  out_valid_after := None; out_code_hashes := None; out_storage_map := StorageMap_default;
  out_verified_block := 77 |}.

Lemma validated : validate (fx_uo 2 1 10) fx_store fx_reputation None all_modes = Ok outcome.
Proof. by vm_compute. Qed.

Lemma admission_effect_witness : ∃ self',
  add_user_operation cfg (fx_uo 2 1 10) (inr outcome) pool = (Ok 2, self') ∧
  self'.(up_published) = [message_of (fx_uo 2 1 10) outcome].
Proof.
  destruct (admission_effect cfg (fx_uo 2 1 10) outcome pool fx_pool) as (s' & Hs & _ & Hp & _).
  - exact fx_refines.
  - intros old. by vm_compute.
  - done.
  - intros a e. simpl. by rewrite lookup_empty.
  - intros a. unfold entry_or_default. simpl. rewrite lookup_empty. by vm_compute.
  - by exists s'.
Defined.

Lemma banned_rejection_witness : ∃ self',
  add_user_operation cfg (fx_uo 2 1 10) (inl (InvSanity (SanReputation (BannedEntity "paymaster" 7)))) pool
    = (Err (mempool_error 2 (InvalidUserOperation
        (InvSanity (SanReputation (BannedEntity "paymaster" 7))))), self') ∧
  refines self'.(up_mempool) (pool_drop (entity_hashes fx_pool 7) fx_pool).
Proof.
  destruct (banned_rejection cfg (fx_uo 2 1 10) (InvSanity (SanReputation (BannedEntity "paymaster" 7)))
    pool fx_pool fx_refines) as (s' & Hs & Hr & _). by exists s'.
Defined.

(** *** A throttled paymaster and six candidates it would pay for *)
Definition uo_from (sender : Z) : UserOperation := from_user_operation_signed sender {|
  uo_sender := sender; uo_nonce := 0; uo_init_code := []; uo_call_data := [];
  uo_call_gas_limit := 21900; uo_verification_gas_limit := 100000;
  uo_pre_verification_gas := 100000; uo_max_fee_per_gas := 100; uo_max_priority_fee_per_gas := 10;
  uo_paymaster_and_data := repeat Byte.x00 19 ++ [Byte.x07]; uo_signature := [] |}.
Definition candidates : list UserOperation := uo_from <$> [30; 31; 32; 33; 34; 35].
Definition pool7 : UoPool MemStore (gmap Address ReputationEntry) :=
  {| up_mempool := MemStore_default; up_reputation := Reputation.Example.manager;
     up_published := [] |}.

(** five get in, one more than the constant says *)
Lemma five_bundled :
  bundle_user_operations cfg candidates pool7 = (Ok (take 5 candidates, StorageMap_default), pool7).
Proof. by vm_compute. Qed.

Lemma bundle_selection_witness :
  NoDup ((λ uo : UserOperation, uo.(uo_sender)) <$> take 5 candidates).
Proof. exact (proj1 (proj2 (bundle_selection cfg candidates _ _ pool7 pool7 five_bundled))). Defined.

Lemma bundle_throttling_witness :
  Z.of_nat (length (filter (λ uo : UserOperation, paymaster_of uo = Some 7) (take 5 candidates))) ≤ 5.
Proof.
  exact (proj1 (bundle_throttling cfg candidates _ _ pool7 pool7 7 _ five_bundled
    ltac:(by vm_compute) ltac:(by vm_compute))).
Defined.

(** *** A pool that admits one operation under its hash *)
Definition signed : UserOperationSigned := uo_from 30.
Definition hashed_uo : UserOperation := from_user_operation_signed (hash signed 1 5) signed.
Definition pool0 : UoPool MemStore (gmap Address ReputationEntry) :=
  {| up_mempool := MemStore_default; up_reputation := fx_reputation; up_published := [] |}.
#[local] Instance chain : ChainData := {|
  get_block_number := inr 0; query_events _ _ _ := inr []; get_transaction _ := inr None;
  get_transaction_receipt _ := inr None; get_block_txs _ := inr None; decode_handle_ops _ := None |}.

Lemma validated_hashed : validate_user_operation pool0 hashed_uo None = Ok outcome.
Proof. by vm_compute. Qed.

Lemma pool0_inv : pool_inv cfg [] pool0.
Proof.
  exists ({| p_uos := ∅; p_codes := ∅ |} : Pool). split; [exact MemoryStore.Example.refines_default|].
  split; [|split; [intros v Hv; cbn in Hv; by rewrite map_to_list_empty in Hv; apply elem_of_nil in Hv|done]].
  split_and!; repeat intros ?; simpl in *; by rewrite lookup_empty in *.
Qed.

Lemma pool_reachable_invariant_witness :
  pool_inv cfg [hashed_uo] (add_user_operation cfg hashed_uo (inr outcome) pool0).2.
Proof.
  apply (pool_reachable_invariant (VL:=standard_validator_laws validator) cfg [] pool0 [hashed_uo]).
  - by unfold is_address.
  - by unfold is_u256, U256_MAX.
  - apply (bool_decide_unpack _). by vm_compute.
  - exact pool0_inv.
  - apply (run_snoc cfg pool0 [] pool0 [hashed_uo]); [apply run_nil|].
    apply (step_add cfg pool0 hashed_uo None (inr outcome)).
    + unfold uo_wf, is_address, is_u256, U256_MAX; simpl; lia.
    + done.
    + exact (f_equal (as_result (F:=MempoolError)) validated_hashed).
Defined.

(** *** A validator that accepts everything *)
Module AcceptAll.
#[local] Instance accept : UserOperationValidator MemStore (gmap Address ReputationEntry) :=
  λ _ _ _ _ _, Ok outcome.

Lemma two_bundled :
  bundle_user_operations (V:=accept) cfg (take 2 candidates) pool7 =
  (Ok (take 2 candidates, StorageMap_default), pool7).
Proof. by vm_compute. Qed.

Lemma bundle_budgets_witness : ∃ log : list Entry, take 2 candidates = log.*1 ∧
  total_gas log ≤ 5000000.
Proof.
  destruct (bundle_budgets (V:=accept) cfg (take 2 candidates) (take 2 candidates) StorageMap_default
    pool7 pool7) as
    (log & Hl & _ & Hg & _); [| | |exact two_bundled|by exists log].
  - by intros uo s r c m out [= <-].
  - by unfold U256_MAX.
  - repeat constructor; by vm_compute.
Defined.

Lemma bundle_answers_witness : ∃ res self',
  bundle_user_operations (V:=accept) cfg (take 2 candidates) pool0 = (Ok res, self').
Proof.
  destruct (bundle_answers (ML:=mem_laws (HO:=canonical_order)) (V:=accept) cfg (take 2 candidates)
    {| p_uos := ∅; p_codes := ∅ |} pool0) as (res & s' & _ & Hs & _).
  - split_and!; [|by eexists|done]. intros a. exists 0. unfold get_status, is_in_list.
    rewrite !bool_decide_false by (simpl; set_solver). simpl. by rewrite lookup_empty.
  - exact MemoryStore.Example.refines_default.
  - by exists res, s'.
Defined.
End AcceptAll.
End Example.
