(* ===== verification/PoolLimits.v ===== *)
(** Limits on what one account holds in the pool
    ([crates/mempool/src/validate/sanity/unstaked_entities.rs] together with
    [crates/mempool/src/uopool.rs]): the check of a single operation becomes a
    bound on every reachable pool. *)

From S2P Require Import Prelude Primitives Errors AbiStd Reputation Mempool MemoryStore EntryPoint Fixture Sanity Simulation Trace Validator UoPool Bundling.

(** ** Accounts without a stake, and what they hold *)
Definition unstaked {A : Abi} {D : Display} {N : Node} (a : Address) : Prop :=
  ∀ stake, get_stake a = Ok stake → stake.(si_unstake_delay) < 2.

Definition sent_by (a : Address) (p : Pool) : gmap UserOperationHash UserOperationSigned :=
  filter (λ kv, kv.2.(uo_sender) = a) p.(p_uos).

Lemma sent_by_subset a p q : q.(p_uos) ⊆ p.(p_uos) → (size (sent_by a q) ≤ size (sent_by a p))%nat.
Proof. intros Hsub. apply map_subseteq_size. by apply map_filter_subseteq_mono. Qed.

Lemma sent_by_admit a uo out p :
  (size (sent_by a (pool_admit uo out p)) ≤
    size (sent_by a p) + if decide (uo.(uo_sender) = a) then 1 else 0)%nat.
Proof.
  assert (sent_by a (pool_admit uo out p) =
    sent_by a (pool_exec (OpAdd uo) (without_prev out p))) as ->
    by (unfold pool_admit; by destruct (out_code_hashes out)).
  pose proof (sent_by_subset a p (without_prev out p) (without_prev_subset out p)) as Hle.
  unfold sent_by in *; cbn [pool_exec p_uos]. rewrite map_filter_insert; cbn [snd].
  case_decide.
  - rewrite map_size_insert. destruct (_ !! _); unfold id; lia.
  - etrans; [|etrans; [exact Hle|lia]]. apply map_subseteq_size, map_filter_subseteq_mono, delete_subseteq.
Qed.

Section limits.
Context {P : Profile} {A : Abi} {AOk : AbiOk A} {D : Display} {N : Node} {HO : HashOrder}
  {CD : ChainData}.
Context {S : Type} `{PS : PoolStorage S} {R : Type} `{RL : ReputationEntryLaws R}.

(** what the bound relies on from a validator *)
Class SenderLimit (V : UserOperationValidator S R) : Prop :=
  validate_limit : ∀ (uo : UserOperation) (s : S) (r : Reputation R) c m out g,
    MSanity ∈ m → holds s g → unstaked uo.(uo_sender) → uo.(uo_sender) ∉ r.(whitelist) →
    validate uo s r c m = Ok out →
    (size (sent_by uo.(uo_sender) (ghost_pool g)) < SAME_SENDER_MEMPOOL_COUNT)%nat.

#[global] Instance standard_sender_limit {TL : TraceLib} {CK : Clock} (v : Validator) :
  SenderLimit (standard_validator v).
Proof.
  intros uo s r c m out g Hm Hg Hun Hw Hv. apply validate_ok in Hv as (Hs & _).
  apply sanity_checks_ok in Hs as (_ & _ & _ & _ & _ & _ & Hs); [|done].
  apply check_unstaked_ok in Hs as (_ & _ & stake & Hst & [Hok|Hlt]).
  - exfalso. specialize (Hun stake Hst). rewrite verify_stake_accepts in Hok.
    unfold get_stake in Hst. apply comp_bind_ok in Hst as (info & _ & [= <-]).
    destruct (Hok _ eq_refl) as [_ ?]; [done|lia].
  - by rewrite (number_by_sender_holds s g) in Hlt.
Qed.

Context `{V : UserOperationValidator S R} {VL : ValidatorLaws S R} {SL : SenderLimit V}.
Context (cfg : UoPoolConfig).
Implicit Types (self : UoPool S R) (uo : UserOperation).

(** the pool is in order, and the account, on no whitelist, is within its limit *)
Definition within_limit (known : list UserOperation) (a : Address) self : Prop :=
  a ∉ self.(up_reputation).(whitelist) ∧
  ∃ g, holds self.(up_mempool) g ∧
    pool_ok cfg.(cfg_entry_point) cfg.(cfg_chain_id) (ghost_pool g) ∧ hashed_ops cfg known g ∧
    (size (sent_by a (ghost_pool g)) ≤ SAME_SENDER_MEMPOOL_COUNT)%nat.

#[global] Instance within_limit_handlers known a : HandlerInvariant (within_limit known a).
Proof.
  split; [|done]. intros self s op Hop Hs (Hw & g & Hg & Hok & Hh & Hn). split; [done|].
  exists (ghost_exec op g). rewrite ghost_exec_pool.
  pose proof (shrinking_exec op (ghost_pool g) Hop) as Hsub. split_and!.
  - by apply Hs.
  - by eapply pool_ok_subset.
  - by apply hashed_ops_shrink.
  - etrans; [by apply sent_by_subset|exact Hn].
Qed.

Lemma within_limit_mono known known' a self :
  known ⊆ known' → within_limit known a self → within_limit known' a self.
Proof.
  intros Hs (Hw & g & ? & ? & ? & ?). split; [done|]. exists g.
  split_and!; [done..|by eapply hashed_ops_mono|done].
Qed.

Lemma within_limit_step known a self uos self' :
  is_address cfg.(cfg_entry_point) → is_u256 cfg.(cfg_chain_id) → unstaked a →
  distinct_ops cfg (uos ++ known) → pool_step cfg self uos self' → within_limit known a self →
  within_limit (uos ++ known) a self'.
Proof using VL SL AOk.
  intros Hep Hci Hun Hd Hst Hl.
  assert (within_limit (uos ++ known) a self) as Hl'
    by (eapply within_limit_mono; [|exact Hl]; intros v Hv; apply elem_of_app; by right).
  destruct (preserved_or_admitted cfg (within_limit (uos ++ known) a) _ _ _ Hst Hl')
    as [?|(uo & c & out & -> & Hwf & Hh & Hv & ->)]; [done|].
  pose proof Hl as (Hw & g & Hg & Hok & Hops & Hn).
  eapply add_valid_steps; [apply _|exact Hg|exact Hl'| | |done].
  { intros v Hin. eapply (hashed_ops_agree cfg known); try done. by eapply ghost_without_prev_ops. }
  intros s' m Hrep [Hw' _] Hm. split; [done|]. exists (ghost_admit uo out g).
  rewrite ghost_admit_pool. split_and!; [exact Hm|..].
  - apply admit_inv; try done.
    + eapply (validate_roles (S:=S) (R:=R)); [|exact Hg|exact Hv]. by left.
    + eapply without_prev_free; [exact Hg|apply Hok|exact Hv].
  - by apply ghost_admit_hashed.
  - etrans; [apply sent_by_admit|]. case_decide as Ha'; [|lia]. subst a.
    assert (size (sent_by (uo_sender uo) (ghost_pool g)) < SAME_SENDER_MEMPOOL_COUNT)%nat; [|lia].
    eapply validate_limit; [|exact Hg|exact Hun|exact Hw|exact Hv]. by left.
Qed.

Lemma within_limit_run known a self submitted self' :
  is_address cfg.(cfg_entry_point) → is_u256 cfg.(cfg_chain_id) → unstaked a →
  distinct_ops cfg (submitted ++ known) → handler_run cfg self submitted self' →
  within_limit known a self → within_limit (submitted ++ known) a self'.
Proof using VL SL AOk.
  intros Hep Hci Hun Hd Hrun Hl. induction Hrun as [|self uos self1 uos1 self2 _ IH Hst]; [done|].
  rewrite <-app_assoc in *. eapply within_limit_step; [done..|]. apply IH; [|done].
  eapply distinct_ops_subset; [|exact Hd]. intros v Hv. apply elem_of_app. by right.
Qed.

(** C11. An account that has locked no stake in the entry point (an unstake delay
    of at least two seconds) and is not whitelisted never holds more than
    [SAME_SENDER_MEMPOOL_COUNT] places in the pool: from a pool in order that
    respects the limit, every interleaving of complete handlers - additions
    under any validation configuration, replacements, bundles, blocks, hourly
    and administrative calls - keeps the number of its pooled operations within
    the limit, as long as keccak256 tells the operations apart that the storage
    was given before and that the handlers submit. *)
Theorem unstaked_senders_bounded known a self submitted self' :
  is_address cfg.(cfg_entry_point) → is_u256 cfg.(cfg_chain_id) →
  unstaked a → a ∉ self.(up_reputation).(whitelist) →
  pool_inv cfg known self → (get_number_by_sender self.(up_mempool) a ≤ SAME_SENDER_MEMPOOL_COUNT)%nat →
  distinct_ops cfg (submitted ++ known) → handler_run cfg self submitted self' →
  (get_number_by_sender self'.(up_mempool) a ≤ SAME_SENDER_MEMPOOL_COUNT)%nat.
Proof using VL SL AOk.
  intros Hep Hci Hun Hw (g & Hg & Hok & Hh) Hn Hd Hrun.
  destruct (within_limit_run known a self submitted self') as (_ & g' & Hg' & _ & _ & Hn'); try done.
  - split; [done|]. exists g. by rewrite (number_by_sender_holds _ g) in Hn.
  - by rewrite (number_by_sender_holds _ g').
Qed.
End limits.

(** ** Concrete evaluations: account 30, which has no stake, submits six operations *)
Module Example.
#[local] Existing Instances std_abi std_abi_ok std_display canonical_order fx_profile.

#[local] Existing Instances Trace.Example.lib Bundling.Example.clock.

(** [Bundling.Example.node] with deposits that are not locked *)
#[local] Instance unlocked : Node := {|
  Json := JsTracerFrame + ExecutorTracerResult;
  parse_js_frame := parse_js_frame (Node:=fx_node);
  parse_executor_frame := parse_executor_frame (Node:=fx_node);
  call_simulate_validation := call_simulate_validation (Node:=Bundling.Example.node);
  call_simulate_handle_op := call_simulate_handle_op (Node:=fx_node);
  call_handle_ops := call_handle_ops (Node:=fx_node);
  call_get_deposit_info _ := inr {| di_deposit := 1000000; di_staked := false; di_stake := 0;
    di_unstake_delay_sec := 0; di_withdraw_time := 0 |};
  call_balance_of := call_balance_of (Node:=Bundling.Example.node);
  call_get_nonce := call_get_nonce (Node:=fx_node);
  call_get_sender_address := call_get_sender_address (Node:=fx_node);
  trace_simulate_validation := trace_simulate_validation (Node:=fx_node);
  trace_simulate_handle_op := trace_simulate_handle_op (Node:=fx_node);
  eth_call := eth_call (Node:=fx_node);
  get_code := get_code (Node:=fx_node);
  get_block_latest := get_block_latest (Node:=fx_node);
  decode_api_error := decode_api_error (Node:=Bundling.Example.node);
  decode_string := decode_string (Node:=fx_node);
  find_hex := find_hex (Node:=fx_node);
  bytes_from_str := bytes_from_str (Node:=fx_node);
|}.
#[local] Instance standard : UserOperationValidator MemStore (gmap Address ReputationEntry) :=
  standard_validator Bundling.Example.validator.
#[local] Existing Instance Bundling.Example.chain.

Definition signed (nonce : Z) : UserOperationSigned := {|
  uo_sender := 30; uo_nonce := nonce; uo_init_code := []; uo_call_data := [];
  uo_call_gas_limit := 21900; uo_verification_gas_limit := 100000;
  uo_pre_verification_gas := 100000; uo_max_fee_per_gas := 100; uo_max_priority_fee_per_gas := 10;
  uo_paymaster_and_data := []; uo_signature := [] |}.
Definition uo (nonce : Z) : UserOperation :=
  from_user_operation_signed (hash (signed nonce) 1 5) (signed nonce).

(** validate and add *)
Definition submit (nonce : Z) (self : UoPool MemStore (gmap Address ReputationEntry))
  : UoPool MemStore (gmap Address ReputationEntry) :=
  match as_result (F:=MempoolError) (validate_user_operation self (uo nonce) None) with
  | Ok res => (add_user_operation Bundling.Example.cfg (uo nonce) res self).2
  | _ => self
  end.
Definition after (nonces : list Z) : UoPool MemStore (gmap Address ReputationEntry) :=
  foldl (λ self n, submit n self) Bundling.Example.pool0 nonces.

(** four get in *)
Lemma four_of_six :
  get_number_by_sender (after [0; 1; 2; 3; 4; 5]).(up_mempool) 30 = 4%nat.
Proof. by vm_compute. Qed.

Definition validated (nonce : Z) (self : UoPool MemStore (gmap Address ReputationEntry)) : bool :=
  match as_result (F:=MempoolError) (validate_user_operation self (uo nonce) None) with
  | Ok _ => true | _ => false
  end.
Lemma submit_run nonce l self : is_u256 nonce → validated nonce self = true →
  handler_run Bundling.Example.cfg Bundling.Example.pool0 l self →
  handler_run Bundling.Example.cfg Bundling.Example.pool0 (uo nonce :: l) (submit nonce self).
Proof.
  unfold validated, submit. intros Hn Hv Hrun. destruct (as_result _) as [res|e|] eqn:He; [|done..].
  eapply (run_snoc _ _ _ _ [uo nonce]); [exact Hrun|]. apply (step_add _ _ _ None); [|done|exact He].
  unfold uo_wf, is_address, is_u256, U256_MAX in *; simpl; lia.
Qed.

Lemma unstaked_senders_bounded_witness :
  (get_number_by_sender (after [0; 1; 2; 3; 4; 5]%Z).(up_mempool) 30%Z ≤ 4)%nat.
Proof.
  apply (unstaked_senders_bounded (VL:=standard_validator_laws Bundling.Example.validator)
    (SL:=standard_sender_limit Bundling.Example.validator) Bundling.Example.cfg [] 30
    Bundling.Example.pool0 (uo <$> [5; 4; 3; 2; 1; 0])).
  - by unfold is_address.
  - by unfold is_u256, U256_MAX.
  - intros stake Hs. injection Hs as <-. reflexivity.
  - apply (bool_decide_unpack _). reflexivity.
  - exists ({| p_uos := ∅; p_codes := ∅ |} : Pool). split; [exact MemoryStore.Example.refines_default|].
    split; [|split; [intros v Hv; cbn in Hv; by rewrite map_to_list_empty in Hv; apply elem_of_nil in Hv|done]].
    split_and!; repeat intros ?; simpl in *; by rewrite lookup_empty in *.
  - apply Nat.leb_le. reflexivity.
  - apply (bool_decide_unpack _). by vm_compute.
  - unfold after. cbn [foldl fmap list_fmap].
    do 6 (apply submit_run; [unfold is_u256, U256_MAX; lia|by vm_compute|]). apply run_nil.
Defined.
End Example.
