(* ===== verification/DbMempool.v ===== *)
(** The mempool kept in the database ([crates/mempool/src/mempool.rs] over
    [crates/mempool/src/database]).  [Mempool::remove] leaves the entity index
    and the code hashes of the removed operation in their tables, so the
    database implements a mempool with a memory: the plain pool, the operations
    added and the code hashes set since the last [clear].  The refinement to
    that specification, what the queries answer, and what the sanity checks
    make of the remembered operations. *)

From S2P Require Import Prelude Primitives Errors AbiStd Reputation Mempool MemoryStore Database EntryPoint Fixture Sanity Trace Validator UoPool Bundling PoolLimits.

(** ** The specification: a pool that remembers *)
Record LeakyPool := {
  lp_pool : Pool;
  lp_added : list UserOperation;
  lp_codes : gmap UserOperationHash (list CodeHash);
}.

Definition leaky_empty : LeakyPool :=
  {| lp_pool := {| p_uos := ∅; p_codes := ∅ |}; lp_added := []; lp_codes := ∅ |}.

Definition leaky_exec (op : pool_op) (lp : LeakyPool) : LeakyPool := {|
  lp_pool := pool_exec op lp.(lp_pool);
  lp_added := match op with
              | OpAdd uo => uo :: lp.(lp_added) | OpClear => [] | _ => lp.(lp_added)
              end;
  lp_codes := match op with
              | OpSetCodeHashes h cs => <[h := cs]> lp.(lp_codes)
              | OpClear => ∅ | _ => lp.(lp_codes)
              end;
|}.

Fixpoint leaky_run (ops : list pool_op) (lp : LeakyPool) : LeakyPool :=
  match ops with [] => lp | op :: ops => leaky_run ops (leaky_exec op lp) end.

(** the hashes of the remembered operations that have [a] as factory or paymaster *)
Definition remembered (lp : LeakyPool) (a : Address) : gset UserOperationHash :=
  list_to_set (uo_hash <$>
    filter (λ uo : UserOperation, relevant UserOperationsByEntity a uo) lp.(lp_added)).

(** a hash names one operation, up to its signature *)
Definition one_op_per_hash (ops : list pool_op) : Prop :=
  ∀ a b, OpAdd a ∈ ops → OpAdd b ∈ ops → same_unsigned a b.

Lemma leaky_run_pool ops lp : (leaky_run ops lp).(lp_pool) = pool_run ops lp.(lp_pool).
Proof. revert lp. induction ops as [|op ops IH]; intros lp; simpl; [done|]. by rewrite IH. Qed.

Lemma remembered_elem lp a h :
  h ∈ remembered lp a ↔
  ∃ uo, uo ∈ lp.(lp_added) ∧ uo.(uo_hash) = h ∧ relevant UserOperationsByEntity a uo.
Proof.
  unfold remembered. rewrite elem_of_list_to_set, list_elem_of_fmap.
  setoid_rewrite list_elem_of_filter. naive_solver.
Qed.

(** what holds of the specification: the pool holds remembered operations,
    which do not disagree on a hash, and its code hashes are remembered *)
Record leaky_wf (lp : LeakyPool) : Prop := {
  lw_pool : ∀ h uo, lp.(lp_pool).(p_uos) !! h = Some uo →
    ∃ a, a ∈ lp.(lp_added) ∧ a.(uo_hash) = h ∧ signature [] a = signature [] uo;
  lw_added : ∀ a b, a ∈ lp.(lp_added) → b ∈ lp.(lp_added) → same_unsigned a b;
  lw_codes : lp.(lp_pool).(p_codes) ⊆ lp.(lp_codes);
}.

Lemma leaky_empty_wf : leaky_wf leaky_empty.
Proof. split; simpl; [intros h uo; by rewrite lookup_empty|set_solver|done]. Qed.

Lemma leaky_drop_wf X (lp : LeakyPool) : leaky_wf lp →
  leaky_wf {| lp_pool := pool_drop X lp.(lp_pool); lp_added := lp.(lp_added);
              lp_codes := lp.(lp_codes) |}.
Proof.
  intros [Hp Ha Hc]. split; simpl.
  - intros h uo. rewrite map_lookup_filter_Some. intros [? _]. by apply Hp.
  - done.
  - etrans; [apply map_filter_subseteq|done].
Qed.

Lemma leaky_exec_wf op lp : leaky_wf lp →
  (∀ uo, op = OpAdd uo → ∀ a, a ∈ lp.(lp_added) → same_unsigned uo a) →
  leaky_wf (leaky_exec op lp).
Proof.
  intros Hw Hop. destruct op as [uo|h|a|h cs|].
  - destruct Hw as [Hp Ha Hc]. specialize (Hop uo eq_refl). split; simpl; [| |done].
    + intros h q. rewrite lookup_insert_Some. intros [[<- <-]|[_ Hq]].
      * exists uo. split; [apply list_elem_of_here|done].
      * destruct (Hp h q Hq) as (x & Hx & ? & ?). exists x. split; [by apply list_elem_of_further|done].
    + intros x y [->|Hx]%elem_of_cons [->|Hy]%elem_of_cons; [done|by apply Hop| |by apply Ha].
      intros He. symmetry. by apply Hop.
  - by apply leaky_drop_wf.
  - by apply leaky_drop_wf.
  - destruct Hw as [Hp Ha Hc]. split; simpl; [done..|]. by apply insert_mono.
  - apply leaky_empty_wf.
Qed.

Lemma pool_relevant_remembered lp a h : leaky_wf lp → h ∈ dom lp.(lp_pool).(p_uos) →
  h ∈ remembered lp a ↔ h ∈ entity_hashes lp.(lp_pool) a.
Proof.
  intros [Hp Ha _] [uo Hh]%elem_of_dom. rewrite remembered_elem, entity_hashes_elem.
  destruct (Hp h uo Hh) as (x & Hx & Hxh & Hs). split.
  - intros (y & Hy & Hyh & Hr). exists uo. split; [done|].
    eapply signature_relevant; [|exact Hr]. rewrite <-Hs. apply Ha; [done..|congruence].
  - intros (q & Hq & Hr). exists x. split_and!; [done..|].
    assert (q = uo) as -> by congruence. by eapply signature_relevant.
Qed.

Section refinement.
Context {M : Mdbx} {MOk : MdbxOk M} {HO : HashOrder}.
Implicit Types (e : env) (lp : LeakyPool).

(** the tables hold the pool, its exact sender index, and the remembered rest *)
Record db_refines e lp : Prop := {
  dr_uos : (db_view e).(v_uos) = lp.(lp_pool).(p_uos);
  dr_sender : sender_exact (db_view e);
  dr_entity : ∀ a, idx (db_view e) UserOperationsByEntity a = remembered lp a;
  dr_codes : (db_view e).(v_codes) = lp.(lp_codes);
  dr_wf : leaky_wf lp;
}.

Definition leaky_drop X lp : LeakyPool :=
  {| lp_pool := pool_drop X lp.(lp_pool); lp_added := lp.(lp_added); lp_codes := lp.(lp_codes) |}.

Lemma db_remove_refines h e lp : db_refines e lp →
  ∃ b e', remove h e = (Ok b, e') ∧
    db_refines e' (leaky_drop (dom lp.(lp_pool).(p_uos) ∩ {[h]}) lp).
Proof.
  intros [Hu Hs He Hc Hw]. destruct (lp.(lp_pool).(p_uos) !! h) as [uo|] eqn:Hh.
  - destruct (db_mempool_remove_acts h uo e) as (e' & Hr & Hv); [by rewrite Hu|].
    assert (dom (p_uos (lp_pool lp)) ∩ {[h]} = {[h]}) as Hd.
    { apply elem_of_dom_2 in Hh. set_solver. }
    exists true, e'. split; [done|]. rewrite Hd. split; cbn [leaky_drop lp_pool lp_codes pool_drop p_uos].
    + rewrite Hv, db_view_remove_uos, Hu. by rewrite (filter_notin_single _ h).
    + intros a h'. rewrite Hv, db_view_remove_sender by (done || by rewrite Hu).
      rewrite db_view_remove_uos, elem_of_difference, (Hs a h').
      setoid_rewrite lookup_delete_Some. set_solver.
    + intros a. unfold idx, v_index. rewrite Hv, db_view_remove_entity. apply He.
    + by rewrite Hv, db_view_remove_codes.
    + by apply leaky_drop_wf.
  - exists false, e. split.
    { unfold remove, st_get. by rewrite (st_bind_step _ _ e None e)
        by (simpl; by rewrite db_get_by_uo_hash_eq, Hu, Hh). }
    apply not_elem_of_dom in Hh.
    assert (dom (p_uos (lp_pool lp)) ∩ {[h]} = ∅) as Hd by set_solver.
    rewrite Hd. split; [|done..|by apply leaky_drop_wf].
    cbn [leaky_drop lp_pool pool_drop p_uos]. by rewrite filter_notin_empty.
Qed.

Lemma db_remove_all_refines hs e lp : db_refines e lp →
  ∃ e', st_for hs (λ h, do* _ := remove h in st_ret ()) e = (Ok (), e') ∧
    db_refines e' (leaky_drop (dom lp.(lp_pool).(p_uos) ∩ list_to_set hs) lp).
Proof.
  revert e lp. induction hs as [|h hs IH]; intros e lp Hr; simpl.
  - exists e. split; [done|]. destruct Hr as [Hu Hs He Hc Hw].
    split; [|done..|by apply leaky_drop_wf]. cbn [leaky_drop lp_pool pool_drop p_uos].
    by rewrite filter_notin_empty by set_solver.
  - destruct (db_remove_refines h e lp Hr) as (b & e1 & Hrm & Hr1).
    destruct (IH e1 _ Hr1) as (e2 & Hf & Hr2). exists e2. split.
    + unfold st_bind at 1. rewrite (st_bind_step _ _ _ _ _ Hrm). exact Hf.
    + unfold leaky_drop in Hr2 |- *; cbn [lp_pool lp_added lp_codes] in Hr2.
      by rewrite pool_drop_step in Hr2.
Qed.

Lemma db_clear_acts {E} e :
  ∃ e', clear (E:=E) e = (Ok (), e') ∧
    db_view e' = {| v_uos := ∅; v_by_sender := ∅; v_by_entity := ∅; v_codes := ∅ |}.
Proof.
  unfold clear; simpl.
  destruct (db_clear_ok (E:=E) UserOperations e) as (e1 & H1 & V1 & O1).
  destruct (db_clear_ok (E:=E) BySender e1) as (e2 & H2 & V2 & O2).
  destruct (db_clear_ok (E:=E) ByEntity e2) as (e3 & H3 & V3 & O3).
  destruct (db_clear_ok (E:=E) CodeHashes e3) as (e4 & H4 & V4 & O4).
  exists e4. rewrite (st_bind_step _ _ _ _ _ H1), (st_bind_step _ _ _ _ _ H2),
    (st_bind_step _ _ _ _ _ H3). split; [done|].
  unfold db_view. rewrite V4, !O4, V3, !O3, V2, !O2, V1 by done. done.
Qed.

Lemma db_clear_refines e :
  db_view e = {| v_uos := ∅; v_by_sender := ∅; v_by_entity := ∅; v_codes := ∅ |} →
  db_refines e leaky_empty.
Proof.
  intros Hv. split; rewrite ?Hv; [done| |done..|apply leaky_empty_wf].
  intros a h. unfold idx; simpl. rewrite lookup_empty; simpl.
  split; [set_solver|]. intros (? & Hl & _). by rewrite lookup_empty in Hl.
Qed.
End refinement.

Section runs.
Context {M : Mdbx} {MOk : MdbxOk M} {HO : HashOrder}.
Implicit Types (e : env) (lp : LeakyPool).

Lemma db_add_refines uo e lp : db_refines e lp →
  (∀ a, a ∈ lp.(lp_added) → same_unsigned uo a) →
  ∃ e', exec (OpAdd uo) e = (Ok (), e') ∧ db_refines e' (leaky_exec (OpAdd uo) lp).
Proof.
  intros [Hu Hs He Hc Hw] Hop. destruct (db_mempool_add_acts uo e) as (e' & Ha & Hv).
  exists e'. cbn [exec]. rewrite (st_bind_step _ _ _ _ _ Ha). split; [done|]. split.
  - by rewrite Hv, v_uos_view_add, Hu.
  - intros a h. rewrite Hv, idx_view_add, v_uos_view_add, elem_of_union, (Hs a h), Hu.
    destruct (decide (h = uo.(uo_hash))) as [->|Hne].
    + rewrite lookup_insert_eq. cbn [relevant]. split.
      * intros [Hin|(q & Hq & Hqs)]; [case_decide; [by eexists|set_solver]|].
        destruct (lw_pool _ Hw _ _ Hq) as (x & Hx & Hxh & Hxs).
        eexists. split; [done|]. change (relevant UserOperationsBySender a uo).
        eapply signature_relevant; [|exact Hqs]. rewrite <-Hxs. symmetry.
        apply Hop; [done|by symmetry].
      * intros (? & [= <-] & Hr). left. rewrite decide_True by done. set_solver.
    + rewrite lookup_insert_ne by done. split; [|by right].
      intros [Hin|?]; [|done]. case_decide; set_solver.
  - intros a. rewrite Hv, idx_view_add, He. unfold remembered; cbn [leaky_exec lp_added].
    rewrite filter_cons. case_decide; simpl; [done|set_solver].
  - by rewrite Hv, v_codes_view_add.
  - apply leaky_exec_wf; [done|]. by intros ? [= <-].
Qed.

Lemma db_exec_refines op e lp : db_refines e lp →
  (∀ uo, op = OpAdd uo → ∀ a, a ∈ lp.(lp_added) → same_unsigned uo a) →
  ∃ e', exec op e = (Ok (), e') ∧ db_refines e' (leaky_exec op lp).
Proof.
  intros Hr Hop. destruct op as [uo|h|a|h cs|].
  - apply db_add_refines; [done|]. by apply Hop.
  - cbn [exec]. destruct (db_remove_refines h e lp Hr) as (b & e' & Hs & ?). exists e'.
    by rewrite (st_bind_step _ _ _ _ _ Hs).
  - cbn [exec]. unfold remove_by_entity, st_get. unfold st_bind at 1.
    set (hs := get_all_by_address _ e a).
    destruct (db_remove_all_refines hs e lp Hr) as (e' & Hs & Hr'). exists e'. split; [done|].
    unfold leaky_exec; cbn [pool_exec].
    assert (dom (p_uos (lp_pool lp)) ∩ list_to_set hs = entity_hashes (lp_pool lp) a) as <-; [|done].
    apply set_eq. intros h. rewrite elem_of_intersection, elem_of_list_to_set.
    unfold hs. change (get_all_by_address ?t e a) with (db_get_all_by_address t e a).
    rewrite db_get_all_by_address_perm, elem_of_elements, (dr_entity _ _ Hr). split.
    + intros [Hd Hh]. by apply (pool_relevant_remembered lp a h (dr_wf _ _ Hr) Hd).
    + intros Hh. assert (h ∈ dom (p_uos (lp_pool lp))) as Hd.
      { apply entity_hashes_elem in Hh as (uo & ? & _). by apply elem_of_dom. }
      split; [done|]. by apply (pool_relevant_remembered lp a h (dr_wf _ _ Hr) Hd).
  - cbn [exec]. destruct (put_commit mp_err (λ tx,
      let* tx := tx_put CodeHashes h cs tx in Ok ((), Some tx)) e () CodeHashes h cs)
      as (e' & Hs & Hv & Ho); [done|]. exists e'. split; [done|].
    destruct Hr as [Hu Hse He Hc Hw].
    assert (db_view e' = with_codes <[h := cs]> (db_view e)) as Hview.
    { unfold db_view, with_codes; simpl. by rewrite Hv, !Ho by done. }
    split; rewrite ?Hview; [done..| |by apply leaky_exec_wf].
    cbn [with_codes v_codes leaky_exec lp_codes]. by rewrite Hc.
  - cbn [exec]. destruct (db_clear_acts (E:=MempoolErrorKind) e) as (e' & Hs & Hv).
    exists e'. split; [done|]. by apply db_clear_refines.
Qed.

Lemma db_run_refines ops e lp : db_refines e lp → one_op_per_hash ops →
  (∀ a b, a ∈ lp.(lp_added) → OpAdd b ∈ ops → same_unsigned b a) →
  ∃ e', st_for ops exec e = (Ok (), e') ∧ db_refines e' (leaky_run ops lp).
Proof.
  revert e lp. induction ops as [|op ops IH]; intros e lp Hr Hone Hold; simpl; [by exists e|].
  destruct (db_exec_refines op e lp Hr) as (e1 & Hs & Hr1).
  { intros uo -> a Ha. apply Hold; [done|apply list_elem_of_here]. }
  rewrite (st_bind_step _ _ _ _ _ Hs). apply IH; [done| |].
  - intros a b Ha Hb. apply Hone; by apply list_elem_of_further.
  - intros a b Ha Hb. destruct op as [uo| | | |]; cbn [leaky_exec lp_added] in Ha;
      [|by apply Hold; [|apply list_elem_of_further]..|set_solver].
    apply elem_of_cons in Ha as [->|Ha]; [|by apply Hold; [|apply list_elem_of_further]].
    apply Hone; [by apply list_elem_of_further|apply list_elem_of_here].
Qed.
Lemma db_sender_perm e lp a : db_refines e lp →
  db_get_all_by_address UserOperationsBySender e a ≡ₚ
    (map_to_list (filter (λ kv, kv.2.(uo_sender) = a) lp.(lp_pool).(p_uos))).*1.
Proof.
  intros [Hu Hs _ _ _]. rewrite db_get_all_by_address_perm. apply NoDup_Permutation.
  - apply NoDup_elements.
  - apply NoDup_fst_map_to_list.
  - intros h. rewrite elem_of_elements, (Hs a h), Hu, list_elem_of_fmap. split.
    + intros (uo & ? & ?). exists (h, uo). split; [done|].
      by rewrite elem_of_map_to_list, map_lookup_filter_Some.
    + intros ([h' uo] & -> & Hin). rewrite elem_of_map_to_list, map_lookup_filter_Some in Hin.
      by exists uo.
Qed.

Lemma entity_hashes_remembered lp a : leaky_wf lp →
  entity_hashes lp.(lp_pool) a ⊆ remembered lp a.
Proof.
  intros Hw h Hh. apply (pool_relevant_remembered lp a h Hw); [|done].
  apply entity_hashes_elem in Hh as (uo & ? & _). by apply elem_of_dom.
Qed.

Lemma db_sorted_ok e : ∃ l, get_sorted e = Ok (sort_by cmp_priority l) ∧
  l ≡ₚ uo_of <$> map_to_list (db_view e).(v_uos).
Proof.
  destruct (begin_ro_ok e) as (x & Hx & Hs).
  destruct (tx_walk_ok UserOperations x) as (l & Hl & Hp).
  exists (uo_of <$> l). unfold get_sorted; simpl. unfold db_get_sorted, read_tx.
  rewrite Hx; simpl. rewrite Hl; simpl. split; [done|]. by rewrite Hp, Hs.
Qed.

(** the database is a storage for a pool; it still knows the removed operations *)
#[global] Program Instance db_storage : PoolStorage env := {|
  ghost := LeakyPool; ghost_pool := lp_pool; ghost_ops := lp_added;
  ghost_exec := leaky_exec; holds := db_refines;
|}.
Next Obligation. done. Qed.
Next Obligation.
  intros op lp v. destruct op as [uo| | | |]; cbn [leaky_exec lp_added]; auto.
  - intros [->|?]%elem_of_cons; auto.
  - by intros ?%elem_of_nil.
Qed.
Next Obligation. intros op e lp Hr Hop. by apply db_exec_refines. Qed.
Next Obligation.
  intros E e lp _. destruct (db_clear_acts (E:=E) e) as (e' & Hs & Hv). exists e'. split; [done|].
  by apply db_clear_refines.
Qed.
Next Obligation. intros e lp h Hr. rewrite <-(dr_uos _ _ Hr). apply db_get_by_uo_hash_eq. Qed.
Next Obligation. intros e lp a Hr. by apply db_sender_perm. Qed.
Next Obligation.
  intros e lp a h uo Hr Hh Hrel.
  change (h ∈ db_get_all_by_address UserOperationsByEntity e a).
  rewrite db_get_all_by_address_perm, elem_of_elements, (dr_entity _ _ Hr).
  apply entity_hashes_remembered; [apply Hr|]. apply entity_hashes_elem. by exists uo.
Qed.
Next Obligation. intros e lp Hr. rewrite <-(dr_uos _ _ Hr). apply db_sorted_ok. Qed.
End runs.

(** ** What the queries answer *)
Section queries.
Context {M : Mdbx} {MOk : MdbxOk M} {HO : HashOrder}.
Implicit Types (e : env) (lp : LeakyPool).

Lemma db_entity_count e lp a : db_refines e lp →
  get_number_by_entity e a = size (remembered lp a).
Proof.
  intros Hr.
  change (length (db_get_all_by_address UserOperationsByEntity e a) = size (remembered lp a)).
  by rewrite db_get_all_by_address_perm, (dr_entity _ _ Hr).
Qed.

Lemma db_code_hashes e lp h : db_refines e lp →
  has_code_hashes e h = Ok (bool_decide (is_Some (lp.(lp_codes) !! h))) ∧
  get_code_hashes e h = Ok (default [] (lp.(lp_codes) !! h)).
Proof.
  intros Hr. rewrite <-(dr_codes _ _ Hr). split.
  - apply read_tx_ok. intros x Hx. by rewrite tx_get_ok, Hx.
  - unfold get_code_hashes; simpl. unfold db_get_code_hashes.
    destruct (begin_rw_ok e) as (x & Hx & Hs). rewrite Hx; simpl. by rewrite tx_get_ok, Hs.
Qed.

(** C3. Refinement: from empty tables, every sequence of additions, removals,
    removals by entity, code-hash updates and clears in which a hash names one
    operation succeeds on the database.  Afterwards the lookups by hash and by
    sender, the sender counts and the priority order answer as the plain map of
    operations that the same sequence leaves; the count of an entity is the
    number of operations with that factory or paymaster ever added since the
    last [clear], never less than the pooled ones; and an operation's code
    hashes stay those last set, though the operation was removed. *)
Theorem database_refines_pool ops e :
  db_view e = {| v_uos := ∅; v_by_sender := ∅; v_by_entity := ∅; v_codes := ∅ |} →
  one_op_per_hash ops →
  let lp := leaky_run ops leaky_empty in
  let p := pool_run ops {| p_uos := ∅; p_codes := ∅ |} in
  ∃ e', st_for ops exec e = (Ok (), e') ∧ db_refines e' lp ∧
    (∀ h, get e' h = Ok (from_user_operation_signed h <$> p.(p_uos) !! h)) ∧
    (∀ a, get_number_by_sender e' a = size (filter (λ kv, kv.2.(uo_sender) = a) p.(p_uos))) ∧
    (∀ a, ∃ l, get_all_by_sender (F:=MempoolErrorKind) e' a = Ok l ∧
      ∀ uo, uo ∈ l ↔ p.(p_uos) !! uo.(uo_hash) = Some uo.(user_operation) ∧ uo.(uo_sender) = a) ∧
    (∃ l, get_sorted e' = Ok (sort_by cmp_priority l) ∧ l ≡ₚ uo_of <$> map_to_list p.(p_uos)) ∧
    (∀ a, get_number_by_entity e' a = size (remembered lp a) ∧
          entity_hashes p a ⊆ remembered lp a) ∧
    (∀ h, get_code_hashes e' h = Ok (default [] (lp.(lp_codes) !! h))) ∧
    p.(p_codes) ⊆ lp.(lp_codes).
Proof.
  intros He Hone lp p.
  destruct (db_run_refines ops e leaky_empty) as (e' & Hrun & Hr);
    [by apply db_clear_refines|done|set_solver|].
  assert (lp_pool lp = p) as Hp by apply leaky_run_pool. fold lp in Hr.
  exists e'. rewrite <-Hp. split_and!; [done..| | | | | | |].
  - intros h. exact (holds_get (PoolStorage:=db_storage) e' lp h Hr).
  - intros a. exact (number_by_sender_holds (PS:=db_storage) e' lp a Hr).
  - intros a. exact (by_sender_holds (PS:=db_storage) e' lp a Hr).
  - exact (holds_sorted (PoolStorage:=db_storage) e' lp Hr).
  - intros a. split; [by apply db_entity_count|]. apply entity_hashes_remembered, Hr.
  - intros h. by apply db_code_hashes.
  - apply Hr.
Qed.
End queries.

(** ** What the sanity checks make of it *)
Section refusals.
Context {P : Profile} {A : Abi} {D : Display} {N : Node}.
Context {M : Mdbx} {MOk : MdbxOk M} {HO : HashOrder} {R : Type} `{ReputationEntryOp R}.
Implicit Types (e : env) (lp : LeakyPool) (uo : UserOperation) (reputation : Reputation R).

Lemma roles_tail_in uo entity a : (entity, a) ∈ tail (roles uo) →
  (entity = FACTORY ∧ factory_of uo = Some a) ∨ (entity = PAYMASTER ∧ paymaster_of uo = Some a).
Proof.
  unfold roles; cbn [tail]. rewrite elem_of_app.
  destruct (factory_of uo), (paymaster_of uo); simpl; set_solver.
Qed.

Lemma check_unstaked_entities_ok h uo e reputation entity a :
  check_unstaked_entities h uo e reputation = Ok () → (entity, a) ∈ tail (roles uo) →
  check_unstaked_entity h entity a uo.(uo_sender) e reputation = Ok ().
Proof.
  unfold check_unstaked_entities, get_entities. cbv beta iota. fold (factory_of uo) (paymaster_of uo).
  case_bool_decide; [done|]. intros Hr Hin. apply comp_bind_ok in Hr as (stake & _ & Hr).
  destruct (is_err _ && _); [done|]. apply comp_bind_ok in Hr as ([] & Hf & Hp).
  rewrite comp_when_ok in Hf. rewrite comp_when_ok in Hp.
  apply roles_tail_in in Hin as [[-> ?]|[-> ?]]; auto.
Qed.

(** C12. Over the database, admission control charges entities for operations
    that left the pool: an operation is refused when its sender was the factory
    or paymaster of an operation added since the last [clear]; when one of its
    entities is throttled and as many operations naming it as the throttling
    limit were ever added; and when its factory or paymaster is unstaked and as
    many as its allowance were ever added - whatever the pool still holds. *)
Theorem remembered_entities_refused h uo e lp reputation :
  db_refines e lp →
  remembered lp uo.(uo_sender) ≠ ∅ ∨
  (∃ entity a c, (entity, a) ∈ roles uo ∧ Reputation.get_status reputation a = Ok c ∧
     status_of_code c = THROTTLED ∧
     (THROTTLED_ENTITY_MEMPOOL_COUNT ≤ size (remembered lp a))%nat) ∨
  (∃ entity a stake ent n, (entity, a) ∈ tail (roles uo) ∧ get_stake a = Ok stake ∧
     is_err (verify_stake reputation entity (Some stake) h.(sh_val_config).(vc_min_stake)
       h.(sh_val_config).(vc_min_unstake_delay)) = true ∧
     Reputation.get reputation a = Ok ent ∧
     calculate_allowed_user_operations (E:=SanityError) ent = Ok n ∧
     n ≤ Z.of_nat (size (remembered lp a))) →
  sanity_checks h uo e reputation ≠ Ok ().
Proof.
  intros Hr Hc Hok. apply sanity_checks_ok in Hok as (_ & _ & _ & _ & _ & Hen & Hun).
  destruct Hc as [Hs|[(entity & a & c & Hin & Hst & Ht & Hn)|
    (entity & a & stake & ent & n & Hin & Hst & Hv & Hg & Ha & Hn)]].
  - unfold check_unstaked_entities, get_entities in Hun. cbv beta iota in Hun.
    rewrite (db_entity_count _ lp) in Hun by done. case_bool_decide as Hz; [done|].
    apply Hs. apply leibniz_equiv, size_empty_inv. lia.
  - rewrite check_entities_ok in Hen. specialize (Hen entity a Hin).
    apply check_entity_ok in Hen as (c' & Hc' & _ & Hlt).
    assert (c' = c) as -> by congruence. specialize (Hlt Ht).
    rewrite (db_entity_count _ lp) in Hlt by done. lia.
  - pose proof (check_unstaked_entities_ok _ _ _ _ _ _ Hun Hin) as Hx.
    unfold check_unstaked_entity in Hx. case_bool_decide; [done|].
    rewrite Hst in Hx; cbn [comp_bind] in Hx. rewrite Hv, Hg in Hx; cbn [map_err comp_bind] in Hx.
    rewrite Ha in Hx; cbn [comp_bind] in Hx. rewrite (db_entity_count _ lp) in Hx by done.
    case_bool_decide; [done|]. lia.
Qed.
End refusals.

(** ** Concrete evaluations *)
Module Example.
#[local] Existing Instances fx_profile std_abi std_display fx_node canonical_order.
#[local] Existing Instances Database.Example.map_mdbx Database.Example.map_mdbx_ok.

(** an operation of account 9, paid for by 7, is added and removed *)
Definition history : list pool_op := [OpAdd (Database.Example.paymaster_uo 1 0); OpRemove 1].
Definition left_by_history : env :=
  (st_for (E:=MempoolErrorKind) history exec Database.Example.empty_env).2.
Definition memory_left_by_history : MemStore :=
  (st_for (E:=MempoolErrorKind) history exec MemStore_default).2.

(** an operation of account 7 itself *)
Definition uo_of_7 : UserOperation := from_user_operation_signed 2 {|
  uo_sender := 7; uo_nonce := 0; uo_init_code := []; uo_call_data := [];
  uo_call_gas_limit := 21900; uo_verification_gas_limit := 100000;
  uo_pre_verification_gas := 100000; uo_max_fee_per_gas := 100;
  uo_max_priority_fee_per_gas := 10; uo_paymaster_and_data := []; uo_signature := [] |}.

Lemma history_one_op : one_op_per_hash history.
Proof.
  intros a b Ha Hb _. unfold history in Ha, Hb.
  apply elem_of_cons in Ha as [[= ->]|Ha]; [|by apply list_elem_of_singleton in Ha].
  apply elem_of_cons in Hb as [[= ->]|Hb]; [done|by apply list_elem_of_singleton in Hb].
Qed.

Lemma database_refines_pool_witness :
  ∃ e', st_for history exec Database.Example.empty_env = (Ok (), e') ∧
    get e' 1 = Ok None ∧ get_number_by_entity e' 7 = 1%nat.
Proof.
  destruct (database_refines_pool history Database.Example.empty_env) as
    (e' & Hrun & _ & Hget & _ & _ & _ & Hcount & _); [done|apply history_one_op|].
  exists e'. split; [exact Hrun|]. split; [rewrite Hget; reflexivity|].
  rewrite (proj1 (Hcount 7)). reflexivity.
Defined.

Lemma left_refines : db_refines left_by_history (leaky_run history leaky_empty).
Proof.
  destruct (db_run_refines history Database.Example.empty_env leaky_empty) as (e' & Hrun & Hr).
  - by apply db_clear_refines.
  - apply history_one_op.
  - set_solver.
  - assert (e' = left_by_history) as -> by (by apply (f_equal snd) in Hrun). exact Hr.
Qed.

Lemma remembered_entities_refused_witness :
  sanity_checks Sanity.Example.helper uo_of_7 left_by_history fx_reputation ≠ Ok ().
Proof.
  apply (remembered_entities_refused Sanity.Example.helper uo_of_7 left_by_history
    (leaky_run history leaky_empty) fx_reputation left_refines).
  left. assert (1 ∈ remembered (leaky_run history leaky_empty) 7) as Hin by
    (apply (bool_decide_unpack _); vm_compute; reflexivity).
  intros He. change (1 ∈ remembered (leaky_run history leaky_empty) (uo_sender uo_of_7)) in Hin.
  rewrite He in Hin. by apply elem_of_empty in Hin.
Defined.

(** after the same history the two storages decide differently *)
Lemma storages_disagree :
  sanity_checks Sanity.Example.helper uo_of_7 memory_left_by_history fx_reputation = Ok () ∧
  check_unstaked_entities Sanity.Example.helper uo_of_7 left_by_history fx_reputation =
    Err (EntityRoles SENDER 7 "different").
Proof. split; by vm_compute. Qed.

(** *** A pool over the database: the same invariant, from empty tables on *)
#[local] Existing Instances std_abi_ok Trace.Example.lib Bundling.Example.clock Bundling.Example.chain.
Definition database_pool : UoPool env (gmap Address ReputationEntry) := {|
  up_mempool := Database.Example.empty_env; up_reputation := fx_reputation; up_published := [] |}.
#[local] Instance over_database : UserOperationValidator env (gmap Address ReputationEntry) :=
  standard_validator (N:=Bundling.Example.node) Bundling.Example.validator.

Lemma database_pool_in_order : ∀ submitted self',
  distinct_ops Bundling.Example.cfg submitted →
  handler_run (N:=Bundling.Example.node) Bundling.Example.cfg database_pool submitted self' →
  pool_inv Bundling.Example.cfg submitted self'.
Proof.
  assert (pool_inv Bundling.Example.cfg [] database_pool) as Hi.
  { exists leaky_empty. split; [by apply db_clear_refines|].
    split; [|split; [by intros v ?%elem_of_nil|done]].
    split_and!; repeat intros ?; simpl in *; by rewrite lookup_empty in *. }
  intros submitted self' Hd Hrun. remember database_pool as self eqn:Hs.
  induction Hrun as [|self uos self1 uos1 self2 _ IH Hst]; [by subst|].
  apply (pool_step_inv (N:=Bundling.Example.node)
    (VL:=standard_validator_laws (N:=Bundling.Example.node) Bundling.Example.validator)
    Bundling.Example.cfg _ self1); [by unfold is_address|by unfold is_u256, U256_MAX|done..|].
  apply IH; try done. eapply distinct_ops_subset; [|exact Hd]. intros v Hv. apply elem_of_app. by right.
Qed.
End Example.
