(* ===== verification/Blocks.v ===== *)
(** New blocks ([crates/primitives/src/provider.rs], [crates/mempool/src/builder.rs]):
    the streams of block hashes a node delivers, the task that removes the
    operations each block includes from the pool, and the task that ages the
    reputation.  What the node delivers is a parameter; a stream is the finite
    sequence delivered so far. *)

From S2P Require Import Prelude Primitives Errors AbiStd Gas Reputation Mempool.
From S2P Require Import MemoryStore EntryPoint Fixture Sanity Simulation Trace Validator UoPool Bundling.

(** ** [provider.rs] *)
(** [eyre::Result<H256>] *)
Abbreviation StreamItem := (string + H256)%type (only parsing).
Class BlockFeed := {
  (** [watch_blocks]: the hashes polled over HTTP *)
  watch_blocks : string + list H256;
  (** [subscribe_blocks]: the blocks pushed over a WebSocket, pending ones without a hash *)
  subscribe_blocks : string + list (option H256);
}.
Section provider.
Context {BF : BlockFeed}.
(** [stream! { .. ? .. }]: a failed subscription is the stream's only item *)
Definition create_http_block_stream : list StreamItem :=
  match watch_blocks with inl e => [inl e] | inr hashes => inr <$> hashes end.
Definition create_http_block_streams (n : nat) : list (list StreamItem) :=
  replicate n create_http_block_stream.
Definition create_ws_block_stream : list StreamItem :=
  match subscribe_blocks with inl e => [inl e] | inr blocks => inr <$> omap id blocks end.
Definition create_ws_block_streams (n : nat) : list (list StreamItem) :=
  replicate n create_ws_block_stream.
End provider.

(** ** [builder.rs] *)
Section tasks.
Context {P : Profile} {A : Abi} {CD : ChainData}.
Context {S : Type} `{MempoolStore S} {R : Type} `{ReputationEntryOp R} (cfg : UoPoolConfig).

(** the builder of the pools of one entry point; the pools it makes work on its storage *)
Record UoPoolBuilder := {
  ub_mode : UoPoolMode;
  ub_entrypoint : Address;
  ub_chain : Z;
  ub_max_verification_gas : U256;
  ub_mempool : S;
  ub_reputation : Reputation R;
  ub_network : option bool;
}.
Definition UoPoolBuilder_new (mode : UoPoolMode) (entrypoint : Address) (chain : Z) (max_verification_gas : U256)
    (mempool : S) (reputation : Reputation R) (network : option bool) : UoPoolBuilder := {|
  ub_mode := mode; ub_entrypoint := entrypoint; ub_chain := chain; ub_max_verification_gas := max_verification_gas;
  ub_mempool := mempool; ub_reputation := reputation; ub_network := network |}.
Definition uopool (self : UoPoolBuilder) : UoPoolConfig * UoPool S R :=
  ({| cfg_mode := self.(ub_mode); cfg_entry_point := self.(ub_entrypoint);
      cfg_max_verification_gas := self.(ub_max_verification_gas); cfg_chain_id := self.(ub_chain);
      cfg_network := self.(ub_network) |},
   {| up_mempool := self.(ub_mempool); up_reputation := self.(ub_reputation); up_published := [] |}).

(** one item: errors of the stream are skipped, those of the update logged *)
Definition on_stream_item {E} (item : StreamItem) : ST (UoPool S R) E () :=
  match item with
  | inr hash => st_ignore (handle_block_update cfg hash)
  | inl _ => st_ret ()
  end.
Definition register_block_updates {E} (stream : list StreamItem) : ST (UoPool S R) E () :=
  st_for stream on_stream_item.
(** [hours] rounds of the loop *)
Definition register_reputation_updates {E} (hours : nat) : ST (UoPool S R) E () :=
  st_for (replicate hours ()) (λ _, st_ignore (on_reputation update_hourly)).
End tasks.

(** ** What blocks include *)
Section included.
Context {A : Abi} {CD : ChainData} (cfg : UoPoolConfig).
Definition tx_ops (tx : Transaction) : list UserOperation :=
  if bool_decide (tx.(tx_to) = Some cfg.(cfg_entry_point)) then
    (λ uo : UserOperationSigned, from_user_operation_signed
       (hash uo cfg.(cfg_entry_point) cfg.(cfg_chain_id)) uo)
    <$> default [] (decode_handle_ops tx.(tx_input))
  else [].
Definition block_ops (h : H256) : list UserOperation :=
  match get_block_txs h with inr (Some txs) => txs ≫= tx_ops | _ => [] end.
Definition item_ops (item : StreamItem) : list UserOperation :=
  match item with inr h => block_ops h | inl _ => [] end.
Definition included_hashes (stream : list StreamItem) : gset UserOperationHash :=
  list_to_set (uo_hash <$> (stream ≫= item_ops)).
Definition included_count (stream : list StreamItem) : Z := Z.of_nat (length (stream ≫= item_ops)).
End included.

Section effect.
Context {P : Profile} {A : Abi} {CD : ChainData}.
Context {S : Type} `{PS : PoolStorage S} {R : Type} `{RL : ReputationEntryLaws R} (cfg : UoPoolConfig).
Implicit Types (self : UoPool S R) (r : Reputation R).

(** every counter of inclusions can still grow by [n] *)
Definition has_room (n : Z) r : Prop :=
  keyed (rep_view r.(entities)) ∧ n ≤ U64_MAX ∧
  ∀ a e, rep_view r.(entities) !! a = Some e → 0 ≤ e.(uo_included) ≤ U64_MAX - n.

Lemma has_room_weaken n m r : has_room n r → m ≤ n → has_room m r.
Proof.
  intros (Hk & Hn & He) Hm. split_and!; [done|lia|]. intros a e Ha. specialize (He a e Ha). lia.
Qed.

Lemma increment_included_room a n r :
  has_room n r → 1 ≤ n → ∃ r', increment_included a r = (Ok (), r') ∧ has_room (n - 1) r'.
Proof.
  intros (Hk & Hn & He) H1. pose proof (entry_or_default_address r a Hk) as Ha.
  assert (0 ≤ (entry_or_default r a).(uo_included) ≤ U64_MAX - n) as Hi.
  { unfold entry_or_default. destruct (_ !! a) eqn:Hl; simpl; [by eapply He|]. lia. }
  destruct (modify_entry_spec r a (λ ent, let* incl := u64_add ent.(uo_included) 1 in
              Ok (with_counters ent ent.(uo_seen) incl))
    (with_counters (entry_or_default r a) (entry_or_default r a).(uo_seen)
       ((entry_or_default r a).(uo_included) + 1)) Hk) as (r' & Hr & Hv & _); [|done|].
  { unfold u64_add. rewrite u64_norm_small; [done|]. unfold is_u64. lia. }
  exists r'. split; [exact Hr|]. split_and!; [|lia|].
  - rewrite Hv. intros b e [[<- <-]|[_ Hb]]%lookup_insert_Some; [done|by apply Hk].
  - rewrite Hv. intros b e [[<- <-]|[_ Hb]]%lookup_insert_Some; simpl; [lia|].
    specialize (He b e Hb). lia.
Qed.

(** the pool after removals: [X] are gone, the counters moved by at most [n] *)
Definition removed (X : gset UserOperationHash) (m : Z) (p : Pool) self' : Prop :=
  ∃ g, holds self'.(up_mempool) g ∧
    (ghost_pool g).(p_uos) = filter (λ kv, kv.1 ∉ X) p.(p_uos) ∧ has_room m self'.(up_reputation).

Lemma count_included_room {E} o n self :
  has_room n self.(up_reputation) → 1 ≤ n →
  ∃ self', count_included (E:=E) o self = (Ok (), self') ∧
    self'.(up_mempool) = self.(up_mempool) ∧ has_room (n - 1) self'.(up_reputation).
Proof.
  intros Hr Hn. destruct o as [a|]; simpl.
  - destruct (increment_included_room a n _ Hr Hn) as (r' & Hi & Hr').
    exists (with_reputation r' self). unfold st_ignore, on_reputation, st_zoom. by rewrite Hi.
  - exists self. split_and!; [done|done|]. apply (has_room_weaken n); [done|lia].
Qed.

Lemma filter_filter_not (X Y : gset UserOperationHash) (m : gmap UserOperationHash UserOperationSigned) :
  filter (λ kv, kv.1 ∉ Y) (filter (λ kv, kv.1 ∉ X) m) = filter (λ kv, kv.1 ∉ X ∪ Y) m.
Proof.
  rewrite map_filter_filter. apply map_filter_ext. intros k v _. simpl. set_solver.
Qed.

Lemma remove_one {E} uo n self p X :
  removed X n p self → 3 ≤ n →
  ∃ self', (do* _ := remove_user_operation uo.(uo_hash) in
            do* _ := count_included (Some uo.(uo_sender)) in
            do* _ := count_included (get_address uo.(uo_paymaster_and_data)) in
            count_included (E:=E) (get_address uo.(uo_init_code))) self = (Ok (), self') ∧
    removed (X ∪ {[uo.(uo_hash)]}) (n - 3) p self'.
Proof.
  intros (g0 & Hr & Hp & Hroom) Hn.
  destruct (remove_user_operation_holds (E:=E) (Primitives.uo_hash uo) self g0 Hr) as (s1 & H1 & Hr1 & Hrep & _).
  rewrite (st_bind_step _ _ _ _ _ H1).
  destruct (count_included_room (E:=E) (Some (uo_sender uo)) n s1) as (s2 & H2 & M2 & R2); [by rewrite Hrep|lia|].
  rewrite (st_bind_step _ _ _ _ _ H2).
  destruct (count_included_room (E:=E) (get_address (uo_paymaster_and_data uo)) (n - 1) s2)
    as (s3 & H3 & M3 & R3); [done|lia|].
  rewrite (st_bind_step _ _ _ _ _ H3).
  destruct (count_included_room (E:=E) (get_address (uo_init_code uo)) (n - 1 - 1) s3)
    as (s4 & H4 & M4 & R4); [done|lia|].
  exists s4. split; [exact H4|]. eexists. rewrite M4, M3, M2. split_and!; [exact Hr1| |].
  - rewrite ghost_exec_pool. cbn [pool_exec pool_drop p_uos]. rewrite Hp.
    rewrite <-(filter_filter_not X). apply map_filter_ext. intros k v Hk. simpl.
    assert (k ∈ dom (filter (λ kv : UserOperationHash * UserOperationSigned, kv.1 ∉ X) (p_uos p)))
      by (by apply elem_of_dom_2 in Hk). set_solver.
  - replace (n - 3) with (n - 1 - 1 - 1) by lia. done.
Qed.

Lemma removed_mono X n m p self : removed X n p self → m ≤ n → removed X m p self.
Proof.
  intros (p' & Hr & Hp & Hroom) Hm. exists p'. split_and!; [done..|]. by apply (has_room_weaken n).
Qed.
Definition hashes_of (uos : list UserOperation) : gset UserOperationHash := list_to_set (uo_hash <$> uos).

Lemma remove_many {E} uos n self p X :
  removed X n p self → 3 * Z.of_nat (length uos) ≤ n →
  ∃ self', remove_user_operations (E:=E) uos self = (Ok (), self') ∧
    removed (X ∪ hashes_of uos) (n - 3 * Z.of_nat (length uos)) p self'.
Proof.
  revert n self X. induction uos as [|uo uos IH]; intros n self X Hrm Hn; cbn [length] in Hn |- *.
  { exists self. split; [done|]. unfold hashes_of. cbn [fmap list_fmap list_to_set]. rewrite union_empty_r_L.
    eapply removed_mono; [exact Hrm|lia]. }
  destruct (remove_one (E:=E) uo n self p X Hrm ltac:(lia)) as (s1 & H1 & R1).
  unfold remove_user_operations. cbn [st_for]. rewrite (st_bind_step _ _ _ _ _ H1).
  destruct (IH (n - 3) s1 (X ∪ {[Primitives.uo_hash uo]}) R1 ltac:(lia)) as (s2 & H2 & R2).
  exists s2. split; [exact H2|]. unfold hashes_of. cbn [fmap list_fmap list_to_set].
  rewrite (assoc_L (∪)).
  replace (n - 3 * Z.of_nat (Datatypes.S (length uos))) with (n - 3 - 3 * Z.of_nat (length uos)) by lia.
  exact R2.
Qed.

(** the transactions of a block, one after the other *)
Definition on_tx {E} (tx : Transaction) : ST (UoPool S R) E () :=
  if bool_decide (tx.(tx_to) = Some cfg.(cfg_entry_point)) then
    match decode_handle_ops tx.(tx_input) with
    | Some uos =>
        remove_user_operations
          ((λ uo : UserOperationSigned, from_user_operation_signed
                    (hash uo cfg.(cfg_entry_point) cfg.(cfg_chain_id)) uo) <$> uos)
    | None => st_ret ()
    end
  else st_ret ().
Lemma on_tx_removes {E} tx self : on_tx (E:=E) tx self = remove_user_operations (tx_ops cfg tx) self.
Proof.
  unfold on_tx, tx_ops. case_bool_decide; [|done]. by destruct (decode_handle_ops (tx_input tx)).
Qed.

Lemma remove_txs {E} txs n self p X :
  removed X n p self → 3 * Z.of_nat (length (txs ≫= tx_ops cfg)) ≤ n →
  ∃ self', st_for txs (on_tx (E:=E)) self = (Ok (), self') ∧
    removed (X ∪ hashes_of (txs ≫= tx_ops cfg)) (n - 3 * Z.of_nat (length (txs ≫= tx_ops cfg))) p self'.
Proof.
  revert n self X. induction txs as [|tx txs IH]; intros n self X Hrm Hn.
  { exists self. split; [done|]. unfold hashes_of. simpl. rewrite union_empty_r_L.
    eapply removed_mono; [exact Hrm|simpl; lia]. }
  cbn [mbind list_bind] in Hn |- *. rewrite length_app, Nat2Z.inj_add in Hn |- *.
  destruct (remove_many (E:=E) (tx_ops cfg tx) n self p X Hrm) as (s1 & H1 & R1); [lia|].
  destruct (IH _ s1 _ R1) as (s2 & H2 & R2); [lia|]. exists s2. split.
  - cbn [st_for]. by rewrite (st_bind_step _ _ self () s1) by (by rewrite on_tx_removes).
  - unfold hashes_of in *. rewrite fmap_app, list_to_set_app_L, (assoc_L (∪)).
    eapply removed_mono; [exact R2|lia].
Qed.

Lemma item_removes {E} item n self p X :
  removed X n p self → 3 * Z.of_nat (length (item_ops cfg item)) ≤ n →
  ∃ self', on_stream_item (E:=E) cfg item self = (Ok (), self') ∧
    removed (X ∪ hashes_of (item_ops cfg item)) (n - 3 * Z.of_nat (length (item_ops cfg item))) p self'.
Proof.
  intros Hrm Hn. assert (Hnone : ∃ self', (Ok (), self) = (Ok (E:=E) (), self') ∧ removed (X ∪ hashes_of []) (n - 0) p self').
  { exists self. split; [done|]. unfold hashes_of. simpl. rewrite union_empty_r_L, Z.sub_0_r. exact Hrm. }
  destruct item as [e|h]; [exact Hnone|]. cbn [on_stream_item item_ops] in Hn |- *.
  unfold block_ops, st_ignore, handle_block_update, st_lift, st_bind in *.
  destruct (get_block_txs h) as [e|[txs|]]; [exact Hnone| |exact Hnone].
  destruct (remove_txs (E:=string) txs n self p X Hrm Hn) as (s' & Hs & R').
  cbn [of_node]. change (st_for txs _ self) with (st_for txs (on_tx (E:=string)) self).
  rewrite Hs. by exists s'.
Qed.

Lemma stream_removes {E} stream n self p X :
  removed X n p self → 3 * included_count cfg stream ≤ n →
  ∃ self', register_block_updates (E:=E) cfg stream self = (Ok (), self') ∧
    removed (X ∪ included_hashes cfg stream) (n - 3 * included_count cfg stream) p self'.
Proof.
  unfold included_count, included_hashes. revert n self X.
  induction stream as [|item stream IH]; intros n self X Hrm Hn.
  { exists self. split; [done|]. simpl. rewrite union_empty_r_L. eapply removed_mono; [exact Hrm|simpl; lia]. }
  cbn [mbind list_bind] in Hn |- *. rewrite length_app, Nat2Z.inj_add in Hn |- *.
  destruct (item_removes (E:=E) item n self p X Hrm) as (s1 & H1 & R1); [lia|].
  destruct (IH _ s1 _ R1) as (s2 & H2 & R2); [lia|]. exists s2. split.
  - unfold register_block_updates. cbn [st_for]. by rewrite (st_bind_step _ _ _ _ _ H1).
  - unfold hashes_of in R2. rewrite fmap_app, list_to_set_app_L, (assoc_L (∪)).
    eapply removed_mono; [exact R2|lia].
Qed.

Lemma stream_removes_included {E} stream self g :
  holds self.(up_mempool) g → has_room (3 * included_count cfg stream) self.(up_reputation) →
  ∃ self' g', register_block_updates (E:=E) cfg stream self = (Ok (), self') ∧
    holds self'.(up_mempool) g' ∧
    (ghost_pool g').(p_uos) =
      filter (λ kv, kv.1 ∉ included_hashes cfg stream) (ghost_pool g).(p_uos).
Proof.
  intros Hr Hroom.
  destruct (stream_removes (E:=E) stream (3 * included_count cfg stream) self (ghost_pool g) ∅)
    as (s' & Hs & g' & Hr' & Hp' & _); [|done|].
  { exists g. split_and!; [done| |done]. symmetry. apply map_filter_id. set_solver. }
  exists s', g'. split_and!; [done..|]. by rewrite Hp', union_empty_l_L.
Qed.

(** C21. Included operations leave the pool: whatever blocks the node delivers, the
    task of the pool runs through the stream, and the pool then holds exactly the
    operations it held before, over either storage, without those that the delivered blocks include in
    calls of its entry point; a failed item or an unknown block removes nothing.
    The counters of inclusions must be able to grow by the number of included
    operations. *)
Theorem included_operations_removed stream self g :
  holds self.(up_mempool) g → has_room (3 * included_count cfg stream) self.(up_reputation) →
  ∃ self' g', register_block_updates (E:=MempoolError) cfg stream self = (Ok (), self') ∧
    holds self'.(up_mempool) g' ∧
    (ghost_pool g').(p_uos) =
      filter (λ kv, kv.1 ∉ included_hashes cfg stream) (ghost_pool g).(p_uos).
Proof. apply stream_removes_included. Qed.
End effect.

(** ** Concrete evaluations *)
Module Example.
#[local] Existing Instances std_abi canonical_order fx_profile.

Definition cfg : UoPoolConfig := {| cfg_mode := Standard; cfg_entry_point := 1;
  cfg_max_verification_gas := 5000000; cfg_chain_id := 5; cfg_network := None |}.
Definition op : UserOperationSigned := fx_uo 1 0 10.
Definition op_hash : UserOperationHash := hash op 1 5.
Definition pooled : UserOperation := from_user_operation_signed op_hash op.
(** block 7 holds a bundle with the operation, block 8 does not exist *)
#[local] Instance chain : ChainData := {|
  get_block_number := inr 8; query_events _ _ _ := inr []; get_transaction _ := inr None;
  get_transaction_receipt _ := inr None;
  get_block_txs h := if bool_decide (h = 7) then inr (Some [{| tx_input := []; tx_to := Some 1 |}])
                     else inr None;
  decode_handle_ops _ := Some [op];
|}.
#[local] Instance feed : BlockFeed := {|
  watch_blocks := inr [7; 8]; subscribe_blocks := inr [Some 7; None] |}.

Definition pool : UoPool MemStore (gmap Address ReputationEntry) := {|
  up_mempool := (Mempool.add (H:=mem_store) pooled MemStore_default).2;
  up_reputation := fx_reputation; up_published := [] |}.
Lemma pool_refines :
  refines pool.(up_mempool) {| p_uos := {[op_hash := op]}; p_codes := ∅ |}.
Proof.
  pose (ML := mem_laws (HO:=canonical_order)).
  destruct (exec_refines_lemma (ML:=ML) (OpAdd pooled) MemStore_default
    {| p_uos := ∅; p_codes := ∅ |}) as (s' & Hs & Hr); [|done|].
  - split_and!; [done..|]. split.
    + intros [] a h; unfold idx; simpl; rewrite lookup_empty; simpl; set_solver.
    + intros [] a hs; simpl; by rewrite lookup_empty.
  - assert (s' = pool.(up_mempool)) as -> by (by apply (f_equal snd) in Hs). exact Hr.
Qed.

Lemma included_operations_removed_witness :
  ∃ self' p', register_block_updates (E:=MempoolError) cfg create_http_block_stream pool = (Ok (), self') ∧
    refines self'.(up_mempool) p' ∧ p'.(p_uos) !! op_hash = None.
Proof.
  destruct (included_operations_removed (PS:=laws_storage) cfg create_http_block_stream pool
    ({| p_uos := {[op_hash := op]}; p_codes := ∅ |} : Pool) pool_refines)
    as (self' & p' & Hs & Hr & Hp).
  - split_and!; [|by vm_compute|]; intros a e Ha; simpl in Ha; by rewrite lookup_empty in Ha.
  - exists self', p'. split_and!; [done|done|]. change (p_uos p') with (p_uos (ghost_pool (PoolStorage:=laws_storage) p')). rewrite Hp. apply map_lookup_filter_None. right.
    intros u _ Hn. apply Hn. unfold included_hashes. apply elem_of_list_to_set. by left.
Defined.
End Example.
