(* ===== verification/Estimate.v ===== *)
(** Gas estimation ([crates/mempool/src/estimate.rs] and
    [UoPool::estimate_user_operation_gas] of [uopool.rs]): two binary searches
    over 64-bit gas limits against simulations of the operation. *)

From S2P Require Import Prelude Primitives Errors AbiStd Gas Reputation Mempool.
From S2P Require Import MemoryStore EntryPoint Fixture Sanity Simulation Trace.
From S2P Require Import Validator UoPool.

Definition FALL_BACK_BINARY_SEARCH_CUT_OFF : Z := 30000.
Definition BASE_VGL_BUFFER : Z := 25.
Definition MAX_CALL_GAS_LIMIT : Z := 18000000.
Definition MAX_RETRY : nat := 7.
Definition NON_ZERO_GAS : Z := 12100.
Definition EXECUTION_REVERTED : string := "execution reverted".
Definition EXECUTION_OOG : string := "execution OOG".
Definition PRE_VERIFICATION_SAFE_RESERVE_PERC : Z := 10.

(** [str::contains] *)
Definition contains (s sub : string) : bool := bool_decide (is_Some (String.index 0 sub s)).

(** [UserOperationRevertReasonFilter] *)
Record RevertReason := {
  rr_user_op_hash : H256;
  rr_sender : Address;
  rr_nonce : U256;
  rr_revert_reason : bytes;
}.

(** codecs and debug printers of the libraries *)
Class EstimateLib := {
  hex_decode : string → option bytes;
  decode_execution_result : bytes → option ExecutionResult;
  decode_failed_op : bytes → option (U256 * string);
  decode_user_op_event : list H256 → bytes → option UserOperationEvent;
  decode_revert_reason : list H256 → bytes → option RevertReason;
  debug_revert : string → RevertReason → string;
  debug_outcome : string → ExecutionResult → UserOperationEvent → option RevertReason → string;
  debug_entry_point_error : EntryPointError → string;
}.

Section estimate.
Context {P : Profile} {A : Abi} {D : Display} {N : Node} {EL : EstimateLib}.
Implicit Types (user_op : UserOperationSigned).

(** ** Classification of errors *)
Definition is_prefund_not_paid (err : EntryPointError) : bool :=
  let s := EntryPointError_to_string err in
  contains s "AA21 didn't pay prefund" || contains s "AA31 paymaster deposit too low" ||
  contains s "AA95 out of gas".

Definition is_validation_oog (err : EntryPointError) : bool :=
  let s := EntryPointError_to_string err in
  contains s "validation OOG" || contains s "return data out of bounds" ||
  contains s "AA40 over verificationGasLimit" || contains s "AA41 too little verificationGas" ||
  contains s "AA51 prefund below actualGasCost" || contains s "AA13 initCode failed or OOG" ||
  contains s "AA23 reverted (or OOG)" || contains s "AA33 reverted (or OOG".

Definition is_execution_oog (err : EntryPointError) : bool :=
  contains (EntryPointError_to_string err) EXECUTION_OOG.
Definition is_execution_revert (err : EntryPointError) : bool :=
  contains (EntryPointError_to_string err) EXECUTION_REVERTED.

(** ** The traced simulation *)
Record TraceOutput := {
  to_tracer_result : ExecutorTracerResult;
  to_execution_result : ExecutionResult;
  to_user_op_event : UserOperationEvent;
  to_user_op_revert_event : option RevertReason;
}.

Definition parse_simulate_handle_op_output (output : string) : comp EntryPointError ExecutionResult :=
  let* output_b := ok_or (EPOther "parse simulate handle op output failed") (bytes_from_str output) in
  match decode_execution_result output_b with
  | Some decoded => Ok decoded
  | None =>
      match decode_failed_op output_b with
      | Some (i, r) => Err (FailedOp i r)
      | None => Err (EPOther "output of parse simulate handle op is not valid")
      end
  end.

(** a topic as a 32-byte hash: an odd number of digits is padded on the left,
    a short value on the right *)
Definition parse_topic (t : string) : comp EntryPointError H256 :=
  let hash_str := if bool_decide (String.length t mod 2 = 0)%nat then t else "0" +:+ t in
  let* b := ok_or (EPOther "simulate handle user op failed on parsing user op event topic hash")
              (hex_decode hash_str) in
  Ok (from_slice (take 32 (b ++ repeat Byte.x00 32))).

Fixpoint parse_topics (ts : list string) : comp EntryPointError (list H256) :=
  match ts with
  | [] => Ok []
  | t :: ts => let* h := parse_topic t in let* hs := parse_topics ts in Ok (h :: hs)
  end.

Definition parse_user_op_event {T} (decode_log : list H256 → bytes → option T) (event : LogInfo)
  : comp EntryPointError T :=
  let* topics := parse_topics event.(li_topics) in
  let* data := ok_or (EPOther "simulate handle user op failed on parsing user op event data")
                 (bytes_from_str event.(li_data)) in
  ok_or (EPOther "simulate handle user op failed on parsing user op event") (decode_log topics data).

Definition result_ok {E X} (m : comp E X) : option X := match m with Ok x => Some x | _ => None end.

(** what a failed execution with recorded reverts is reported as *)
Definition execution_failure (tr : ExecutorTracerResult) (er : ExecutionResult)
    (ev : UserOperationEvent) (rev : option RevertReason) : comp EntryPointError EntryPointError :=
  let revert_data := default ""%string (last tr.(et_reverts)) in
  if bool_decide (revert_data = ""%string) && bool_decide (rev = None) && tr.(execution_oog)
  then Ok (EPOther EXECUTION_OOG)
  else
    let other := ExecutionReverted (debug_outcome tr.(et_error) er ev rev) in
    match rev with
    | Some revert_event =>
        let* o := decode_revert_string revert_event.(rr_revert_reason) in
        Ok (match o with
            | Some error_str => ExecutionReverted (debug_revert error_str revert_event)
            | None => other
            end)
    | None => Ok other
    end.

Definition trace_simulate_handle_op user_op : comp EntryPointError TraceOutput :=
  let* geth_trace := simulate_handle_op_trace user_op in
  let* tr := map_err (λ e, EPOther ("Estimate trace simulate handle op decode error " +:+ e))
               (executor_of_trace geth_trace) in
  let* er := parse_simulate_handle_op_output tr.(et_output) in
  let* li := ok_or (EPOther "Estimate trace simulate handle op user op event not found")
               tr.(user_op_event) in
  let* ev := parse_user_op_event decode_user_op_event li in
  let rev := tr.(user_op_revert_event) ≫= λ e, result_ok (parse_user_op_event decode_revert_reason e) in
  if negb ev.(ev_success) && negb (bool_decide (tr.(et_reverts) = [])) then
    let* e := execution_failure tr er ev rev in Err e
  else Ok {| to_tracer_result := tr; to_execution_result := er; to_user_op_event := ev;
             to_user_op_revert_event := rev |}.

(** ** The estimator *)
(** assignments to the four gas fields of the working copy *)
Definition with_gas (vgl cgl fee prio : U256) user_op : UserOperationSigned := {|
  uo_sender := user_op.(uo_sender); uo_nonce := user_op.(uo_nonce);
  uo_init_code := user_op.(uo_init_code); uo_call_data := user_op.(uo_call_data);
  uo_call_gas_limit := cgl; uo_verification_gas_limit := vgl;
  uo_pre_verification_gas := user_op.(uo_pre_verification_gas);
  uo_max_fee_per_gas := fee; uo_max_priority_fee_per_gas := prio;
  uo_paymaster_and_data := user_op.(uo_paymaster_and_data); uo_signature := user_op.(uo_signature) |}.

(** search for the verification gas limit: [l], [r], [f] and [veri_err] *)
Record VSearch := { vs_l : Z; vs_r : Z; vs_f : Z; vs_err : EntryPointError }.

Definition midpoint {E} (l r : Z) : comp E Z := let* s := u64_add l r in Ok (s / 2).

(** [probe] is the simulation with a given verification gas limit *)
Definition verification_body (probe : Z → comp EntryPointError ExecutionResult) (s : VSearch)
  : comp EntryPointError (VSearch + VSearch) :=
  let* w := u64_sub s.(vs_r) s.(vs_l) in
  if bool_decide (w < FALL_BACK_BINARY_SEARCH_CUT_OFF) then Ok (inr s)
  else
    let* m := midpoint s.(vs_l) s.(vs_r) in
    match probe m with
    | Ok _ =>
        let* r := u64_sub m 1 in
        Ok (inl {| vs_l := s.(vs_l); vs_r := r; vs_f := m; vs_err := s.(vs_err) |})
    | Err e =>
        if is_prefund_not_paid e then
          let* r := u64_sub m 1 in
          Ok (inl {| vs_l := s.(vs_l); vs_r := r; vs_f := s.(vs_f); vs_err := e |})
        else if is_validation_oog e then
          let* l := u64_add m 1 in
          Ok (inl {| vs_l := l; vs_r := s.(vs_r); vs_f := s.(vs_f); vs_err := e |})
        else Err e
    | Panic => Panic
    end.

Definition verification_start : VSearch := {| vs_l := 0; vs_r := U64_MAX; vs_f := 0;
  vs_err := EPOther "Could not find a valid verification gas limit" |}.

Definition search_verification fuel (probe : Z → comp EntryPointError ExecutionResult) :=
  run_loop fuel (verification_body probe) verification_start.

(** up to [MAX_RETRY] traced simulations, each with a quarter more gas; [inl] is
    the error of the last one *)
Fixpoint retry_trace (n : nat) user_op (f : Z) (res : comp EntryPointError (U256 * U256))
  : comp EntryPointError (comp EntryPointError (U256 * U256) + Z * TraceOutput) :=
  match n with
  | O => Ok (inl res)
  | S n =>
      let* p := u64_mul f (100 + BASE_VGL_BUFFER) in
      let f := p / 100 in
      match trace_simulate_handle_op (with_gas f MAX_CALL_GAS_LIMIT 0 0 user_op) with
      | Ok out => Ok (inr (f, out))
      | Err e => retry_trace n user_op f (Err e)
      | Panic => Panic
      end
  end.

(** search for the call gas limit: [l], [r], [f] and the limit left in the
    working copy *)
Record CSearch := { cs_l : Z; cs_r : Z; cs_f : Z; cs_op : Z }.

Definition call_body (probe : Z → comp EntryPointError TraceOutput) (s : CSearch)
  : comp EntryPointError (CSearch + CSearch) :=
  let* w := u64_sub s.(cs_r) s.(cs_l) in
  if bool_decide (w < FALL_BACK_BINARY_SEARCH_CUT_OFF) then Ok (inr s)
  else
    let* m := midpoint s.(cs_l) s.(cs_r) in
    match probe m with
    | Ok _ =>
        let* r := u64_sub m 1 in
        Ok (inl {| cs_l := s.(cs_l); cs_r := r; cs_f := m; cs_op := m |})
    | Err e =>
        if is_prefund_not_paid e then
          let* r := u64_sub m 1 in
          Ok (inl {| cs_l := s.(cs_l); cs_r := r; cs_f := s.(cs_f); cs_op := m |})
        else if is_execution_oog e || is_execution_revert e then
          let* l := u64_add m 1 in
          Ok (inl {| cs_l := l; cs_r := s.(cs_r); cs_f := s.(cs_f); cs_op := m |})
        else Err (EPOther "Could not find a valid call gas limit")
    | Panic => Panic
    end.

(** the outer loop: [call_gas_limit], and the limit in the working copy, which
    the loop does not set to the limit it found *)
Fixpoint call_loop (fuel inner : nat) (probe : Z → comp EntryPointError TraceOutput)
    (call_gas_limit op_limit : Z) : option (comp EntryPointError Z) :=
  match fuel with
  | O => None
  | S fuel =>
      match probe op_limit with
      | Ok _ => Some (Ok call_gas_limit)
      | Err e =>
          if is_execution_oog e || is_execution_revert e then
            match run_loop inner (call_body probe)
                    {| cs_l := call_gas_limit; cs_r := U64_MAX; cs_f := 0; cs_op := op_limit |} with
            | Some (Ok s) => call_loop fuel inner probe s.(cs_f) s.(cs_op)
            | Some (Err e) => Some (Err e)
            | Some Panic => Some Panic
            | None => None
            end
          else Some (Err (EPOther ("Trace handle op return unhandled error: "
                                     +:+ debug_entry_point_error e)))
      | Panic => Some Panic
      end
  end.

Definition estimate_user_op_gas (fuel : nat) (user_op_ori : UserOperationSigned)
  : option (comp EntryPointError (U256 * U256)) :=
  let fee := user_op_ori.(uo_max_fee_per_gas) in
  match search_verification fuel (λ m, simulate_handle_op (with_gas m 0 fee fee user_op_ori)) with
  | Some (Ok s) =>
      if bool_decide (s.(vs_f) = 0) then Some (Err s.(vs_err))
      else
        match retry_trace MAX_RETRY user_op_ori s.(vs_f) (Ok (0, 0)) with
        | Ok (inr (vgl, out)) =>
            let limit := out.(to_tracer_result).(execution_gas_limit) in
            let call_gas_limit := if bool_decide (limit < NON_ZERO_GAS) then NON_ZERO_GAS else limit in
            let probe m := trace_simulate_handle_op
              (with_gas vgl m fee user_op_ori.(uo_max_priority_fee_per_gas) user_op_ori) in
            match call_loop fuel fuel probe call_gas_limit call_gas_limit with
            | Some (Ok c) => Some (Ok (vgl, c))
            | Some (Err e) => Some (Err e)
            | Some Panic => Some Panic
            | None => None
            end
        | Ok (inl res) => Some res
        | Err e => Some (Err e)
        | Panic => Some Panic
        end
  | Some (Err e) => Some (Err e)
  | Some Panic => Some Panic
  | None => None
  end.

(** ** [UoPool::estimate_user_operation_gas] *)
Definition estimate_error (h : UserOperationHash) (e : EntryPointError) : MempoolError :=
  mempool_error h
    match e with
    | FailedOp i r => InvalidUserOperation (InvSimulation (SimValidation (debug_failed_op i r)))
    | ExecutionReverted s => InvalidUserOperation (InvSimulation (SimExecution s))
    | EPProvider inner => MpProvider inner
    | _ => MpOther (debug_entry_point_error e)
    end.

Definition estimate_user_operation_gas (fuel : nat) (mode : UoPoolMode) (uo : UserOperation)
  : option (comp MempoolError UserOperationGasEstimation) :=
  let pre_verification_gas := div_ceil
    (saturating_mul (calculate_pre_verification_gas Overhead_default uo)
       (saturating_add 100 PRE_VERIFICATION_SAFE_RESERVE_PERC)) 100 in
  let limits := match mode with
    | Standard => estimate_user_op_gas fuel uo
    | Unsafe => Some (
        let* ret := simulate_handle_op uo in
        Ok (div_ceil (saturating_mul (saturating_sub ret.(er_pre_op_gas) pre_verification_gas) 3) 2,
            saturating_add
              (saturating_sub (div_ceil ret.(er_paid) uo.(uo_max_fee_per_gas)) ret.(er_pre_op_gas))
              35000))
    end in
  map_err (estimate_error uo.(uo_hash)) ∘ map_ok (λ '(vgl, cgl),
    {| ge_pre_verification_gas := pre_verification_gas; ge_verification_gas_limit := vgl;
       ge_call_gas_limit := cgl |}) <$> limits.

(** ** The search for the verification gas limit *)
(** a node for which [t] is the least sufficient limit *)
Definition threshold (t : Z) (probe : Z → comp EntryPointError ExecutionResult) : Prop :=
  ∀ m, is_u64 m → if bool_decide (t ≤ m) then ∃ res, probe m = Ok res
    else ∃ e, probe m = Err e ∧ is_prefund_not_paid e = false ∧ is_validation_oog e = true.

Definition window (s : VSearch) : Z := s.(vs_r) - s.(vs_l).

(** [t] lies in the window, or is the limit found just above it *)
Definition narrows (t : Z) (s : VSearch) : Prop :=
  0 ≤ s.(vs_l) ≤ t ∧ s.(vs_l) ≤ s.(vs_r) ∧ (t ≤ s.(vs_f) → s.(vs_f) = s.(vs_r) + 1) ∧
  (s.(vs_l) = 0 ∧ s.(vs_r) = U64_MAX ∧ s.(vs_f) = 0 ∨ t ≤ s.(vs_f) ≤ U64_MAX / 2).

Lemma verification_body_narrows t probe s :
  0 < t ≤ U64_MAX / 2 → threshold t probe → narrows t s →
  match verification_body probe s with
  | Ok (inl s') => narrows t s' ∧ 0 ≤ window s' ≤ window s / 2 ∧ 0 < window s / 2
  | Ok (inr s') => s' = s ∧ window s < FALL_BACK_BINARY_SEARCH_CUT_OFF
  | _ => False
  end.
Proof.
  intros Ht Hth ([Hl Hlt] & Hlr & Hf & Hcase). unfold verification_body, window, u64_sub, midpoint, u64_add.
  assert (Hmax : U64_MAX = 18446744073709551615) by done.
  assert (U64_MAX / 2 = 9223372036854775807) as Hhalf by done.
  assert (s.(vs_l) + s.(vs_r) ≤ U64_MAX ∧ s.(vs_r) ≤ U64_MAX) as [Hs Hr] by lia.
  rewrite u64_norm_small by (unfold is_u64; lia). cbn [comp_bind].
  case_bool_decide as Hw; [done|]. unfold FALL_BACK_BINARY_SEARCH_CUT_OFF in Hw.
  rewrite u64_norm_small by (unfold is_u64; lia). cbn [comp_bind].
  set (m := (s.(vs_l) + s.(vs_r)) / 2).
  assert (Hm : s.(vs_l) + 15000 ≤ m ∧ 2 * m ≤ s.(vs_l) + s.(vs_r) < 2 * m + 2).
  { unfold m. pose proof (Z.div_mod (s.(vs_l) + s.(vs_r)) 2).
    pose proof (Z.mod_pos_bound (s.(vs_l) + s.(vs_r)) 2). lia. }
  assert (Hw2 : s.(vs_r) - s.(vs_l) - 1 ≤ 2 * ((s.(vs_r) - s.(vs_l)) / 2) ≤ s.(vs_r) - s.(vs_l)).
  { pose proof (Z.div_mod (s.(vs_r) - s.(vs_l)) 2).
    pose proof (Z.mod_pos_bound (s.(vs_r) - s.(vs_l)) 2). lia. }
  specialize (Hth m ltac:(unfold is_u64; lia)). case_bool_decide as Htm.
  - destruct Hth as [res ->]. rewrite u64_norm_small by (unfold is_u64; lia). cbn [comp_bind].
    unfold narrows; simpl. split_and!; try lia.
  - destruct Hth as (e & -> & -> & ->). rewrite u64_norm_small by (unfold is_u64; lia). cbn [comp_bind].
    unfold narrows; simpl. split_and!; try lia.
Qed.

Lemma log2_half w w' : 0 < w / 2 → 0 ≤ w' ≤ w / 2 → (Z.to_nat (Z.log2 w') < Z.to_nat (Z.log2 w))%nat.
Proof.
  intros Hw Hw'. assert (2 * (w / 2) ≤ w) by (apply Z.mul_div_le; lia).
  assert (Z.log2 w' ≤ Z.log2 (w / 2)) by (apply Z.log2_le_mono; lia).
  assert (Z.log2 (w / 2) = Z.log2 w - 1).
  { change (w / 2) with (w / 2 ^ 1). rewrite <-Z.shiftr_div_pow2 by lia. rewrite Z.log2_shiftr; [|lia..].
    assert (0 < Z.log2 w) by (apply Z.log2_pos; lia). lia. }
  pose proof (Z.log2_nonneg w'). lia.
Qed.

(** C35. If some gas limit, at most half of the
    64-bit range, is the least one with which the operation's validation does
    not run out of gas, the search finds a sufficient limit that exceeds it by
    at most 30000; it needs fewer than 64 simulations and no arithmetic in it
    overflows, whether or not the build checks for overflows. *)
Theorem verification_search_least t probe :
  0 < t ≤ U64_MAX / 2 → threshold t probe →
  ∃ s, search_verification 64 probe = Some (Ok s) ∧
    t ≤ s.(vs_f) ≤ t + FALL_BACK_BINARY_SEARCH_CUT_OFF.
Proof.
  intros Ht Hth.
  destruct (run_loop_rule (verification_body probe) (λ s, Z.to_nat (Z.log2 (window s))) (narrows t)
    (λ res, ∃ s, res = Ok s ∧ narrows t s ∧ window s < FALL_BACK_BINARY_SEARCH_CUT_OFF))
    with (fuel := 64%nat) (s := verification_start) as (res & Hr & s & -> & Hn & Hw).
  - intros s Hs. pose proof (verification_body_narrows t probe s Ht Hth Hs) as Hb.
    destruct (verification_body probe s) as [[s'|s']| |]; [|by naive_solver|done..].
    destruct Hb as (? & ? & ?). split; [done|]. by apply log2_half.
  - unfold narrows, verification_start, U64_MAX in *; simpl in *. lia.
  - by vm_compute.
  - exists s. split; [exact Hr|]. destruct Hn as ([? ?] & ? & Hf & [Hc|Hc]).
    + exfalso. unfold window, FALL_BACK_BINARY_SEARCH_CUT_OFF, U64_MAX in *. lia.
    + rewrite Hf in * by lia. unfold window in Hw. lia.
Qed.

(** ** The search for the call gas limit *)
(** every limit up to [c] is too small *)
Definition too_small (c : Z) (probe : Z → comp EntryPointError TraceOutput) : Prop :=
  ∀ m, 0 ≤ m ≤ c → ∃ e, probe m = Err e ∧ is_prefund_not_paid e = false ∧
    is_execution_oog e || is_execution_revert e = true.

Lemma call_body_step c probe s :
  0 < c ≤ U64_MAX - FALL_BACK_BINARY_SEARCH_CUT_OFF → too_small c probe →
  1 ≤ s.(cs_l) ≤ c → s.(cs_r) = U64_MAX →
  call_body probe s = if overflow_checks then Panic else
    Ok (inl {| cs_l := (s.(cs_l) - 1) / 2 + 1; cs_r := U64_MAX; cs_f := s.(cs_f);
               cs_op := (s.(cs_l) - 1) / 2 |}).
Proof.
  intros Hc Hp Hl Hr. unfold call_body, u64_sub, midpoint, u64_add, FALL_BACK_BINARY_SEARCH_CUT_OFF in *.
  rewrite Hr. rewrite u64_norm_small by (unfold is_u64; lia). cbn [comp_bind].
  rewrite bool_decide_false by lia. unfold u64_norm at 1.
  rewrite bool_decide_false by lia. destruct overflow_checks eqn:Ho; [done|]. cbn [comp_bind].
  assert ((s.(cs_l) + U64_MAX) mod 2 ^ 64 = s.(cs_l) - 1) as ->.
  { unfold U64_MAX in *. rewrite <-(Z.mod_small (s.(cs_l) - 1) (2 ^ 64)) by lia.
    rewrite <-(Z.mod_add (s.(cs_l) - 1) 1) by lia. f_equal. lia. }
  assert (0 ≤ (s.(cs_l) - 1) / 2 ≤ s.(cs_l) - 1).
  { split; [apply Z.div_pos; lia|]. apply Z.div_le_upper_bound; lia. }
  destruct (Hp ((s.(cs_l) - 1) / 2)) as (e & -> & -> & ->); [lia|].
  rewrite u64_norm_small by (unfold is_u64; lia). done.
Qed.

Lemma call_search_diverges c probe fuel s :
  overflow_checks = false → 0 < c ≤ U64_MAX - FALL_BACK_BINARY_SEARCH_CUT_OFF → too_small c probe →
  1 ≤ s.(cs_l) ≤ c → s.(cs_r) = U64_MAX → run_loop fuel (call_body probe) s = None.
Proof.
  intros Ho Hc Hp. revert s. induction fuel as [|fuel IH]; intros s Hl Hr; [done|]. simpl.
  rewrite (call_body_step c) by done. rewrite Ho. apply IH; [|done]. simpl.
  assert (0 ≤ (s.(cs_l) - 1) / 2 ≤ s.(cs_l) - 1); [|lia].
  split; [apply Z.div_pos; lia|]. apply Z.div_le_upper_bound; lia.
Qed.

(** C36. When the traced call runs out of gas or reverts with
    the limit taken from the trace, and with every smaller one, the estimator
    does not find a larger limit: the midpoint of the limit and the largest
    64-bit number overflows.  A build with overflow checks panics; without them
    the sum wraps around, the search goes down instead of up and never ends. *)
Theorem call_search_fails c probe :
  0 < c ≤ U64_MAX - FALL_BACK_BINARY_SEARCH_CUT_OFF → too_small c probe →
  ∀ fuel inner,
    if overflow_checks then call_loop (S fuel) (S inner) probe c c = Some Panic
    else call_loop fuel inner probe c c = None.
Proof.
  intros Hc Hp fuel inner. destruct (Hp c) as (e & He & _ & Hoog); [lia|].
  destruct overflow_checks eqn:Ho.
  - cbn [call_loop run_loop]. rewrite He, Hoog. rewrite (call_body_step c) by (done || simpl; lia).
    by rewrite Ho.
  - destruct fuel as [|fuel]; [done|]. simpl. rewrite He, Hoog.
    rewrite (call_search_diverges c); try done. simpl. lia.
Qed.
End estimate.

(** ** Concrete evaluations *)
Module Example.
#[local] Existing Instances std_display fx_node.
#[local] Instance lib : EstimateLib := {|
  hex_decode _ := Some []; decode_execution_result _ := Some fx_execution;
  decode_failed_op _ := None; decode_user_op_event _ _ := None; decode_revert_reason _ _ := None;
  debug_revert s _ := s; debug_outcome s _ _ _ := s; debug_entry_point_error := EntryPointError_to_string |}.

(** validation needs 90000 units of gas *)
Definition needs_90000 (m : Z) : comp EntryPointError ExecutionResult :=
  if bool_decide (90000 ≤ m) then Ok fx_execution else Err (FailedOp 0 "AA23 reverted (or OOG)").

Lemma verification_search_least_witness : ∃ s,
  search_verification (P:=true) 64 needs_90000 = Some (Ok s) ∧ 90000 ≤ s.(vs_f) ≤ 120000.
Proof.
  apply (verification_search_least (P:=true) 90000 needs_90000).
  - by unfold U64_MAX.
  - intros m _. unfold needs_90000. case_bool_decide; [by eexists|]. eexists. by split_and!.
Defined.

(** the call runs out of gas with every limit *)
Definition always_oog (m : Z) : comp EntryPointError TraceOutput :=
  Err (EPOther EXECUTION_OOG).

Lemma call_search_fails_witness :
  call_loop (P:=true) 1 1 always_oog 20000 20000 = Some Panic ∧
  call_loop (P:=false) 100 100 always_oog 20000 20000 = None.
Proof.
  assert (Hp : too_small 20000 always_oog) by (intros m _; eexists; by split_and!).
  split.
  - apply (call_search_fails (P:=true) 20000 always_oog ltac:(by vm_compute) Hp 0 0).
  - apply (call_search_fails (P:=false) 20000 always_oog ltac:(by vm_compute) Hp 100 100).
Defined.
End Example.
