(* ===== verification/ExecutorTracer.v ===== *)
(** The JavaScript tracer of the gas estimation
    ([crates/contracts/src/executor_tracer.rs], [EXECUTOR_TRACER]): its handlers,
    the gas limit it derives from the calls it watches, and how the events it
    reports are read back. *)

From Stdlib Require Import Ascii.
From S2P Require Import Prelude Primitives Errors AbiStd HexStd Gas Reputation Mempool.
From S2P Require Import MemoryStore EntryPoint Fixture Simulation Trace Tracer Estimate.

(** ** The tracer's object *)
Record GasItem := { used : Z; required : Z }.
Definition defaultGasItem : GasItem := {| used := 0; required := 0 |}.
Record Executor := {
  ex_reverts : list string;
  validationOOG : bool;
  executionOOG : bool;
  executionGasLimit : Z;
  ex_depth : Z;
  (** a sparse array *)
  executionGasStack : gmap Z GasItem;
  marker : Z;
  userOperationEvent : option LogInfo;
  userOperationRevertEvent : option LogInfo;
}.
Definition executor_tracer : Executor := {|
  ex_reverts := []; validationOOG := false; executionOOG := false; executionGasLimit := 0;
  ex_depth := 0; executionGasStack := ∅; marker := 0; userOperationEvent := None;
  userOperationRevertEvent := None |}.
Definition validationMarker : Z := 1.
Definition executionMarker : Z := 3.
Definition userOperationEventTopics0 : string :=
  "0x49628fd1471006c1482da88028e9ce4dbb080b815c9b0344d39e5a8e6ec1419f".
Definition userOperationRevertEventTopics0 : string :=
  "0x1c4fada7374c0a9ee8841fc38afe82932dc0f8e69012e927f061a8bae611a201".

(** assignments *)
Definition with_gas_stack (limit : Z) (stack : gmap Z GasItem) (t : Executor) : Executor := {|
  ex_reverts := t.(ex_reverts); validationOOG := t.(validationOOG);
  executionOOG := t.(executionOOG); executionGasLimit := limit; ex_depth := t.(ex_depth);
  executionGasStack := stack; marker := t.(marker); userOperationEvent := t.(userOperationEvent);
  userOperationRevertEvent := t.(userOperationRevertEvent) |}.
Definition with_reverts (r : list string) (t : Executor) : Executor := {|
  ex_reverts := t.(ex_reverts) ++ r; validationOOG := t.(validationOOG);
  executionOOG := t.(executionOOG); executionGasLimit := t.(executionGasLimit);
  ex_depth := t.(ex_depth); executionGasStack := t.(executionGasStack); marker := t.(marker);
  userOperationEvent := t.(userOperationEvent);
  userOperationRevertEvent := t.(userOperationRevertEvent) |}.
Definition with_position (d m : Z) (t : Executor) : Executor := {|
  ex_reverts := t.(ex_reverts); validationOOG := t.(validationOOG);
  executionOOG := t.(executionOOG); executionGasLimit := t.(executionGasLimit);
  ex_depth := d; executionGasStack := t.(executionGasStack); marker := m;
  userOperationEvent := t.(userOperationEvent);
  userOperationRevertEvent := t.(userOperationRevertEvent) |}.
Definition with_events (ev rev : option LogInfo) (t : Executor) : Executor := {|
  ex_reverts := t.(ex_reverts); validationOOG := t.(validationOOG);
  executionOOG := t.(executionOOG); executionGasLimit := t.(executionGasLimit);
  ex_depth := t.(ex_depth); executionGasStack := t.(executionGasStack); marker := t.(marker);
  userOperationEvent := ev; userOperationRevertEvent := rev |}.
Definition with_oogs (v e : bool) (t : Executor) : Executor := {|
  ex_reverts := t.(ex_reverts); validationOOG := v; executionOOG := e;
  executionGasLimit := t.(executionGasLimit); ex_depth := t.(ex_depth);
  executionGasStack := t.(executionGasStack); marker := t.(marker);
  userOperationEvent := t.(userOperationEvent);
  userOperationRevertEvent := t.(userOperationRevertEvent) |}.

(** ** Arithmetic on doubles *)
Definition js_add (a b : Z) : Z := js_number (a + b).
Definition js_sub (a b : Z) : Z := js_number (a - b).
(** [Math.ceil(a / 63)]: the quotient has 53 significant bits *)
Definition js_ceil_div63 (a : Z) : Z :=
  let e := Z.log2 (Z.abs a / 63) - 52 in
  if bool_decide (e < 0) then
    let m := Z.sgn a * round_half_even (Z.abs a * 2 ^ (- e)) 63 in - ((- m) / 2 ^ (- e))
  else Z.sgn a * (round_half_even (Z.abs a) (63 * 2 ^ e) * 2 ^ e).

Section handlers.
Context {T : TracerHost}.
Implicit Types (t : Executor) (log : StepLog).

Definition isValidation t : bool :=
  bool_decide (validationMarker ≤ t.(marker)) && bool_decide (t.(marker) < executionMarker).
Definition isExecution t : bool := bool_decide (t.(marker) = executionMarker).

Definition is_event (topics0 : string) log : comp string bool :=
  map_ok (λ w, bool_decide ("0x" +:+ to_string16 w = topics0)) (log.(peek) 2%nat).
(** the object that [_setUserOperationEvent] and [_setUserOperationRevertEvent] build *)
Definition event_of log : comp string LogInfo :=
  let* ofs := peek_int log 0 in
  let* len := peek_int log 1 in
  let* ws := comp_map log.(peek) (seq 2 (log_count log.(op))) in
  let* data := slice log ofs len in
  Ok {| li_topics := to_string16 <$> ws; li_data := toHex data |}.

Definition isUserOperationEvent log : comp string bool := is_event userOperationEventTopics0 log.
Definition setUserOperationEvent log t : comp string Executor :=
  let* ev := event_of log in Ok (with_events (Some ev) t.(userOperationRevertEvent) t).
Definition isUserOperationRevertEvent log : comp string bool :=
  is_event userOperationRevertEventTopics0 log.
Definition setUserOperationRevertEvent log t : comp string Executor :=
  let* ev := event_of log in Ok (with_events t.(userOperationEvent) (Some ev) t).

(** the context of the whole call *)
Record TracerContext := { ctx_output : bytes; ctx_error : option string }.
(** [error] is left out of the object when it is undefined, and then the frame
    cannot be read *)
Definition executor_result (ctx : TracerContext) t : option ExecutorTracerResult :=
  error ← ctx.(ctx_error);
  Some {| et_reverts := t.(ex_reverts); validation_oog := t.(validationOOG);
          execution_oog := t.(executionOOG); execution_gas_limit := t.(executionGasLimit);
          user_op_event := t.(userOperationEvent);
          user_op_revert_event := t.(userOperationRevertEvent);
          et_output := toHex ctx.(ctx_output); et_error := error |}.

Definition executor_enter t : Executor :=
  if isExecution t then
    let next := t.(ex_depth) + 1 in
    if bool_decide (t.(executionGasStack) !! next = None)
    then with_gas_stack t.(executionGasLimit) (<[next := defaultGasItem]> t.(executionGasStack)) t
    else t
  else t.

(** the item of the frames at a depth after one of them ended *)
Definition add_frame (item nested : GasItem) (gas_used : Z) : GasItem :=
  {| used := js_add item.(used) gas_used;
     required := js_add item.(required)
       (js_add (js_sub gas_used nested.(used)) (js_ceil_div63 (js_number (nested.(required) * 64)))) |}.
Definition executor_exit (frame : FrameResult) t : comp string Executor :=
  if isExecution t then
    let t := if bool_decide (frame.(getError) = None) then t
             else with_reverts [toHex frame.(getOutput)] t in
    if bool_decide (2 ≤ t.(ex_depth)) then
      let d := t.(ex_depth) in
      let nested := default defaultGasItem (t.(executionGasStack) !! (d + 1)) in
      let stack := <[d + 1 := defaultGasItem]> t.(executionGasStack) in
      let* item := ok_or "TypeError"%string (stack !! d) in
      let item := add_frame item nested frame.(getGasUsed) in
      Ok (with_gas_stack item.(required) (<[d := item]> stack) t)
    else Ok t
  else Ok t.

Definition executor_step log t : comp string Executor :=
  let m := if bool_decide (log.(getDepth) = 1) && bool_decide (log.(op) = "NUMBER"%string)
           then t.(marker) + 1 else t.(marker) in
  let t := with_position log.(getDepth) m t in
  let watched := bool_decide (t.(ex_depth) ≤ 2) && starts_with log.(op) "LOG" in
  let* t :=
    (if watched then
       let* found := isUserOperationEvent log in
       if found then setUserOperationEvent log t else Ok t
     else Ok t) in
  let* t :=
    (if watched then
       let* found := isUserOperationRevertEvent log in
       if found then setUserOperationRevertEvent log t else Ok t
     else Ok t) in
  let short := bool_decide (log.(getGas) < log.(getCost)) in
  Ok (with_oogs (t.(validationOOG) || (short && isValidation t))
                (t.(executionOOG) || (short && isExecution t)) t).

Definition executor_handle t (e : TracerEvent) : comp string Executor :=
  match e with
  | EvStep log _ => executor_step log t
  | EvFault _ => Ok t
  | EvEnter _ => Ok (executor_enter t)
  | EvExit frame => executor_exit frame t
  end.
Definition run_executor (evs : list TracerEvent) t : comp string Executor :=
  comp_fold executor_handle t evs.
End handlers.

(** ** The arithmetic is exact on gas *)
(** far above the gas of any block *)
Definition GAS_BOUND : Z := 2 ^ 40.
Definition ceil63 (a : Z) : Z := (a + 62) / 63.

Lemma js_ceil_exact a : 0 ≤ a < 2 ^ 47 → js_ceil_div63 a = ceil63 a.
Proof.
  intros Ha. unfold js_ceil_div63, ceil63. rewrite Z.abs_eq by lia.
  destruct (decide (a = 0)) as [->|Hnz]; [done|].
  assert (Z.log2 (a / 63) < 47) as Hlog.
  { destruct (decide (a / 63 = 0)) as [->|]; [done|]. apply Z.log2_lt_pow2.
    - pose proof (Z.div_pos a 63). lia.
    - apply Z.div_lt_upper_bound; lia. }
  rewrite bool_decide_eq_true_2 by lia. rewrite Z.sgn_pos, Z.mul_1_l by lia.
  set (k := - (Z.log2 (a / 63) - 52)). assert (6 ≤ k) by lia.
  assert (64 ≤ 2 ^ k) by (change 64 with (2 ^ 6); apply Z.pow_le_mono_r; lia).
  generalize dependent (2 ^ k). clear k Hlog H. intros s Hs.
  set (n := (a + 62) / 63).
  assert (Hn : 63 * (n - 1) < a ≤ 63 * n) by (unfold n; Z.to_euclidean_division_equations; lia).
  clearbody n.
  pose proof (round_half_even_le (a * s) 63) as [Hlo Hhi].
  assert ((n - 1) * s + 1 ≤ a * s / 63) by (apply Z.div_le_lower_bound; nia).
  assert (round_half_even (a * s) 63 ≤ n * s) as Hup.
  { destruct (decide (a = 63 * n)) as [->|Hne].
    - unfold round_half_even. replace (63 * n * s) with ((n * s) * 63) by lia.
      rewrite Z.mod_mul, Z.div_mul by lia. by rewrite bool_decide_eq_true_2 by lia.
    - assert (a * s / 63 < n * s) by (apply Z.div_lt_upper_bound; nia). lia. }
  generalize dependent (round_half_even (a * s) 63). intros m Hlo Hhi Hup.
  assert (- m / s = - n); [|lia]. symmetry. apply (Z.div_unique_pos (- m) s (- n) (n * s - m)); nia.
Qed.

Lemma js_add_exact a b : 0 ≤ a + b < 2 ^ 53 → js_add a b = a + b.
Proof. apply js_number_small. Qed.
Lemma js_sub_exact a b : 0 ≤ a - b < 2 ^ 53 → js_sub a b = a - b.
Proof. apply js_number_small. Qed.
Lemma ceil63_ge r : 0 ≤ r → r ≤ ceil63 (r * 64).
Proof. intros Hr. unfold ceil63. apply Z.div_le_lower_bound; lia. Qed.
Lemma ceil63_mono a b : a ≤ b → ceil63 a ≤ ceil63 b.
Proof. intros Hab. unfold ceil63. apply Z.div_le_mono; lia. Qed.

Lemma add_frame_exact item nested gas :
  0 ≤ nested.(used) ≤ gas → 0 ≤ nested.(required) → 0 ≤ item.(used) → 0 ≤ item.(required) →
  item.(used) + gas < 2 ^ 53 →
  item.(required) + (gas - nested.(used) + ceil63 (nested.(required) * 64)) ≤ GAS_BOUND →
  add_frame item nested gas =
    {| used := item.(used) + gas;
       required := item.(required) + (gas - nested.(used) + ceil63 (nested.(required) * 64)) |}.
Proof.
  unfold GAS_BOUND. intros. pose proof (ceil63_ge (required nested) ltac:(done)).
  unfold add_frame. rewrite (js_number_small (required nested * 64)) by lia.
  rewrite js_ceil_exact by lia. rewrite js_sub_exact by lia. rewrite (js_add_exact (gas - _)) by lia.
  rewrite !js_add_exact by lia. done.
Qed.

(** ** Executions as trees of calls *)
(** a frame: its result, and its instructions, calls and last instruction; a
    call is the instruction, the frame object and the callee, which runs code *)
Inductive frame_tree :=
| FT (res : FrameResult) (body : body_tree)
with body_tree :=
| BEnd (last : StepLog)
| BStep (log : StepLog) (rest : body_tree)
| BCall (call : StepLog) (frame : CallFrame) (callee : frame_tree) (rest : body_tree).
Scheme frame_tree_mut := Induction for frame_tree Sort Prop
with body_tree_mut := Induction for body_tree Sort Prop.

Definition frame_res (f : frame_tree) : FrameResult := match f with FT res _ => res end.
Definition frame_body (f : frame_tree) : body_tree := match f with FT _ body => body end.

Section trees.
Context (db : StateDb).
Fixpoint body_events (b : body_tree) : list TracerEvent :=
  match b with
  | BEnd last => [EvStep last db]
  | BStep log rest => EvStep log db :: body_events rest
  | BCall call frame callee rest =>
      EvStep call db :: EvEnter frame ::
      match callee with FT res body => body_events body ++ EvExit res :: body_events rest end
  end.
End trees.

(** what the calls of a frame use, and what they need when each may only pass on
    63/64 of the gas *)
Fixpoint body_used (b : body_tree) : Z :=
  match b with
  | BEnd _ => 0
  | BStep _ rest => body_used rest
  | BCall _ _ (FT res _) rest => res.(getGasUsed) + body_used rest
  end.
Fixpoint body_required (b : body_tree) : Z :=
  match b with
  | BEnd _ => 0
  | BStep _ rest => body_required rest
  | BCall _ _ (FT res body) rest =>
      (res.(getGasUsed) - body_used body + ceil63 (body_required body * 64)) + body_required rest
  end.
Definition frame_required (f : frame_tree) : Z :=
  match f with FT res body => res.(getGasUsed) - body_used body + ceil63 (body_required body * 64) end.

(** the instructions of a frame are at its depth, and a call's gas is charged to
    the caller *)
Fixpoint body_wf (d : Z) (b : body_tree) : Prop :=
  match b with
  | BEnd last => last.(getDepth) = d
  | BStep log rest => log.(getDepth) = d ∧ body_wf d rest
  | BCall call _ (FT res body) rest =>
      call.(getDepth) = d ∧ body_wf (d + 1) body ∧ body_used body ≤ res.(getGasUsed) ∧ body_wf d rest
  end.
Definition frame_wf (d : Z) (f : frame_tree) : Prop :=
  match f with FT res body => body_wf d body ∧ body_used body ≤ res.(getGasUsed) end.

Lemma body_bounds b : ∀ d, body_wf d b → 0 ≤ body_used b ≤ body_required b.
Proof.
  apply (body_tree_mut
    (λ f, ∀ d, frame_wf d f → 0 ≤ (frame_res f).(getGasUsed) ≤ frame_required f)
    (λ b, ∀ d, body_wf d b → 0 ≤ body_used b ≤ body_required b)).
  - intros res body IH d [Hb Hu]. specialize (IH d Hb). simpl.
    pose proof (ceil63_ge (body_required body) ltac:(lia)). lia.
  - done.
  - intros log rest IH d [_ Hr]. by apply (IH d).
  - intros call frame [res body] IHf rest IHr d (_ & Hb & Hu & Hr). simpl.
    specialize (IHf (d + 1) (conj Hb Hu)). specialize (IHr d Hr). simpl in IHf. lia.
Qed.

(** ** The tracer computes the required gas *)
Section gas_limit.
Context {T : TracerHost} (db : StateDb).
Implicit Types (t : Executor) (log : StepLog).

(** the stack and memory of a log instruction can be read *)
Definition readable log : Prop :=
  starts_with log.(op) "LOG" = true → log.(getDepth) ≤ 2 →
  (∀ i, (i < 2 + Nat.max 1 (log_count log.(op)))%nat → ∃ w, log.(peek) i = Ok w) ∧
  (∀ a b, ∃ m, log.(memory_slice) a b = Ok m).
Fixpoint body_readable (b : body_tree) : Prop :=
  match b with
  | BEnd last => readable last
  | BStep log rest => readable log ∧ body_readable rest
  | BCall call _ (FT _ body) rest => readable call ∧ body_readable body ∧ body_readable rest
  end.

Lemma event_of_total log :
  starts_with log.(op) "LOG" = true → log.(getDepth) ≤ 2 → readable log → ∃ ev, event_of log = Ok ev.
Proof.
  intros Hl Hd Hr. destruct (Hr Hl Hd) as [Hp Hm]. unfold event_of, peek_int, slice.
  destruct (Hp 0%nat) as [w0 ->]; [lia|]. destruct (Hp 1%nat) as [w1 ->]; [lia|]. simpl.
  assert (∃ ws, comp_map (peek log) (seq 2 (log_count (op log))) = Ok ws) as [ws ->].
  { assert (∀ l, (∀ i, i ∈ l → ∃ w, peek log i = Ok w) → ∃ ws, comp_map (peek log) l = Ok ws) as Hmap.
    { induction l as [|i l IH]; intros Hl'; [by eexists|]. simpl.
      destruct (Hl' i) as [w ->]; [by left|]. destruct IH as [ws ->]; [|by eexists].
      intros j Hj. apply Hl'. by right. }
    apply Hmap. intros i Hi%elem_of_seq. apply Hp. lia. }
  simpl. destruct (Hm (js_number w0) (js_number (js_number w0 + js_number w1))) as [m ->]. by eexists.
Qed.

(** a step below the entry point moves to its depth and leaves the gas alone *)
Lemma executor_step_total log t :
  readable log → log.(getDepth) ≠ 1 →
  ∃ t', executor_step log t = Ok t' ∧ t'.(ex_depth) = log.(getDepth) ∧ t'.(marker) = t.(marker) ∧
    t'.(executionGasStack) = t.(executionGasStack) ∧
    t'.(executionGasLimit) = t.(executionGasLimit).
Proof.
  intros Hr Hd. unfold executor_step. rewrite (bool_decide_eq_false_2 (getDepth log = 1)) by done. simpl.
  destruct (_ && starts_with (op log) "LOG") eqn:Hw; [|by eexists].
  apply andb_true_iff in Hw as [Hd2%bool_decide_eq_true Hl].
  destruct (event_of_total log Hl Hd2 Hr) as [ev Hev]. destruct (Hr Hl Hd2) as [Hp _].
  unfold isUserOperationEvent, isUserOperationRevertEvent, setUserOperationEvent,
    setUserOperationRevertEvent, is_event. destruct (Hp 2%nat) as [w ->]; [lia|]. cbn [map_ok comp_bind].
  destruct (bool_decide ("0x" +:+ to_string16 w = userOperationEventTopics0)) eqn:H1;
    rewrite ?H1, ?Hev; cbn [comp_bind];
    destruct (bool_decide ("0x" +:+ to_string16 w = userOperationRevertEventTopics0)) eqn:H2;
    rewrite ?H2, ?Hev; cbn [comp_bind]; by eexists.
Qed.

Definition item t (k : Z) : GasItem := default defaultGasItem (t.(executionGasStack) !! k).
Definition plus (i : GasItem) (u r : Z) : GasItem :=
  {| used := i.(used) + u; required := i.(required) + r |}.
Definition executing t : Prop := t.(marker) = executionMarker.

Lemma run_executor_app evs1 evs2 t t1 :
  run_executor evs1 t = Ok t1 → run_executor (evs1 ++ evs2) t = run_executor evs2 t1.
Proof.
  unfold run_executor. revert t. induction evs1 as [|e evs1 IH]; intros t; simpl; [by intros [= ->]|].
  destruct (executor_handle t e); simpl; [apply IH|done..].
Qed.

Lemma executor_enter_spec t :
  executing t →
  executing (executor_enter t) ∧ (executor_enter t).(ex_depth) = t.(ex_depth) ∧
  is_Some ((executor_enter t).(executionGasStack) !! (t.(ex_depth) + 1)) ∧
  (∀ k, item (executor_enter t) k = item t k) ∧
  (∀ k, k ≠ t.(ex_depth) + 1 → (executor_enter t).(executionGasStack) !! k = t.(executionGasStack) !! k).
Proof.
  intros He. unfold executor_enter, isExecution. rewrite bool_decide_eq_true_2 by done. cbv zeta.
  case_bool_decide as Hn; simpl.
  - split_and!; try done; [rewrite lookup_insert_eq; eauto| |].
    + intros k. unfold item. simpl. destruct (decide (k = ex_depth t + 1)) as [->|].
      * by rewrite lookup_insert_eq, Hn.
      * by rewrite lookup_insert_ne.
    + intros k Hk. by rewrite lookup_insert_ne.
  - split_and!; try done. by apply not_eq_None_Some.
Qed.

Lemma executor_exit_spec res t it d :
  executing t → t.(ex_depth) = d → 2 ≤ d → t.(executionGasStack) !! d = Some it →
  ∃ t', executor_exit res t = Ok t' ∧ executing t' ∧ t'.(ex_depth) = d ∧
    t'.(executionGasStack) =
      <[d := add_frame it (item t (d + 1)) res.(getGasUsed)]> (<[d + 1 := defaultGasItem]> t.(executionGasStack)) ∧
    t'.(executionGasLimit) = (add_frame it (item t (d + 1)) res.(getGasUsed)).(required).
Proof.
  intros He <- Hd Hit. unfold executor_exit, isExecution. rewrite bool_decide_eq_true_2 by done. cbv zeta.
  destruct (bool_decide (getError res = None)); cbn [ex_depth with_reverts executionGasStack];
    rewrite bool_decide_eq_true_2 by done; rewrite lookup_insert_ne, Hit by lia; simpl;
    by eexists.
Qed.

(** what a run inside a frame at depth [d] does to the gas stack *)
Record ran (d u r : Z) t t' : Prop := {
  rn_executing : executing t';
  rn_depth : t'.(ex_depth) = d;
  rn_above k : d + 1 < k → item t' k = defaultGasItem;
  rn_nested : item t' (d + 1) = plus (item t (d + 1)) u r;
  rn_below k : k ≤ d → t'.(executionGasStack) !! k = t.(executionGasStack) !! k;
}.
Definition body_runs (b : body_tree) : Prop := ∀ d t,
  2 ≤ d → body_wf d b → body_readable b → executing t →
  (∀ k, d + 1 < k → item t k = defaultGasItem) →
  0 ≤ (item t (d + 1)).(used) ≤ (item t (d + 1)).(required) →
  (item t (d + 1)).(required) + body_required b ≤ GAS_BOUND →
  ∃ t', run_executor (body_events db b) t = Ok t' ∧ ran d (body_used b) (body_required b) t t'.

Lemma plus_0 i : plus i 0 0 = i.
Proof. destruct i. unfold plus. simpl. by rewrite !Z.add_0_r. Qed.
Lemma plus_default u r : plus defaultGasItem u r = {| used := u; required := r |}.
Proof. done. Qed.
Lemma plus_plus i u r u' r' : plus (plus i u r) u' r' = plus i (u + u') (r + r').
Proof. unfold plus. simpl. by rewrite !Z.add_assoc. Qed.

(** one instruction first *)
Lemma step_then log rest t d :
  readable log → log.(getDepth) = d → 2 ≤ d → executing t →
  ∃ t1, run_executor (EvStep log db :: rest) t = run_executor rest t1 ∧ executing t1 ∧
    t1.(ex_depth) = d ∧ t1.(executionGasStack) = t.(executionGasStack).
Proof.
  intros Hr Hd Hge He. destruct (executor_step_total log t Hr ltac:(lia)) as (t1 & H1 & Hd1 & Hm & Hs & _).
  exists t1. unfold run_executor, executing in *. cbn [comp_fold executor_handle]. rewrite H1.
  split_and!; [done|congruence|congruence|done].
Qed.

(** a call: the callee's body between its enter and its exit *)
Lemma call_runs frame res body d t :
  1 ≤ d → executing t → t.(ex_depth) = d → body_runs body →
  body_wf (d + 1) body → body_readable body → body_used body ≤ res.(getGasUsed) →
  (∀ k, d + 1 < k → item t k = defaultGasItem) →
  0 ≤ (item t (d + 1)).(used) ≤ (item t (d + 1)).(required) →
  (item t (d + 1)).(required) + frame_required (FT res body) ≤ GAS_BOUND →
  ∃ t', run_executor (EvEnter frame :: body_events db body ++ [EvExit res]) t = Ok t' ∧
    executing t' ∧ (∀ k, d + 1 < k → item t' k = defaultGasItem) ∧
    item t' (d + 1) = plus (item t (d + 1)) res.(getGasUsed) (frame_required (FT res body)) ∧
    t'.(executionGasLimit) = (item t' (d + 1)).(required) ∧
    (∀ k, k ≤ d → t'.(executionGasStack) !! k = t.(executionGasStack) !! k).
Proof.
  intros Hd He Hdep Hrun Hwf Hread Hu Hab Hit Hbound. simpl in Hbound.
  destruct (executor_enter_spec t He) as (He1 & Hd1 & [it Hs1] & Hi1 & Hk1). rewrite Hdep in Hs1, Hk1.
  pose proof (body_bounds body _ Hwf) as Hbb.
  pose proof (ceil63_ge (body_required body) ltac:(lia)).
  assert (item t (d + 1) = it) as Hitem by (rewrite <-Hi1; unfold item; by rewrite Hs1).
  destruct (Hrun (d + 1) (executor_enter t)) as (t2 & R2 & [E2 D2 A2 N2 B2]); [lia|done..| | | |].
  { intros k Hk. rewrite Hi1. apply Hab. lia. }
  { rewrite Hi1, Hab by lia. simpl. lia. }
  { rewrite Hi1, Hab by lia. simpl. lia. }
  rewrite Hi1, Hab, plus_default in N2 by lia.
  destruct (executor_exit_spec res t2 it (d + 1) E2 D2 ltac:(lia)) as (t3 & H3 & E3 & D3 & S3 & L3).
  { rewrite B2 by lia. done. }
  exists t3. split_and!.
  - change (EvEnter frame :: ?l) with ([EvEnter frame] ++ l).
    rewrite (run_executor_app _ _ t (executor_enter t)) by done.
    rewrite (run_executor_app _ _ _ _ R2). unfold run_executor. simpl. by rewrite H3.
  - done.
  - intros k Hk. unfold item. rewrite S3, lookup_insert_ne by lia.
    destruct (decide (k = d + 1 + 1)) as [->|]; [by rewrite lookup_insert_eq|].
    rewrite lookup_insert_ne by lia. apply A2. lia.
  - unfold item at 1. rewrite S3, lookup_insert_eq. cbn [default]. unfold id. rewrite N2.
    rewrite Hitem in Hit, Hbound |- *. rewrite add_frame_exact; simpl; [done|unfold GAS_BOUND in *; lia..].
  - unfold item. by rewrite S3, lookup_insert_eq.
  - intros k Hk. rewrite S3, !lookup_insert_ne by lia. rewrite B2 by lia. apply Hk1. lia.
Qed.

Lemma body_run b : body_runs b.
Proof.
  apply (body_tree_mut (λ f, body_runs (frame_body f)) body_runs); [done|..].
  - intros last d t Hd Hwf Hr He Hab Hit Hb. simpl in *.
    destruct (step_then last [] t d Hr Hwf Hd He) as (t1 & R1 & E1 & D1 & S1). exists t1.
    split; [done|]. unfold item in *. split; try done; unfold item; rewrite S1; [done| |done].
    by rewrite plus_0.
  - intros log rest IH d t Hd [Hdep Hwf] [Hr Hrr] He Hab Hit Hb. simpl in *.
    destruct (step_then log (body_events db rest) t d Hr Hdep Hd He) as (t1 & R1 & E1 & D1 & S1).
    assert (Hi : ∀ k, item t1 k = item t k) by (intros k; unfold item; by rewrite S1).
    destruct (IH d t1) as (t2 & R2 & [E2 D2 A2 N2 B2]); try done.
    { intros k Hk. rewrite Hi. by apply Hab. }
    { by rewrite Hi. }
    { by rewrite Hi. }
    exists t2. split; [by rewrite R1|]. split; try done; [by rewrite <-Hi|by rewrite <-S1].
  - intros call frame [res body] IHf rest IHr d t Hd (Hdep & Hwb & Hu & Hwf) (Hr & Hrb & Hrr) He Hab Hit Hb.
    cbn [body_events body_used body_required] in *. cbn [frame_body] in IHf.
    destruct (step_then call (EvEnter frame :: body_events db body ++ EvExit res :: body_events db rest) t d
                Hr Hdep Hd He) as (t1 & R1 & E1 & D1 & S1).
    assert (Hi : ∀ k, item t1 k = item t k) by (intros k; unfold item; by rewrite S1).
    pose proof (body_bounds rest _ Hwf) as Hbr. pose proof (body_bounds body _ Hwb) as Hbb.
    pose proof (ceil63_ge (body_required body) ltac:(lia)) as Hc.
    destruct (call_runs frame res body d t1 ltac:(lia)) as (t2 & R2 & E2 & A2 & N2 & _ & B2); try done;
      [intros; rewrite Hi; by apply Hab|by rewrite Hi|rewrite Hi; simpl; lia|].
    rewrite Hi in N2. cbn [frame_required] in N2.
    destruct (IHr d t2) as (t3 & R3 & [E3 D3 A3 N3 B3]); try done;
      [rewrite N2; simpl; lia|rewrite N2; simpl; lia|].
    exists t3. split.
    + rewrite R1. change (EvEnter frame :: body_events db body ++ EvExit res :: body_events db rest)
        with (EvEnter frame :: body_events db body ++ [EvExit res] ++ body_events db rest).
      rewrite app_assoc, app_comm_cons. by rewrite (run_executor_app _ _ _ _ R2).
    + split; try done; [|by intros k Hk; rewrite B3, B2, S1 by done].
      by rewrite N3, N2, plus_plus.
Qed.

(** C37. During the execution of the operation, the gas limit the tracer reports
    for a call of the entry point whose callees all run code is the gas the call
    needs: what each frame uses itself, plus 64/63, rounded up, of what its
    callees need, frame by frame; the tracer's double arithmetic is exact for it,
    no handler throws, and the result is at least the gas used. *)
Theorem execution_gas_limit_exact frame res body t :
  executing t → t.(ex_depth) = 1 → (∀ k, 1 < k → item t k = defaultGasItem) →
  body_wf 2 body → body_readable body → body_used body ≤ res.(getGasUsed) →
  frame_required (FT res body) ≤ GAS_BOUND →
  ∃ t', run_executor (EvEnter frame :: body_events db body ++ [EvExit res]) t = Ok t' ∧
    t'.(executionGasLimit) = frame_required (FT res body) ∧
    res.(getGasUsed) ≤ t'.(executionGasLimit).
Proof.
  intros He Hd Hdef Hwf Hread Hu Hb.
  destruct (call_runs frame res body 1 t) as (t' & R & _ & _ & N & L & _); try done.
  - apply body_run.
  - intros k Hk. apply Hdef. lia.
  - by rewrite Hdef.
  - by rewrite Hdef.
  - exists t'. rewrite L, N, Hdef by lia. simpl.
    pose proof (body_bounds body _ Hwf). pose proof (ceil63_ge (body_required body) ltac:(lia)).
    split_and!; [done|lia|lia].
Qed.
End gas_limit.

(** ** The topics of an event *)
Lemma be_to_Z_zeros k : be_to_Z (repeat Byte.x00 k) = 0.
Proof. induction k as [|k IH]; [done|]. cbn [repeat]. rewrite be_to_Z_cons, IH. done. Qed.
Lemma be_to_Z_leading k b : be_to_Z (repeat Byte.x00 k ++ b) = be_to_Z b.
Proof. induction k as [|k IH]; [done|]. cbn [repeat app]. rewrite be_to_Z_cons, IH. done. Qed.
Lemma be_to_Z_trailing k b :
  be_to_Z (b ++ repeat Byte.x00 k) = be_to_Z b * 2 ^ (8 * Z.of_nat k).
Proof.
  induction b as [|x b IH]; [by rewrite app_nil_l, be_to_Z_zeros|]. cbn [app].
  rewrite !be_to_Z_cons, IH, length_app, repeat_length.
  replace (8 * Z.of_nat (length b + k)) with (8 * Z.of_nat (length b) + 8 * Z.of_nat k) by lia.
  rewrite Z.pow_add_r by lia. lia.
Qed.
Lemma Z_to_be_leading n k z :
  0 ≤ z < 2 ^ (8 * Z.of_nat n) → Z_to_be (k + n) z = repeat Byte.x00 k ++ Z_to_be n z.
Proof.
  intros Hz. apply from_slice_inj; [by rewrite length_app, repeat_length, !length_Z_to_be|].
  unfold from_slice. rewrite be_to_Z_leading, !be_to_Z_to_be; [done|done|].
  split; [lia|]. eapply Z.lt_le_trans; [apply Hz|]. apply Z.pow_le_mono_r; lia.
Qed.

Lemma take_repeat {X} (x : X) k m : (k ≤ m)%nat → take k (repeat x m) = repeat x k.
Proof. revert m. induction k as [|k IH]; intros [|m] Hk; [done|done|lia|]. simpl. rewrite IH by lia. done. Qed.

Lemma length_to_hex b : String.length (to_hex b) = (2 * length b)%nat.
Proof. induction b as [|x b IH]; [done|]. cbn [to_hex String.length length]. rewrite IH. lia. Qed.
Lemma hex_digit_zero n : 0 ≤ n < 16 → hex_digit n = "0"%char ↔ n = 0.
Proof.
  intros Hn. split; [|by intros ->]. intros Hz. pose proof (hex_value_digit n Hn) as Hv.
  rewrite Hz in Hv. by injection Hv as <-.
Qed.
Lemma strip_zeros_zero s : s ≠ ""%string → strip_zeros (String "0" s) = strip_zeros s.
Proof. by destruct s. Qed.
Lemma strip_zeros_nonzero c s : c ≠ "0"%char → strip_zeros (String c s) = String c s.
Proof. intros Hc. destruct c as [[] [] [] [] [] [] [] []]; done. Qed.
Lemma to_hex_nonempty b : b ≠ [] → to_hex b ≠ ""%string.
Proof. by destruct b. Qed.
Lemma strip_leading k b : b ≠ [] → strip_zeros (to_hex (repeat Byte.x00 k ++ b)) = strip_zeros (to_hex b).
Proof.
  intros Hb. induction k as [|k IH]; [done|]. cbn [repeat app to_hex].
  change (hex_digit (byte.unsigned Byte.x00 / 16)) with "0"%char.
  change (hex_digit (byte.unsigned Byte.x00 mod 16)) with "0"%char.
  rewrite strip_zeros_zero by done. rewrite strip_zeros_zero; [done|].
  apply to_hex_nonempty. by destruct k.
Qed.

(** the text of a word whose shortest form has [n] bytes, padded to whole bytes *)
Definition pad_even (s : string) : string :=
  if bool_decide (String.length s mod 2 = 0)%nat then s else "0" +:+ s.
Lemma pad_stripped x b : x ≠ Byte.x00 → pad_even (strip_zeros (to_hex (x :: b))) = to_hex (x :: b).
Proof.
  intros Hx. cbn [to_hex]. pose proof (byte.unsigned_range x) as Hr.
  assert (0 ≤ byte.unsigned x / 16 < 16) as Hhi by (Z.to_euclidean_division_equations; lia).
  assert (0 ≤ byte.unsigned x mod 16 < 16) as Hlo by (Z.to_euclidean_division_equations; lia).
  unfold pad_even. destruct (decide (byte.unsigned x / 16 = 0)) as [Hz|Hnz].
  - rewrite Hz. change (hex_digit 0) with "0"%char. rewrite strip_zeros_zero by done.
    rewrite strip_zeros_nonzero.
    + rewrite bool_decide_eq_false_2; [done|]. cbn [String.length]. rewrite length_to_hex.
      rewrite <-Nat.add_1_r, (Nat.mul_comm 2), Nat.add_comm, Nat.Div0.mod_add. done.
    + rewrite hex_digit_zero by done. intros Hm. apply Hx. apply byte.unsigned_inj.
      rewrite (Z.div_mod (byte.unsigned x) 16) by lia. rewrite Hz, Hm. done.
  - rewrite strip_zeros_nonzero by (by rewrite hex_digit_zero).
    rewrite bool_decide_eq_true_2; [done|]. cbn [String.length]. rewrite length_to_hex.
    change (Datatypes.S (Datatypes.S (2 * length b))) with (2 + 2 * length b)%nat.
    rewrite (Nat.mul_comm 2), Nat.Div0.mod_add. done.
Qed.

Section topics.
Context {T : TracerHost} {ES : EstimateLib}.
(** [hex::decode] *)
Hypothesis hex_decode_law : ∀ b, hex_decode (to_hex b) = Some b.

(** a word of [n] significant bytes *)
Lemma topic_shifted (n : nat) w :
  (1 ≤ n ≤ 32)%nat → 2 ^ (8 * (Z.of_nat n - 1)) ≤ w < 2 ^ (8 * Z.of_nat n) →
  parse_topic (to_string16 w) = Ok (w * 2 ^ (8 * (32 - Z.of_nat n))).
Proof using hex_decode_law.
  intros Hn Hw. assert (0 < 2 ^ (8 * (Z.of_nat n - 1))) as Hp by (apply Z.pow_pos_nonneg; lia).
  unfold to_string16. replace 32%nat with ((32 - n) + n)%nat by lia.
  rewrite Z_to_be_leading by lia. rewrite strip_leading by (intros Hb%(f_equal length); rewrite length_Z_to_be in Hb; simpl in Hb; lia).
  unfold parse_topic. fold (pad_even (strip_zeros (to_hex (Z_to_be n w)))).
  assert (∃ x b, Z_to_be n w = x :: b ∧ x ≠ Byte.x00 ∧ length b = (n - 1)%nat) as (x & b & Hb & Hx & Hlen).
  { pose proof (length_Z_to_be n w) as Hl. destruct (Z_to_be n w) as [|x b] eqn:Hb; [simpl in Hl; lia|].
    exists x, b. split_and!; [done| |simpl in Hl; lia]. intros ->.
    assert (be_to_Z (Z_to_be n w) = w) as Hv by (apply be_to_Z_to_be; lia).
    rewrite Hb, be_to_Z_cons in Hv. pose proof (be_to_Z_bound b) as Hbb. simpl in Hl.
    replace (Z.of_nat (length b)) with (Z.of_nat n - 1) in Hbb by lia.
    change (byte.unsigned Byte.x00) with 0 in Hv. lia. }
  rewrite Hb, (pad_stripped x b Hx), hex_decode_law, <-Hb. cbn [ok_or comp_bind]. f_equal.
  unfold from_slice.
  rewrite take_app_ge by (rewrite length_Z_to_be; lia).
  rewrite length_Z_to_be, take_repeat by lia.
  rewrite be_to_Z_trailing, be_to_Z_to_be by lia. f_equal. f_equal. lia.
Qed.
(** the number of significant bytes, and what is read of the word *)
Definition significant (w : Z) : Z := Z.log2 w / 8 + 1.
Definition misread (w : Z) : Z := if bool_decide (w = 0) then 0 else w * 2 ^ (8 * (32 - significant w)).
Lemma topic_misread w : is_u256 w → parse_topic (to_string16 w) = Ok (misread w).
Proof using hex_decode_law.
  intros [H0 Hw]. unfold misread. case_bool_decide as Hz.
  - subst w. change (to_string16 0) with "0"%string. unfold parse_topic.
    rewrite bool_decide_false by done. change ("0" +:+ "0")%string with (to_hex [Byte.x00]). by rewrite hex_decode_law.
  - pose proof (Z.log2_spec w ltac:(lia)) as [Hl1 Hl2]. pose proof (Z.log2_nonneg w).
    assert (Z.log2 w < 256) by (apply Z.log2_lt_pow2; unfold U256_MAX in Hw; lia).
    assert (0 ≤ Z.log2 w / 8 < 32) by (split; [apply Z.div_pos; lia|apply Z.div_lt_upper_bound; lia]).
    pose proof (Z.div_mod (Z.log2 w) 8 ltac:(lia)). pose proof (Z.mod_pos_bound (Z.log2 w) 8 ltac:(lia)).
    unfold significant. rewrite (topic_shifted (Z.to_nat (Z.log2 w / 8 + 1))).
    + by rewrite Z2Nat.id by lia.
    + lia.
    + rewrite Z2Nat.id by lia. split; [etrans; [|exact Hl1]; apply Z.pow_le_mono_r; lia|].
      eapply Z.lt_le_trans; [exact Hl2|]. apply Z.pow_le_mono_r; lia.
Qed.
Lemma topics_parsed ws : Forall is_u256 ws → parse_topics (to_string16 <$> ws) = Ok (misread <$> ws).
Proof using hex_decode_law.
  induction 1 as [|w ws Hw _ IH]; [done|]. cbn [fmap list_fmap parse_topics]. rewrite topic_misread by done.
  cbn [comp_bind]. by rewrite IH.
Qed.

(** The topics of the event that the tracer reports are read back shifted: it writes
    the words without their leading zeros, and the reader fills them up on the right, so
    a word of [n] significant bytes is multiplied by [2 ^ (8 * (32 - n))].  The sender
    and the paymaster of the event, at most twenty bytes in a word, are read as other
    numbers unless they are zero. *)
Theorem topics_misread log t t' ws :
  setUserOperationEvent log t = Ok t' → comp_map log.(peek) (seq 2 (log_count log.(op))) = Ok ws →
  Forall is_u256 ws →
  (∃ ev, t'.(userOperationEvent) = Some ev ∧ parse_topics ev.(li_topics) = Ok (misread <$> ws)) ∧
  (∀ w, w ∈ ws → 0 < w < 2 ^ 160 → misread w ≠ w).
Proof using hex_decode_law.
  intros Hs Hws Hu. split.
  - unfold setUserOperationEvent, event_of in Hs.
    destruct (peek_int log 0) as [ofs|?|]; [|done..]. cbn [comp_bind] in Hs.
    destruct (peek_int log 1) as [len|?|]; [|done..]. cbn [comp_bind] in Hs. rewrite Hws in Hs. cbn [comp_bind] in Hs.
    destruct (slice log ofs len) as [data|?|]; [|done..]. injection Hs as <-.
    eexists. split; [reflexivity|]. by apply topics_parsed.
  - intros w _ Hw. unfold misread, significant. rewrite bool_decide_false by lia.
    assert (Z.log2 w < 160) by (apply Z.log2_lt_pow2; lia). pose proof (Z.log2_nonneg w).
    assert (Z.log2 w / 8 < 20) by (apply Z.div_lt_upper_bound; lia).
    assert (1 < 2 ^ (8 * (32 - (Z.log2 w / 8 + 1)))) by (apply Z.pow_gt_1; lia). nia.
Qed.
End topics.

(** ** Concrete executions *)
Module Example.
#[local] Existing Instances std_host.
#[local] Instance lib : EstimateLib := {|
  hex_decode := from_hex; decode_execution_result _ := None; decode_failed_op _ := None;
  decode_user_op_event _ _ := None; decode_revert_reason _ _ := None; debug_revert s _ := s;
  debug_outcome s _ _ _ := s; debug_entry_point_error _ := "error"%string |}.

Definition start : Executor := with_position 1 executionMarker executor_tracer.
Definition at_depth (o : string) (d : Z) : StepLog := Tracer.Example.mk o d [] [] 9.
Definition call : CallFrame := {| getType := "CALL"; getFrom := 1; getTo := 9; getInput := [];
  frame_getGas := 50000; getValue := None |}.
Definition returned (gas : Z) : FrameResult := {| getGasUsed := gas; getOutput := []; getError := None |}.

(** the account, called through the entry point, calls a token *)
Definition token : frame_tree := FT (returned 6300) (BEnd (at_depth "RETURN" 4)).
Definition account : frame_tree :=
  FT (returned 10000) (BCall (at_depth "CALL" 3) call token (BEnd (at_depth "RETURN" 3))).
Definition inner : body_tree :=
  BStep (at_depth "PUSH1" 2) (BCall (at_depth "CALL" 2) call account (BEnd (at_depth "RETURN" 2))).

Lemma execution_gas_limit_exact_witness :
  ∃ t', run_executor (EvEnter call :: body_events Tracer.Example.world inner ++ [EvExit (returned 12000)]) start = Ok t' ∧
    t'.(executionGasLimit) = 12261 ∧ 12000 ≤ t'.(executionGasLimit).
Proof.
  apply (execution_gas_limit_exact Tracer.Example.world call (returned 12000) inner start);
    [done|done| | | |by vm_compute|by vm_compute].
  - intros k _. unfold item, start. cbn. by rewrite lookup_empty.
  - by repeat split.
  - repeat split; by intros ?.
Defined.

(** a callee without code makes no step, so its exit is charged to the caller's
    own depth: 3000 gas of a precompiled contract are counted twice *)
Definition with_precompiled : list TracerEvent :=
  [ EvEnter call; EvStep (at_depth "STATICCALL" 2) Tracer.Example.world; EvEnter call;
    EvExit (returned 3000); EvStep (at_depth "RETURN" 2) Tracer.Example.world; EvExit (returned 10000) ].
Theorem precompiled_counted_twice :
  match run_executor with_precompiled start with
  | Ok t => t.(executionGasLimit) = 13000 ∧ 10000 - 3000 + ceil63 (3000 * 64) = 10048
  | _ => False
  end.
Proof. by vm_compute. Qed.

(** an event of the account 9, with a paymaster whose first byte is 9 *)
Definition sponsor : Z := 9 * 2 ^ 152.
Definition event_log : StepLog := Tracer.Example.mk "LOG4" 1 [0; 0; 7; 2 ^ 255; 9; sponsor] [] 1.
Lemma topics_misread_witness : ∃ t' ev, setUserOperationEvent event_log start = Ok t' ∧
  t'.(userOperationEvent) = Some ev ∧
  parse_topics ev.(li_topics) = Ok [7 * 2 ^ 248; 2 ^ 255; 9 * 2 ^ 248; sponsor * 2 ^ 96].
Proof.
  destruct (topics_misread (ES := lib) from_to_hex event_log start
    (match setUserOperationEvent event_log start with Ok t => t | _ => start end) [7; 2 ^ 255; 9; sponsor])
    as [(ev & H1 & H2) _].
  - reflexivity.
  - reflexivity.
  - repeat (constructor; [by split; vm_compute|]). constructor.
  - eexists _, ev. split; [|split; [exact H1|rewrite H2; by vm_compute]]. reflexivity.
Defined.

(** LOG0 needs two words, but the tracer looks at the third *)
Theorem log0_throws :
  is_err (executor_step (Tracer.Example.mk "LOG0" 2 [0; 0] [] 9) start) = true.
Proof. by vm_compute. Qed.
End Example.
