(* ===== verification/Ssz.v ===== *)
(** The SSZ encoding of user operations sent over the peer-to-peer network
    ([crates/primitives/src/user_operation/mod.rs]): the serializer built on
    [ssz_rs] and the hand-written deserializer with its slicing. *)

From S2P Require Import Prelude Primitives.

Definition MAXIMUM_SSZ_BYTES_LENGTH : nat := 1024.

(** ** The library [ssz_rs] *)
Inductive SszPart := SFixed (b : bytes) | SVariable (b : bytes).

Inductive SszError :=
| MaximumEncodedLengthReached (len : nat)
| ExpectedFurtherInput (provided expected : nat)
| AdditionalInput (provided expected : nat)
| SszOther.

Class SszLib := {
  (** [Serializer]: the elements of a container, in order *)
  serialize_container : list SszPart → option bytes;
  (** the encodings of [u64; 4] and [u32], and their decodings *)
  encode_limbs : U256 → bytes;
  decode_limbs : bytes → option U256;
  decode_u32 : bytes → option Z;
}.

(** the SSZ rules: fixed parts in place, a 32-bit little-endian offset in place
    of each variable part, the variable parts at the end *)
Definition part_size (p : SszPart) : nat := match p with SFixed b => length b | SVariable _ => 4 end.
Definition variable_part (p : SszPart) : bytes := match p with SFixed _ => [] | SVariable b => b end.
Definition le32 (z : Z) : bytes := le_split 4 z.
Fixpoint heads (offset : nat) (ps : list SszPart) : list bytes :=
  match ps with
  | [] => []
  | SFixed b :: ps => b :: heads offset ps
  | SVariable b :: ps => le32 (Z.of_nat offset) :: heads (offset + length b) ps
  end.
Definition ssz_container (ps : list SszPart) : bytes :=
  let fixed := foldr (λ p n, part_size p + n)%nat 0%nat ps in
  concat (heads fixed ps) ++ concat (variable_part <$> ps).

Class SszOk (L : SszLib) := {
  serialize_container_ok : ∀ ps, Z.of_nat (length (ssz_container ps)) < 2 ^ 32 →
    serialize_container ps = Some (ssz_container ps);
  encode_limbs_ok : ∀ x, encode_limbs x = le_split 32 x;
  decode_limbs_ok : ∀ b, length b = 32%nat → decode_limbs b = Some (le_combine b);
  decode_u32_ok : ∀ b, length b = 4%nat → decode_u32 b = Some (le_combine b);
}.

Section ssz.
Context {L : SszLib}.

(** ** [Serialize] *)
Definition btyes_to_list (value : bytes) : comp SszError bytes :=
  if bool_decide (length value ≤ MAXIMUM_SSZ_BYTES_LENGTH)%nat then Ok value
  else Err (MaximumEncodedLengthReached (length value)).

Definition uo_parts (uo : UserOperationSigned) (ic cd pd sg : bytes) : list SszPart := [
  SFixed (address_bytes uo.(uo_sender)); SFixed (encode_limbs uo.(uo_nonce));
  SVariable ic; SVariable cd;
  SFixed (encode_limbs uo.(uo_call_gas_limit)); SFixed (encode_limbs uo.(uo_verification_gas_limit));
  SFixed (encode_limbs uo.(uo_pre_verification_gas)); SFixed (encode_limbs uo.(uo_max_fee_per_gas));
  SFixed (encode_limbs uo.(uo_max_priority_fee_per_gas)); SVariable pd; SVariable sg].

Definition serialize (uo : UserOperationSigned) : comp SszError bytes :=
  let* ic := btyes_to_list uo.(uo_init_code) in
  let* cd := btyes_to_list uo.(uo_call_data) in
  let* pd := btyes_to_list uo.(uo_paymaster_and_data) in
  let* sg := btyes_to_list uo.(uo_signature) in
  ok_or SszOther (serialize_container (uo_parts uo ic cd pd sg)).

(** ** [Deserialize] *)
(** [&encoding[start..end]] panics outside of the encoding *)
Definition slice (encoding : bytes) (start end_ : nat) : comp SszError bytes :=
  if bool_decide (start ≤ end_ ∧ end_ ≤ length encoding)%nat
  then Ok (take (end_ - start) (drop start encoding)) else Panic.

Definition ssz_unpack_bytes_length (start : nat) (encoding : bytes) : comp SszError nat :=
  let* b := slice encoding start (start + 4) in
  let* o := ok_or SszOther (decode_u32 b) in
  Ok (Z.to_nat o).

Definition ssz_unpack_u256 (start : nat) (encoding : bytes) : comp SszError U256 :=
  let* b := slice encoding start (start + 32) in
  ok_or SszOther (decode_limbs b).

(** the data between two offsets, and its length *)
Definition ssz_unpack_bytes (start end_ : nat) (encoding : bytes) : comp SszError (bytes * nat) :=
  let* b := slice encoding start end_ in Ok (b, end_ - start)%nat.

Definition deserialize (encoding : bytes) : comp SszError UserOperationSigned :=
  let len := length encoding in
  let* sender := if bool_decide (20 ≤ len)%nat then Ok (from_slice (take 20 encoding))
                 else Err (ExpectedFurtherInput len 20) in
  let* nonce := ssz_unpack_u256 20 encoding in
  let* o1 := ssz_unpack_bytes_length 52 encoding in
  let* o2 := ssz_unpack_bytes_length 56 encoding in
  let* cgl := ssz_unpack_u256 60 encoding in
  let* vgl := ssz_unpack_u256 92 encoding in
  let* pvg := ssz_unpack_u256 124 encoding in
  let* mf := ssz_unpack_u256 156 encoding in
  let* mp := ssz_unpack_u256 188 encoding in
  let* o3 := ssz_unpack_bytes_length 220 encoding in
  let* o4 := ssz_unpack_bytes_length 224 encoding in
  let* r1 := ssz_unpack_bytes o1 o2 encoding in
  let* r2 := ssz_unpack_bytes o2 o3 encoding in
  let* r3 := ssz_unpack_bytes o3 o4 encoding in
  let* r4 := ssz_unpack_bytes o4 len encoding in
  let total := (228 + r1.2 + r2.2 + r3.2 + r4.2)%nat in
  if bool_decide (len < total)%nat then Err (ExpectedFurtherInput len total)
  else if bool_decide (total < len)%nat then Err (AdditionalInput len total)
  else Ok {| uo_sender := sender; uo_nonce := nonce; uo_init_code := r1.1; uo_call_data := r2.1;
             uo_call_gas_limit := cgl; uo_verification_gas_limit := vgl;
             uo_pre_verification_gas := pvg; uo_max_fee_per_gas := mf;
             uo_max_priority_fee_per_gas := mp; uo_paymaster_and_data := r3.1; uo_signature := r4.1 |}.

(** ** Slices of a concatenation *)
Lemma slice_app pre x post a b :
  length pre = a → (a + length x)%nat = b → slice (pre ++ x ++ post) a b = Ok x.
Proof.
  intros <- <-. unfold slice. rewrite bool_decide_true by (rewrite !length_app; lia).
  rewrite drop_app_length. f_equal. rewrite take_app_le by lia. apply take_ge. lia.
Qed.

Lemma slice_concat chunks i x a b :
  chunks !! i = Some x → a = length (concat (take i chunks)) → b = (a + length x)%nat →
  slice (concat chunks) a b = Ok x.
Proof.
  intros Hi -> ->. rewrite <-(take_drop_middle chunks i x Hi) at 1.
  rewrite concat_app. simpl. by apply slice_app.
Qed.

Context {LOk : SszOk L}.

(** the encoding of an operation, field by field *)
Definition layout (uo : UserOperationSigned) : list bytes :=
  let o1 := 228%nat in
  let o2 := (o1 + length uo.(uo_init_code))%nat in
  let o3 := (o2 + length uo.(uo_call_data))%nat in
  let o4 := (o3 + length uo.(uo_paymaster_and_data))%nat in
  [address_bytes uo.(uo_sender); le_split 32 uo.(uo_nonce); le32 (Z.of_nat o1); le32 (Z.of_nat o2);
   le_split 32 uo.(uo_call_gas_limit); le_split 32 uo.(uo_verification_gas_limit);
   le_split 32 uo.(uo_pre_verification_gas); le_split 32 uo.(uo_max_fee_per_gas);
   le_split 32 uo.(uo_max_priority_fee_per_gas); le32 (Z.of_nat o3); le32 (Z.of_nat o4);
   uo.(uo_init_code); uo.(uo_call_data); uo.(uo_paymaster_and_data); uo.(uo_signature)].

Definition fits (uo : UserOperationSigned) : Prop :=
  Forall (λ b : bytes, length b ≤ MAXIMUM_SSZ_BYTES_LENGTH)%nat
    [uo.(uo_init_code); uo.(uo_call_data); uo.(uo_paymaster_and_data); uo.(uo_signature)].

Lemma length_address_bytes a : length (address_bytes a) = 20%nat.
Proof. apply length_Z_to_be. Qed.
Lemma length_le32 z : length (le32 z) = 4%nat.
Proof. apply length_le_split. Qed.

Lemma length_layout uo : length (concat (layout uo)) =
  (228 + length uo.(uo_init_code) + length uo.(uo_call_data) + length uo.(uo_paymaster_and_data)
   + length uo.(uo_signature))%nat.
Proof.
  unfold layout. cbn [concat]. rewrite !length_app, length_address_bytes, !length_le_split, !length_le32.
  simpl. lia.
Qed.

Lemma ssz_container_layout uo :
  ssz_container (uo_parts uo uo.(uo_init_code) uo.(uo_call_data) uo.(uo_paymaster_and_data)
    uo.(uo_signature)) = concat (layout uo).
Proof using LOk.
  unfold ssz_container, uo_parts. rewrite !encode_limbs_ok. cbn [foldr part_size].
  rewrite length_address_bytes, !length_le_split.
  cbn [heads fmap list_fmap variable_part concat]. unfold layout. cbn [concat].
  by rewrite !app_nil_r, <-!app_assoc.
Qed.

Lemma serialize_layout uo : fits uo → serialize uo = Ok (concat (layout uo)).
Proof using LOk.
  intros Hf. assert (Z.of_nat (length (concat (layout uo))) < 2 ^ 32) as Hlen.
  { rewrite length_layout. unfold fits, MAXIMUM_SSZ_BYTES_LENGTH in Hf.
    rewrite !Forall_cons in Hf. destruct Hf as (? & ? & ? & ? & _). lia. }
  unfold serialize, btyes_to_list. unfold fits in Hf. rewrite !Forall_cons in Hf.
  destruct Hf as (? & ? & ? & ? & _). rewrite !bool_decide_true by done. cbn [comp_bind].
  rewrite serialize_container_ok; rewrite ssz_container_layout; done.
Qed.

Lemma unpack_u256_layout uo i x a :
  layout uo !! i = Some (le_split 32 x) → a = length (concat (take i (layout uo))) → is_u256 x →
  ssz_unpack_u256 a (concat (layout uo)) = Ok x.
Proof using LOk.
  intros Hi Ha Hx. unfold ssz_unpack_u256.
  rewrite (slice_concat _ i (le_split 32 x)) by (done || by rewrite length_le_split). cbn [comp_bind].
  rewrite decode_limbs_ok by apply length_le_split. cbn [ok_or]. f_equal. apply le_combine_split_small.
  unfold is_u256, U256_MAX in Hx. change (8 * Z.of_nat 32) with 256. lia.
Qed.

Lemma unpack_offset_layout uo i o a :
  layout uo !! i = Some (le32 (Z.of_nat o)) → a = length (concat (take i (layout uo))) →
  Z.of_nat o < 2 ^ 32 → ssz_unpack_bytes_length a (concat (layout uo)) = Ok o.
Proof using LOk.
  intros Hi Ha Ho. unfold ssz_unpack_bytes_length.
  rewrite (slice_concat _ i (le32 (Z.of_nat o))) by (done || by rewrite length_le32). cbn [comp_bind].
  rewrite decode_u32_ok by apply length_le32. cbn [ok_or comp_bind]. unfold le32.
  rewrite le_combine_split_small by (change (8 * Z.of_nat 4) with 32; lia). by rewrite Nat2Z.id.
Qed.

Lemma unpack_bytes_layout uo i x a b :
  layout uo !! i = Some x → a = length (concat (take i (layout uo))) → b = (a + length x)%nat →
  ssz_unpack_bytes a b (concat (layout uo)) = Ok (x, length x).
Proof using.
  intros Hi Ha Hb. unfold ssz_unpack_bytes. rewrite (slice_concat _ i x) by done. cbn [comp_bind].
  do 2 f_equal. lia.
Qed.

(** lengths of prefixes of the layout *)
Ltac layout_length := unfold layout; cbn [take concat];
  rewrite ?length_app, ?length_address_bytes, ?length_le_split, ?length_le32; simpl; lia.
(** reads the next field of the layout *)
Tactic Notation "read_field" uconstr(lem) :=
  rewrite lem by (done || layout_length || lia || (rewrite ?length_layout; layout_length));
  cbn [comp_bind].

(** the decoder reads back the layout of an operation *)
Lemma deserialize_layout uo : uo_wf uo → fits uo → deserialize (concat (layout uo)) = Ok uo.
Proof using LOk.
  intros (Hs & Hn & Hc & Hv & Hp & Hf & Hm) Hfit.
  pose proof (length_layout uo) as Hlen. unfold fits, MAXIMUM_SSZ_BYTES_LENGTH in Hfit.
  rewrite !Forall_cons in Hfit. destruct Hfit as (? & ? & ? & ? & _).
  unfold deserialize. cbv zeta. rewrite bool_decide_true by lia. cbn [comp_bind].
  read_field (unpack_u256_layout uo 1 (uo_nonce uo)).
  read_field (unpack_offset_layout uo 2 228).
  read_field (unpack_offset_layout uo 3 (228 + length (uo_init_code uo))).
  read_field (unpack_u256_layout uo 4 (uo_call_gas_limit uo)).
  read_field (unpack_u256_layout uo 5 (uo_verification_gas_limit uo)).
  read_field (unpack_u256_layout uo 6 (uo_pre_verification_gas uo)).
  read_field (unpack_u256_layout uo 7 (uo_max_fee_per_gas uo)).
  read_field (unpack_u256_layout uo 8 (uo_max_priority_fee_per_gas uo)).
  read_field (unpack_offset_layout uo 9 (228 + length (uo_init_code uo) + length (uo_call_data uo))).
  read_field (unpack_offset_layout uo 10 (228 + length (uo_init_code uo) + length (uo_call_data uo)
    + length (uo_paymaster_and_data uo))).
  read_field (unpack_bytes_layout uo 11 (uo_init_code uo)).
  read_field (unpack_bytes_layout uo 12 (uo_call_data uo)).
  read_field (unpack_bytes_layout uo 13 (uo_paymaster_and_data uo)).
  read_field (unpack_bytes_layout uo 14 (uo_signature uo)).
  cbn [comp_bind fst snd]. rewrite !bool_decide_false by lia.
  assert (from_slice (take 20 (concat (layout uo))) = uo.(uo_sender)) as ->; [|by destruct uo].
  unfold layout. cbn [concat]. rewrite take_app_length' by (by rewrite length_address_bytes).
  unfold from_slice, address_bytes. apply be_to_Z_to_be. unfold is_address in Hs.
  change (8 * Z.of_nat 20) with 160. lia.
Qed.

Lemma serialize_oversized uo : ¬ fits uo → ∃ len, serialize uo = Err (MaximumEncodedLengthReached len).
Proof.
  intros Hfit. unfold serialize, btyes_to_list. unfold fits in Hfit. rewrite !Forall_cons in Hfit.
  repeat (case_bool_decide; cbn [comp_bind]; [|by eexists]). by destruct Hfit.
Qed.

(** C38. Every well-formed operation whose four byte strings
    have at most 1024 bytes is encoded, and decoding the encoding gives the
    operation back; any longer byte string makes the encoder return an error. *)
Theorem ssz_roundtrip uo : uo_wf uo →
  (fits uo → ∃ b, serialize uo = Ok b ∧ deserialize b = Ok uo) ∧
  (¬ fits uo → ∃ len, serialize uo = Err (MaximumEncodedLengthReached len)).
Proof using LOk.
  intros Hwf. split.
  - intros Hfit. exists (concat (layout uo)).
    split; [by apply serialize_layout|by apply deserialize_layout].
  - apply serialize_oversized.
Qed.

Lemma unpack_u256_total a b :
  if bool_decide (a + 32 ≤ length b)%nat then ∃ x, ssz_unpack_u256 a b = Ok x
  else ssz_unpack_u256 a b = Panic.
Proof using LOk.
  unfold ssz_unpack_u256, slice. case_bool_decide.
  - rewrite bool_decide_true by lia. cbn [comp_bind].
    rewrite decode_limbs_ok by (rewrite length_take, length_drop; lia). by eexists.
  - by rewrite bool_decide_false by lia.
Qed.

Lemma unpack_offset_total a b :
  if bool_decide (a + 4 ≤ length b)%nat then ∃ x, ssz_unpack_bytes_length a b = Ok x
  else ssz_unpack_bytes_length a b = Panic.
Proof using LOk.
  unfold ssz_unpack_bytes_length, slice. case_bool_decide.
  - rewrite bool_decide_true by lia. cbn [comp_bind].
    rewrite decode_u32_ok by (rewrite length_take, length_drop; lia). by eexists.
  - by rewrite bool_decide_false by lia.
Qed.

(** the next field is read, or the decoder crashes *)
Ltac next_field :=
  match goal with
  | |- context [ssz_unpack_u256 ?a ?b] =>
      let H := fresh in pose proof (unpack_u256_total a b) as H; case_bool_decide;
      [destruct H as [? ->]; cbn [comp_bind]|by rewrite H]
  | |- context [ssz_unpack_bytes_length ?a ?b] =>
      let H := fresh in pose proof (unpack_offset_total a b) as H; case_bool_decide;
      [destruct H as [? ->]; cbn [comp_bind]|by rewrite H]
  end.

(** A message too short for the fixed part of an operation is only rejected when it
    does not even hold the sender; every other truncated message crashes the decoder. *)
Lemma ssz_short (b : bytes) : (length b < 228)%nat →
  deserialize b = if bool_decide (20 ≤ length b)%nat then Panic
                  else Err (ExpectedFurtherInput (length b) 20).
Proof using LOk.
  intros Hlen. unfold deserialize. cbv zeta.
  destruct (bool_decide_reflect (20 ≤ length b)%nat); [|done]. cbn [comp_bind].
  repeat next_field. lia.
Qed.

End ssz.

(** ** A concrete library *)
Definition le_ssz : SszLib := {|
  serialize_container ps := Some (ssz_container ps); encode_limbs := le_split 32;
  decode_limbs b := Some (le_combine b); decode_u32 b := Some (le_combine b) |}.
#[global] Instance le_ssz_ok : SszOk le_ssz.
Proof. by split. Qed.

Module Example.
#[local] Existing Instance le_ssz.
Definition uo : UserOperationSigned := {|
  uo_sender := 9; uo_nonce := 100; uo_init_code := [Byte.x94; Byte.x06]; uo_call_data := [];
  uo_call_gas_limit := 100000; uo_verification_gas_limit := 361460;
  uo_pre_verification_gas := 44980; uo_max_fee_per_gas := 1695000030;
  uo_max_priority_fee_per_gas := 1695000000; uo_paymaster_and_data := [Byte.x1f];
  uo_signature := [Byte.xeb; Byte.xfd] |}.

Lemma ssz_roundtrip_witness : ∃ b, serialize uo = Ok b ∧ deserialize b = Ok uo.
Proof.
  apply (ssz_roundtrip uo).
  - unfold uo_wf, is_address, is_u256, U256_MAX; simpl; lia.
  - unfold fits, MAXIMUM_SSZ_BYTES_LENGTH; simpl. repeat constructor; simpl; lia.
Defined.

Example ssz_truncated : deserialize (repeat Byte.x00 100) = Panic.
Proof. vm_compute. reflexivity. Qed.
End Example.
