(* ===== verification/Proto.v ===== *)
(** The gRPC messages ([crates/grpc/src/proto.rs], [utils.rs]): conversions
    between the protobuf types and the bundler's own, and their round trips. *)

From S2P Require Import Prelude Primitives Errors HexStd.

Module Pb.
(** the messages of [types.proto] *)
Record H128 := { h128_hi : Z; h128_lo : Z }.
Record H160 := { h160_hi : option H128; h160_lo : Z }.
Record H256 := { h256_hi : option H128; h256_lo : option H128 }.
Record PbU256 := { data : bytes }.
Record UserOperationSigned := {
  sender : option H160;
  nonce : option PbU256;
  init_code : bytes;
  call_data : bytes;
  call_gas_limit : option PbU256;
  verification_gas_limit : option PbU256;
  pre_verification_gas : option PbU256;
  max_fee_per_gas : option PbU256;
  max_priority_fee_per_gas : option PbU256;
  paymaster_and_data : bytes;
  signature : bytes;
}.
Record UserOperation := { hash : option H256; uo : option UserOperationSigned }.
Record ReputationEntry := { addr : option H160; seen : Z; included : Z; stat : Z }.
Record StakeInfo := { address : option H160; stake : Z; unstake_delay : Z }.
Record StorageMap := {
  pb_root_hashes : gmap string string;
  pb_slots : gmap string (gmap string string);
}.
Record Log := {
  lg_block_number : Z;
  lg_block_hash : option H256;
  lg_transaction_index : Z;
  lg_removed : bool;
  lg_address : option H160;
  lg_data : bytes;
  lg_topics : list H256;
  lg_transaction_hash : option H256;
  lg_log_index : option PbU256;
}.
Record TransactionReceipt := {
  tr_to : option H160;
  tr_from : option H160;
  tr_contract_address : option H160;
  tr_transaction_index : Z;
  tr_root : option H256;
  tr_gas_used : option PbU256;
  tr_logs_bloom : string;
  tr_block_hash : option H256;
  tr_transaction_hash : option H256;
  tr_logs : list Log;
  tr_block_number : Z;
  tr_cumulative_gas_used : option PbU256;
  tr_effective_gas_price : option PbU256;
  tr_status : Z;
}.
Definition H128_default : H128 := {| h128_hi := 0; h128_lo := 0 |}.
Definition H160_default : H160 := {| h160_hi := None; h160_lo := 0 |}.
Definition H256_default : H256 := {| h256_hi := None; h256_lo := None |}.
End Pb.

(** ** Hashes *)
Definition pb_of_h128 (val : bytes) : Pb.H128 :=
  {| Pb.h128_hi := be_to_Z (take 8 val); Pb.h128_lo := be_to_Z (take 8 (drop 8 val)) |}.
Definition h128_of_pb (val : Pb.H128) : bytes :=
  Z_to_be 8 val.(Pb.h128_hi) ++ Z_to_be 8 val.(Pb.h128_lo).

Definition pb_of_address (val : Address) : Pb.H160 :=
  {| Pb.h160_hi := Some (pb_of_h128 (take 16 (address_bytes val)));
     Pb.h160_lo := be_to_Z (drop 16 (address_bytes val)) |}.
Definition address_of_pb (val : Pb.H160) : Address :=
  from_slice (h128_of_pb (default Pb.H128_default val.(Pb.h160_hi)) ++ Z_to_be 4 val.(Pb.h160_lo)).

Definition pb_of_h256 (val : H256) : Pb.H256 :=
  {| Pb.h256_hi := Some (pb_of_h128 (take 16 (Z_to_be 32 val)));
     Pb.h256_lo := Some (pb_of_h128 (drop 16 (Z_to_be 32 val))) |}.
Definition h256_of_pb (val : Pb.H256) : H256 :=
  from_slice (h128_of_pb (default Pb.H128_default val.(Pb.h256_hi)) ++
              h128_of_pb (default Pb.H128_default val.(Pb.h256_lo))).

(** ** Numbers: [U256::from_big_endian] panics on more than 32 bytes *)
Definition pb_of_u256 (val : U256) : Pb.PbU256 := {| Pb.data := Z_to_be 32 val |}.
Definition u256_of_pb {E} (val : Pb.PbU256) : comp E U256 :=
  if bool_decide (length val.(Pb.data) ≤ 32)%nat then Ok (be_to_Z val.(Pb.data)) else Panic.
Definition u256_or_zero {E} (o : option Pb.PbU256) : comp E U256 :=
  match o with Some v => u256_of_pb v | None => Ok 0 end.

(** ** User operations *)
Definition pb_of_signed (u : UserOperationSigned) : Pb.UserOperationSigned := {|
  Pb.sender := Some (pb_of_address u.(uo_sender));
  Pb.nonce := Some (pb_of_u256 u.(uo_nonce));
  Pb.init_code := u.(uo_init_code);
  Pb.call_data := u.(uo_call_data);
  Pb.call_gas_limit := Some (pb_of_u256 u.(uo_call_gas_limit));
  Pb.verification_gas_limit := Some (pb_of_u256 u.(uo_verification_gas_limit));
  Pb.pre_verification_gas := Some (pb_of_u256 u.(uo_pre_verification_gas));
  Pb.max_fee_per_gas := Some (pb_of_u256 u.(uo_max_fee_per_gas));
  Pb.max_priority_fee_per_gas := Some (pb_of_u256 u.(uo_max_priority_fee_per_gas));
  Pb.paymaster_and_data := u.(uo_paymaster_and_data);
  Pb.signature := u.(uo_signature) |}.

Definition signed_of_pb {E} (u : Pb.UserOperationSigned) : comp E UserOperationSigned :=
  let* n := u256_or_zero u.(Pb.nonce) in
  let* cgl := u256_or_zero u.(Pb.call_gas_limit) in
  let* vgl := u256_or_zero u.(Pb.verification_gas_limit) in
  let* pvg := u256_or_zero u.(Pb.pre_verification_gas) in
  let* mf := u256_or_zero u.(Pb.max_fee_per_gas) in
  let* mp := u256_or_zero u.(Pb.max_priority_fee_per_gas) in
  Ok {| uo_sender := match u.(Pb.sender) with Some s => address_of_pb s | None => 0 end;
        uo_nonce := n; uo_init_code := u.(Pb.init_code); uo_call_data := u.(Pb.call_data);
        uo_call_gas_limit := cgl; uo_verification_gas_limit := vgl; uo_pre_verification_gas := pvg;
        uo_max_fee_per_gas := mf; uo_max_priority_fee_per_gas := mp;
        uo_paymaster_and_data := u.(Pb.paymaster_and_data); uo_signature := u.(Pb.signature) |}.

Definition pb_of_user_operation (uo : UserOperation) : Pb.UserOperation :=
  {| Pb.hash := Some (pb_of_h256 uo.(uo_hash)); Pb.uo := Some (pb_of_signed uo) |}.
Definition user_operation_of_pb {E} (uo : Pb.UserOperation) : comp E UserOperation :=
  let* u := match uo.(Pb.uo) with
            | Some u => signed_of_pb u
            | None => Ok UserOperationSigned_default
            end in
  Ok {| uo_hash := match uo.(Pb.hash) with Some h => h256_of_pb h | None => 0 end;
        user_operation := u |}.

(** ** Reputation *)
Definition PB_OK : Z := 0.
Definition PB_THROTTLED : Z := 1.
Definition PB_BANNED : Z := 2.

Definition pb_of_reputation (e : ReputationEntry) : Pb.ReputationEntry := {|
  Pb.addr := Some (pb_of_address e.(re_address));
  Pb.seen := e.(uo_seen); Pb.included := e.(uo_included);
  Pb.stat := match status_of_code e.(re_status) with
             | OK => PB_OK | THROTTLED => PB_THROTTLED | BANNED => PB_BANNED
             end |}.
Definition reputation_of_pb (e : Pb.ReputationEntry) : ReputationEntry := {|
  re_address := match e.(Pb.addr) with Some a => address_of_pb a | None => 0 end;
  uo_seen := e.(Pb.seen); uo_included := e.(Pb.included);
  re_status := if bool_decide (e.(Pb.stat) = PB_OK) then status_code OK
               else if bool_decide (e.(Pb.stat) = PB_THROTTLED) then status_code THROTTLED
               else if bool_decide (e.(Pb.stat) = PB_BANNED) then status_code BANNED
               else status_code OK |}.

(** [as_u64] panics on a stake of 2^64 wei or more *)
Definition pb_of_stake_info {E} (i : StakeInfo) : comp E Pb.StakeInfo :=
  let* s := as_u64 i.(si_stake) in
  let* d := as_u64 i.(si_unstake_delay) in
  Ok {| Pb.address := Some (pb_of_address i.(si_address)); Pb.stake := s; Pb.unstake_delay := d |}.
Definition stake_info_of_pb (i : Pb.StakeInfo) : StakeInfo := {|
  si_address := address_of_pb (default Pb.H160_default i.(Pb.address));
  si_stake := i.(Pb.stake); si_unstake_delay := i.(Pb.unstake_delay) |}.

(** ** Hashes as text: [Display] and [FromStr] of the hash types *)
Class HashText := {
  address_text : Address → string;
  h256_text : H256 → string;
  address_from_str : string → option Address;
  h256_from_str : string → option H256;
  bloom_text : bytes → string;
  bloom_from_str : string → option bytes;
}.

(** the formats of the hash types: [Display] abbreviates *)
Definition std_hash_text : HashText := {|
  address_text := hash_display 20; h256_text := hash_display 32;
  address_from_str := hash_from_str 20; h256_from_str := hash_from_str 32;
  bloom_text := bytes_display;
  bloom_from_str s := b ← from_hex (strip_0x s); if bool_decide (length b = 256%nat) then Some b else None |}.

(** ** Receipts and their logs *)
Definition pb_of_log (value : ChainLog) : Pb.Log := {|
  Pb.lg_address := Some (pb_of_address value.(lg_address));
  Pb.lg_topics := pb_of_h256 <$> value.(lg_topics);
  Pb.lg_data := value.(lg_data);
  Pb.lg_block_number := default 0 value.(lg_block_number);
  Pb.lg_transaction_hash := pb_of_h256 <$> value.(lg_transaction_hash);
  Pb.lg_transaction_index := default 0 value.(lg_transaction_index);
  Pb.lg_block_hash := pb_of_h256 <$> value.(lg_block_hash);
  Pb.lg_log_index := pb_of_u256 <$> value.(lg_log_index);
  Pb.lg_removed := default false value.(lg_removed) |}.

Definition log_of_pb {E} (value : Pb.Log) : comp E ChainLog :=
  let* log_index := comp_opt u256_of_pb value.(Pb.lg_log_index) in
  Ok {| lg_address := address_of_pb (default Pb.H160_default value.(Pb.lg_address));
        lg_topics := h256_of_pb <$> value.(Pb.lg_topics);
        lg_data := value.(Pb.lg_data);
        lg_block_hash := h256_of_pb <$> value.(Pb.lg_block_hash);
        lg_block_number := Some value.(Pb.lg_block_number);
        lg_transaction_hash := h256_of_pb <$> value.(Pb.lg_transaction_hash);
        lg_transaction_index := Some value.(Pb.lg_transaction_index);
        lg_log_index := log_index;
        lg_transaction_log_index := Some value.(Pb.lg_transaction_index);
        lg_log_type := None;
        lg_removed := Some value.(Pb.lg_removed) |}.

Section receipt.
Context {HT : HashText}.

Definition pb_of_tx_receipt (value : TransactionReceipt) : Pb.TransactionReceipt := {|
  Pb.tr_transaction_hash := Some (pb_of_h256 value.(tr_transaction_hash));
  Pb.tr_transaction_index := value.(tr_transaction_index);
  Pb.tr_block_hash := pb_of_h256 <$> value.(tr_block_hash);
  Pb.tr_block_number := default 0 value.(tr_block_number);
  Pb.tr_from := Some (pb_of_address value.(tr_from));
  Pb.tr_to := pb_of_address <$> value.(tr_to);
  Pb.tr_cumulative_gas_used := Some (pb_of_u256 value.(tr_cumulative_gas_used));
  Pb.tr_gas_used := pb_of_u256 <$> value.(tr_gas_used);
  Pb.tr_contract_address := pb_of_address <$> value.(tr_contract_address);
  Pb.tr_logs := pb_of_log <$> value.(tr_logs);
  Pb.tr_logs_bloom := bloom_text value.(tr_logs_bloom);
  Pb.tr_status := default 0 value.(tr_status);
  Pb.tr_root := pb_of_h256 <$> value.(tr_root);
  Pb.tr_effective_gas_price := pb_of_u256 <$> value.(tr_effective_gas_price) |}.

(** [Bloom::default] *)
Definition Bloom_default : bytes := replicate 256 Byte.x00.

Definition tx_receipt_of_pb {E} (value : Pb.TransactionReceipt) : comp E TransactionReceipt :=
  let* cumulative := u256_or_zero value.(Pb.tr_cumulative_gas_used) in
  let* gas := comp_opt u256_of_pb value.(Pb.tr_gas_used) in
  let* logs := comp_map log_of_pb value.(Pb.tr_logs) in
  let* price := comp_opt u256_of_pb value.(Pb.tr_effective_gas_price) in
  Ok {| tr_transaction_hash := h256_of_pb (default Pb.H256_default value.(Pb.tr_transaction_hash));
        tr_transaction_index := value.(Pb.tr_transaction_index);
        tr_block_hash := h256_of_pb <$> value.(Pb.tr_block_hash);
        tr_block_number := Some value.(Pb.tr_block_number);
        tr_from := address_of_pb (default Pb.H160_default value.(Pb.tr_from));
        tr_to := address_of_pb <$> value.(Pb.tr_to);
        tr_cumulative_gas_used := cumulative;
        tr_gas_used := gas;
        tr_contract_address := address_of_pb <$> value.(Pb.tr_contract_address);
        tr_logs := logs;
        tr_status := Some value.(Pb.tr_status);
        tr_root := h256_of_pb <$> value.(Pb.tr_root);
        tr_logs_bloom := default Bloom_default (bloom_from_str value.(Pb.tr_logs_bloom));
        tr_transaction_type := None;
        tr_effective_gas_price := price;
        tr_other := ∅ |}.
End receipt.

(** ** Storage maps, keyed by printed addresses *)
Section storage_map.
Context {HT : HashText} {HO : HashOrder}.

(** collecting pairs into a [HashMap]: a later pair overwrites an earlier one *)
Definition collect {K V : Type} `{Countable K} (l : list (K * V)) : gmap K V :=
  fold_left (λ m kv, <[kv.1 := kv.2]> m) l ∅.

Definition pb_of_storage_map (m : StorageMap) : Pb.StorageMap := {|
  Pb.pb_root_hashes := collect ((λ kv, (address_text kv.1, h256_text kv.2)) <$> iter_map m.(root_hashes));
  Pb.pb_slots := collect ((λ kv, (address_text kv.1, kv.2)) <$> iter_map m.(slots)) |}.

Definition storage_map_of_pb (m : Pb.StorageMap) : StorageMap := {|
  root_hashes := collect ((λ kv, (default 0 (address_from_str kv.1), default 0 (h256_from_str kv.2)))
    <$> iter_map m.(Pb.pb_root_hashes));
  slots := collect ((λ kv, (default 0 (address_from_str kv.1), kv.2)) <$> iter_map m.(Pb.pb_slots)) |}.
End storage_map.

(** ** Requests ([utils.rs]) *)
Inductive GrpcStatus := InvalidArgument (msg : string) | Unavailable (msg : string)
  | Internal (msg : string) | NotFound (msg : string) | UnknownStatus (msg : string).

Definition parse_addr (h : option Pb.H160) : comp GrpcStatus Address :=
  match h with Some h => Ok (address_of_pb h) | None => Err (InvalidArgument "Address is not valid") end.
Definition parse_hash (h : option Pb.H256) : comp GrpcStatus H256 :=
  match h with Some h => Ok (h256_of_pb h) | None => Err (InvalidArgument "Hash is not valid") end.
Definition parse_uo (uo : option Pb.UserOperation) : comp GrpcStatus UserOperation :=
  match uo with
  | Some uo => user_operation_of_pb uo
  | None => Err (InvalidArgument "User operation is not valid")
  end.

(** ** Round trips *)
Lemma word_roundtrip n b : length b = n → Z_to_be n (be_to_Z b) = b.
Proof. intros <-. apply Z_to_be_to_Z. Qed.

Lemma h128_roundtrip b : length b = 16%nat → h128_of_pb (pb_of_h128 b) = b.
Proof.
  intros Hb. unfold h128_of_pb, pb_of_h128; cbn [Pb.h128_hi Pb.h128_lo]. rewrite (take_ge (drop 8 b)) by (rewrite length_drop; lia).
  rewrite !word_roundtrip by (rewrite ?length_take, ?length_drop; lia). apply take_drop.
Qed.

Lemma address_roundtrip a : is_address a → address_of_pb (pb_of_address a) = a.
Proof.
  intros Ha. unfold address_of_pb, pb_of_address, address_bytes, from_slice; cbn [Pb.h160_hi Pb.h160_lo from_option id].
  pose proof (length_Z_to_be 20 a) as Hl.
  rewrite h128_roundtrip by (rewrite length_take; lia).
  rewrite word_roundtrip by (rewrite length_drop; lia). rewrite take_drop. apply be_to_Z_to_be.
  unfold is_address in Ha. change (8 * Z.of_nat 20) with 160. lia.
Qed.

Lemma h256_roundtrip h : is_u256 h → h256_of_pb (pb_of_h256 h) = h.
Proof.
  intros Hh. unfold h256_of_pb, pb_of_h256, from_slice; cbn [Pb.h256_hi Pb.h256_lo from_option id]. pose proof (length_Z_to_be 32 h) as Hl.
  rewrite !h128_roundtrip by (rewrite ?length_take, ?length_drop; lia). rewrite take_drop.
  apply be_to_Z_to_be. unfold is_u256, U256_MAX in Hh. change (8 * Z.of_nat 32) with 256. lia.
Qed.

Lemma u256_of_pb_roundtrip {E} x : is_u256 x → u256_of_pb (E:=E) (pb_of_u256 x) = Ok x.
Proof.
  intros Hx. unfold u256_of_pb, pb_of_u256; cbn [Pb.data].
  rewrite bool_decide_true by (rewrite length_Z_to_be; lia). f_equal. apply be_to_Z_to_be.
  unfold is_u256, U256_MAX in Hx. change (8 * Z.of_nat 32) with 256. lia.
Qed.
Lemma u256_roundtrip {E} x : is_u256 x → u256_or_zero (E:=E) (Some (pb_of_u256 x)) = Ok x.
Proof. apply u256_of_pb_roundtrip. Qed.

Lemma signed_roundtrip {E} (u : UserOperationSigned) : uo_wf u → signed_of_pb (E:=E) (pb_of_signed u) = Ok u.
Proof.
  intros (? & ? & ? & ? & ? & ? & ?). unfold signed_of_pb, pb_of_signed.
  cbn [Pb.nonce Pb.call_gas_limit Pb.verification_gas_limit Pb.pre_verification_gas
    Pb.max_fee_per_gas Pb.max_priority_fee_per_gas Pb.sender].
  rewrite !u256_roundtrip by done. cbn [comp_bind]. rewrite address_roundtrip by done. by destruct u.
Qed.

Lemma user_operation_roundtrip {E} (uo : UserOperation) :
  uo_wf uo → is_u256 uo.(uo_hash) → user_operation_of_pb (E:=E) (pb_of_user_operation uo) = Ok uo.
Proof.
  intros Hwf Hh. unfold user_operation_of_pb, pb_of_user_operation. cbn [Pb.uo Pb.hash].
  rewrite signed_roundtrip by done. cbn [comp_bind]. rewrite h256_roundtrip by done. by destruct uo.
Qed.

Lemma reputation_roundtrip (e : ReputationEntry) :
  is_address e.(re_address) → e.(re_status) = status_code (status_of_code e.(re_status)) →
  reputation_of_pb (pb_of_reputation e) = e.
Proof.
  intros Ha Hs. unfold reputation_of_pb, pb_of_reputation. cbn [Pb.addr Pb.seen Pb.included Pb.stat].
  rewrite address_roundtrip by done. destruct e as [a s i st]. simpl in *. f_equal.
  transitivity (status_code (status_of_code st)); [by destruct (status_of_code st)|by symmetry].
Qed.

(** A user operation survives the trip through its
    protobuf message, hash included, and so does a reputation entry whose status
    is one of the three codes. *)
Theorem message_roundtrip (uo : UserOperation) (e : ReputationEntry) :
  uo_wf uo → is_u256 uo.(uo_hash) →
  is_address e.(re_address) → e.(re_status) = status_code (status_of_code e.(re_status)) →
  user_operation_of_pb (E:=GrpcStatus) (pb_of_user_operation uo) = Ok uo ∧
  reputation_of_pb (pb_of_reputation e) = e.
Proof. split; [by apply user_operation_roundtrip|by apply reputation_roundtrip]. Qed.

(** ** What any message decodes to *)
Lemma from_slice_range n b : length b = n → 0 ≤ from_slice b < 2 ^ (8 * Z.of_nat n).
Proof. intros <-. apply be_to_Z_bound. Qed.
Lemma length_h128 v : length (h128_of_pb v) = 16%nat.
Proof. unfold h128_of_pb. by rewrite length_app, !length_Z_to_be. Qed.
Lemma address_of_pb_range m : is_address (address_of_pb m).
Proof. apply (from_slice_range 20). by rewrite length_app, length_h128, length_Z_to_be. Qed.
Lemma h256_of_pb_range m : is_u256 (h256_of_pb m).
Proof.
  assert (0 ≤ h256_of_pb m < 2 ^ 256); [|unfold is_u256, U256_MAX; lia].
  apply (from_slice_range 32). by rewrite length_app, !length_h128.
Qed.

Definition oversized (o : option Pb.PbU256) : bool :=
  match o with Some v => bool_decide (32 < length v.(Pb.data))%nat | None => false end.
Lemma u256_or_zero_spec {E} (o : option Pb.PbU256) :
  if oversized o then u256_or_zero (E:=E) o = Panic else ∃ x, u256_or_zero (E:=E) o = Ok x ∧ is_u256 x.
Proof.
  destruct o as [[v]|]; cbn [oversized u256_or_zero Pb.data]; [|by exists 0].
  unfold u256_of_pb. cbn [Pb.data]. destruct (decide (32 < length v)%nat) as [Hl|Hl].
  - by rewrite bool_decide_true, bool_decide_false by lia.
  - rewrite bool_decide_false, bool_decide_true by lia. eexists. split; [done|].
    pose proof (be_to_Z_bound v) as Hb. unfold is_u256, U256_MAX.
    assert (2 ^ (8 * Z.of_nat (length v)) ≤ 2 ^ 256) by (apply Z.pow_le_mono_r; lia). lia.
Qed.

Definition numbers_of (m : Pb.UserOperationSigned) : list (option Pb.PbU256) :=
  [m.(Pb.nonce); m.(Pb.call_gas_limit); m.(Pb.verification_gas_limit); m.(Pb.pre_verification_gas);
   m.(Pb.max_fee_per_gas); m.(Pb.max_priority_fee_per_gas)].

Lemma signed_of_pb_spec {E} (m : Pb.UserOperationSigned) :
  if existsb oversized (numbers_of m) then signed_of_pb (E:=E) m = Panic
  else ∃ u, signed_of_pb (E:=E) m = Ok u ∧ uo_wf u.
Proof.
  unfold numbers_of, signed_of_pb. cbn [existsb].
  do 6 match goal with
  | |- context [u256_or_zero ?o] =>
      pose proof (u256_or_zero_spec (E:=E) o); destruct (oversized o);
        [match goal with H : _ = Panic |- _ => by rewrite H end|];
        match goal with H : ∃ _, _ |- _ => destruct H as (? & -> & ?) end; cbn [comp_bind orb]
  end.
  eexists. split; [done|]. unfold uo_wf; cbn. split_and!; try done.
  destruct (Pb.sender m); [apply address_of_pb_range|unfold is_address; lia].
Qed.

(** C40. Every protobuf message, from whatever client, decodes to an operation whose
    fields are in the range of their types, or crashes the handler; the latter
    exactly when one of its numbers has more than 32 bytes. *)
Theorem decoded_operation_typed {E} (m : Pb.UserOperation) :
  match user_operation_of_pb (E:=E) m with
  | Ok uo => uo_wf uo ∧ is_u256 uo.(uo_hash) ∧
      ∀ u, m.(Pb.uo) = Some u → existsb oversized (numbers_of u) = false
  | Err _ => False
  | Panic => ∃ u, m.(Pb.uo) = Some u ∧ existsb oversized (numbers_of u) = true
  end.
Proof.
  unfold user_operation_of_pb.
  assert (is_u256 match Pb.hash m with Some h => h256_of_pb h | None => 0 end).
  { destruct (Pb.hash m); [apply h256_of_pb_range|done]. }
  destruct (Pb.uo m) as [u|]; cbn [comp_bind].
  - pose proof (signed_of_pb_spec (E:=E) u) as Hs. destruct (existsb _ _) eqn:Ho.
    + rewrite Hs. by exists u.
    + destruct Hs as (v & -> & Hv). cbn. split_and!; [done..|]. by intros ? [= <-].
  - unfold uo_wf, is_address. cbn. by split_and!.
Qed.

(** Stake information crosses the gRPC boundary
    unchanged below 2^64 wei (about 18.4 ether); a larger stake, or unstake
    delay, crashes the handler. *)
Theorem stake_info_overflow {E} (i : StakeInfo) :
  is_address i.(si_address) →
  match pb_of_stake_info (E:=E) i with
  | Ok m => stake_info_of_pb m = i ∧ i.(si_stake) ≤ U64_MAX ∧ i.(si_unstake_delay) ≤ U64_MAX
  | Err _ => False
  | Panic => U64_MAX < i.(si_stake) ∨ U64_MAX < i.(si_unstake_delay)
  end.
Proof.
  intros Ha. unfold pb_of_stake_info, as_u64. do 2 (case_bool_decide; simpl; [|lia]).
  unfold stake_info_of_pb; simpl. rewrite address_roundtrip by done. by destruct i.
Qed.

(** ** What of a receipt crosses the gRPC boundary *)
Definition log_wf (l : ChainLog) : Prop :=
  is_address l.(lg_address) ∧ Forall is_u256 l.(lg_topics) ∧ from_option is_u256 True l.(lg_block_hash) ∧
  from_option is_u256 True l.(lg_transaction_hash) ∧ from_option is_u256 True l.(lg_log_index).

Definition receipt_wf (r : TransactionReceipt) : Prop :=
  is_u256 r.(tr_transaction_hash) ∧ from_option is_u256 True r.(tr_block_hash) ∧ is_address r.(tr_from) ∧
  from_option is_address True r.(tr_to) ∧ is_u256 r.(tr_cumulative_gas_used) ∧
  from_option is_u256 True r.(tr_gas_used) ∧ from_option is_address True r.(tr_contract_address) ∧
  Forall log_wf r.(tr_logs) ∧ from_option is_u256 True r.(tr_root) ∧
  from_option is_u256 True r.(tr_effective_gas_price).

(** what is left of a log, and of a receipt *)
Definition log_seen (l : ChainLog) : ChainLog := {|
  lg_address := l.(lg_address); lg_topics := l.(lg_topics); lg_data := l.(lg_data);
  lg_block_hash := l.(lg_block_hash); lg_block_number := Some (default 0 l.(lg_block_number));
  lg_transaction_hash := l.(lg_transaction_hash);
  lg_transaction_index := Some (default 0 l.(lg_transaction_index));
  lg_log_index := l.(lg_log_index);
  lg_transaction_log_index := Some (default 0 l.(lg_transaction_index));
  lg_log_type := None; lg_removed := Some (default false l.(lg_removed)) |}.

Definition receipt_seen (r : TransactionReceipt) : TransactionReceipt := {|
  tr_transaction_hash := r.(tr_transaction_hash); tr_transaction_index := r.(tr_transaction_index);
  tr_block_hash := r.(tr_block_hash); tr_block_number := Some (default 0 r.(tr_block_number));
  tr_from := r.(tr_from); tr_to := r.(tr_to); tr_cumulative_gas_used := r.(tr_cumulative_gas_used);
  tr_gas_used := r.(tr_gas_used); tr_contract_address := r.(tr_contract_address);
  tr_logs := log_seen <$> r.(tr_logs); tr_status := Some (default 0 r.(tr_status));
  tr_root := r.(tr_root); tr_logs_bloom := Bloom_default; tr_transaction_type := None;
  tr_effective_gas_price := r.(tr_effective_gas_price); tr_other := ∅ |}.

Lemma option_h256_roundtrip (o : option H256) :
  from_option is_u256 True o → h256_of_pb <$> (pb_of_h256 <$> o) = o.
Proof. destruct o; simpl; [|done]. intros. by rewrite h256_roundtrip. Qed.
Lemma option_address_roundtrip (o : option Address) :
  from_option is_address True o → address_of_pb <$> (pb_of_address <$> o) = o.
Proof. destruct o; simpl; [|done]. intros. by rewrite address_roundtrip. Qed.
Lemma option_u256_roundtrip {E} (o : option U256) :
  from_option is_u256 True o → comp_opt (E:=E) u256_of_pb (pb_of_u256 <$> o) = Ok o.
Proof.
  destruct o as [x|]; [|done]. intros Hx. unfold comp_opt. cbn [fmap option_fmap option_map].
  by rewrite u256_of_pb_roundtrip.
Qed.
Lemma list_h256_roundtrip (l : list H256) :
  Forall is_u256 l → h256_of_pb <$> (pb_of_h256 <$> l) = l.
Proof. induction 1; simpl; [done|]. rewrite h256_roundtrip by done. by f_equal. Qed.

Lemma log_crosses {E} (l : ChainLog) : log_wf l → log_of_pb (E:=E) (pb_of_log l) = Ok (log_seen l).
Proof.
  intros (? & ? & ? & ? & ?). unfold log_of_pb, pb_of_log.
  cbn [Pb.lg_log_index Pb.lg_address Pb.lg_topics Pb.lg_block_hash Pb.lg_transaction_hash from_option].
  rewrite option_u256_roundtrip by done. cbn [comp_bind from_option id].
  by rewrite address_roundtrip, list_h256_roundtrip, !option_h256_roundtrip by done.
Qed.

Lemma receipt_crosses `{HashText} {E} (r : TransactionReceipt) :
  (∀ b, bloom_from_str (bloom_text b) = None) → receipt_wf r →
  tx_receipt_of_pb (E:=E) (pb_of_tx_receipt r) = Ok (receipt_seen r).
Proof.
  intros Hbloom (? & ? & ? & ? & ? & ? & ? & Hlogs & ? & ?). unfold tx_receipt_of_pb, pb_of_tx_receipt.
  cbn [Pb.tr_cumulative_gas_used Pb.tr_gas_used Pb.tr_logs Pb.tr_effective_gas_price Pb.tr_block_hash
    Pb.tr_transaction_hash Pb.tr_from Pb.tr_to Pb.tr_contract_address Pb.tr_root Pb.tr_logs_bloom].
  rewrite u256_roundtrip by done. cbn [comp_bind].
  rewrite option_u256_roundtrip by done. cbn [comp_bind].
  rewrite comp_map_fmap, (comp_map_all _ log_seen) by (eapply Forall_impl; [exact Hlogs|apply log_crosses]).
  cbn [comp_bind]. rewrite option_u256_roundtrip by done. cbn [comp_bind from_option id].
  by rewrite h256_roundtrip, address_roundtrip, !option_h256_roundtrip, !option_address_roundtrip, Hbloom
    by done.
Qed.

Section lost.
Context {HT : HashText} {HO : HashOrder}.

Lemma collect_keys {K V : Type} `{Countable K} (l : list (K * V)) k v :
  collect l !! k = Some v → k ∈ l.*1.
Proof.
  unfold collect. assert (∀ m : gmap K V, fold_left (λ m kv, <[kv.1 := kv.2]> m) l m !! k = Some v →
    k ∈ l.*1 ∨ m !! k = Some v) as Hg.
  { induction l as [|[k' v'] l IH]; intros m; simpl; [by right|]. intros [?|Hi]%IH.
    - left. by right.
    - apply lookup_insert_Some in Hi as [[-> _]|[_ ?]]; [left; by left|by right]. }
  intros Hl. apply Hg in Hl as [?|Hl]; [done|]. by rewrite lookup_empty in Hl.
Qed.

(** The storage map that accompanies a bundle does not
    survive the trip: addresses are printed in abbreviated form, which does not
    parse back, so every entry ends up under the zero address. *)
Theorem storage_map_lost (m : StorageMap) :
  (∀ a, address_from_str (address_text a) = None) →
  ∀ a, a ≠ 0 →
    (storage_map_of_pb (pb_of_storage_map m)).(root_hashes) !! a = None ∧
    (storage_map_of_pb (pb_of_storage_map m)).(slots) !! a = None.
Proof.
  intros Habb a Hne.
  split; apply eq_None_not_Some; intros [v Hv]; simpl in Hv; apply collect_keys in Hv;
    rewrite <-list_fmap_compose in Hv;
    apply list_elem_of_fmap in Hv as ([s w] & -> & Hin); apply elem_of_iter_map in Hin;
    simpl in Hin; apply collect_keys in Hin; rewrite <-list_fmap_compose in Hin;
    apply list_elem_of_fmap in Hin as ([b w'] & Hs & _); simpl in *; by rewrite Hs, Habb in Hne.
Qed.
End lost.

(** ** Concrete evaluations *)
Module Example.
#[local] Existing Instance canonical_order.
Definition uo : UserOperation := from_user_operation_signed 77 {|
  uo_sender := 9; uo_nonce := 1; uo_init_code := []; uo_call_data := [Byte.x01];
  uo_call_gas_limit := 21900; uo_verification_gas_limit := 100000;
  uo_pre_verification_gas := 100000; uo_max_fee_per_gas := 100; uo_max_priority_fee_per_gas := 10;
  uo_paymaster_and_data := []; uo_signature := [] |}.

Lemma message_roundtrip_witness :
  user_operation_of_pb (E:=GrpcStatus) (pb_of_user_operation uo) = Ok uo ∧
  reputation_of_pb (pb_of_reputation (default_with_addr 9)) = default_with_addr 9.
Proof.
  apply (message_roundtrip uo (default_with_addr 9)).
  - unfold uo_wf, is_address, is_u256, U256_MAX; simpl; lia.
  - unfold is_u256, U256_MAX; simpl; lia.
  - unfold is_address; simpl; lia.
  - by vm_compute.
Defined.

(** 19 ether *)
Definition rich : StakeInfo := {| si_address := 9; si_stake := 19 * 10 ^ 18; si_unstake_delay := 86400 |}.
Lemma stake_info_overflow_witness :
  pb_of_stake_info (E:=GrpcStatus) rich = Panic ∧
  (U64_MAX < rich.(si_stake) ∨ U64_MAX < rich.(si_unstake_delay)).
Proof.
  split; [by vm_compute|].
  apply (stake_info_overflow (E:=GrpcStatus) rich). unfold is_address; simpl; lia.
Defined.

#[local] Existing Instance std_hash_text.
Definition map9 : StorageMap :=
  {| root_hashes := ∅; slots := {[9 := {["0x01"%string := "0x02"%string]}]} |}.
Lemma storage_map_lost_witness :
  (storage_map_of_pb (pb_of_storage_map map9)).(slots) !! 9 = None.
Proof. apply (storage_map_lost map9); [apply hash_display_unreadable|done]. Defined.
End Example.
