(* ===== verification/Service.v ===== *)
(** The gRPC service of the user operation pool ([crates/grpc/src/uopool.rs]):
    one handler per request over pools that share their storage, and the
    interleavings of concurrent requests. *)

From S2P Require Import Prelude Primitives Errors AbiStd Gas Reputation Mempool.
From S2P Require Import MemoryStore EntryPoint Fixture Sanity Simulation Trace.
From S2P Require Import Validator UoPool Bundling Estimate Proto.

(** [to_checksum(ep, None).encode()] *)
Class ChecksumText := encode_checksum : Address → bytes.

Abbreviation MempoolId := H256.

Section service.
Context {P : Profile} {A : Abi} {D : Display} {N : Node} {HO : HashOrder} {EL : EstimateLib}
  {CS : ChecksumText}.
Context {S : Type} `{MempoolStore S} {R : Type} `{ReputationEntryOp R}.
Context `{V : UserOperationValidator S R}.
Implicit Types (uo : UserOperation).

Definition mempool_id (ep : Address) (chain_id : Z) : MempoolId :=
  from_slice (keccak256 (encode_checksum ep ++ abi_encode_u256 chain_id)).

(** the builders by pool, and the chain; every builder holds the same storage,
    reputation and validator *)
Record UoPoolService := {
  uopools : gmap MempoolId UoPoolConfig;
  sv_chain : Z;
}.

(** the part of [uopool_service_run] that builds the pools *)
Definition build_pools (mode : UoPoolMode) (eps : list Address) (max_verification_gas : U256)
    (chain : Z) (network : option bool) : UoPoolService := {|
  uopools := fold_left (λ m ep, <[mempool_id ep chain := {| cfg_mode := mode; cfg_entry_point := ep;
    cfg_max_verification_gas := max_verification_gas; cfg_chain_id := chain;
    cfg_network := network |}]> m) eps ∅;
  sv_chain := chain |}.

Section handlers.
Context (sv : UoPoolService).

Definition get_uopool (ep : Address) : comp GrpcStatus UoPoolConfig :=
  ok_or (Unavailable "User operation pool is not available") (sv.(uopools) !! mempool_id ep sv.(sv_chain)).

(** ** [add]: the outcome of the validation is computed first, and used later *)
Inductive AddResponse := Added (h : UserOperationHash) | NotAdded (e : MempoolError).

Definition add_commit (cfg : UoPoolConfig) uo
    (res : InvalidMempoolUserOperationError + UserOperationValidationOutcome)
  : ST (UoPool S R) GrpcStatus AddResponse := λ s,
  match add_user_operation cfg uo res s with
  | (Ok h, s') => (Ok (Added h), s')
  | (Err e, s') =>
      match e.(me_kind) with
      | InvalidUserOperation _ => (Ok (NotAdded e), s')
      | _ => (Err (Internal ("Internal error: " +:+ MempoolError_to_string e)), s')
      end
  | (Panic, s') => (Panic, s')
  end.

Definition add (req_uo : option Pb.UserOperation) (req_ep : option Pb.H160)
  : ST (UoPool S R) GrpcStatus AddResponse :=
  do* uo := st_lift (parse_uo req_uo) in
  do* ep := st_lift (parse_addr req_ep) in
  do* _ := st_lift (get_uopool ep) in
  do* res := st_get (λ s, as_result (validate_user_operation s uo None)) in
  do* cfg := st_lift (get_uopool ep) in
  add_commit cfg uo res.

Definition uos_of_pb (l : list Pb.UserOperation) : comp GrpcStatus (list UserOperation) :=
  comp_map user_operation_of_pb l.

Definition remove (uos : list Pb.UserOperation) (req_ep : option Pb.H160)
  : ST (UoPool S R) GrpcStatus () :=
  do* ep := st_lift (parse_addr req_ep) in
  do* _ := st_lift (get_uopool ep) in
  do* uos := st_lift (uos_of_pb uos) in
  remove_user_operations uos.

Definition get_chain_id : Z := sv.(sv_chain).

Definition get_supported_entry_points : list Pb.H160 :=
  (λ kv, pb_of_address kv.2.(cfg_entry_point)) <$> iter_map sv.(uopools).

Definition estimate_user_operation_gas (fuel : nat) (req_uo : option Pb.UserOperation)
    (req_ep : option Pb.H160)
  : option (comp GrpcStatus (MempoolError + UserOperationGasEstimation)) :=
  match (let* uo := parse_uo req_uo in let* ep := parse_addr req_ep in
         let* cfg := get_uopool ep in Ok (uo, cfg)) with
  | Ok (uo, cfg) => as_result <$> Estimate.estimate_user_operation_gas fuel cfg.(cfg_mode) uo
  | Err e => Some (Err e)
  | Panic => Some Panic
  end.

Definition get_sorted_user_operations (req_ep : option Pb.H160)
  : ST (UoPool S R) GrpcStatus (list UserOperation * StorageMap) :=
  do* ep := st_lift (parse_addr req_ep) in
  do* cfg := st_lift (get_uopool ep) in
  do* uos := st_get (λ s, map_err (λ e, Internal ("Get sorted uos internal error: " +:+ debug_report
      ("Getting sorted user operations from mempool failed with error: " +:+ debug_mempool_error e)))
                            (UoPool.get_sorted_user_operations s)) in
  st_map_err (λ e, Internal ("Bundle uos internal error: " +:+ e)) (bundle_user_operations cfg uos).

Definition get_all (req_ep : option Pb.H160) (s : UoPool S R)
  : comp GrpcStatus (list Pb.UserOperation) :=
  let* ep := parse_addr req_ep in
  let* _ := get_uopool ep in
  let* uos := map_err (λ e, UnknownStatus ("Internal error: " +:+ debug_report
      ("Getting all user operations from mempool failed with error: " +:+ debug_mempool_error e))) (pool_get_all s) in
  Ok (pb_of_user_operation <$> uos).

(** [for_each] over the pools *)
Definition for_each_pool (m : ST (UoPool S R) GrpcStatus ()) : ST (UoPool S R) GrpcStatus () :=
  st_for (iter_map sv.(uopools)) (λ _, m).
Definition sv_clear_mempool := for_each_pool clear_mempool.
Definition sv_clear_reputation := for_each_pool clear_reputation.
Definition sv_clear := for_each_pool pool_clear.

Definition get_all_reputation (req_ep : option Pb.H160) (s : UoPool S R)
  : comp GrpcStatus (list Pb.ReputationEntry) :=
  let* ep := parse_addr req_ep in
  let* _ := get_uopool ep in
  let* es := get_reputation s in
  Ok (pb_of_reputation <$> es).

(** whether the entries were set *)
Definition sv_set_reputation (rep : list Pb.ReputationEntry) (req_ep : option Pb.H160)
  : ST (UoPool S R) GrpcStatus bool :=
  do* ep := st_lift (parse_addr req_ep) in
  do* _ := st_lift (get_uopool ep) in
  λ s, match set_reputation (reputation_of_pb <$> rep) s with
       | (Ok _, s') => (Ok true, s')
       | (Err _, s') => (Ok false, s')
       | (Panic, s') => (Panic, s')
       end.

Definition add_mempool (uos : list Pb.UserOperation) (req_ep : option Pb.H160)
  : ST (UoPool S R) GrpcStatus bool :=
  do* ep := st_lift (parse_addr req_ep) in
  do* cfg := st_lift (get_uopool ep) in
  do* uos := st_lift (uos_of_pb uos) in
  λ s, match add_user_operations cfg uos None s with
       | (Ok _, s') => (Ok true, s')
       | (Err _, s') => (Ok false, s')
       | (Panic, s') => (Panic, s')
       end.

Definition sv_get_stake_info (req_addr req_ep : option Pb.H160) (s : UoPool S R)
  : comp GrpcStatus (Pb.StakeInfo * bool) :=
  let* ep := parse_addr req_ep in
  let* addr := parse_addr req_addr in
  let* _ := get_uopool ep in
  let* res := map_err (λ e, Internal ("Get stake info internal error: " +:+ e)) (get_stake_info s addr) in
  let* info := pb_of_stake_info res.(sr_stake_info) in
  Ok (info, res.(sr_is_staked)).

(** ** Queries that go through the pools until one answers *)
Record GetUserOperationByHashResponse := {
  hr_user_operation : option Pb.UserOperationSigned;
  hr_entry_point : option Pb.H160;
  hr_transaction_hash : option Pb.H256;
  hr_block_hash : option Pb.H256;
  hr_block_number : Z;
}.
Record GetUserOperationReceiptResponse := {
  rr_user_operation_hash : option Pb.H256;
  rr_sender : option Pb.H160;
  rr_nonce : option Pb.PbU256;
  rr_paymaster : option Pb.H160;
  rr_actual_gas_cost : option Pb.PbU256;
  rr_actual_gas_used : option Pb.PbU256;
  rr_success : bool;
  rr_tx_receipt : option Pb.TransactionReceipt;
  rr_logs : list Pb.Log;
  rr_reason : string;
}.

(** [for x in xs { if let Ok(a) = f(x) { return a } }] *)
Fixpoint first_ok {E F X Y : Type} (f : X → comp E Y) (xs : list X) : comp F (option Y) :=
  match xs with
  | [] => Ok None
  | x :: xs => match f x with Ok y => Ok (Some y) | Err _ => first_ok f xs | Panic => Panic end
  end.

Context {CD : ChainData} {HT : HashText}.

Definition sv_get_user_operation_by_hash (req_hash : option Pb.H256)
  : comp GrpcStatus GetUserOperationByHashResponse :=
  let* uo_hash := parse_hash req_hash in
  let* r := first_ok (λ kv : MempoolId * UoPoolConfig, get_user_operation_by_hash kv.2 uo_hash)
              (iter_map sv.(uopools)) in
  match r with
  | Some r => Ok {|
      hr_user_operation := Some (pb_of_signed r.(bh_user_operation));
      hr_entry_point := Some (pb_of_address r.(bh_entry_point));
      hr_transaction_hash := Some (pb_of_h256 r.(bh_transaction_hash));
      hr_block_hash := Some (pb_of_h256 r.(bh_block_hash));
      hr_block_number := r.(bh_block_number) |}
  | None => Err (NotFound "User operation not found")
  end.

Definition sv_get_user_operation_receipt (req_hash : option Pb.H256)
  : comp GrpcStatus GetUserOperationReceiptResponse :=
  let* uo_hash := parse_hash req_hash in
  let* r := first_ok (λ kv : MempoolId * UoPoolConfig, get_user_operation_receipt kv.2 uo_hash)
              (iter_map sv.(uopools)) in
  match r with
  | Some r => Ok {|
      rr_user_operation_hash := Some (pb_of_h256 r.(rc_user_operation_hash));
      rr_sender := Some (pb_of_address r.(rc_sender));
      rr_nonce := Some (pb_of_u256 r.(rc_nonce));
      rr_actual_gas_cost := Some (pb_of_u256 r.(rc_actual_gas_cost));
      rr_actual_gas_used := Some (pb_of_u256 r.(rc_actual_gas_used));
      rr_success := r.(rc_success);
      rr_tx_receipt := Some (pb_of_tx_receipt r.(rc_tx_receipt));
      rr_logs := pb_of_log <$> r.(rc_logs);
      rr_paymaster := pb_of_address <$> r.(rc_paymaster);
      rr_reason := r.(rc_reason) |}
  | None => Err (NotFound "User operation receipt not found")
  end.

(** ** Concurrent requests *)
(** an [add] request, or an operation received from the network, between its
    validation and its admission *)
Record Pending := {
  pe_cfg : UoPoolConfig;
  pe_uo : UserOperation;
  pe_res : InvalidMempoolUserOperationError + UserOperationValidationOutcome;
}.
Record Shared := { sh_pool : UoPool S R; sh_pending : list Pending }.

Inductive service_step : Shared → Shared → Prop :=
| sv_validate s ep cfg uo c res :
    get_uopool ep = Ok cfg →
    as_result (F:=GrpcStatus) (validate_user_operation s.(sh_pool) uo c) = Ok res →
    service_step s {| sh_pool := s.(sh_pool);
      sh_pending := s.(sh_pending) ++ [{| pe_cfg := cfg; pe_uo := uo; pe_res := res |}] |}
| sv_commit s l1 p l2 :
    s.(sh_pending) = l1 ++ p :: l2 →
    service_step s {| sh_pool := (add_commit p.(pe_cfg) p.(pe_uo) p.(pe_res) s.(sh_pool)).2;
      sh_pending := l1 ++ l2 |}
| sv_remove s uos ep :
    service_step s {| sh_pool := (remove uos ep s.(sh_pool)).2; sh_pending := s.(sh_pending) |}
| sv_bundle s ep :
    service_step s {| sh_pool := (get_sorted_user_operations ep s.(sh_pool)).2;
      sh_pending := s.(sh_pending) |}
| sv_do_clear s :
    service_step s {| sh_pool := (sv_clear s.(sh_pool)).2; sh_pending := s.(sh_pending) |}.
End handlers.
End service.

(** ** What concurrency and sharing lead to *)
Section races.
Context {P : Profile} {A : Abi} {D : Display} {N : Node} {HO : HashOrder} {CS : ChecksumText}.
Context {S : Type} `{ML : MempoolLaws S} {R : Type} `{ReputationEntryOp R}.
Context `{V : UserOperationValidator S R} (sv : UoPoolService).
Implicit Types (uo : UserOperation) (self : UoPool S R).

Lemma add_commit_state cfg uo res self :
  (add_commit cfg uo res self).2 = (add_user_operation cfg uo res self).2.
Proof.
  unfold add_commit. destruct (add_user_operation cfg uo res self) as [[h|e|] s]; try done.
  by destruct (me_kind e).
Qed.

Lemma count_tail_frame uo m :
  preserves (E:=MempoolError) (λ s : UoPool S R, s.(up_mempool) = m)
    (do* _ := st_for [Some uo.(uo_sender); get_address uo.(uo_init_code);
      get_address uo.(uo_paymaster_and_data)] (count_seen uo.(uo_hash)) in st_ret uo.(uo_hash)).
Proof.
  apply preserves_bind; [|intros; apply preserves_ret]. apply preserves_for. intros o s Hs.
  destruct o; simpl; [|done]. unfold st_map_err, on_reputation, st_zoom. by destruct (increment_seen _ _).
Qed.

(** an admission that nothing disturbs puts the operation into the pool *)
Lemma commit_pool cfg uo out self p :
  refines self.(up_mempool) p → admissible (OpAdd uo) (without_prev out p) →
  cfg.(cfg_network) ≠ Some false →
  refines (add_commit cfg uo (inr out) self).2.(up_mempool) (pool_admit uo out p).
Proof.
  intros Hr Ha Hn. rewrite add_commit_state. unfold add_user_operation.
  destruct (drop_prev_spec out self p Hr) as (s1 & Hs1 & Hr1 & _). rewrite (st_bind_step _ _ _ _ _ Hs1).
  assert (∃ s2, send_to_network cfg uo out s1 = (Ok (), s2) ∧ s2.(up_mempool) = s1.(up_mempool))
    as (s2 & Hs2 & Hm2).
  { unfold send_to_network. destruct (cfg_network cfg) as [[]|]; [by eexists|done|by eexists]. }
  rewrite (st_bind_step _ _ _ _ _ Hs2).
  destruct (store_validated_spec uo out s2 p) as (m & Hm & ->); [by rewrite Hm2|done|].
  by rewrite (count_tail_frame uo m).
Qed.

Lemma admit_fresh uo out p h u :
  out.(out_prev_hash) = None →
  (pool_admit uo out p).(p_uos) !! h = Some u ↔
  h = uo.(uo_hash) ∧ u = uo.(user_operation) ∨ h ≠ uo.(uo_hash) ∧ p.(p_uos) !! h = Some u.
Proof.
  intros Hp. unfold pool_admit, without_prev. rewrite Hp.
  destruct (out_code_hashes out); simpl; rewrite lookup_insert_Some; naive_solver.
Qed.


(** The pools of different entry points share one
    storage: an operation admitted for one entry point is returned, and offered
    for bundling, for every other one. *)
Theorem pools_share_storage ep1 ep2 pb2 cfg1 cfg2 uo out self p :
  refines self.(up_mempool) p → admissible (OpAdd uo) (without_prev out p) →
  get_uopool sv ep1 = Ok cfg1 → cfg1.(cfg_network) ≠ Some false →
  parse_addr pb2 = Ok ep2 → get_uopool sv ep2 = Ok cfg2 →
  let self' := (add_commit cfg1 uo (inr out) self).2 in
  (∃ l, get_all sv pb2 self' = Ok l ∧ pb_of_user_operation uo ∈ l) ∧
  ∃ l, UoPool.get_sorted_user_operations self' = Ok l ∧ uo ∈ l.
Proof.
  intros Hr Ha Hc1 Hn Hp2 Hc2 self'.
  assert (Hr' : refines self'.(up_mempool) (pool_admit uo out p)) by (by apply commit_pool).
  assert (Hin : uo ∈ uo_of <$> map_to_list (view self'.(up_mempool)).(v_uos)).
  { apply list_elem_of_fmap. exists (uo.(uo_hash), uo.(user_operation)). split; [by destruct uo|].
    apply elem_of_map_to_list. destruct Hr' as [-> _]. unfold pool_admit.
    destruct (out_code_hashes out); simpl; by rewrite lookup_insert_eq. }
  split.
  - destruct (store_all_law self'.(up_mempool)) as (l & Hl & Hperm).
    exists (pb_of_user_operation <$> l). split.
    + unfold get_all. rewrite Hp2. simpl. rewrite Hc2. simpl. unfold pool_get_all, Mempool.get_all.
      by rewrite Hl.
    + apply list_elem_of_fmap_2. by rewrite Hperm.
  - destruct (store_sorted_law self'.(up_mempool)) as (l & Hl & Hperm).
    exists (sort_by cmp_priority l). split; [exact Hl|]. by rewrite sort_by_perm, Hperm.
Qed.
End races.

(** ** Concrete evaluations *)
Module Example.
#[local] Existing Instances std_abi std_display canonical_order fx_profile Trace.Example.lib.
#[local] Existing Instances Bundling.Example.clock Bundling.Example.node Bundling.Example.standard.
#[local] Instance checksum : ChecksumText := address_bytes.

Definition sv : UoPoolService := build_pools Unsafe [1] 5000000 5 None.
(** a digest that tells the two identifiers below apart *)
Definition mix_abi : Abi := {|
  keccak256 b := word (fold_left (λ h x, (h * 257 + byte.unsigned x) mod (2 ^ 256 - 189)) b 1);
  abi_encode_uo := std_encode_uo; abi_encode_no_sig := std_encode_no_sig;
  abi_encode_address := word; abi_encode_u256 := word |}.
Definition sv2 : UoPoolService := build_pools (A:=mix_abi) Unsafe [1; 2] 5000000 5 None.
Definition cfg_of (ep : Address) : UoPoolConfig := {| cfg_mode := Unsafe; cfg_entry_point := ep;
  cfg_max_verification_gas := 5000000; cfg_chain_id := 5; cfg_network := None |}.
(** the same sender and nonce with two different fees *)
Definition first : UserOperation := fx_uo 11 3 10.
Definition second : UserOperation := fx_uo 12 3 20.


Lemma pools_share_storage_witness : ∃ l,
  UoPool.get_sorted_user_operations
    (add_commit (cfg_of 1) first (inr Bundling.Example.outcome) Bundling.Example.pool0).2 = Ok l ∧ first ∈ l.
Proof.
  assert (admissible (OpAdd first) (without_prev Bundling.Example.outcome {| p_uos := ∅; p_codes := ∅ |}))
    as Ha by (intros old; by vm_compute).
  assert (get_uopool (A:=mix_abi) sv2 1 = Ok (cfg_of 1)) as Hc1 by (by vm_compute).
  assert (get_uopool (A:=mix_abi) sv2 2 = Ok (cfg_of 2)) as Hc2 by (by vm_compute).
  assert (parse_addr (Some (pb_of_address 2)) = Ok 2) as Hep by (by vm_compute).
  destruct (pools_share_storage (A:=mix_abi) sv2 1 2 (Some (pb_of_address 2)) (cfg_of 1) (cfg_of 2)
    first Bundling.Example.outcome Bundling.Example.pool0 {| p_uos := ∅; p_codes := ∅ |}
    MemoryStore.Example.refines_default Ha Hc1 ltac:(done) Hep Hc2) as [_ Hl].
  exact Hl.
Defined.
End Example.
