(* ===== verification/Rpc.v ===== *)
(** The request-response protocol of the peer-to-peer layer
    ([crates/p2p/src/rpc/mod.rs], with the messages of [methods.rs],
    [outbound.rs], [protocol.rs] and the handler events of [handler.rs]): which
    requests are pending on which connection, and what is reported of them.

    libp2p calls [on_swarm_event], [on_connection_handler_event] and [poll]; what
    its documentation promises about these calls is [allowed] and [promised].  Peers and
    connections are opaque identifiers, represented by numbers. *)

From S2P Require Import Prelude Primitives Ssz.

Abbreviation PeerId := Z.
Abbreviation ConnectionId := Z.
Abbreviation RequestId := Z.

(** ** Messages *)
Record StatusMessage := { sm_chain_id : Z; sm_block_hash : bytes; sm_block_number : Z }.
Inductive GoodbyeReason := ClientShutdown | IrrelevantNetwork | GoodbyeError | GoodbyeUnknown (v : Z).
Record Ping := { ping_data : Z }.
Record MetaData := { seq_number : Z; supported_mempools : list bytes }.

(** [crates/primitives/src/p2p.rs]: what is gossiped, and sent on request *)
Record VerifiedUserOperation := {
  vu_user_operation : UserOperationSigned;
  vu_entry_point : Address;
  vu_verified_at_block_hash : U256;
}.

Definition goodbye_of_u64 (value : Z) : GoodbyeReason :=
  if bool_decide (value = 1) then ClientShutdown
  else if bool_decide (value = 2) then IrrelevantNetwork
  else if bool_decide (value = 3) then GoodbyeError
  else GoodbyeUnknown value.
Definition u64_of_goodbye (r : GoodbyeReason) : Z :=
  match r with
  | ClientShutdown => 1
  | IrrelevantNetwork => 2
  | GoodbyeError => 3
  | GoodbyeUnknown v => v
  end.

(** [OutboundRequest] and [InboundRequest] have the same constructors *)
Inductive Request :=
| ReqStatus (m : StatusMessage)
| ReqGoodbye (r : GoodbyeReason)
| ReqPing (p : Ping)
| ReqMetaData
| ReqPooledUserOpHashes (cursor : bytes)
| ReqPooledUserOpsByHash (hashes : list bytes).
Inductive RPCResponse :=
| RespStatus (m : StatusMessage)
| RespGoodbye (r : GoodbyeReason)
| RespPong (p : Ping)
| RespMetaData (m : MetaData)
| RespPooledUserOpHashes (hashes : list bytes) (next_cursor : bytes)
| RespPooledUserOpsByHash (uos : list VerifiedUserOperation).

Record OutboundInfo := { oi_req_id : RequestId; oi_request : Request }.

(** ** Events.  [sender] is the channel on which a request is answered *)
Inductive HandlerError := IoError (s : string) | SSZError (s : string)
  | DeserializeError (e : SszError) | SerializeError (e : SszError).
Inductive HandlerEvent :=
| HRequest (req_id : RequestId) (request : Request) (sender : Z)
| HResponse (req_id : RequestId) (response : RPCResponse)
| HResponseSent (req_id : RequestId)
| HResponseOmission (req_id : RequestId)
| HInboundTimeout (req_id : RequestId)
| HOutboundTimeout (req_id : RequestId)
| HInboundError (req_id : RequestId) (err : HandlerError)
| HOutboundError (req_id : RequestId) (err : HandlerError)
| HDialUpgradeTimeout (req_id : RequestId)
| HOutboundUnsuportedProtocol (req_id : RequestId).

Inductive InboundFailure := InTimeout | InConnectionClosed | InUnsupportedProtocols
  | InResponseOmission | InError (e : HandlerError).
Inductive OutboundFailure := OutDialFailure | OutTimeout | OutConnectionClosed
  | OutUnsupportedProtocols | OutError (e : HandlerError).
Inductive RPCEvent :=
| EvRequest (peer_id : PeerId) (request : Request) (req_id : RequestId) (sender : Z)
| EvResponse (peer_id : PeerId) (req_id : RequestId) (response : RPCResponse)
| EvInboundFailure (peer_id : PeerId) (req_id : RequestId) (err : InboundFailure)
| EvOutboundFailure (peer_id : PeerId) (req_id : RequestId) (err : OutboundFailure)
| EvResponseSent (peer_id : PeerId) (req_id : RequestId)
| EvUpgradeFailure (peer_id : PeerId) (req_id : RequestId).

Inductive ToSwarm :=
| GenerateEvent (e : RPCEvent)
| Dial (peer_id : PeerId)
| NotifyHandler (peer_id : PeerId) (connection : ConnectionId) (event : OutboundInfo).

Inductive FromSwarm :=
| ConnectionEstablished (peer_id : PeerId) (connection_id : ConnectionId) (other_established : nat)
| ConnectionClosed (peer_id : PeerId) (connection_id : ConnectionId) (remaining_established : nat)
| DialFailure (peer_id : option PeerId).

(** ** State *)
Record Connection := {
  c_id : ConnectionId;
  pending_inbound_responses : gset RequestId;
  pending_outbound_responses : gset RequestId;
}.
Definition Connection_new (id : ConnectionId) : Connection :=
  {| c_id := id; pending_inbound_responses := ∅; pending_outbound_responses := ∅ |}.

Record RPC := {
  next_id : RequestId;
  pending_events : list ToSwarm;
  connected : gmap PeerId (list Connection);
  pending_outbound_requests : gmap PeerId (list OutboundInfo);
}.
Definition RPC_new : RPC :=
  {| next_id := 1; pending_events := []; connected := ∅; pending_outbound_requests := ∅ |}.

Definition with_next_id n self : RPC :=
  {| next_id := n; pending_events := self.(pending_events); connected := self.(connected);
     pending_outbound_requests := self.(pending_outbound_requests) |}.
Definition push_event (e : ToSwarm) self : RPC :=
  {| next_id := self.(next_id); pending_events := self.(pending_events) ++ [e];
     connected := self.(connected);
     pending_outbound_requests := self.(pending_outbound_requests) |}.
Definition with_connected m self : RPC :=
  {| next_id := self.(next_id); pending_events := self.(pending_events); connected := m;
     pending_outbound_requests := self.(pending_outbound_requests) |}.
Definition with_requests m self : RPC :=
  {| next_id := self.(next_id); pending_events := self.(pending_events);
     connected := self.(connected); pending_outbound_requests := m |}.

Definition insert_inbound (r : RequestId) (c : Connection) : Connection :=
  {| c_id := c.(c_id); pending_inbound_responses := {[r]} ∪ c.(pending_inbound_responses);
     pending_outbound_responses := c.(pending_outbound_responses) |}.
Definition insert_outbound (r : RequestId) (c : Connection) : Connection :=
  {| c_id := c.(c_id); pending_inbound_responses := c.(pending_inbound_responses);
     pending_outbound_responses := {[r]} ∪ c.(pending_outbound_responses) |}.
Definition remove_inbound (r : RequestId) (c : Connection) : Connection :=
  {| c_id := c.(c_id); pending_inbound_responses := c.(pending_inbound_responses) ∖ {[r]};
     pending_outbound_responses := c.(pending_outbound_responses) |}.
Definition remove_outbound (r : RequestId) (c : Connection) : Connection :=
  {| c_id := c.(c_id); pending_inbound_responses := c.(pending_inbound_responses);
     pending_outbound_responses := c.(pending_outbound_responses) ∖ {[r]} |}.

(** [Vec::is_empty] *)
Definition is_nil {A} (l : list A) : bool := match l with [] => true | _ => false end.

Section rpc.
Context {P : Profile} {HO : HashOrder} {E : Type}.
Implicit Types (self : RPC) (cs : list Connection).

Definition next_request_id : ST RPC E RequestId :=
  do* request_id := st_get (λ self, Ok self.(next_id)) in
  do* n := st_lift (u64_add request_id 1) in
  do* _ := st_mod (with_next_id n) in
  st_ret request_id.

(** the request comes back when the peer has no connection; [connections[id]]
    panics when [id] is out of range *)
Definition try_send_request (peer : PeerId) (request : OutboundInfo)
  : ST RPC E (option OutboundInfo) := λ self,
  match self.(connected) !! peer with
  | Some connections =>
      if is_nil connections then (Ok (Some request), self)
      else
        let id := Z.to_nat (request.(oi_req_id) mod Z.of_nat (length connections)) in
        match connections !! id with
        | Some conn =>
            (Ok None, push_event (NotifyHandler peer conn.(c_id) request)
               (with_connected (<[peer := <[id := insert_inbound request.(oi_req_id) conn]> connections]>
                  self.(connected)) self))
        | None => (Panic, self)
        end
  | None => (Ok (Some request), self)
  end.

Definition queue_request (peer : PeerId) (request : OutboundInfo) self : RPC :=
  with_requests (<[peer := default [] (self.(pending_outbound_requests) !! peer) ++ [request]]>
    self.(pending_outbound_requests)) self.

Definition send_request (peer : PeerId) (request : Request) : ST RPC E RequestId :=
  do* req_id := next_request_id in
  do* back := try_send_request peer {| oi_req_id := req_id; oi_request := request |} in
  do* _ := match back with
           | Some request =>
               do* _ := st_mod (push_event (Dial peer)) in
               st_mod (queue_request peer request)
           | None => st_ret ()
           end in
  st_ret req_id.

(** [connections.iter_mut().find(|c| c.id == connection)] and a change of it *)
Fixpoint update_first (connection : ConnectionId) (f : Connection → Connection)
    (connections : list Connection) : list Connection :=
  match connections with
  | [] => []
  | c :: cs => if bool_decide (c.(c_id) = connection) then f c :: cs
               else c :: update_first connection f cs
  end.
Definition get_connection (peer : PeerId) (connection : ConnectionId) self : option Connection :=
  connections ← self.(connected) !! peer;
  snd <$> list_find (λ c, c.(c_id) = connection) connections.
Definition set_connection (peer : PeerId) (connection : ConnectionId)
    (f : Connection → Connection) self : RPC :=
  with_connected (alter (update_first connection f) peer self.(connected)) self.

Definition remove_pending_outbound_response (peer : PeerId) (connection : ConnectionId)
    (request : RequestId) : ST RPC E bool := λ self,
  (Ok (match get_connection peer connection self with
       | Some c => bool_decide (request ∈ c.(pending_outbound_responses))
       | None => false
       end), set_connection peer connection (remove_outbound request) self).
Definition remove_pending_inbound_response (peer : PeerId) (connection : ConnectionId)
    (request : RequestId) : ST RPC E bool := λ self,
  (Ok (match get_connection peer connection self with
       | Some c => bool_decide (request ∈ c.(pending_inbound_responses))
       | None => false
       end), set_connection peer connection (remove_inbound request) self).

(** [debug_assert!]: Cargo's profiles switch it together with overflow checks *)
Definition debug_assert (b : bool) : ST RPC E () :=
  if overflow_checks && negb b then st_lift Panic else st_ret ().

Definition generate (e : RPCEvent) : ST RPC E () := st_mod (push_event (GenerateEvent e)).

Definition on_connection_closed (peer_id : PeerId) (connection_id : ConnectionId)
    (remaining_established : nat) : ST RPC E () :=
  do* connections := st_get (λ self, expect (self.(connected) !! peer_id)) in
  do* p := st_lift (expect (list_find (λ c, c.(c_id) = connection_id) connections)) in
  let '(pos, connection) := p in
  let connections := delete pos connections in
  do* _ := st_mod (λ self, with_connected (<[peer_id := connections]> self.(connected)) self) in
  do* _ := debug_assert (Bool.eqb (is_nil connections) (bool_decide (remaining_established = 0)%nat)) in
  do* _ := if is_nil connections
           then st_mod (λ self, with_connected (delete peer_id self.(connected)) self)
           else st_ret () in
  do* _ := st_for (iter_set connection.(pending_outbound_responses))
             (λ req_id, generate (EvInboundFailure peer_id req_id InConnectionClosed)) in
  st_for (iter_set connection.(pending_inbound_responses))
    (λ req_id, generate (EvOutboundFailure peer_id req_id OutConnectionClosed)).

Definition on_dial_failure (peer_id : option PeerId) : ST RPC E () :=
  match peer_id with
  | Some peer_id =>
      do* pending := st_get (λ self, Ok (self.(pending_outbound_requests) !! peer_id)) in
      match pending with
      | Some pending =>
          do* _ := st_mod (λ self,
            with_requests (delete peer_id self.(pending_outbound_requests)) self) in
          st_for pending (λ request,
            generate (EvOutboundFailure peer_id request.(oi_req_id) OutDialFailure))
      | None => st_ret ()
      end
  | None => st_ret ()
  end.

Definition on_connection_handler_event (peer_id : PeerId) (connection_id : ConnectionId)
    (event : HandlerEvent) : ST RPC E () :=
  match event with
  | HRequest req_id request sender =>
      do* _ := generate (EvRequest peer_id request req_id sender) in
      do* c := st_get (λ self, Ok (get_connection peer_id connection_id self)) in
      match c with
      | Some _ => st_mod (set_connection peer_id connection_id (insert_outbound req_id))
      | None => generate (EvInboundFailure peer_id req_id InConnectionClosed)
      end
  | HResponse req_id response =>
      do* _ := remove_pending_inbound_response peer_id connection_id req_id in
      generate (EvResponse peer_id req_id response)
  | HInboundTimeout req_id =>
      do* _ := remove_pending_inbound_response peer_id connection_id req_id in
      generate (EvInboundFailure peer_id req_id InTimeout)
  | HInboundError req_id err =>
      do* _ := remove_pending_inbound_response peer_id connection_id req_id in
      generate (EvInboundFailure peer_id req_id (InError err))
  | HOutboundError req_id err =>
      do* _ := remove_pending_outbound_response peer_id connection_id req_id in
      generate (EvOutboundFailure peer_id req_id (OutError err))
  | HDialUpgradeTimeout _ => st_ret ()
  | HResponseSent req_id =>
      do* _ := remove_pending_outbound_response peer_id connection_id req_id in
      generate (EvResponseSent peer_id req_id)
  | HResponseOmission req_id =>
      do* _ := remove_pending_outbound_response peer_id connection_id req_id in
      generate (EvInboundFailure peer_id req_id InResponseOmission)
  | HOutboundTimeout req_id =>
      do* _ := remove_pending_outbound_response peer_id connection_id req_id in
      generate (EvOutboundFailure peer_id req_id OutTimeout)
  | HOutboundUnsuportedProtocol req_id =>
      do* removed := remove_pending_inbound_response peer_id connection_id req_id in
      do* _ := debug_assert removed in
      generate (EvOutboundFailure peer_id req_id OutUnsupportedProtocols)
  end.

(** [assert!(request.is_none())] *)
Definition resend (peer_id : PeerId) (request : OutboundInfo) : ST RPC E () :=
  do* back := try_send_request peer_id request in
  match back with None => st_ret () | Some _ => st_lift Panic end.

Definition add_connection (peer_id : PeerId) (connection_id : ConnectionId) self : RPC :=
  with_connected (<[peer_id := default [] (self.(connected) !! peer_id) ++
    [Connection_new connection_id]]> self.(connected)) self.

Definition on_swarm_event (event : FromSwarm) : ST RPC E () :=
  match event with
  | ConnectionEstablished peer_id connection_id other_established =>
      do* _ := st_mod (add_connection peer_id connection_id) in
      if bool_decide (other_established = 0)%nat then
        do* pending := st_get (λ self, Ok (self.(pending_outbound_requests) !! peer_id)) in
        match pending with
        | Some pending =>
            do* _ := st_mod (λ self,
              with_requests (delete peer_id self.(pending_outbound_requests)) self) in
            st_for pending (resend peer_id)
        | None => st_ret ()
        end
      else st_ret ()
  | ConnectionClosed peer_id connection_id remaining_established =>
      on_connection_closed peer_id connection_id remaining_established
  | DialFailure peer_id => on_dial_failure peer_id
  end.

Definition poll : ST RPC E (option ToSwarm) := λ self,
  match self.(pending_events) with
  | [] => (Ok None, self)
  | ev :: evs => (Ok (Some ev), {| next_id := self.(next_id); pending_events := evs;
      connected := self.(connected);
      pending_outbound_requests := self.(pending_outbound_requests) |})
  end.
End rpc.

(** ** The calls of libp2p *)
Inductive Input :=
| ISend (peer : PeerId) (request : Request)
| ISwarm (event : FromSwarm)
| IHandler (peer : PeerId) (connection : ConnectionId) (event : HandlerEvent)
| IPoll.

Section calls.
Context {P : Profile} {HO : HashOrder} {E : Type}.
Implicit Types (self : RPC) (cs : list Connection).

Definition call (i : Input) : ST RPC E (option ToSwarm) :=
  match i with
  | ISend peer request => do* _ := send_request peer request in st_ret None
  | ISwarm event => do* _ := on_swarm_event event in st_ret None
  | IHandler peer connection event =>
      do* _ := on_connection_handler_event peer connection event in st_ret None
  | IPoll => poll
  end.

Definition connections_of (p : PeerId) self : list Connection := default [] (self.(connected) !! p).

(** The promises of the swarm: a new connection has an identifier that no open one
    has, a closed one was open, both come with the number of the other connections
    of the peer.  Fewer than 2^64 requests are sent. *)
Definition allowed (i : Input) self : Prop :=
  match i with
  | ISend _ _ => self.(next_id) < U64_MAX
  | ISwarm (ConnectionEstablished p c other) =>
      c ∉ c_id <$> connections_of p self ∧ other = length (connections_of p self)
  | ISwarm (ConnectionClosed p c remaining) =>
      c ∈ c_id <$> connections_of p self ∧ S remaining = length (connections_of p self)
  | _ => True
  end.

(** runs of allowed calls; the second component lists the events handed to the swarm *)
Inductive rpc_run : list Input → RPC * list ToSwarm → Prop :=
| run_new : rpc_run [] (RPC_new, [])
| run_call tr self log i o self' :
    rpc_run tr (self, log) → allowed i self → call i self = (Ok o, self') →
    rpc_run (tr ++ [i]) (self', log ++ option_list o).

(** a request is pending on a connection *)
Definition pends self (p : PeerId) (k : ConnectionId) (r : RequestId) : Prop :=
  ∃ c, get_connection p k self = Some c ∧ r ∈ c.(pending_inbound_responses).
(** the debugging assertion holds, or is not compiled *)
Definition asserted (i : Input) self : Prop :=
  match i with
  | IHandler p k (HOutboundUnsuportedProtocol r) => overflow_checks = true → pends self p k r
  | _ => True
  end.

(** ** Invariant *)
Definition rpc_wf self : Prop :=
  0 < self.(next_id) ∧
  (∀ p cs, self.(connected) !! p = Some cs → cs ≠ [] ∧ NoDup (c_id <$> cs)) ∧
  (∀ p, is_Some (self.(connected) !! p) → self.(pending_outbound_requests) !! p = None).

(** a request waits for its answer on a connection, or for a connection *)
Definition awaited (cs : list Connection) (r : RequestId) : Prop :=
  ∃ c, c ∈ cs ∧ r ∈ c.(pending_inbound_responses).
Definition tracked self (r : RequestId) : Prop :=
  ∃ p, (∃ q, self.(pending_outbound_requests) !! p = Some q ∧ r ∈ oi_req_id <$> q) ∨
       (∃ cs, self.(connected) !! p = Some cs ∧ awaited cs r).
(** the outcome of a request is among the events *)
Definition outcome_of (r : RequestId) (e : ToSwarm) : bool :=
  match e with
  | GenerateEvent (EvResponse _ r' _) | GenerateEvent (EvOutboundFailure _ r' _) => bool_decide (r = r')
  | _ => false
  end.
Definition outcomes (r : RequestId) (evs : list ToSwarm) : list ToSwarm :=
  filter (λ e, outcome_of r e = true) evs.
Definition reported (evs : list ToSwarm) (r : RequestId) : Prop := outcomes r evs ≠ [].

(** calls that take an inbound request for an outbound one *)
Definition confuses (i : Input) (r : RequestId) : Prop :=
  match i with
  | IHandler _ _ (HInboundTimeout r') | IHandler _ _ (HInboundError r' _) => r = r'
  | _ => False
  end.

(** what a call does: it appends [evs] and loses no request but those in [D] *)
Definition effect (D : RequestId → Prop) self self' (evs : list ToSwarm) : Prop :=
  rpc_wf self' ∧ self'.(pending_events) = self.(pending_events) ++ evs ∧
  self'.(next_id) = self.(next_id) ∧
  ∀ r, tracked self r → D r ∨ tracked self' r ∨ reported evs r.

Lemma reported_app evs1 evs2 r : reported (evs1 ++ evs2) r ↔ reported evs1 r ∨ reported evs2 r.
Proof.
  unfold reported, outcomes. rewrite filter_app.
  destruct (filter _ evs1), (filter _ evs2); naive_solver.
Qed.
Lemma reported_elem evs r e : e ∈ evs → outcome_of r e = true → reported evs r.
Proof.
  intros He Ho Hn. assert (Hin : e ∈ outcomes r evs) by (by apply list_elem_of_filter).
  rewrite Hn in Hin. by apply not_elem_of_nil in Hin.
Qed.

Lemma effect_trans D self1 self2 self3 evs1 evs2 :
  effect D self1 self2 evs1 → effect D self2 self3 evs2 → effect D self1 self3 (evs1 ++ evs2).
Proof.
  intros (_ & He1 & Hn1 & Ht1) (Hwf & He2 & Hn2 & Ht2). split_and!; [done|..].
  - by rewrite He2, He1, (assoc_L (++)).
  - congruence.
  - intros r Hr. rewrite reported_app. destruct (Ht1 r Hr) as [?|[Hr'|?]]; [by left| |by eauto].
    destruct (Ht2 r Hr') as [?|[?|?]]; eauto.
Qed.

Lemma effect_refl D self : rpc_wf self → effect D self self [].
Proof. intros. split; [done|]. rewrite (right_id_L [] (++)). eauto. Qed.

Lemma effect_push D self e : rpc_wf self → effect D self (push_event e self) [e].
Proof. intros. split; [done|]. eauto. Qed.

(** a loop that only generates events *)
Lemma generate_all {A} D (f : A → RPCEvent) l self :
  rpc_wf self → ∃ self', st_for (E:=E) l (λ x, generate (f x)) self = (Ok (), self') ∧
    effect D self self' (GenerateEvent ∘ f <$> l).
Proof.
  revert self. induction l as [|x l IH]; intros self Hwf; simpl.
  - exists self. by split; [|apply effect_refl].
  - destruct (IH (push_event (GenerateEvent (f x)) self)) as (self' & Hrun & Heff);
      [by apply (effect_push D)|].
    exists self'. split; [by erewrite st_bind_step|].
    apply (effect_trans D _ (push_event (GenerateEvent (f x)) self) _ [_]); [|done].
    by apply effect_push.
Qed.

(** *** Changing one connection *)
Lemma update_first_ids k f l :
  (∀ c, (f c).(c_id) = c.(c_id)) → c_id <$> update_first k f l = c_id <$> l.
Proof.
  intros Hf. induction l as [|c l IH]; [done|].
  cbn [update_first]. case_bool_decide; rewrite !fmap_cons; [by rewrite Hf|by rewrite IH].
Qed.

Lemma update_first_elem k f l c :
  c ∈ l → ∃ c', c' ∈ update_first k f l ∧ (c' = c ∨ c' = f c).
Proof.
  induction l as [|d l IH]; simpl; [by intros ?%not_elem_of_nil|].
  rewrite elem_of_cons. intros [->|Hc]; case_bool_decide.
  - exists (f d). split; [left|auto].
  - exists d. split; [left|auto].
  - exists c. split; [by right|auto].
  - destruct (IH Hc) as (c' & ? & ?). exists c'. split; [by right|done].
Qed.

Lemma set_connection_effect (D : RequestId → Prop) p k f self :
  rpc_wf self → (∀ c, (f c).(c_id) = c.(c_id)) →
  (∀ c r, r ∈ c.(pending_inbound_responses) → D r ∨ r ∈ (f c).(pending_inbound_responses)) →
  effect D self (set_connection p k f self) [].
Proof.
  intros (Hn & Hcs & Hq) Hid Hin. split; [|split_and!; simpl; [by rewrite (right_id_L [] (++))|done|]].
  - split_and!; simpl; [done| |].
    + intros p' cs. rewrite lookup_alter_Some. intros [(<- & cs0 & H0 & ->)|[_ H0]]; [|by eauto].
      destruct (Hcs _ _ H0) as [Hne Hnd]. split; [|by rewrite update_first_ids].
      intros Hnil. apply Hne. apply (f_equal (fmap c_id)) in Hnil.
      rewrite update_first_ids in Hnil by done. by apply fmap_nil_inv in Hnil.
    + intros p' Hp'. apply Hq. destruct Hp' as [cs Hl].
      apply lookup_alter_Some in Hl as [(<- & cs0 & H0 & _)|[_ H0]]; by eexists.
  - unfold tracked. cbn [set_connection with_connected connected pending_outbound_requests].
    intros r (p' & [Htr|(cs & Hl & c & Hc & Hr)]).
    { right. left. exists p'. by left. }
    destruct (decide (p = p')) as [<-|Hne].
    + destruct (update_first_elem k f cs c Hc) as (c' & Hc' & [-> | ->]).
      * right. left. exists p. right. exists (update_first k f cs).
        rewrite lookup_alter_eq, Hl. split; [done|by exists c].
      * destruct (Hin _ _ Hr) as [?|Hr']; [by left|]. right. left. exists p. right.
        exists (update_first k f cs). rewrite lookup_alter_eq, Hl. split; [done|by exists (f c)].
    + right. left. exists p'. right. exists cs. rewrite lookup_alter_ne by done.
      split; [done|by exists c].
Qed.

(** *** Sending *)
Lemma insert_inbound_ids (i : nat) r conn cs :
  cs !! i = Some conn → c_id <$> <[i := insert_inbound r conn]> cs = c_id <$> cs.
Proof.
  intros Hi. rewrite list_fmap_insert. apply list_insert_id. by rewrite list_lookup_fmap, Hi.
Qed.

Lemma insert_inbound_awaited (i : nat) r conn cs r' :
  cs !! i = Some conn → awaited cs r' ∨ r' = r → awaited (<[i := insert_inbound r conn]> cs) r'.
Proof.
  intros Hi. assert (Hlen := lookup_lt_Some _ _ _ Hi).
  assert (Hnew : insert_inbound r conn ∈ <[i := insert_inbound r conn]> cs)
    by (by apply list_elem_of_insert).
  intros [(c & Hc & Hr)| ->].
  - apply list_elem_of_lookup in Hc as [j Hj]. destruct (decide (j = i)) as [->|Hji].
    + exists (insert_inbound r conn). split; [done|]. simplify_eq/=. set_solver.
    + exists c. split; [|done]. apply list_elem_of_lookup. exists j.
      by rewrite list_lookup_insert_ne.
  - exists (insert_inbound r conn). split; [done|]. simpl. set_solver.
Qed.

Lemma try_send_connected p request self :
  rpc_wf self → is_Some (self.(connected) !! p) →
  ∃ self' evs, try_send_request (E:=E) p request self = (Ok None, self') ∧
    effect (λ _, False) self self' evs ∧ tracked self' request.(oi_req_id) ∧
    is_Some (self'.(connected) !! p).
Proof.
  intros (Hn & Hcs & Hq) [cs Hp]. destruct (Hcs p cs Hp) as [Hne Hnd].
  set (r := request.(oi_req_id)). set (i := Z.to_nat (r mod Z.of_nat (length cs))).
  assert (Hlen : (0 < length cs)%nat) by (destruct cs; simpl in *; [done|lia]).
  assert (Hi : (i < length cs)%nat).
  { pose proof (Z.mod_pos_bound r (Z.of_nat (length cs))). lia. }
  destruct (lookup_lt_is_Some_2 _ _ Hi) as [conn Hconn].
  eexists _, _. unfold try_send_request. rewrite Hp.
  replace (is_nil cs) with false by (by destruct cs). fold r i. rewrite Hconn.
  split; [done|]. split; [split; [split_and!; simpl; [done| |]|split_and!; [done..|]]|split].
  - intros p' cs'. rewrite lookup_insert_Some. intros [(<- & <-)|[_ ?]]; [|by eauto].
    rewrite insert_inbound_ids by done. split; [|done].
    intros Hnil. apply (f_equal length) in Hnil. rewrite length_insert in Hnil. simpl in Hnil. lia.
  - intros p' [cs' Hl]. apply Hq. apply lookup_insert_Some in Hl as [(<- & _)|[_ ?]]; by eexists.
  - intros r' (p' & [Htr|(cs' & Hl & Hw)]); right; left; exists p'; [by left|right]. simpl.
    destruct (decide (p = p')) as [<-|?].
    + rewrite lookup_insert_eq. eexists. split; [done|]. simplify_eq.
      apply insert_inbound_awaited; auto.
    + exists cs'. by rewrite lookup_insert_ne.
  - exists p. right. simpl. rewrite lookup_insert_eq. eexists. split; [done|].
    apply insert_inbound_awaited; auto.
  - simpl. rewrite lookup_insert_eq. by eexists.
Qed.

Lemma queue_request_effect p request self :
  rpc_wf self → self.(connected) !! p = None →
  effect (λ _, False) self (queue_request p request self) [] ∧
  tracked (queue_request p request self) request.(oi_req_id).
Proof.
  intros (Hn & Hcs & Hq) Hp. split; [split; [split_and!; simpl; [done..|]|split_and!]|].
  - intros p' Hp'. rewrite lookup_insert_ne; [by apply Hq|].
    intros <-. rewrite Hp in Hp'. by destruct Hp'.
  - simpl. by rewrite (right_id_L [] (++)).
  - done.
  - intros r (p' & [(q & Hl & Hr)|?]); right; left; exists p'; [left|by right]. simpl.
    destruct (decide (p = p')) as [<-|?].
    + rewrite lookup_insert_eq. eexists. split; [done|]. rewrite Hl. simpl.
      rewrite fmap_app. set_solver.
    + exists q. by rewrite lookup_insert_ne.
  - exists p. left. simpl. rewrite lookup_insert_eq. eexists. split; [done|].
    rewrite fmap_app. set_solver.
Qed.

Lemma resend_all p pending self :
  rpc_wf self → is_Some (self.(connected) !! p) →
  ∃ self' evs, st_for (E:=E) pending (resend p) self = (Ok (), self') ∧
    effect (λ _, False) self self' evs ∧
    ∀ r, r ∈ oi_req_id <$> pending → tracked self' r ∨ reported evs r.
Proof.
  revert self. induction pending as [|q pending IH]; intros self Hwf Hp; simpl.
  { exists self, []. split_and!; [done|by apply effect_refl|set_solver]. }
  destruct (try_send_connected p q self Hwf Hp) as (self1 & evs1 & Hrun & Heff & Htr & Hp1).
  destruct (IH self1 (proj1 Heff) Hp1) as (self' & evs2 & Hrun2 & Heff2 & Hall).
  exists self', (evs1 ++ evs2). split_and!; [|by eapply effect_trans|].
  - assert (Hq : resend (E:=E) p q self = (Ok (), self1)).
    { unfold resend. by rewrite (st_bind_step _ _ _ _ _ Hrun). }
    by rewrite (st_bind_step _ _ _ _ _ Hq).
  - intros r [->|Hr]%elem_of_cons; rewrite reported_app.
    + destruct Heff2 as (_ & _ & _ & Ht). destruct (Ht _ Htr) as [?|[?|?]]; tauto.
    + destruct (Hall r Hr); tauto.
Qed.

(** *** Closing, failing and opening connections *)
Lemma effect_discharge (D D' : RequestId → Prop) self self' evs :
  effect D self self' evs → (∀ r, D r → D' r ∨ reported evs r) → effect D' self self' evs.
Proof.
  intros (? & ? & ? & Ht) HD. split_and!; [done..|]. intros r Hr.
  destruct (Ht r Hr) as [Hd|?]; [|by right]. destruct (HD r Hd); auto.
Qed.

Definition close_connection (p : PeerId) (pos : nat) (cs : list Connection) self : RPC :=
  let cs := delete pos cs in
  with_connected (if is_nil cs then delete p (<[p := cs]> self.(connected))
                  else <[p := cs]> self.(connected)) self.

Lemma close_connection_effect p pos cs c self :
  rpc_wf self → self.(connected) !! p = Some cs → cs !! pos = Some c →
  effect (λ r, r ∈ c.(pending_inbound_responses)) self (close_connection p pos cs self) [].
Proof.
  intros (Hn & Hcs & Hq) Hp Hc. destruct (Hcs _ _ Hp) as [_ Hnd].
  set (cs' := delete pos cs).
  assert (Hlook : ∀ p', (close_connection p pos cs self).(connected) !! p' =
    if bool_decide (p' = p) then (if is_nil cs' then None else Some cs')
    else self.(connected) !! p').
  { intros p'. unfold close_connection. fold cs'. simpl. case_bool_decide; subst.
    - destruct (is_nil cs'); [apply lookup_delete_eq|apply lookup_insert_eq].
    - destruct (is_nil cs'); [rewrite lookup_delete_ne by done|];
        by rewrite lookup_insert_ne by done. }
  split; [split_and!; [done| |]|split_and!; [by rewrite (right_id_L [] (++))|done|]].
  - intros p' cs0. rewrite Hlook. case_bool_decide; [|by eauto].
    destruct (is_nil cs') eqn:Hnil; [done|]. intros [= <-]. split; [by intros Hc'; rewrite Hc' in Hnil|].
    eapply sublist_NoDup; [apply Hnd|]. apply fmap_sublist, sublist_delete.
  - intros p'. rewrite Hlook. case_bool_decide; [subst|by apply Hq].
    intros _. apply Hq. by rewrite Hp.
  - intros r (p' & [?|(cs0 & Hl & d & Hd & Hr)]); [right; left; exists p'; by left|].
    destruct (decide (p' = p)) as [->|Hne].
    + simplify_eq. rewrite <-(take_drop_middle cs pos c Hc), elem_of_app, elem_of_cons in Hd.
      assert (d = c ∨ d ∈ cs') as [->|Hd'];
        [unfold cs'; rewrite delete_take_drop, elem_of_app; tauto|by left|].
      right. left. exists p. right. exists cs'. split; [|by exists d].
      rewrite Hlook, bool_decide_eq_true_2 by done. destruct cs'; [by apply not_elem_of_nil in Hd'|done].
    + right. left. exists p'. right. exists cs0. rewrite Hlook, bool_decide_eq_false_2 by done.
      split; [done|by exists d].
Qed.

(** the failures reported for a closed connection *)
Definition closed_events (p : PeerId) (conn : Connection) : list ToSwarm :=
  (GenerateEvent ∘ (λ r, EvInboundFailure p r InConnectionClosed) <$>
     iter_set conn.(pending_outbound_responses)) ++
  (GenerateEvent ∘ (λ r, EvOutboundFailure p r OutConnectionClosed) <$>
     iter_set conn.(pending_inbound_responses)).

Lemma closed_spec p c remaining self :
  rpc_wf self → allowed (ISwarm (ConnectionClosed p c remaining)) self →
  ∃ self' conn, get_connection p c self = Some conn ∧
    on_connection_closed (E:=E) p c remaining self = (Ok (), self') ∧
    effect (λ _, False) self self' (closed_events p conn).
Proof.
  intros Hwf [Hin Hrem]. unfold connections_of, get_connection in *.
  destruct (self.(connected) !! p) as [cs|] eqn:Hp; [simpl in *|by apply not_elem_of_nil in Hin].
  apply list_elem_of_fmap in Hin as (c0 & -> & Hc0).
  destruct (list_find_elem_of (λ c, c.(c_id) = c0.(c_id)) cs c0 Hc0 eq_refl) as [[pos conn] Hf].
  assert (Hpos : cs !! pos = Some conn) by (by apply list_find_Some in Hf as (? & _)).
  set (self1 := close_connection p pos cs self).
  assert (He1 := close_connection_effect p pos cs conn self Hwf Hp Hpos). fold self1 in He1.
  destruct (generate_all (λ r, r ∈ conn.(pending_inbound_responses))
    (λ r, EvInboundFailure p r InConnectionClosed) (iter_set conn.(pending_outbound_responses))
    self1 (proj1 He1)) as (self2 & Hrun2 & He2).
  destruct (generate_all (λ r, r ∈ conn.(pending_inbound_responses))
    (λ r, EvOutboundFailure p r OutConnectionClosed) (iter_set conn.(pending_inbound_responses))
    self2 (proj1 He2)) as (self3 & Hrun3 & He3).
  assert (Hnil : is_nil (delete pos cs) = bool_decide (remaining = 0)%nat).
  { pose proof (length_delete cs pos (ex_intro _ conn Hpos)) as Hl.
    destruct (delete pos cs); simpl in *; case_bool_decide; (done || lia). }
  assert (Hassert : ∀ s, debug_assert (E:=E)
    (Bool.eqb (is_nil (delete pos cs)) (bool_decide (remaining = 0)%nat)) s = (Ok (), s)).
  { intros s. unfold debug_assert. by rewrite Hnil, Bool.eqb_reflx, andb_false_r. }
  exists self3, conn. split_and!.
  - simpl. by rewrite Hf.
  - unfold on_connection_closed. erewrite st_bind_step; [|unfold st_get; by rewrite Hp].
    erewrite st_bind_step; [|unfold st_lift; by rewrite Hf]. cbv beta iota zeta.
    erewrite st_bind_step; [|done]. erewrite (st_bind_step (debug_assert _)) by (eapply Hassert).
    rewrite (st_bind_step _ _ _ () self1); [by rewrite (st_bind_step _ _ _ _ _ Hrun2)|].
    unfold self1, close_connection. by destruct (is_nil _).
  - eapply effect_discharge;
      [apply (effect_trans _ _ _ _ [] _ He1 (effect_trans _ _ _ _ _ _ He2 He3))|].
    intros r Hr. right. unfold closed_events. rewrite reported_app. right. eapply reported_elem.
    + apply list_elem_of_fmap. exists r. split; [done|]. by apply elem_of_iter_set.
    + simpl. by rewrite bool_decide_eq_true_2.
Qed.

(** taking the queue of a peer, possibly with a new connection *)
Definition take_queue (p : PeerId) self : RPC :=
  with_requests (delete p self.(pending_outbound_requests)) self.

Lemma take_queue_tracked p pending self r :
  self.(pending_outbound_requests) !! p = Some pending → tracked self r →
  r ∈ oi_req_id <$> pending ∨ tracked (take_queue p self) r.
Proof.
  intros Hp (p' & [(q & Hl & Hr)|?]); [|right; exists p'; by right].
  destruct (decide (p' = p)) as [->|?]; [simplify_eq; by left|].
  right. exists p'. left. exists q. simpl. by rewrite lookup_delete_ne.
Qed.

Lemma dial_failure_spec p self :
  rpc_wf self → ∃ self' evs, on_dial_failure (E:=E) p self = (Ok (), self') ∧
    effect (λ _, False) self self' evs.
Proof.
  intros Hwf. destruct p as [p|]; [|by eexists self, []; split; [|apply effect_refl]].
  unfold on_dial_failure. erewrite st_bind_step; [|done].
  destruct (self.(pending_outbound_requests) !! p) as [pending|] eqn:Hp;
    [|by eexists self, []; split; [|apply effect_refl]].
  erewrite st_bind_step; [|done].
  assert (He : effect (λ r, r ∈ oi_req_id <$> pending) self (take_queue p self) []).
  { destruct Hwf as (Hn & Hcs & Hq).
    split; [split_and!; [done..|]|split_and!; [by rewrite (right_id_L [] (++))|done|]].
    - intros p' Hp'. simpl. rewrite lookup_delete_None. right. by apply Hq.
    - intros r Hr. destruct (take_queue_tracked p pending self r); auto. }
  destruct (generate_all (λ r, r ∈ oi_req_id <$> pending)
    (λ request, EvOutboundFailure p request.(oi_req_id) OutDialFailure) pending _ (proj1 He))
    as (self' & Hrun & He').
  eexists self', _. split; [done|].
  eapply effect_discharge; [eapply effect_trans; done|]. intros r Hr. right.
  apply list_elem_of_fmap in Hr as (q & -> & Hq'). rewrite reported_app. right.
  eapply reported_elem; [apply list_elem_of_fmap; by exists q|]. simpl. by rewrite bool_decide_eq_true_2.
Qed.

(** the state after a new connection, whose queue is taken if there is one *)
Lemma add_connection_effect p c self :
  rpc_wf self → c ∉ c_id <$> connections_of p self →
  effect (λ r, r ∈ oi_req_id <$> default [] (self.(pending_outbound_requests) !! p))
    self (take_queue p (add_connection p c self)) [] ∧
  is_Some ((take_queue p (add_connection p c self)).(connected) !! p).
Proof.
  intros (Hn & Hcs & Hq) Hc. fold (connections_of p self) in *.
  split; [|simpl; rewrite lookup_insert_eq; by eexists].
  split; [split_and!; simpl; [done| |]|split_and!; [simpl; by rewrite (right_id_L [] (++))|done|]].
  - intros p' cs. rewrite lookup_insert_Some. intros [(<- & <-)|[_ ?]]; [|by eauto].
    split; [by intros [_ ?]%app_nil|]. rewrite fmap_app, NoDup_app. simpl. unfold connections_of in *.
    split_and!; [|set_solver|apply NoDup_singleton].
    destruct (self.(connected) !! p) as [cs|] eqn:Hp; simpl; [by eapply Hcs|constructor].
  - intros p' [cs Hp']. rewrite lookup_delete_None.
    apply lookup_insert_Some in Hp' as [(<- & _)|[_ ?]]; [by left|right]. apply Hq. by eexists.
  - intros r (p' & [(q & Hl & Hr)|(cs & Hl & d & Hd & Hr)]).
    + destruct (decide (p' = p)) as [->|?]; [left; by rewrite Hl|].
      right. left. exists p'. left. exists q. simpl. by rewrite lookup_delete_ne.
    + right. left. exists p'. right. simpl. destruct (decide (p = p')) as [<-|?].
      * rewrite lookup_insert_eq. eexists. split; [done|]. exists d. rewrite Hl. simpl. set_solver.
      * exists cs. rewrite lookup_insert_ne by done. split; [done|by exists d].
Qed.

Lemma established_spec p c other self :
  rpc_wf self → allowed (ISwarm (ConnectionEstablished p c other)) self →
  ∃ self' evs, on_swarm_event (E:=E) (ConnectionEstablished p c other) self = (Ok (), self') ∧
    effect (λ _, False) self self' evs.
Proof.
  intros Hwf [Hc Hother]. destruct (add_connection_effect p c self Hwf Hc) as [He Hcon].
  simpl. erewrite st_bind_step; [|done].
  assert (Hnone : self.(pending_outbound_requests) !! p = None →
    take_queue p (add_connection p c self) = add_connection p c self).
  { intros Hp. unfold take_queue, with_requests. simpl. by rewrite delete_id. }
  assert (Hplain : self.(pending_outbound_requests) !! p = None →
    effect (λ _, False) self (add_connection p c self) []).
  { intros Hp. rewrite <-(Hnone Hp). eapply effect_discharge; [done|]. intros r Hr.
    rewrite Hp in Hr. by apply not_elem_of_nil in Hr. }
  case_bool_decide as H0.
  - erewrite st_bind_step; [|done]. simpl.
    destruct (self.(pending_outbound_requests) !! p) as [pending|] eqn:Hp; [|by eexists _, []; eauto].
    erewrite st_bind_step; [|done].
    destruct (resend_all p pending _ (proj1 He) Hcon) as (self' & evs & Hrun & He' & Hall).
    exists self', evs. split; [done|]. destruct He as (_ & Hev1 & Hn1 & Ht1).
    destruct He' as (Hwf' & Hev2 & Hn2 & Ht2). split_and!; [done|..].
    + by rewrite Hev2, Hev1, (right_id_L [] (++)).
    + congruence.
    + intros r Hr. destruct (Ht1 r Hr) as [Hd|[Hr'|Hn]]; [right; by apply Hall| |].
      * destruct (Ht2 r Hr') as [[]|?]; auto.
      * by destruct Hn.
  - eexists _, []. split; [done|]. apply Hplain. apply Hwf. unfold connections_of in *.
    destruct (self.(connected) !! p); [by eexists|]. simpl in *. lia.
Qed.

(** *** Handler events *)
Lemma set_then_push (D : RequestId → Prop) p k f e self :
  rpc_wf self → (∀ c, (f c).(c_id) = c.(c_id)) →
  (∀ c r, r ∈ c.(pending_inbound_responses) → D r ∨ r ∈ (f c).(pending_inbound_responses)) →
  effect D self (push_event e (set_connection p k f self)) [e].
Proof.
  intros Hwf Hid Hin. apply (effect_trans D _ (set_connection p k f self) _ []).
  - by apply set_connection_effect.
  - apply effect_push. by apply (set_connection_effect D).
Qed.

Lemma handler_spec p k ev self :
  rpc_wf self → asserted (IHandler p k ev) self →
  ∃ self' evs, on_connection_handler_event (E:=E) p k ev self = (Ok (), self') ∧
    effect (confuses (IHandler p k ev)) self self' evs.
Proof.
  intros Hwf Hall.
  destruct ev as [r request sender|r response|r|r|r|r|r err|r err|r|r]; simpl.
  - erewrite st_bind_step; [|done]. erewrite st_bind_step; [|done].
    set (self1 := push_event (GenerateEvent (EvRequest p request r sender)) self).
    assert (He1 : effect (λ _, False) self self1 [GenerateEvent (EvRequest p request r sender)])
      by (by apply effect_push).
    destruct (get_connection p k self1); eexists _, _; (split; [done|]).
    + eapply effect_trans; [apply He1|]. apply set_connection_effect; [apply He1|done|]. by right.
    + eapply effect_trans; [apply He1|]. apply effect_push, He1.
  - eexists _, _. split; [by erewrite st_bind_step|].
    eapply effect_discharge; [apply (set_then_push (λ r', r' = r)); [done..|]|].
    + intros c r' ?. destruct (decide (r' = r)); [by left|right; simpl; set_solver].
    + intros r' ->. right. eapply reported_elem; [by left|]. simpl. by rewrite bool_decide_eq_true_2.
  - eexists _, _. split; [by erewrite st_bind_step|]. apply set_then_push; [done..|]. by right.
  - eexists _, _. split; [by erewrite st_bind_step|]. apply set_then_push; [done..|]. by right.
  - eexists _, _. split; [by erewrite st_bind_step|]. apply set_then_push; [done..|].
    intros c r' ?. destruct (decide (r' = r)); [by left|right; simpl; set_solver].
  - eexists _, _. split; [by erewrite st_bind_step|]. apply set_then_push; [done..|]. by right.
  - eexists _, _. split; [by erewrite st_bind_step|]. apply set_then_push; [done..|].
    intros c r' ?. destruct (decide (r' = r)); [by left|right; simpl; set_solver].
  - eexists _, _. split; [by erewrite st_bind_step|]. apply set_then_push; [done..|]. by right.
  - eexists _, _. split; [done|]. by apply effect_refl.
  - eexists _, _. split.
    + erewrite st_bind_step; [|done]. erewrite st_bind_step; [done|]. unfold debug_assert.
      destruct overflow_checks eqn:Ho; [|done]. destruct (Hall Ho) as (conn & -> & Hr).
      by rewrite bool_decide_eq_true_2.
    + eapply effect_discharge; [apply (set_then_push (λ r', r' = r)); [done..|]|].
      * intros c r' ?. destruct (decide (r' = r)); [by left|right; simpl; set_solver].
      * intros r' ->. right. eapply reported_elem; [by left|]. simpl. by rewrite bool_decide_eq_true_2.
Qed.

(** *** Every call *)
Lemma send_spec p request self :
  rpc_wf self → self.(next_id) < U64_MAX →
  ∃ self' evs, send_request (E:=E) p request self = (Ok self.(next_id), self') ∧
    effect (λ _, False) (with_next_id (self.(next_id) + 1) self) self' evs ∧
    tracked self' self.(next_id).
Proof.
  intros Hwf Hmax. set (r := self.(next_id)). set (self1 := with_next_id (r + 1) self).
  assert (Hwf1 : rpc_wf self1) by (destruct Hwf as (? & ? & ?); split_and!; simpl; [lia|done..]).
  assert (Hid : next_request_id (E:=E) self = (Ok r, self1)).
  { unfold next_request_id. erewrite st_bind_step; [|done]. erewrite st_bind_step.
    2: { unfold st_lift, u64_add. rewrite u64_norm_small; [done|]. destruct Hwf.
         unfold is_u64 in *. lia. }
    by erewrite st_bind_step. }
  set (q := {| oi_req_id := r; oi_request := request |}).
  unfold send_request. rewrite (st_bind_step _ _ _ _ _ Hid).
  destruct (self1.(connected) !! p) as [cs|] eqn:Hp.
  - destruct (try_send_connected p q self1 Hwf1) as (self' & evs & Hrun & He & Htr & _); [by eexists|].
    exists self', evs. fold q. split_and!; [|done..]. rewrite (st_bind_step _ _ _ _ _ Hrun).
    by erewrite st_bind_step.
  - assert (Hrun : try_send_request (E:=E) p q self1 = (Ok (Some q), self1))
      by (unfold try_send_request; by rewrite Hp).
    destruct (queue_request_effect p q (push_event (Dial p) self1)) as [He Htr]; [done..|].
    eexists _, _. fold q. rewrite (st_bind_step _ _ _ _ _ Hrun). split_and!; [| |apply Htr].
    + erewrite st_bind_step; [done|]. by erewrite st_bind_step.
    + eapply effect_trans; [|apply He]. by apply effect_push.
Qed.

Lemma call_asserted i self o self' : call i self = (Ok o, self') → asserted i self.
Proof.
  destruct i as [| |p k ev|]; [done..| |done]. destruct ev as [| | | | | | | | |r]; try done.
  intros Hc Ho. cbn in Hc. apply st_bind_ok in Hc as (u & s1 & Hc & _).
  apply st_bind_ok in Hc as (b & s2 & [= <- <-] & Hc). apply st_bind_ok in Hc as (v & s3 & Ha & _).
  unfold debug_assert in Ha. rewrite Ho in Ha. unfold pends.
  destruct (get_connection p k self) as [c|]; [|done]. exists c. split; [done|].
  by case_bool_decide.
Qed.

Lemma call_spec i self :
  rpc_wf self → allowed i self → asserted i self →
  ∃ o self' evs, call i self = (Ok o, self') ∧ rpc_wf self' ∧
    option_list o ++ self'.(pending_events) = self.(pending_events) ++ evs ∧
    ∀ r, tracked self r ∨ self.(next_id) ≤ r < self'.(next_id) →
         confuses i r ∨ tracked self' r ∨ reported evs r.
Proof.
  intros Hwf Hall Has.
  assert (Hlift : ∀ (m : ST RPC E ()) D, (∃ self' evs, m self = (Ok (), self') ∧ effect D self self' evs) →
    ∃ o self' evs, (do* _ := m in st_ret None) self = (Ok (A:=option ToSwarm) o, self') ∧ rpc_wf self' ∧
      option_list o ++ self'.(pending_events) = self.(pending_events) ++ evs ∧
      ∀ r, tracked self r ∨ self.(next_id) ≤ r < self'.(next_id) →
           D r ∨ tracked self' r ∨ reported evs r).
  { intros m D (self' & evs & Hrun & Hwf' & Hev & Hn & Ht). exists None, self', evs.
    split_and!; [by erewrite st_bind_step|done..|]. intros r [Hr|Hr]; [by apply Ht|lia]. }
  destruct i as [p request|[p c other|p c remaining|p]|p k ev|].
  - destruct (send_spec p request self Hwf Hall) as (self' & evs & Hrun & (Hwf' & Hev & Hn & Ht) & Htr).
    exists None, self', evs. simpl in *. split_and!; [by erewrite st_bind_step|done..|].
    intros r [Hr|Hr]; right; [by destruct (Ht r Hr) as [[]|?]|left].
    assert (r = next_id self) as -> by lia. done.
  - by apply Hlift, established_spec.
  - apply Hlift. destruct (closed_spec p c remaining self Hwf Hall) as (self' & conn & _ & ?). by eexists _, _.
  - by apply Hlift, dial_failure_spec.
  - by apply Hlift, handler_spec.
  - unfold call, poll. destruct (pending_events self) as [|e evs0] eqn:Hev.
    + exists None, self, []. rewrite Hev. split_and!; [done..|]. intros r [?|?]; [by right; left|lia].
    + eexists (Some e), _, []. split_and!; [done| |by simpl; rewrite (right_id_L [] (++))|].
      * by destruct Hwf as (? & ? & ?).
      * simpl. intros r [?|?]; [by right; left|lia].
Qed.

Lemma run_inv tr s :
  rpc_run tr s → rpc_wf s.1 ∧
  ∀ r, 1 ≤ r < s.1.(next_id) → (∀ i, i ∈ tr → ¬ confuses i r) →
       tracked s.1 r ∨ reported (s.2 ++ s.1.(pending_events)) r.
Proof.
  induction 1 as [|tr self log i o self' Hrun [Hwf IH] Hall Hcall]; simpl in *.
  { split; [split_and!; [done|intros p cs Hl; simpl in Hl; by rewrite lookup_empty in Hl|done]|]. simpl. lia. }
  destruct (call_spec i self Hwf Hall (call_asserted _ _ _ _ Hcall)) as (o' & self2 & evs & Hcall' & Hwf' & Hev & Ht).
  rewrite Hcall in Hcall'. simplify_eq. split; [done|]. intros r Hr Hno.
  rewrite <-(assoc_L (++)), Hev, (assoc_L (++)), reported_app.
  assert (Hi : ¬ confuses i r) by (apply Hno; set_solver).
  destruct (decide (r < self.(next_id))) as [Hlt|Hge].
  - destruct (IH r) as [Htr|?]; [lia|set_solver| |by right; left].
    destruct (Ht r (or_introl Htr)) as [?|[?|?]]; tauto.
  - destruct (Ht r) as [?|[?|?]]; [right; lia|tauto..].
Qed.

(** *** Requests handed to connections *)
(** the connections opened so far *)
Definition opened (tr : list Input) : list (PeerId * ConnectionId) :=
  omap (λ i, match i with ISwarm (ConnectionEstablished p c _) => Some (p, c) | _ => None end) tr.
(** what a handler reports of a request that it was given *)
Definition settles (ev : HandlerEvent) (r : RequestId) : Prop :=
  match ev with
  | HResponse r' _ | HOutboundTimeout r' | HOutboundError r' _ | HOutboundUnsuportedProtocol r' => r = r'
  | _ => False
  end.
Definition settled (tr : list Input) (p : PeerId) (k : ConnectionId) (r : RequestId) : Prop :=
  ∃ ev, IHandler p k ev ∈ tr ∧ (settles ev r ∨ confuses (IHandler p k ev) r).

(** a request handed to an open connection is pending there, or was reported *)
Definition handed (tr : list Input) (log : list ToSwarm) self : Prop :=
  (∀ p cs, self.(connected) !! p = Some cs → NoDup (c_id <$> cs)) ∧
  (∀ p k c, get_connection p k self = Some c → (p, k) ∈ opened tr) ∧
  ∀ p k q, NotifyHandler p k q ∈ log ++ self.(pending_events) → (p, k) ∈ opened tr ∧
    ∀ c, get_connection p k self = Some c →
      q.(oi_req_id) ∈ c.(pending_inbound_responses) ∨ settled tr p k q.(oi_req_id).

Lemma get_connection_lookup p k self c : get_connection p k self = Some c →
  ∃ cs i, self.(connected) !! p = Some cs ∧ cs !! i = Some c ∧ c.(c_id) = k.
Proof.
  unfold get_connection. destruct (self.(connected) !! p) as [cs|]; [|done]. simpl.
  destruct (list_find _ cs) as [[i d]|] eqn:Hf; [|done]. intros [= <-].
  apply list_find_Some in Hf as (? & ? & _). by exists cs, i.
Qed.
Lemma lookup_get_connection p self cs i c :
  self.(connected) !! p = Some cs → NoDup (c_id <$> cs) → cs !! i = Some c →
  get_connection p c.(c_id) self = Some c.
Proof.
  intros Hp Hnd Hi. unfold get_connection. rewrite Hp. simpl.
  destruct (list_find_elem_of (λ d, d.(c_id) = c.(c_id)) cs c) as [[j d] Hf];
    [by eapply list_elem_of_lookup_2|done|]. rewrite Hf. simpl. f_equal.
  apply list_find_Some in Hf as (Hj & Hd & _).
  assert (j = i) as ->; [|congruence].
  eapply (NoDup_lookup (c_id <$> cs)); [done|by rewrite list_lookup_fmap, Hj|].
  by rewrite list_lookup_fmap, Hi, Hd.
Qed.

(** every open connection of [self'] is one of [self], with at least its requests *)
Lemma handed_by tr log self self' evs :
  handed tr log self → self'.(pending_events) = self.(pending_events) ++ evs →
  (∀ p cs, self'.(connected) !! p = Some cs → NoDup (c_id <$> cs)) →
  (∀ p k c', get_connection p k self' = Some c' → ∃ c, get_connection p k self = Some c ∧
     ∀ r, r ∈ c.(pending_inbound_responses) → r ∈ c'.(pending_inbound_responses) ∨ settled tr p k r) →
  (∀ p k q, NotifyHandler p k q ∈ evs → ∃ c', get_connection p k self' = Some c' ∧
     q.(oi_req_id) ∈ c'.(pending_inbound_responses)) →
  handed tr log self'.
Proof.
  intros (Hnd & Hop & Hn) He Hnd' Hc He'. split_and!; [done|..].
  - intros p k c' Hg. destruct (Hc _ _ _ Hg) as (c & Hg' & _). by eapply Hop.
  - intros p k q Hq. rewrite He, (assoc_L (++)), elem_of_app in Hq. destruct Hq as [Hq|Hq].
    + destruct (Hn p k q Hq) as [Ho Hp]. split; [done|]. intros c' Hg.
      destruct (Hc _ _ _ Hg) as (c & Hg' & Hr). destruct (Hp c Hg') as [?|?]; [by apply Hr|by right].
    + destruct (He' _ _ _ Hq) as (c' & Hg & Hr). split.
      * destruct (Hc _ _ _ Hg) as (c & Hg' & _). by eapply Hop.
      * intros c'' Hg''. left. congruence.
Qed.

Lemma get_set_connection p k f self c :
  (∀ c, (f c).(c_id) = c.(c_id)) → get_connection p k self = Some c →
  get_connection p k (set_connection p k f self) = Some (f c).
Proof.
  unfold get_connection, set_connection. simpl. intros Hid.
  destruct (self.(connected) !! p) as [cs|] eqn:Hp; [|done]. rewrite lookup_alter_eq, Hp. simpl.
  clear Hp. induction cs as [|d cs IH]; simpl; [done|].
  destruct (decide (d.(c_id) = k)) as [Hd|Hd].
  - rewrite bool_decide_eq_true_2 by done. simpl. rewrite decide_True by by rewrite Hid. naive_solver.
  - rewrite bool_decide_eq_false_2 by done. simpl. rewrite decide_False by done.
    destruct (list_find _ cs) as [[]|], (list_find _ (update_first k f cs)) as [[]|]; naive_solver.
Qed.

Lemma get_set_other p k f self p' k' : (∀ c, (f c).(c_id) = c.(c_id)) →
  get_connection p' k' (set_connection p k f self) =
  if bool_decide (p' = p ∧ k' = k) then f <$> get_connection p k self else get_connection p' k' self.
Proof.
  intros Hid. unfold get_connection, set_connection. cbn [connected with_connected].
  destruct (decide (p' = p)) as [->|Hp].
  2: { rewrite lookup_alter_ne, bool_decide_eq_false_2 by naive_solver. done. }
  rewrite lookup_alter_eq. destruct (self.(connected) !! p) as [cs|]; simpl; [|by case_bool_decide].
  induction cs as [|d cs IH]; simpl; [by case_bool_decide|].
  destruct (decide (d.(c_id) = k)) as [Hd|Hd].
  - rewrite bool_decide_eq_true_2 by done. simpl. destruct (decide (k' = k)) as [->|Hk].
    + rewrite decide_True by by rewrite Hid. rewrite bool_decide_eq_true_2 by done. done.
    + rewrite decide_False by (rewrite Hid; congruence). rewrite bool_decide_eq_false_2 by naive_solver.
      by rewrite decide_False by congruence.
  - rewrite bool_decide_eq_false_2 by done. simpl. destruct (decide (d.(c_id) = k')) as [Hk|Hk].
    + rewrite bool_decide_eq_false_2 by naive_solver. done.
    + destruct (list_find (λ c, c_id c = k') (update_first k f cs)) as [[]|],
        (list_find (λ c, c_id c = k') cs) as [[]|], (list_find (λ c, c_id c = k) cs) as [[]|];
        repeat case_bool_decide; simpl in *; naive_solver.
Qed.

Lemma handed_set tr log p k f self : handed tr log self → (∀ c, (f c).(c_id) = c.(c_id)) →
  (∀ c r, r ∈ c.(pending_inbound_responses) → r ∈ (f c).(pending_inbound_responses) ∨ settled tr p k r) →
  handed tr log (set_connection p k f self).
Proof.
  intros Hh Hid Hf. pose proof Hh as (Hnd & _). eapply (handed_by _ _ _ _ []);
    [exact Hh|simpl; by rewrite (right_id_L [] (++))|..].
  - intros p' cs. cbn [set_connection with_connected connected]. rewrite lookup_alter_Some.
    intros [(<- & cs0 & H0 & ->)|[_ H0]]; [|by eauto]. rewrite update_first_ids by done. by eauto.
  - intros p' k' c'. rewrite get_set_other by done. case_bool_decide as Hpk.
    + destruct Hpk as [-> ->]. destruct (get_connection p k self) as [c|]; [|done].
      intros [= <-]. exists c. split; [done|]. by apply Hf.
    + intros Hg. exists c'. split; [done|]. by left.
  - by intros ??? ?%not_elem_of_nil.
Qed.

Lemma handed_push tr log e self : handed tr log self →
  (∀ p k q, e = NotifyHandler p k q → ∃ c, get_connection p k self = Some c ∧
     q.(oi_req_id) ∈ c.(pending_inbound_responses)) →
  handed tr log (push_event e self).
Proof.
  intros Hh He. eapply (handed_by _ _ _ _ [e]); [exact Hh|done|apply Hh|..].
  - intros p k c Hg. exists c. split; [done|]. by left.
  - intros p k q Hq%list_elem_of_singleton. by apply (He p k q).
Qed.

Lemma handed_same tr log self self' : handed tr log self →
  self'.(connected) = self.(connected) → self'.(pending_events) = self.(pending_events) →
  handed tr log self'.
Proof. unfold handed, get_connection. intros Hh -> ->. exact Hh. Qed.

Lemma handed_generate tr log e : preserves (E:=E) (handed tr log) (generate e).
Proof. intros self Hh. by apply handed_push. Qed.

Lemma update_first_insert cs (i : nat) c f : NoDup (c_id <$> cs) → cs !! i = Some c →
  update_first c.(c_id) f cs = <[i := f c]> cs.
Proof.
  revert i. induction cs as [|d cs IH]; intros i; [done|]. cbn [update_first].
  rewrite fmap_cons, NoDup_cons. intros [Hd Hnd] Hi. destruct i as [|i]; simpl in *.
  - simplify_eq. by rewrite bool_decide_eq_true_2.
  - rewrite bool_decide_eq_false_2; [by rewrite (IH i)|]. intros He. apply Hd. rewrite He.
    apply list_elem_of_fmap. exists c. split; [done|]. by eapply list_elem_of_lookup_2.
Qed.

Lemma handed_try_send tr log p request : preserves (E:=E) (handed tr log) (try_send_request p request).
Proof.
  intros self Hh. unfold try_send_request. destruct (self.(connected) !! p) as [cs|] eqn:Hp; [|done].
  destruct (is_nil cs); [done|]. set (i := Z.to_nat _).
  destruct (cs !! i) as [conn|] eqn:Hi; [|done]. cbn [snd].
  pose proof (proj1 Hh p cs Hp) as Hnd. set (r := request.(oi_req_id)).
  assert (with_connected (<[p := <[i := insert_inbound r conn]> cs]> self.(connected)) self =
    set_connection p conn.(c_id) (insert_inbound r) self) as ->.
  { unfold set_connection. f_equal. apply map_eq. intros p'. destruct (decide (p = p')) as [<-|?].
    - by rewrite lookup_insert_eq, lookup_alter_eq, Hp; simpl; rewrite (update_first_insert _ i).
    - by rewrite lookup_insert_ne, lookup_alter_ne. }
  apply handed_push.
  - apply handed_set; [done..|]. intros c r' ?. left. simpl. set_solver.
  - intros p' k q [= <- <- <-]. exists (insert_inbound r conn). split; [|simpl; set_solver].
    rewrite get_set_other, bool_decide_eq_true_2 by done. by rewrite (lookup_get_connection p self cs i conn).
Qed.

Lemma handed_resend tr log p request : preserves (E:=E) (handed tr log) (resend p request).
Proof.
  apply preserves_bind; [apply handed_try_send|]. intros [?|]; [apply preserves_lift|apply preserves_ret].
Qed.

Lemma handed_mod tr log (f : RPC → RPC) :
  (∀ self, (f self).(connected) = self.(connected) ∧ (f self).(pending_events) = self.(pending_events)) →
  preserves (E:=E) (handed tr log) (st_mod f).
Proof. intros Hf self Hh. destruct (Hf self). by eapply handed_same. Qed.

Lemma handed_send tr log p request : preserves (E:=E) (handed tr log) (send_request p request).
Proof.
  apply preserves_bind; [|intros r].
  { apply preserves_bind; [apply preserves_get|intros r]. apply preserves_bind; [apply preserves_lift|intros n].
    apply preserves_bind; [by apply handed_mod|intros _; apply preserves_ret]. }
  apply preserves_bind; [apply handed_try_send|intros back].
  apply preserves_bind; [|intros _; apply preserves_ret].
  destruct back; [|apply preserves_ret]. apply preserves_bind; [|intros _; by apply handed_mod].
  intros self Hh. by apply handed_push.
Qed.

Lemma handed_dial_failure tr log p : preserves (E:=E) (handed tr log) (on_dial_failure p).
Proof.
  destruct p as [p|]; [|apply preserves_ret]. apply preserves_bind; [apply preserves_get|intros [q|]];
    [|apply preserves_ret].
  apply preserves_bind; [by apply handed_mod|intros _]. apply preserves_for. intros. apply handed_generate.
Qed.

Lemma handed_closed tr log p k remaining :
  preserves (E:=E) (handed tr log) (on_connection_closed p k remaining).
Proof.
  intros self Hh. unfold on_connection_closed. unfold st_bind at 1, st_get.
  destruct (self.(connected) !! p) as [cs|] eqn:Hp; [|done]. cbn [expect]. unfold st_bind at 1, st_lift.
  destruct (list_find (λ c, c_id c = k) cs) as [[pos conn]|] eqn:Hf; [|done]. cbn [expect].
  assert (handed tr log (with_connected (<[p := delete pos cs]> self.(connected)) self)) as Hh1.
  { pose proof (proj1 Hh p cs Hp) as Hnd. eapply (handed_by _ _ _ _ []);
      [exact Hh|simpl; by rewrite (right_id_L [] (++))|..].
    - intros p' cs'. simpl. rewrite lookup_insert_Some. intros [(<- & <-)|[_ ?]]; [|by eapply Hh].
      eapply sublist_NoDup; [apply Hnd|]. apply fmap_sublist, sublist_delete.
    - intros p' k' c' Hg. exists c'. split; [|by left].
      apply get_connection_lookup in Hg as (cs' & i & Hp' & Hi & <-). simpl in Hp'.
      apply lookup_insert_Some in Hp' as [(<- & <-)|[? Hp']].
      + apply list_elem_of_lookup_2 in Hi. eapply elem_of_sublist in Hi; [|apply sublist_delete].
        apply list_elem_of_lookup in Hi as [j Hj]. by eapply lookup_get_connection.
      + eapply lookup_get_connection; [done|by eapply Hh|done].
    - by intros ??? ?%not_elem_of_nil. }
  cbv beta iota zeta. unfold st_bind at 1, st_mod at 1.
  refine (preserves_bind (handed tr log) _ _ _ _ _ Hh1).
  { unfold debug_assert. destruct (_ && _); [apply preserves_lift|apply preserves_ret]. }
  intros _. apply preserves_bind.
  { destruct (is_nil _); [|apply preserves_ret]. intros self2 Hh2.
    eapply (handed_by _ _ _ _ []); [exact Hh2|simpl; by rewrite (right_id_L [] (++))|..].
    - intros p' cs'. simpl. rewrite lookup_delete_Some. intros [_ ?]. by eapply Hh2.
    - intros p' k' c' Hg. exists c'. split; [|by left]. unfold get_connection in *. simpl in Hg.
      destruct (decide (p = p')) as [<-|?]; [by rewrite lookup_delete_eq in Hg|].
      by rewrite lookup_delete_ne in Hg.
    - by intros ??? ?%not_elem_of_nil. }
  intros _. apply preserves_bind; [|intros _]; apply preserves_for; intros; apply handed_generate.
Qed.

Lemma handed_handler tr log p k ev : IHandler p k ev ∈ tr →
  preserves (E:=E) (handed tr log) (on_connection_handler_event p k ev).
Proof.
  intros Htr.
  assert (∀ r, preserves (E:=E) (handed tr log) (remove_pending_outbound_response p k r)) as Hout.
  { intros r self Hh. apply handed_set; [done..|]. by left. }
  assert (∀ r, settles ev r ∨ confuses (IHandler p k ev) r →
    preserves (E:=E) (handed tr log) (remove_pending_inbound_response p k r)) as Hin.
  { intros r Hs self Hh. apply handed_set; [done..|]. intros c r' ?.
    destruct (decide (r' = r)) as [->|]; [right; by exists ev|left; simpl; set_solver]. }
  destruct ev; cbn [on_connection_handler_event];
    try (apply preserves_bind; [first [apply Hout|apply Hin; first [by left|by right]]|intros; apply handed_generate]).
  - apply preserves_bind; [apply handed_generate|intros _].
    apply preserves_bind; [apply preserves_get|intros [c|]]; [|apply handed_generate].
    intros self Hh. apply handed_set; [done..|]. by left.
  - apply preserves_ret.
  - apply preserves_bind; [apply Hin; by left|intros b].
    apply preserves_bind; [|intros _; apply handed_generate].
    unfold debug_assert. destruct (_ && _); [apply preserves_lift|apply preserves_ret].
Qed.

Lemma handed_established tr log p c other self :
  handed tr log self → (p, c) ∉ opened tr → c ∉ c_id <$> connections_of p self →
  handed (tr ++ [ISwarm (ConnectionEstablished p c other)]) log
    (on_swarm_event (E:=E) (ConnectionEstablished p c other) self).2.
Proof.
  intros (Hnd & Hop & Hn) Hnew Hc. set (tr' := tr ++ _).
  assert (∀ x, x ∈ opened tr → x ∈ opened tr') as Hm
    by (intros x; unfold tr', opened; rewrite omap_app, elem_of_app; by left).
  assert (∀ p' k' d, get_connection p' k' (add_connection p c self) = Some d →
    get_connection p' k' self = Some d ∨ p' = p ∧ k' = c) as Hget.
  { intros p' k' d Hg. apply get_connection_lookup in Hg as (cs & i & Hp & Hi & <-). simpl in Hp.
    apply lookup_insert_Some in Hp as [(<- & <-)|[? Hp]];
      [|left; eapply lookup_get_connection; [done|by eapply Hnd|done]].
    apply lookup_app_Some in Hi as [Hi|[_ Hi]].
    - left. destruct (self.(connected) !! p) as [cs|] eqn:Hp; [|done].
      eapply lookup_get_connection; [done|by eapply Hnd|done].
    - right. apply list_lookup_singleton_Some in Hi as [_ <-]. done. }
  assert (handed tr' log (add_connection p c self)) as Hh.
  { split_and!.
    - intros p' cs. simpl. rewrite lookup_insert_Some. intros [(<- & <-)|[_ ?]]; [|by eapply Hnd].
      fold (connections_of p self). rewrite fmap_app, NoDup_app. simpl.
      split_and!; [|set_solver|apply NoDup_singleton].
      unfold connections_of. destruct (self.(connected) !! p) as [cs|] eqn:Hp; simpl; [by eapply Hnd|constructor].
    - intros p' k' d [Hg|[-> ->]]%Hget; [by eapply Hm, Hop|].
      unfold tr', opened. rewrite omap_app, elem_of_app. right. apply list_elem_of_here.
    - intros p' k' q Hq. destruct (Hn p' k' q Hq) as [Ho Hr]. split; [by apply Hm|].
      intros d [Hg|[-> ->]]%Hget; [|done]. destruct (Hr d Hg) as [?|(ev & ? & ?)]; [by left|].
      right. exists ev. split; [apply elem_of_app; by left|done]. }
  cbn [on_swarm_event]. unfold st_bind at 1, st_mod at 1.
  case_bool_decide; [|exact Hh]. unfold st_bind at 1, st_get.
  destruct (pending_outbound_requests _ !! p) as [pending|]; [|exact Hh].
  refine (preserves_bind (handed tr' log) _ _ _ _ _ Hh); [by apply handed_mod|].
  intros _. apply preserves_for. intros. apply handed_resend.
Qed.

Lemma handed_mono tr i log self : handed tr log self → handed (tr ++ [i]) log self.
Proof.
  intros (Hnd & Hop & Hn). assert (∀ x, x ∈ opened tr → x ∈ opened (tr ++ [i])) as Hm
    by (intros x; unfold opened; rewrite omap_app, elem_of_app; by left).
  split_and!; [done|intros p k c ?; by eapply Hm, Hop|]. intros p k q Hq.
  destruct (Hn p k q Hq) as [? Hr]. split; [by apply Hm|]. intros c Hc.
  destruct (Hr c Hc) as [?|(ev & ? & ?)]; [by left|]. right. exists ev.
  split; [apply elem_of_app; by left|done].
Qed.

Lemma run_handed tr s : rpc_run tr s → NoDup (opened tr) → handed tr s.2 s.1.
Proof.
  induction 1 as [|tr self log i o self' Hrun IH Hall Hcall]; intros Hnd; cbn [fst snd] in *.
  { split_and!; intros p; simpl; [by intros ? ?|..].
    - by intros k c; unfold get_connection; simpl; rewrite lookup_empty.
    - by intros k q ?%not_elem_of_nil. }
  assert (NoDup (opened tr)) as Hnd0 by (unfold opened in *; rewrite omap_app in Hnd; by apply NoDup_app in Hnd as [? _]).
  specialize (IH Hnd0). assert (handed (tr ++ [i]) log self) as Hh by (by apply handed_mono).
  assert (∀ m : ST RPC E (), handed (tr ++ [i]) log (m self).2 →
    (do* _ := m in st_ret None) self = (Ok o, self') → o = None ∧ handed (tr ++ [i]) log self') as Hlift.
  { intros m Hm Hc. apply st_bind_ok in Hc as (u & s1 & Hc & [= <- <-]). by rewrite Hc in Hm. }
  destruct i as [p request|ev|p k ev|].
  - cbn [call] in Hcall. apply st_bind_ok in Hcall as (r & s1 & Hc & [= <- <-]).
    simpl option_list. rewrite (right_id_L [] (++)).
    pose proof (handed_send (tr ++ [ISend p request]) log p request self Hh) as H'.
    by rewrite Hc in H'.
  - destruct (Hlift (on_swarm_event ev)) as [-> Hh']; [|done|by simpl option_list; rewrite (right_id_L [] (++))].
    destruct ev as [p c other|p c remaining|p].
    + apply handed_established; [done| |apply Hall]. unfold opened in Hnd. rewrite omap_app in Hnd.
      apply NoDup_app in Hnd as (_ & Hd & _). intros Hin. by apply (Hd _ Hin), list_elem_of_here.
    + by apply handed_closed.
    + by apply handed_dial_failure.
  - destruct (Hlift (on_connection_handler_event p k ev)) as [-> Hh']; [|done|by simpl option_list; rewrite (right_id_L [] (++))].
    apply handed_handler; [apply elem_of_app; right; apply list_elem_of_here|done].
  - cbn [call] in Hcall. unfold poll in Hcall. destruct (pending_events self) as [|e evs] eqn:He.
    + injection Hcall as <- <-. simpl option_list. by rewrite (right_id_L [] (++)).
    + injection Hcall as <- <-. destruct Hh as (? & ? & Hn). split_and!; [done..|].
      cbn [pending_events]. simpl option_list. rewrite <-(assoc_L (++)). by rewrite He in Hn.
Qed.

(** what libp2p promises of a rejected protocol: identifiers of connections are not
    used again, the connection is open, its handler was given the request and has
    not reported on it *)
Definition promised (tr : list Input) (log : list ToSwarm) (i : Input) self : Prop :=
  match i with
  | IHandler p k (HOutboundUnsuportedProtocol r) =>
      NoDup (opened tr) ∧ k ∈ c_id <$> connections_of p self ∧
      (∃ q, NotifyHandler p k q ∈ log ∧ q.(oi_req_id) = r) ∧
      ∀ ev, IHandler p k ev ∈ tr → ¬ settles ev r
  | _ => True
  end.

Lemma open_connection p k self : k ∈ c_id <$> connections_of p self → is_Some (get_connection p k self).
Proof.
  unfold connections_of, get_connection. intros (c & -> & Hc)%list_elem_of_fmap.
  destruct (self.(connected) !! p) as [cs|]; simpl in *; [|by apply not_elem_of_nil in Hc].
  destruct (list_find_elem_of (λ d, d.(c_id) = c.(c_id)) cs c) as [[j d] ->]; [done..|]. by eexists.
Qed.

(** C24. The protocol state never panics.  After any calls that libp2p's promises
    allow, the next call returns (the [expect]s, the indexing and the assertions
    hold): connections come with new identifiers and close when open; and a
    handler reports an unsupported protocol while its connection is open, of a
    request that was handed to it and that it has not reported on before.  The one
    exception, stated as the last hypothesis, is that an inbound request of the
    same number timed out or failed on the connection: the code then removes the
    outbound one. *)
Theorem rpc_never_panics tr self log i :
  rpc_run tr (self, log) → allowed i self → promised tr log i self →
  (∀ p k r, i = IHandler p k (HOutboundUnsuportedProtocol r) →
     ∀ ev, IHandler p k ev ∈ tr → ¬ confuses (IHandler p k ev) r) →
  rpc_wf self ∧ ∃ o self', call i self = (Ok o, self').
Proof.
  intros Hrun Hall Hpr Hno. pose proof (run_inv _ _ Hrun) as [Hwf _]. split; [exact Hwf|].
  destruct (call_spec i self Hwf Hall) as (o & self' & _ & ? & _); [|by eauto].
  destruct i as [| |p k [| | | | | | | | |r]|]; try done. intros _.
  destruct Hpr as (Hnd & Hk & (q & Hq & <-) & Hset).
  destruct (open_connection p k self Hk) as [c Hc]. exists c. split; [done|].
  destruct (run_handed _ _ Hrun Hnd) as (_ & _ & Hn). cbn [fst snd] in Hn.
  destruct (Hn p k q) as [_ Hr]; [apply elem_of_app; by left|].
  destruct (Hr c Hc) as [?|(ev & Hev & [?|?])]; [done|by destruct (Hset ev)|].
  by destruct (Hno _ _ _ eq_refl ev).
Qed.

(** The exception is real: once an inbound request of the same number has timed
    out, a rejected protocol of a pending request stops a build with checks. *)
Theorem confused_tables_panic p k c r self :
  overflow_checks = true → get_connection p k self = Some c → r ∈ c.(pending_inbound_responses) →
  (on_connection_handler_event (E:=E) p k (HOutboundUnsuportedProtocol r) self).1 = Ok () ∧
  (on_connection_handler_event (E:=E) p k (HOutboundUnsuportedProtocol r)
    (on_connection_handler_event (E:=E) p k (HInboundTimeout r) self).2).1 = Panic.
Proof.
  intros Ho Hc Hr. split.
  - cbn [on_connection_handler_event]. erewrite st_bind_step; [|done]. rewrite Hc, bool_decide_eq_true_2 by done.
    by erewrite st_bind_step by (unfold debug_assert; by rewrite andb_false_r).
  - set (s1 := (on_connection_handler_event p k (HInboundTimeout r) self).2).
    assert (get_connection p k s1 = Some (remove_inbound r c)) as Hs
      by (apply (get_set_connection p k (remove_inbound r) self c); done).
    cbn [on_connection_handler_event]. unfold st_bind, remove_pending_inbound_response, debug_assert.
    rewrite Hs, bool_decide_eq_false_2 by (simpl; set_solver). by rewrite Ho.
Qed.

(** C25. No request is lost: every request sent so far waits for a connection or for
    an answer, or its answer or failure was reported, provided that no inbound
    request of the same number timed out or failed. *)
Theorem rpc_requests_accounted tr self log r :
  rpc_run tr (self, log) → 1 ≤ r < self.(next_id) → (∀ i, i ∈ tr → ¬ confuses i r) →
  tracked self r ∨ reported (log ++ self.(pending_events)) r.
Proof. intros [_ Hacc]%run_inv. apply Hacc. Qed.

(** *** The tables are confused by timeouts *)
Lemma outcomes_app r l1 l2 : outcomes r (l1 ++ l2) = outcomes r l1 ++ outcomes r l2.
Proof. apply filter_app. Qed.

Lemma outcomes_one r e : outcomes r [e] = if outcome_of r e then [e] else [].
Proof. unfold outcomes. rewrite filter_cons. case_decide as He; by destruct (outcome_of r e). Qed.

Lemma outcomes_closed p conn r :
  length (outcomes r (closed_events p conn)) =
  if bool_decide (r ∈ conn.(pending_inbound_responses)) then 1%nat else 0%nat.
Proof.
  unfold closed_events. rewrite outcomes_app, length_app.
  assert (Hin : ∀ l, outcomes r (GenerateEvent ∘ (λ r, EvInboundFailure p r InConnectionClosed) <$> l) = []).
  { induction l; [done|]. by cbn. }
  assert (Hout : ∀ l, NoDup l → length (outcomes r
    (GenerateEvent ∘ (λ r, EvOutboundFailure p r OutConnectionClosed) <$> l)) =
    if bool_decide (r ∈ l) then 1%nat else 0%nat).
  { induction 1 as [|x l Hx _ IH]; [done|]. unfold outcomes in *. rewrite fmap_cons, filter_cons. simpl.
    destruct (decide (r = x)) as [->|Hne].
    - rewrite decide_True, bool_decide_eq_true_2 by (rewrite ?bool_decide_eq_true; set_solver).
      cbn [length]. rewrite IH. by rewrite bool_decide_eq_false_2.
    - rewrite decide_False by (rewrite bool_decide_eq_true; done). rewrite IH.
      by rewrite (bool_decide_ext (r ∈ x :: l) (r ∈ l)) by set_solver. }
  rewrite Hin, Hout by apply NoDup_iter_set. simpl.
  by rewrite (bool_decide_ext _ _ (elem_of_iter_set _ _)).
Qed.

Lemma connections_set p k f self :
  (∀ c, (f c).(c_id) = c.(c_id)) →
  c_id <$> connections_of p (set_connection p k f self) = c_id <$> connections_of p self.
Proof.
  intros Hid. unfold connections_of, set_connection. simpl. rewrite lookup_alter_eq.
  destruct (self.(connected) !! p); simpl; [by apply update_first_ids|done].
Qed.

(** closing after a change of the connection and one more event *)
Lemma close_after (D : RequestId → Prop) p k f e self c remaining r :
  rpc_wf self → get_connection p k self = Some c → (∀ c, (f c).(c_id) = c.(c_id)) →
  (∀ c r, r ∈ c.(pending_inbound_responses) → D r ∨ r ∈ (f c).(pending_inbound_responses)) →
  S remaining = length (connections_of p self) →
  length (outcomes r (on_swarm_event (E:=E) (ConnectionClosed p k remaining)
    (push_event e (set_connection p k f self))).2.(pending_events)) =
  (length (outcomes r (self.(pending_events) ++ [e])) +
   if bool_decide (r ∈ (f c).(pending_inbound_responses)) then 1 else 0)%nat.
Proof.
  intros Hwf Hget Hid Hin Hrem. set (self1 := push_event e (set_connection p k f self)).
  assert (He : effect D self self1 [e]) by (by apply set_then_push).
  assert (Hids : c_id <$> connections_of p self1 = c_id <$> connections_of p self)
    by (by apply (connections_set p k f)).
  assert (Hget1 : get_connection p k self1 = Some (f c)) by (by apply get_set_connection).
  destruct (closed_spec p k remaining self1 (proj1 He)) as (self' & conn & Hc & Hrun & He').
  { split; [|by rewrite Hrem, <-(length_fmap c_id), <-Hids, length_fmap].
    rewrite Hids. unfold get_connection in Hget. unfold connections_of.
    destruct (self.(connected) !! p) as [cs|]; [simpl in *|done].
    destruct (list_find _ cs) as [[i c']|] eqn:Hf; simplify_eq/=.
    apply list_find_Some in Hf as (Hl & <- & _). apply list_elem_of_fmap. exists c. split; [done|].
    by eapply list_elem_of_lookup_2. }
  rewrite Hget1 in Hc. simplify_eq. simpl. rewrite Hrun. simpl.
  rewrite (proj1 (proj2 He')). unfold self1. simpl.
  by rewrite (outcomes_app r (_ ++ [e])), length_app, outcomes_closed.
Qed.

(** The two tables of pending requests are confused: when an outbound request
    times out and its connection closes afterwards, its failure is reported
    twice; when instead an inbound request of the same number times out first,
    the failure of the outbound request is not reported at all. *)
Theorem rpc_timeouts_misattributed tr self log p k c r remaining :
  rpc_run tr (self, log) → get_connection p k self = Some c → r ∈ c.(pending_inbound_responses) →
  S remaining = length (connections_of p self) →
  let after ev := (on_swarm_event (E:=E) (ConnectionClosed p k remaining)
                     (on_connection_handler_event (E:=E) p k ev self).2).2 in
  (length (outcomes r (after (HOutboundTimeout r)).(pending_events)) =
     length (outcomes r self.(pending_events)) + 2 ∧
   length (outcomes r (after (HInboundTimeout r)).(pending_events)) =
     length (outcomes r self.(pending_events)))%nat.
Proof.
  intros [Hwf _]%run_inv Hget Hr Hrem. simpl in Hwf. cbv zeta. split.
  - change (on_connection_handler_event p k (HOutboundTimeout r) self).2 with
      (push_event (GenerateEvent (EvOutboundFailure p r OutTimeout))
         (set_connection p k (remove_outbound r) self)).
    rewrite (close_after (λ _, False) _ _ _ _ _ c); try done; [|by right].
    simpl. rewrite (bool_decide_eq_true_2 _ Hr), outcomes_app, length_app, outcomes_one. simpl.
    rewrite (bool_decide_eq_true_2 (r = r)) by done. simpl. lia.
  - change (on_connection_handler_event p k (HInboundTimeout r) self).2 with
      (push_event (GenerateEvent (EvInboundFailure p r InTimeout))
         (set_connection p k (remove_inbound r) self)).
    rewrite (close_after (λ r', r' = r) _ _ _ _ _ c); try done.
    + rewrite bool_decide_eq_false_2 by (simpl; set_solver). rewrite outcomes_app, length_app, outcomes_one. simpl. lia.
    + intros d r' ?. destruct (decide (r' = r)); [by left|right; simpl; set_solver].
Qed.
End calls.

(** codes of goodbye messages survive decoding and encoding *)
Lemma goodbye_roundtrip v : u64_of_goodbye (goodbye_of_u64 v) = v.
Proof. unfold goodbye_of_u64. by repeat case_bool_decide; subst. Qed.

(** ** A peer with one connection and one request *)
Module Example.
#[local] Existing Instance canonical_order.
#[local] Instance checked : Profile := true.

Definition calls : list Input :=
  [ISwarm (ConnectionEstablished 7 1 0); ISend 7 (ReqPing {| ping_data := 0 |})].
Definition state0 : RPC := (call (E:=Empty_set) (ISwarm (ConnectionEstablished 7 1 0)) RPC_new).2.
Definition state1 : RPC :=
  (call (E:=Empty_set) (ISend 7 (ReqPing {| ping_data := 0 |})) state0).2.

Lemma calls_run : rpc_run (E:=Empty_set) calls (state1, []).
Proof.
  apply (run_call [ISwarm (ConnectionEstablished 7 1 0)] state0 [] _ None state1).
  - apply (run_call [] RPC_new [] _ None state0); [constructor| |done].
    split; [apply not_elem_of_nil|done].
  - done.
  - done.
Qed.

(** the request goes to the connection, whose peer does not know the protocol *)
Definition asked : ToSwarm :=
  NotifyHandler 7 1 {| oi_req_id := 1; oi_request := ReqPing {| ping_data := 0 |} |}.
Definition state2 : RPC := (call (E:=Empty_set) IPoll state1).2.
Lemma polled_run : rpc_run (E:=Empty_set) (calls ++ [IPoll]) (state2, [asked]).
Proof. by apply (run_call calls state1 [] IPoll (Some asked) state2 calls_run). Qed.

Lemma rpc_never_panics_witness : ∃ o self',
  call (E:=Empty_set) (IHandler 7 1 (HOutboundUnsuportedProtocol 1)) state2 = (Ok o, self').
Proof.
  refine (proj2 (rpc_never_panics (calls ++ [IPoll]) state2 [asked]
    (IHandler 7 1 (HOutboundUnsuportedProtocol 1)) polled_run I _ _)).
  - split; [apply NoDup_singleton|]. split; [apply list_elem_of_here|].
    split; [eexists; split; [apply list_elem_of_here|done]|].
    intros ev Hev. exfalso. cbn in Hev. rewrite !elem_of_cons in Hev.
    destruct Hev as [?|[?|[?|Hev]]]; [done..|]. by apply not_elem_of_nil in Hev.
  - intros p k r _ ev Hev. exfalso. cbn in Hev. rewrite !elem_of_cons in Hev.
    destruct Hev as [?|[?|[?|Hev]]]; [done..|]. by apply not_elem_of_nil in Hev.
Defined.

(** an inbound ping of the same number times out first *)
Lemma confused_tables_panic_witness :
  (on_connection_handler_event (E:=Empty_set) 7 1 (HOutboundUnsuportedProtocol 1)
    (on_connection_handler_event (E:=Empty_set) 7 1 (HInboundTimeout 1) state2).2).1 = Panic.
Proof.
  assert (∃ c, get_connection 7 1 state2 = Some c ∧ 1 ∈ c.(pending_inbound_responses)) as (c & Hc & Hr).
  { eexists. split; [vm_compute; reflexivity|]. apply elem_of_elements. vm_compute. left. }
  exact (proj2 (confused_tables_panic 7 1 c 1 state2 eq_refl Hc Hr)).
Defined.

Lemma rpc_requests_accounted_witness :
  tracked state1 1 ∨ reported ([] ++ state1.(pending_events)) 1.
Proof.
  apply (rpc_requests_accounted calls state1 [] 1 calls_run); [done|].
  intros i Hi. unfold calls in Hi. rewrite !elem_of_cons in Hi. destruct Hi as [->|[->|Hi]]; [by intros []..|].
  by apply not_elem_of_nil in Hi.
Defined.

Lemma rpc_timeouts_misattributed_witness :
  length (outcomes 1 (on_swarm_event (E:=Empty_set) (ConnectionClosed 7 1 0)
    (on_connection_handler_event (E:=Empty_set) 7 1 (HOutboundTimeout 1) state1).2).2.(pending_events)) = 2%nat.
Proof.
  assert (H : ∃ c, get_connection 7 1 state1 = Some c ∧ 1 ∈ c.(pending_inbound_responses)).
  { eexists. split; [vm_compute; reflexivity|]. apply elem_of_elements. vm_compute. left. }
  destruct H as (c & Hc & Hr).
  exact (proj1 (rpc_timeouts_misattributed calls state1 [] 7 1 c 1 0 calls_run Hc Hr eq_refl)).
Defined.
End Example.
