(* ===== verification/SszMessages.v ===== *)
(** The SSZ form of the messages of the request-response protocol and of gossip
    ([crates/p2p/src/rpc/methods.rs], [crates/primitives/src/p2p.rs]).

    Most messages derive their encoding from [ssz_rs]: a structure is the container
    of its fields, a [List] the container of its elements.  [SszTypes] is what the
    library offers to read them back; user operations are read by the hand-written
    decoder of [Ssz]. *)

From S2P Require Import Prelude Primitives Ssz Rpc.

Definition MAX_OPS_PER_REQUEST : nat := 4096.
Definition MAX_SUPPORTED_MEMPOOLS : nat := 1024.
Definition MAX_IPFS_CID_LENGTH : nat := 256.

(** ** The library *)
Class SszTypes := {
  encode_u64 : Z → bytes;
  decode_u64 : bytes → SszError + Z;
  encode_u256 : U256 → bytes;
  decode_u256 : bytes → SszError + U256;
  (** the encodings of the fields of a structure, given the size of each field
      ([None] for a field of variable size) *)
  split_container : list (option nat) → bytes → SszError + list bytes;
  (** the encodings of the elements of a [List] with a bound on their number *)
  split_list : nat → option nat → bytes → SszError + list bytes;
}.

Definition part_bytes (p : SszPart) : bytes := match p with SFixed b | SVariable b => b end.
Definition part_shape (p : SszPart) : option nat :=
  match p with SFixed b => Some (length b) | SVariable _ => None end.
Definition has_size (n : option nat) (b : bytes) : Prop :=
  match n with Some n => length b = n | None => True end.
Definition encodable (ps : list SszPart) : Prop := Z.of_nat (length (ssz_container ps)) < 2 ^ 32.

Class SszTypesOk (L : SszTypes) := {
  encode_u64_ok : ∀ x, encode_u64 x = le_split 8 x;
  decode_u64_ok : ∀ b, length b = 8%nat → decode_u64 b = inr (le_combine b);
  encode_u256_ok : ∀ x, encode_u256 x = le_split 32 x;
  decode_u256_ok : ∀ b, length b = 32%nat → decode_u256 b = inr (le_combine b);
  split_container_ok : ∀ ps, encodable ps →
    split_container (part_shape <$> ps) (ssz_container ps) = inr (part_bytes <$> ps);
  split_container_shape : ∀ shape b l, split_container shape b = inr l → Forall2 has_size shape l;
  split_list_fixed : ∀ bound n els, (0 < n)%nat → (length els ≤ bound)%nat →
    Forall (λ b, length b = n) els → encodable (SFixed <$> els) →
    split_list bound (Some n) (ssz_container (SFixed <$> els)) = inr els;
  split_list_variable : ∀ bound els, (length els ≤ bound)%nat → encodable (SVariable <$> els) →
    split_list bound None (ssz_container (SVariable <$> els)) = inr els;
  split_list_shape : ∀ bound n b l, split_list bound n b = inr l →
    (length l ≤ bound)%nat ∧ Forall (has_size n) l;
}.

Section messages.
Context {L : SszLib} {T : SszTypes}.

Definition container (ps : list SszPart) : comp SszError bytes := ok_or SszOther (serialize_container ps).

(** ** [methods.rs] *)
Definition status_serialize (m : StatusMessage) : comp SszError bytes :=
  container [SFixed (encode_u64 m.(sm_chain_id)); SFixed m.(sm_block_hash);
             SFixed (encode_u64 m.(sm_block_number))].
Definition status_deserialize (b : bytes) : comp SszError StatusMessage :=
  let* fields := of_sum (split_container [Some 8; Some 32; Some 8]%nat b) in
  match fields with
  | [c; h; n] =>
      let* c := of_sum (decode_u64 c) in
      let* n := of_sum (decode_u64 n) in
      Ok {| sm_chain_id := c; sm_block_hash := h; sm_block_number := n |}
  | _ => Err SszOther
  end.

(** [GoodbyeReason]: one [u64], without a container *)
Definition goodbye_serialize (r : GoodbyeReason) : comp SszError bytes := Ok (encode_u64 (u64_of_goodbye r)).
Definition goodbye_deserialize (b : bytes) : comp SszError GoodbyeReason :=
  let* v := of_sum (decode_u64 b) in Ok (goodbye_of_u64 v).

Definition ping_serialize (p : Ping) : comp SszError bytes := container [SFixed (encode_u64 p.(ping_data))].
Definition ping_deserialize (b : bytes) : comp SszError Ping :=
  let* fields := of_sum (split_container [Some 8]%nat b) in
  match fields with
  | [d] => let* d := of_sum (decode_u64 d) in Ok {| ping_data := d |}
  | _ => Err SszOther
  end.

Definition metadata_serialize (m : MetaData) : comp SszError bytes :=
  let* l := container (SFixed <$> m.(supported_mempools)) in
  container [SFixed (encode_u64 m.(seq_number)); SVariable l].
Definition metadata_deserialize (b : bytes) : comp SszError MetaData :=
  let* fields := of_sum (split_container [Some 8%nat; None] b) in
  match fields with
  | [s; l] =>
      let* s := of_sum (decode_u64 s) in
      let* l := of_sum (split_list MAX_SUPPORTED_MEMPOOLS (Some MAX_IPFS_CID_LENGTH) l) in
      Ok {| seq_number := s; supported_mempools := l |}
  | _ => Err SszOther
  end.

(** [MetaDataRequest]: nothing is written, and anything is accepted *)
Definition metadata_request_serialize : comp SszError bytes := Ok [].
Definition metadata_request_deserialize (b : bytes) : comp SszError () := Ok ().

Definition hashes_request_serialize (cursor : bytes) : comp SszError bytes := container [SFixed cursor].
Definition hashes_request_deserialize (b : bytes) : comp SszError bytes :=
  let* fields := of_sum (split_container [Some 32]%nat b) in
  match fields with [c] => Ok c | _ => Err SszOther end.

Definition by_hash_request_serialize (hashes : list bytes) : comp SszError bytes :=
  let* l := container (SFixed <$> hashes) in container [SVariable l].
Definition by_hash_request_deserialize (b : bytes) : comp SszError (list bytes) :=
  let* fields := of_sum (split_container [None] b) in
  match fields with [l] => of_sum (split_list MAX_OPS_PER_REQUEST (Some 32%nat) l) | _ => Err SszOther end.

Definition hashes_response_serialize (hashes : list bytes) (next_cursor : bytes) : comp SszError bytes :=
  let* l := container (SFixed <$> hashes) in container [SVariable l; SFixed next_cursor].
Definition hashes_response_deserialize (b : bytes) : comp SszError (list bytes * bytes) :=
  let* fields := of_sum (split_container [None; Some 32%nat] b) in
  match fields with
  | [l; c] => let* l := of_sum (split_list MAX_OPS_PER_REQUEST (Some 32%nat) l) in Ok (l, c)
  | _ => Err SszOther
  end.

(** ** [VerifiedUserOperation]: the message of gossip *)
Definition verified_serialize (v : VerifiedUserOperation) : comp SszError bytes :=
  let* uo := serialize v.(vu_user_operation) in
  container [SVariable uo; SFixed (address_bytes v.(vu_entry_point));
             SFixed (encode_u256 v.(vu_verified_at_block_hash))].
Definition verified_deserialize (b : bytes) : comp SszError VerifiedUserOperation :=
  let* fields := of_sum (split_container [None; Some 20%nat; Some 32%nat] b) in
  match fields with
  | [uo; ep; h] =>
      let* uo := deserialize uo in
      let* h := of_sum (decode_u256 h) in
      Ok {| vu_user_operation := uo; vu_entry_point := from_slice ep; vu_verified_at_block_hash := h |}
  | _ => Err SszOther
  end.

Definition by_hash_response_serialize (uos : list VerifiedUserOperation) : comp SszError bytes :=
  let* els := comp_map verified_serialize uos in
  let* l := container (SVariable <$> els) in container [SVariable l].
Definition by_hash_response_deserialize (b : bytes) : comp SszError (list VerifiedUserOperation) :=
  let* fields := of_sum (split_container [None] b) in
  match fields with
  | [l] => let* els := of_sum (split_list MAX_OPS_PER_REQUEST None l) in comp_map verified_deserialize els
  | _ => Err SszOther
  end.

(** [RPCResponse::serialize], and the payload of a request *)
Definition response_serialize (r : RPCResponse) : comp SszError bytes :=
  match r with
  | RespStatus m => status_serialize m
  | RespGoodbye reason => goodbye_serialize reason
  | RespPong p => ping_serialize p
  | RespMetaData m => metadata_serialize m
  | RespPooledUserOpHashes hashes next_cursor => hashes_response_serialize hashes next_cursor
  | RespPooledUserOpsByHash uos => by_hash_response_serialize uos
  end.

(** ** Round trips *)
Context {LOk : SszOk L} {TOk : SszTypesOk T}.

Definition part_length (p : SszPart) : nat := (part_size p + length (variable_part p))%nat.

Lemma length_heads off ps :
  length (concat (heads off ps)) = foldr (λ p n, part_size p + n)%nat 0%nat ps.
Proof.
  revert off. induction ps as [|[b|b] ps IH]; intros off; [done| |]; cbn [heads concat foldr part_size];
    rewrite length_app, IH, ?length_le32; done.
Qed.
Lemma length_container ps :
  length (ssz_container ps) = foldr (λ p n, part_length p + n)%nat 0%nat ps.
Proof.
  unfold ssz_container. rewrite length_app, length_heads. unfold part_length.
  induction ps as [|p ps IH]; [done|]. rewrite fmap_cons. cbn [foldr concat]. rewrite length_app. lia.
Qed.
Lemma length_elements (f : bytes → SszPart) (size : nat) els :
  Forall (λ b, part_length (f b) ≤ size)%nat els →
  (length (ssz_container (f <$> els)) ≤ size * length els)%nat.
Proof. rewrite length_container. induction 1; [simpl; lia|]. rewrite fmap_cons. simpl. lia. Qed.

Lemma container_ok ps : encodable ps → container ps = Ok (ssz_container ps).
Proof using LOk. intros H. unfold container. by rewrite serialize_container_ok. Qed.
Lemma decode_u64_roundtrip x : is_u64 x → decode_u64 (le_split 8 x) = inr x.
Proof using TOk.
  intros Hx. rewrite decode_u64_ok by apply length_le_split. f_equal. apply le_combine_split_small.
  unfold is_u64, U64_MAX in Hx. change (8 * Z.of_nat 8) with 64. lia.
Qed.
Lemma decode_u256_roundtrip x : is_u256 x → decode_u256 (le_split 32 x) = inr x.
Proof using TOk.
  intros Hx. rewrite decode_u256_ok by apply length_le_split. f_equal. apply le_combine_split_small.
  unfold is_u256, U256_MAX in Hx. change (8 * Z.of_nat 32) with 256. lia.
Qed.

(** a list of blocks of the same size, as the content of a field *)
Definition blocks (bound n : nat) (l : list bytes) : Prop :=
  (length l ≤ bound)%nat ∧ Forall (λ b, length b = n) l.
Lemma blocks_length bound n l : blocks bound n l → (length (ssz_container (SFixed <$> l)) ≤ n * bound)%nat.
Proof.
  intros [Hb Hn]. assert (length (ssz_container (SFixed <$> l)) ≤ n * length l)%nat; [|nia].
  apply length_elements. eapply Forall_impl; [done|]. intros b Hl. simpl in *. unfold part_length. simpl. lia.
Qed.
Lemma blocks_split bound n l : (0 < n)%nat → Z.of_nat (n * bound) < 2 ^ 32 → blocks bound n l →
  container (SFixed <$> l) = Ok (ssz_container (SFixed <$> l)) ∧
  split_list bound (Some n) (ssz_container (SFixed <$> l)) = inr l.
Proof using LOk TOk.
  intros Hn Hsize Hb. pose proof (blocks_length _ _ _ Hb). destruct Hb.
  assert (encodable (SFixed <$> l)) by (unfold encodable; lia).
  split; [by apply container_ok|by apply split_list_fixed].
Qed.

Lemma container_fields shape ps : encodable ps → part_shape <$> ps = shape →
  container ps = Ok (ssz_container ps) ∧ split_container shape (ssz_container ps) = inr (part_bytes <$> ps).
Proof using LOk TOk. intros H <-. split; [by apply container_ok|by apply split_container_ok]. Qed.

(** a message is encoded in less than 4 GiB, and decoding the bytes gives it back *)
Definition crosses {X : Type} (encoded : comp SszError bytes) (decode : bytes → comp SszError X) (x : X)
  : Prop := ∃ b, encoded = Ok b ∧ Z.of_nat (length b) < 2 ^ 32 ∧ decode b = Ok x.

(** encodes a container and reads its fields back; the goal is the encoder and the
    decoder of a message *)
Ltac read_container shape :=
  match goal with
  | |- crosses (container ?ps) _ _ =>
      let Hc := fresh in let Hs := fresh in let He := fresh in
      assert (encodable ps) as He by (unfold encodable; rewrite length_container; unfold part_length;
        simpl; rewrite ?length_le_split, ?length_address_bytes; lia);
      destruct (container_fields shape ps He) as [Hc Hs];
      [simpl; rewrite ?length_le_split, ?length_address_bytes; congruence
      |exists (ssz_container ps); split; [exact Hc|split; [exact He|]]; cbv beta;
       match goal with |- ?f _ = _ => unfold f end; rewrite Hs; cbn [of_sum comp_bind fmap list_fmap part_bytes]]
  end.

Definition status_wf (m : StatusMessage) : Prop :=
  is_u64 m.(sm_chain_id) ∧ length m.(sm_block_hash) = 32%nat ∧ is_u64 m.(sm_block_number).
Definition goodbye_wf (r : GoodbyeReason) : Prop :=
  is_u64 (u64_of_goodbye r) ∧ goodbye_of_u64 (u64_of_goodbye r) = r.
Definition ping_wf (p : Ping) : Prop := is_u64 p.(ping_data).
Definition metadata_wf (m : MetaData) : Prop :=
  is_u64 m.(seq_number) ∧ blocks MAX_SUPPORTED_MEMPOOLS MAX_IPFS_CID_LENGTH m.(supported_mempools).
Definition verified_wf (v : VerifiedUserOperation) : Prop :=
  uo_wf v.(vu_user_operation) ∧ fits v.(vu_user_operation) ∧ is_address v.(vu_entry_point) ∧
  is_u256 v.(vu_verified_at_block_hash).

Lemma status_roundtrip m : status_wf m →
  crosses (status_serialize m) status_deserialize m.
Proof using LOk TOk.
  intros (Hc & Hh & Hn). unfold status_serialize. rewrite !encode_u64_ok.
  read_container [Some 8; Some 32; Some 8]%nat. rewrite !decode_u64_roundtrip by done. by destruct m.
Qed.

Lemma goodbye_roundtrip_ssz r : goodbye_wf r →
  crosses (goodbye_serialize r) goodbye_deserialize r.
Proof using TOk.
  intros [Hr Hv]. eexists. split; [done|]. split; [rewrite encode_u64_ok, length_le_split; lia|]. unfold goodbye_deserialize. rewrite encode_u64_ok.
  rewrite decode_u64_roundtrip by done. simpl. by rewrite Hv.
Qed.

Lemma ping_roundtrip p : ping_wf p → crosses (ping_serialize p) ping_deserialize p.
Proof using LOk TOk.
  intros Hp. unfold ping_serialize. rewrite encode_u64_ok.
  read_container [Some 8%nat]. rewrite decode_u64_roundtrip by done. by destruct p.
Qed.

Lemma hashes_request_roundtrip cursor : length cursor = 32%nat →
  crosses (hashes_request_serialize cursor) hashes_request_deserialize cursor.
Proof using LOk TOk.
  intros Hc. unfold hashes_request_serialize. by read_container [Some 32%nat].
Qed.

Lemma metadata_roundtrip m : metadata_wf m →
  crosses (metadata_serialize m) metadata_deserialize m.
Proof using LOk TOk.
  intros [Hs Hm]. unfold metadata_serialize. rewrite encode_u64_ok.
  pose proof (blocks_length _ _ _ Hm) as Hl.
  destruct (blocks_split MAX_SUPPORTED_MEMPOOLS MAX_IPFS_CID_LENGTH m.(supported_mempools))
    as [-> Hsp]; [vm_compute; lia|done..|]. cbn [comp_bind].
  unfold MAX_SUPPORTED_MEMPOOLS, MAX_IPFS_CID_LENGTH in Hl.
  read_container [Some 8%nat; None]. rewrite decode_u64_roundtrip, Hsp by done. by destruct m.
Qed.

Lemma by_hash_request_roundtrip hashes : blocks MAX_OPS_PER_REQUEST 32 hashes →
  crosses (by_hash_request_serialize hashes) by_hash_request_deserialize hashes.
Proof using LOk TOk.
  intros Hb. unfold by_hash_request_serialize.
  pose proof (blocks_length _ _ _ Hb) as Hl. unfold MAX_OPS_PER_REQUEST in Hl.
  destruct (blocks_split MAX_OPS_PER_REQUEST 32 hashes) as [-> Hsp]; [lia|done..|].
  cbn [comp_bind]. read_container [@None nat]. by rewrite Hsp.
Qed.

Lemma hashes_response_roundtrip hashes cursor :
  blocks MAX_OPS_PER_REQUEST 32 hashes → length cursor = 32%nat →
  crosses (hashes_response_serialize hashes cursor) hashes_response_deserialize (hashes, cursor).
Proof using LOk TOk.
  intros Hb Hc. unfold hashes_response_serialize.
  pose proof (blocks_length _ _ _ Hb) as Hl. unfold MAX_OPS_PER_REQUEST in Hl.
  destruct (blocks_split MAX_OPS_PER_REQUEST 32 hashes) as [-> Hsp]; [lia|done..|].
  cbn [comp_bind]. read_container [None; Some 32%nat]. by rewrite Hsp.
Qed.

(** the encoding of a gossiped operation, and its size *)
Definition verified_parts (v : VerifiedUserOperation) : list SszPart :=
  [SVariable (concat (layout v.(vu_user_operation))); SFixed (address_bytes v.(vu_entry_point));
   SFixed (le_split 32 v.(vu_verified_at_block_hash))].
Lemma verified_length v : verified_wf v → (length (ssz_container (verified_parts v)) ≤ 4380)%nat.
Proof.
  intros (_ & Hf & _). rewrite length_container. unfold part_length, verified_parts.
  cbn [foldr part_size variable_part length]. rewrite ?length_le_split, ?length_address_bytes, length_layout.
  unfold fits, MAXIMUM_SSZ_BYTES_LENGTH in Hf. rewrite !Forall_cons in Hf.
  destruct Hf as (? & ? & ? & ? & _). lia.
Qed.

Lemma verified_encoded v : verified_wf v →
  verified_serialize v = Ok (ssz_container (verified_parts v)) ∧
  verified_deserialize (ssz_container (verified_parts v)) = Ok v.
Proof using LOk TOk.
  intros Hv. pose proof (verified_length v Hv) as Hl. destruct Hv as (Hwf & Hf & He & Hh).
  unfold verified_serialize, verified_deserialize. rewrite serialize_layout by done.
  cbn [comp_bind]. rewrite encode_u256_ok. fold (verified_parts v).
  destruct (container_fields [None; Some 20; Some 32]%nat (verified_parts v)) as [-> ->].
  - unfold encodable. lia.
  - simpl. by rewrite ?length_le_split, ?length_address_bytes.
  - split; [done|]. unfold verified_parts. cbn [of_sum comp_bind fmap list_fmap part_bytes].
    rewrite deserialize_layout, decode_u256_roundtrip by done. simpl. destruct v. f_equal. f_equal.
    unfold from_slice, address_bytes. apply be_to_Z_to_be. unfold is_address in He. simpl in He.
    change (8 * Z.of_nat 20) with 160. lia.
Qed.

(** a message whose operation is shorter than its fixed part crashes the decoder *)
Lemma short_verified (short ep h : bytes) :
  (20 ≤ length short < 228)%nat → length ep = 20%nat → length h = 32%nat →
  verified_deserialize (ssz_container [SVariable short; SFixed ep; SFixed h]) = Panic.
Proof using LOk TOk.
  intros Hs He Hh. unfold verified_deserialize.
  destruct (container_fields [None; Some 20; Some 32]%nat [SVariable short; SFixed ep; SFixed h])
    as [_ ->].
  - unfold encodable. rewrite length_container. unfold part_length. simpl. lia.
  - simpl. congruence.
  - cbn [of_sum comp_bind fmap list_fmap part_bytes]. rewrite ssz_short by lia.
    by rewrite bool_decide_true by lia.
Qed.

Lemma by_hash_response_roundtrip uos :
  (length uos ≤ MAX_OPS_PER_REQUEST)%nat → Forall verified_wf uos →
  crosses (by_hash_response_serialize uos) by_hash_response_deserialize uos.
Proof using LOk TOk.
  intros Hb Hwf. unfold by_hash_response_serialize.
  set (els := (λ v, ssz_container (verified_parts v)) <$> uos).
  rewrite (comp_map_all _ (λ v, ssz_container (verified_parts v)))
    by (eapply Forall_impl; [done|]; intros v Hv; by apply verified_encoded).
  cbn [comp_bind]. fold els.
  assert (length els ≤ MAX_OPS_PER_REQUEST)%nat as Hlen by (unfold els; by rewrite length_fmap).
  assert (length (ssz_container (SVariable <$> els)) ≤ 4384 * length els)%nat as Hsize.
  { apply length_elements. unfold els. apply Forall_fmap. eapply Forall_impl; [done|].
    intros v Hv%verified_length. simpl. unfold part_length. cbn [part_size variable_part]. lia. }
  unfold MAX_OPS_PER_REQUEST in *.
  assert (encodable (SVariable <$> els)) as He by (unfold encodable; lia).
  rewrite (container_ok _ He). cbn [comp_bind]. read_container [@None nat].
  rewrite split_list_variable by done. cbn [of_sum comp_bind]. unfold els. rewrite comp_map_fmap.
  rewrite (comp_map_all _ id), list_fmap_id; [done|].
  eapply Forall_impl; [done|]. intros v Hv. by apply verified_encoded.
Qed.
End messages.

(** ** A concrete library *)
Fixpoint read_heads (shape : list (option nat)) (b : bytes) : option (list (bytes + nat)) :=
  match shape with
  | [] => Some []
  | Some n :: shape =>
      if bool_decide (n ≤ length b)%nat
      then cons (inl (take n b)) <$> read_heads shape (drop n b) else None
  | None :: shape =>
      if bool_decide (4 ≤ length b)%nat
      then cons (inr (Z.to_nat (le_combine (take 4 b)))) <$> read_heads shape (drop 4 b) else None
  end.
Fixpoint next_offset (end_ : nat) (hs : list (bytes + nat)) : nat :=
  match hs with [] => end_ | inl _ :: hs => next_offset end_ hs | inr o :: _ => o end.
Fixpoint cut (hs : list (bytes + nat)) (data : bytes) : list bytes :=
  match hs with
  | [] => []
  | inl b :: hs => b :: cut hs data
  | inr o :: hs => take (next_offset (length data) hs - o) (drop o data) :: cut hs data
  end.
Definition le_split_container (shape : list (option nat)) (b : bytes) : SszError + list bytes :=
  match read_heads shape b with Some hs => inr (cut hs b) | None => inl SszOther end.

Fixpoint chunks (fuel n : nat) (b : bytes) : list bytes :=
  match fuel, b with
  | S fuel, _ :: _ => take n b :: chunks fuel n (drop n b)
  | _, _ => []
  end.
Definition bounded (bound : nat) (n : option nat) (l : list bytes) : SszError + list bytes :=
  if bool_decide ((length l ≤ bound)%nat ∧ Forall (λ b, n = Some (length b) ∨ n = None) l) then inr l else inl SszOther.
Definition le_split_list (bound : nat) (n : option nat) (b : bytes) : SszError + list bytes :=
  match n, b with
  | _, [] => inr []
  | Some k, _ => bounded bound n (chunks (length b) k b)
  | None, _ =>
      match le_split_container (repeat None (Z.to_nat (le_combine (take 4 b)) / 4)) b with
      | inr l => bounded bound None l
      | inl e => inl e
      end
  end.
Definition le_types : SszTypes := {|
  encode_u64 := le_split 8; decode_u64 b := inr (le_combine b);
  encode_u256 := le_split 32; decode_u256 b := inr (le_combine b);
  split_container := le_split_container; split_list := le_split_list |}.

(** the heads of a container, as they are read *)
Fixpoint parsed_heads (off : nat) (ps : list SszPart) : list (bytes + nat) :=
  match ps with
  | [] => []
  | SFixed b :: ps => inl b :: parsed_heads off ps
  | SVariable b :: ps => inr off :: parsed_heads (off + length b) ps
  end.

Lemma read_heads_ok ps off rest :
  Z.of_nat (off + length (concat (variable_part <$> ps))) < 2 ^ 32 →
  read_heads (part_shape <$> ps) (concat (heads off ps) ++ rest) = Some (parsed_heads off ps).
Proof.
  revert off. induction ps as [|[b|b] ps IH]; intros off Hlen; [done| |];
    rewrite fmap_cons in Hlen; rewrite fmap_cons;
    cbn [heads concat part_shape variable_part parsed_heads read_heads] in *;
    rewrite length_app in Hlen; rewrite <-app_assoc.
  - rewrite bool_decide_true by (rewrite length_app; lia).
    rewrite take_app_length, drop_app_length, IH by done. done.
  - rewrite bool_decide_true by (rewrite length_app, length_le32; lia).
    rewrite take_app_length', drop_app_length' by (by rewrite length_le32).
    rewrite IH by lia. unfold le32.
    rewrite le_combine_split_small by (change (8 * Z.of_nat 4) with 32; lia). by rewrite Nat2Z.id.
Qed.

Lemma next_offset_ok ps off :
  next_offset (off + length (concat (variable_part <$> ps))) (parsed_heads off ps) = off.
Proof.
  revert off. induction ps as [|[b|b] ps IH]; intros off; [simpl; lia|apply IH|done].
Qed.

Lemma cut_ok ps off pre : length pre = off →
  cut (parsed_heads off ps) (pre ++ concat (variable_part <$> ps)) = part_bytes <$> ps.
Proof.
  revert off pre. induction ps as [|[b|b] ps IH]; intros off pre Hpre; [done| |];
    rewrite !fmap_cons; cbn [parsed_heads cut concat variable_part part_bytes].
  - f_equal. by apply IH.
  - rewrite (assoc_L (++)). assert (length (pre ++ b) = off + length b)%nat as Hpre' by (rewrite length_app; lia).
    rewrite length_app, Hpre', next_offset_ok. f_equal; [|by apply IH].
    rewrite <-(assoc_L (++)), drop_app_length' by done.
    by rewrite take_app_length' by lia.
Qed.

Lemma le_split_container_ok ps : encodable ps →
  le_split_container (part_shape <$> ps) (ssz_container ps) = inr (part_bytes <$> ps).
Proof.
  unfold encodable, le_split_container, ssz_container. rewrite length_app, length_heads. intros Hl.
  rewrite read_heads_ok by done. f_equal. apply cut_ok. apply length_heads.
Qed.

Lemma cut_shape shape b data hs : read_heads shape b = Some hs → Forall2 has_size shape (cut hs data).
Proof.
  revert b hs. induction shape as [|[n|] shape IH]; intros b hs; cbn [read_heads].
  - intros [= <-]. constructor.
  - case_bool_decide; [|done]. intros (hs' & Hr & ->)%fmap_Some. constructor; [|by eapply IH].
    simpl. rewrite length_take. lia.
  - case_bool_decide; [|done]. intros (hs' & Hr & ->)%fmap_Some. constructor; [done|by eapply IH].
Qed.

Lemma chunks_ok n els : (0 < n)%nat → Forall (λ b : bytes, length b = n) els → ∀ fuel,
  (length els ≤ fuel)%nat → chunks fuel n (concat els) = els.
Proof.
  intros Hn. induction 1 as [|b els Hb _ IH]; intros fuel Hf; [by destruct fuel|].
  destruct fuel as [|fuel]; [simpl in Hf; lia|]. cbn [concat].
  destruct (b ++ concat els) as [|x r] eqn:E; [destruct b; simpl in *; [lia|done]|].
  cbn [chunks]. rewrite <-E, take_app_length', drop_app_length' by done.
  f_equal. apply IH. simpl in Hf. lia.
Qed.
Lemma concat_fixed els : ssz_container (SFixed <$> els) = concat els.
Proof.
  unfold ssz_container. generalize (foldr (λ p n, part_size p + n)%nat 0%nat (SFixed <$> els)).
  intros off. rewrite <-(app_nil_r (concat els)). f_equal.
  - f_equal. induction els as [|b els IH]; [done|]. rewrite fmap_cons. simpl. by rewrite IH.
  - induction els as [|b els IH]; [done|]. rewrite !fmap_cons. simpl. by rewrite IH.
Qed.
Lemma length_concat_ge els n : (0 < n)%nat → Forall (λ b : bytes, length b = n) els →
  (length els ≤ length (concat els))%nat.
Proof. intros Hn. induction 1; simpl; [lia|]. rewrite length_app. lia. Qed.

Lemma shape_variable (els : list bytes) : part_shape <$> (SVariable <$> els) = repeat None (length els).
Proof. induction els as [|b els IH]; [done|]. rewrite !fmap_cons. simpl. by rewrite IH. Qed.
Lemma bytes_variable (els : list bytes) : part_bytes <$> (SVariable <$> els) = els.
Proof. induction els as [|b els IH]; [done|]. rewrite !fmap_cons. simpl. by rewrite IH. Qed.
Lemma heads_variable (els : list bytes) : foldr (λ p n, part_size p + n)%nat 0%nat (SVariable <$> els) = (length els * 4)%nat.
Proof. induction els as [|b els IH]; [done|]. rewrite fmap_cons. cbn [foldr part_size length]. lia. Qed.
(** the first offset of a list is the size of its table of offsets *)
Lemma first_offset b els : encodable (SVariable <$> b :: els) →
  (Z.to_nat (le_combine (take 4 (ssz_container (SVariable <$> b :: els)))) / 4)%nat = S (length els).
Proof.
  unfold encodable, ssz_container. rewrite length_app, length_heads, heads_variable. intros He.
  rewrite fmap_cons. cbn [heads concat].
  rewrite <-!app_assoc, take_app_length' by (by rewrite length_le32).
  unfold le32. rewrite le_combine_split_small by (change (8 * Z.of_nat 4) with 32; lia).
  by rewrite Nat2Z.id, Nat.div_mul.
Qed.

Lemma le_split_list_fixed bound n els : (0 < n)%nat → (length els ≤ bound)%nat →
  Forall (λ b : bytes, length b = n) els →
  le_split_list bound (Some n) (ssz_container (SFixed <$> els)) = inr els.
Proof.
  intros Hn Hb Hels. rewrite concat_fixed. unfold le_split_list.
  destruct (concat els) as [|x r] eqn:E.
  { destruct els as [|b els]; [done|]. apply Forall_cons in Hels as [Hb0 _].
    apply app_nil in E as [-> _]. simpl in Hb0. lia. }
  rewrite <-E. rewrite chunks_ok by (done || by eapply length_concat_ge). unfold bounded.
  rewrite bool_decide_true; [done|]. split; [done|].
  eapply Forall_impl; [done|]. intros b <-. by left.
Qed.

Lemma le_split_list_variable bound els : (length els ≤ bound)%nat → encodable (SVariable <$> els) →
  le_split_list bound None (ssz_container (SVariable <$> els)) = inr els.
Proof.
  intros Hb He. destruct els as [|b els]; [done|]. pose proof (first_offset b els He) as Hf.
  unfold le_split_list. destruct (ssz_container _) as [|x r] eqn:E.
  { apply (f_equal length) in E. rewrite length_container in E. simpl in E. lia. }
  rewrite <-E in Hf |- *. rewrite Hf.
  change (S (length els)) with (length (b :: els)). rewrite <-shape_variable.
  rewrite le_split_container_ok, bytes_variable by done. unfold bounded.
  rewrite bool_decide_true; [done|]. split; [done|]. apply Forall_true. by right.
Qed.

Lemma bounded_shape bound n l l' : bounded bound n l' = inr l →
  (length l ≤ bound)%nat ∧ Forall (has_size n) l.
Proof.
  unfold bounded. case_bool_decide as Hd; [|done]. intros [= <-]. destruct Hd as [? Hd]. split; [done|].
  eapply Forall_impl; [done|]. intros c [-> | ->]; done.
Qed.

#[global] Instance le_types_ok : SszTypesOk le_types.
Proof.
  split; try done.
  - apply le_split_container_ok.
  - intros shape b l. simpl. unfold le_split_container. destruct (read_heads shape b) eqn:Hr; [|done].
    intros [= <-]. by eapply cut_shape.
  - intros bound n els Hn Hb Hels _. by apply le_split_list_fixed.
  - intros bound els. apply le_split_list_variable.
  - intros bound n b l. simpl. unfold le_split_list.
    destruct n as [k|], b as [|x r]; try (intros [= <-]; split; [simpl; lia|constructor]).
    + apply bounded_shape.
    + destruct (le_split_container _ _); [done|]. apply bounded_shape.
Qed.
