(* ===== verification/Codec.v ===== *)
(** The stream codec of the request-response protocol
    ([crates/p2p/src/rpc/codec/ssz_snappy.rs]) and the protocols it serves
    ([protocol.rs], [outbound.rs]).

    A request is the length of its SSZ payload as a varint, then the payload in
    snappy frames; a response has a result byte in front.  The varint codec and the
    frame format are libraries, [StreamLib]. *)

From S2P Require Import Prelude Primitives Ssz Rpc SszMessages.

Definition PROTOCOL_PREFIX : string := "/account_abstraction/req".

(** ** [protocol.rs] *)
Inductive Protocol := PrStatus | PrGoodbye | PrPing | PrMetaData | PrPooledUserOpHashes
  | PrPooledUserOpsByHash.
#[global] Instance Protocol_eq_dec : EqDecision Protocol.
Proof. solve_decision. Defined.

Definition Protocol_to_string (p : Protocol) : string :=
  match p with
  | PrStatus => "status"
  | PrGoodbye => "goodbye"
  | PrPing => "ping"
  | PrMetaData => "metadata"
  | PrPooledUserOpHashes => "pooled_user_op_hashes"
  | PrPooledUserOpsByHash => "pooled_user_ops_by_hash"
  end.
Inductive Version := V1.
Definition Version_to_string (v : Version) : string := "1".
Inductive Encoding := SSZSnappy.
Definition Encoding_to_string (e : Encoding) : string := "ssz_snappy".

Record ProtocolId := { protocol : Protocol; version : Version; encoding : Encoding; protocol_id : string }.
Definition ProtocolId_new (p : Protocol) : ProtocolId := {|
  protocol := p; version := V1; encoding := SSZSnappy;
  protocol_id := PROTOCOL_PREFIX +:+ "/" +:+ Protocol_to_string p +:+ "/" +:+ Version_to_string V1
                 +:+ "/" +:+ Encoding_to_string SSZSnappy |}.
Definition SUPPORTED_PROTOCOLS : list ProtocolId :=
  ProtocolId_new <$> [PrStatus; PrGoodbye; PrPing; PrMetaData; PrPooledUserOpHashes; PrPooledUserOpsByHash].

(** what an inbound and an outbound upgrade offer for negotiation *)
Definition inbound_protocol_info : list ProtocolId := SUPPORTED_PROTOCOLS.
Definition outbound_protocol_info (request : Request) : list ProtocolId :=
  match request with
  | ReqStatus _ => [ProtocolId_new PrStatus]
  | ReqGoodbye _ => [ProtocolId_new PrGoodbye]
  | ReqPing _ => [ProtocolId_new PrPing]
  | ReqMetaData => [ProtocolId_new PrMetaData]
  | ReqPooledUserOpHashes _ => [ProtocolId_new PrPooledUserOpHashes]
  | ReqPooledUserOpsByHash _ => [ProtocolId_new PrPooledUserOpsByHash]
  end.

(** ** Libraries *)
Class StreamLib := {
  (** [Uvi<usize>]: what is written for a length; a decoded length, if the buffer
      holds one, and the rest of the buffer *)
  uvi_encode : nat → bytes;
  uvi_decode : bytes → string + (option nat * bytes);
  (** [snap::write::FrameEncoder] and [snap::read::FrameDecoder] *)
  frame_encode : bytes → bytes;
  frame_decode : bytes → string + bytes;
}.
Class StreamOk (SL : StreamLib) := {
  uvi_roundtrip : ∀ n rest, Z.of_nat n < 2 ^ 64 → uvi_decode (uvi_encode n ++ rest) = inr (Some n, rest);
  uvi_empty : uvi_decode [] = inr (None, []);
  frame_roundtrip : ∀ b, frame_decode (frame_encode b) = inr b;
  frame_empty : frame_decode [] = inr [];
}.

Section codec.
Context {L : SszLib} {T : SszTypes} {SL : StreamLib}.

Definition io_error {X} (r : string + X) : comp HandlerError X := map_err IoError (of_sum r).
Definition payload {X} (r : comp SszError X) : comp HandlerError X := map_err DeserializeError r.

(** ** [SSZSnappyInboundCodec] *)
(** a response; the result byte is always 0 *)
Definition encode_response (item : RPCResponse) (dst : bytes) : comp HandlerError bytes :=
  let* ssz_bytes := map_err SerializeError (response_serialize item) in
  Ok (dst ++ [Byte.x00] ++ uvi_encode (length ssz_bytes) ++ frame_encode ssz_bytes).

Definition deserialize_request (p : Protocol) (buffer : bytes) : comp SszError Request :=
  match p with
  | PrStatus => map_ok ReqStatus (status_deserialize buffer)
  | PrGoodbye => map_ok ReqGoodbye (goodbye_deserialize buffer)
  | PrPing => map_ok ReqPing (ping_deserialize buffer)
  | PrMetaData => map_ok (λ _, ReqMetaData) (metadata_request_deserialize buffer)
  | PrPooledUserOpHashes => map_ok ReqPooledUserOpHashes (hashes_request_deserialize buffer)
  | PrPooledUserOpsByHash => map_ok ReqPooledUserOpsByHash (by_hash_request_deserialize buffer)
  end.
Definition decode_request (p : ProtocolId) (src : bytes) : comp HandlerError (option Request) :=
  if bool_decide (src = [] ∧ p.(protocol) ≠ PrMetaData) then Err (IoError "No data received")
  else
    let* '(_, src) := io_error (uvi_decode src) in
    let* buffer := io_error (frame_decode src) in
    let* request := payload (deserialize_request p.(protocol) buffer) in
    Ok (Some request).

(** ** [SSZSnappyOutboundCodec] *)
Definition request_serialize (item : Request) : comp SszError bytes :=
  match item with
  | ReqStatus status => status_serialize status
  | ReqGoodbye reason => goodbye_serialize reason
  | ReqPing ping => ping_serialize ping
  | ReqMetaData => metadata_request_serialize
  | ReqPooledUserOpHashes cursor => hashes_request_serialize cursor
  | ReqPooledUserOpsByHash hashes => by_hash_request_serialize hashes
  end.
Definition encode_request (item : Request) (dst : bytes) : comp HandlerError bytes :=
  let* buffer := map_err SerializeError (request_serialize item) in
  Ok (dst ++ uvi_encode (length buffer) ++ frame_encode buffer).

Definition deserialize_response (p : Protocol) (data : bytes) : comp SszError RPCResponse :=
  match p with
  | PrStatus => map_ok RespStatus (status_deserialize data)
  | PrGoodbye => map_ok RespGoodbye (goodbye_deserialize data)
  | PrPing => map_ok RespPong (ping_deserialize data)
  | PrMetaData => map_ok RespMetaData (metadata_deserialize data)
  | PrPooledUserOpHashes => map_ok (λ r, RespPooledUserOpHashes r.1 r.2) (hashes_response_deserialize data)
  | PrPooledUserOpsByHash => map_ok RespPooledUserOpsByHash (by_hash_response_deserialize data)
  end.
(** [split_to(1)] panics on an empty buffer *)
Definition decode_response (p : ProtocolId) (src : bytes) : comp HandlerError (option RPCResponse) :=
  match src with
  | [] => Panic
  | _ :: src =>
      let* '(_, src) := io_error (uvi_decode src) in
      let* data := io_error (frame_decode src) in
      let* response := payload (deserialize_response p.(protocol) data) in
      Ok (Some response)
  end.

(** ** Well-formed messages: the ranges of the Rust types *)
Definition request_ok (r : Request) : Prop :=
  match r with
  | ReqStatus m => status_wf m
  | ReqGoodbye r => goodbye_wf r
  | ReqPing p => ping_wf p
  | ReqMetaData => True
  | ReqPooledUserOpHashes cursor => length cursor = 32%nat
  | ReqPooledUserOpsByHash hashes => blocks MAX_OPS_PER_REQUEST 32 hashes
  end.
Definition response_ok (r : RPCResponse) : Prop :=
  match r with
  | RespStatus m => status_wf m
  | RespGoodbye r => goodbye_wf r
  | RespPong p => ping_wf p
  | RespMetaData m => metadata_wf m
  | RespPooledUserOpHashes hashes cursor => blocks MAX_OPS_PER_REQUEST 32 hashes ∧ length cursor = 32%nat
  | RespPooledUserOpsByHash uos => (length uos ≤ MAX_OPS_PER_REQUEST)%nat ∧ Forall verified_wf uos
  end.
Definition protocol_of_response (r : RPCResponse) : Protocol :=
  match r with
  | RespStatus _ => PrStatus
  | RespGoodbye _ => PrGoodbye
  | RespPong _ => PrPing
  | RespMetaData _ => PrMetaData
  | RespPooledUserOpHashes _ _ => PrPooledUserOpHashes
  | RespPooledUserOpsByHash _ => PrPooledUserOpsByHash
  end.

(** ** Decoders that cannot crash *)
Definition returns {E X : Type} (r : comp E X) : Prop := r ≠ Panic.
Lemma returns_sum {E X : Type} (r : E + X) : returns (of_sum r).
Proof. by destruct r. Qed.
Lemma returns_bind {E X Y : Type} (r : comp E X) (k : X → comp E Y) :
  returns r → (∀ x, returns (k x)) → returns (comp_bind r k).
Proof. intros Hr Hk. destruct r; [apply Hk|done|done]. Qed.
Lemma returns_map_err {E F X : Type} (f : E → F) (r : comp E X) : returns r → returns (map_err f r).
Proof. by destruct r. Qed.
Lemma returns_map_ok {E X Y : Type} (f : X → Y) (r : comp E X) : returns r → returns (map_ok f r).
Proof. by destruct r. Qed.

Ltac returns_tac :=
  repeat (first [ apply returns_sum | apply returns_map_ok | apply returns_map_err
                | apply returns_bind; [|intros ?] | done
                | match goal with |- returns (match ?x with _ => _ end) => destruct x end ]).

Lemma returns_container ps : returns (container ps).
Proof. unfold container. by destruct (serialize_container ps). Qed.
Lemma returns_ok_or {E X : Type} (e : E) (o : option X) : returns (ok_or e o).
Proof. by destruct o. Qed.
Lemma returns_comp_map {E X Y : Type} (f : X → comp E Y) xs : (∀ x, returns (f x)) → returns (comp_map f xs).
Proof. intros Hf. induction xs as [|x xs IH]; [done|]. simpl. returns_tac. Qed.
Lemma verified_serialize_returns v : returns (verified_serialize v).
Proof.
  unfold verified_serialize, serialize, btyes_to_list. returns_tac; apply returns_container || apply returns_ok_or.
Qed.
Lemma request_serialize_returns r : returns (request_serialize r).
Proof.
  destruct r; simpl; unfold status_serialize, ping_serialize, hashes_request_serialize,
    by_hash_request_serialize; returns_tac; apply returns_container.
Qed.
Lemma response_serialize_returns r : returns (response_serialize r).
Proof.
  destruct r; simpl; unfold status_serialize, ping_serialize, metadata_serialize, hashes_response_serialize,
    by_hash_response_serialize; returns_tac; try apply returns_container.
  apply returns_comp_map, verified_serialize_returns.
Qed.
Lemma decode_request_returns p src : returns (decode_request p src).
Proof.
  unfold decode_request, io_error, payload, deserialize_request, status_deserialize, goodbye_deserialize,
    ping_deserialize, metadata_request_deserialize, hashes_request_deserialize, by_hash_request_deserialize.
  returns_tac.
Qed.
Lemma decode_response_returns p x src : p.(protocol) ≠ PrPooledUserOpsByHash →
  returns (decode_response p (x :: src)).
Proof.
  intros Hp. unfold decode_response, io_error, payload, deserialize_response, status_deserialize,
    goodbye_deserialize, ping_deserialize, metadata_deserialize, hashes_response_deserialize.
  destruct (protocol p); returns_tac.
Qed.

Context {LOk : SszOk L} {TOk : SszTypesOk T} {SOk : StreamOk SL}.

Lemma uvi_not_empty n : Z.of_nat n < 2 ^ 64 → uvi_encode n ≠ [].
Proof using SOk.
  intros Hn He. pose proof (uvi_roundtrip n [] Hn) as H. rewrite He, app_nil_r, uvi_empty in H. done.
Qed.

(** the header and the frames of a payload are read back *)
Lemma framed b : Z.of_nat (length b) < 2 ^ 32 →
  io_error (uvi_decode (uvi_encode (length b) ++ frame_encode b)) = Ok (Some (length b), frame_encode b)
  ∧ io_error (frame_decode (frame_encode b)) = Ok b.
Proof using SOk. intros Hb. unfold io_error. rewrite uvi_roundtrip, frame_roundtrip by lia. done. Qed.

Lemma all_supported p : ProtocolId_new p ∈ inbound_protocol_info.
Proof. apply list_elem_of_fmap. exists p. split; [done|]. destruct p; repeat (apply list_elem_of_here || apply list_elem_of_further). Qed.

Lemma crosses_map {X Y : Type} (f : X → Y) e (d : bytes → comp SszError X) x :
  crosses e d x → crosses e (λ b, map_ok f (d b)) (f x).
Proof. intros (b & ? & ? & Hd). exists b. by rewrite Hd. Qed.

Lemma request_crosses r p : request_ok r → p ∈ outbound_protocol_info r →
  crosses (request_serialize r) (deserialize_request p.(protocol)) r.
Proof using LOk TOk.
  intros Hr Hp. destruct r; simpl in Hp; apply list_elem_of_singleton in Hp as ->.
  - by apply (crosses_map ReqStatus), status_roundtrip.
  - by apply (crosses_map ReqGoodbye), goodbye_roundtrip_ssz.
  - by apply (crosses_map ReqPing), ping_roundtrip.
  - by exists [].
  - by apply (crosses_map ReqPooledUserOpHashes), hashes_request_roundtrip.
  - by apply (crosses_map ReqPooledUserOpsByHash), by_hash_request_roundtrip.
Qed.
Lemma response_crosses r : response_ok r →
  crosses (response_serialize r) (deserialize_response (protocol_of_response r)) r.
Proof using LOk TOk.
  destruct r; cbn [response_ok]; intros Hr.
  - by apply (crosses_map RespStatus), status_roundtrip.
  - by apply (crosses_map RespGoodbye), goodbye_roundtrip_ssz.
  - by apply (crosses_map RespPong), ping_roundtrip.
  - by apply (crosses_map RespMetaData), metadata_roundtrip.
  - apply (crosses_map (λ r, RespPooledUserOpHashes r.1 r.2) _ _ (hashes, next_cursor)).
    by apply hashes_response_roundtrip; apply Hr.
  - by apply (crosses_map RespPooledUserOpsByHash), by_hash_response_roundtrip; apply Hr.
Qed.

Lemma request_streams r : request_ok r → ∃ b, encode_request r [] = Ok b ∧
  ∀ p, p ∈ outbound_protocol_info r → p ∈ inbound_protocol_info ∧ decode_request p b = Ok (Some r).
Proof using LOk TOk SOk.
  intros Hr.
  assert (∃ p, outbound_protocol_info r = [ProtocolId_new p]) as [p Hp] by (destruct r; by eexists).
  destruct (request_crosses r (ProtocolId_new p) Hr) as (b & Hs & Hb & Hd);
    [rewrite Hp; by apply list_elem_of_singleton|].
  unfold encode_request. rewrite Hs. eexists. split; [done|]. rewrite Hp.
  intros q ->%list_elem_of_singleton. split; [apply all_supported|].
  unfold decode_request. rewrite bool_decide_false.
  - destruct (framed b Hb) as [H1 H2]. cbn [app]. rewrite H1. cbn [comp_bind]. rewrite H2.
    cbn [comp_bind]. by rewrite Hd.
  - intros [H _]. cbn [app] in H. apply app_nil in H as [H _]. apply (uvi_not_empty (length b)); [lia|done].
Qed.
Lemma response_streams r p : response_ok r → p.(protocol) = protocol_of_response r →
  ∃ b, encode_response r [] = Ok b ∧ decode_response p b = Ok (Some r).
Proof using LOk TOk SOk.
  intros Hr Hp. destruct (response_crosses r Hr) as (b & Hs & Hb & Hd). unfold encode_response. rewrite Hs.
  eexists. split; [done|]. cbn [app decode_response comp_bind].
  destruct (framed b Hb) as [H1 H2]. rewrite H1. cbn [comp_bind]. rewrite H2.
  cbn [comp_bind]. by rewrite Hp, Hd.
Qed.

(** C29. Between two nodes every well-formed request and response survives the
    stream: the bytes that one side writes are read by the other, under the protocol
    that the request negotiates, as the same message. *)
Theorem codec_roundtrip :
  (∀ r, request_ok r → ∃ b, encode_request r [] = Ok b ∧
     ∀ p, p ∈ outbound_protocol_info r →
       p ∈ inbound_protocol_info ∧ decode_request p b = Ok (Some r)) ∧
  (∀ r, response_ok r → ∃ b, encode_response r [] = Ok b ∧
     decode_response (ProtocolId_new (protocol_of_response r)) b = Ok (Some r)).
Proof using LOk TOk SOk.
  split; [apply request_streams|]. intros r Hr. by apply response_streams.
Qed.

(** one user operation without its fixed part *)
Lemma crashing_response (short ep h : bytes) :
  (20 ≤ length short < 228)%nat → length ep = 20%nat → length h = 32%nat →
  ∃ src, src ≠ [] ∧ decode_response (ProtocolId_new PrPooledUserOpsByHash) src = Panic.
Proof using LOk TOk SOk.
  intros Hshort Hep Hh.
  set (vparts := [SVariable short; SFixed ep; SFixed h]).
  set (v := ssz_container vparts). set (l := ssz_container (SVariable <$> [v])).
  set (b := ssz_container [SVariable l]).
  assert (length v = 4 + length short + 52)%nat as Hv.
  { unfold v. rewrite length_container. unfold part_length. simpl. lia. }
  assert (length l = 4 + length v)%nat as Hl.
  { unfold l. rewrite length_container. unfold part_length. simpl. lia. }
  assert (length b = 4 + length l)%nat as Hb.
  { unfold b. rewrite length_container. unfold part_length. simpl. lia. }
  exists (Byte.x00 :: uvi_encode (length b) ++ frame_encode b). split; [done|].
  cbn [decode_response]. destruct (framed b) as [H1 H2]; [lia|]. rewrite H1. cbn [comp_bind]. rewrite H2.
  cbn [comp_bind protocol ProtocolId_new deserialize_response]. unfold by_hash_response_deserialize.
  destruct (container_fields [None] [SVariable l]) as [_ Hc]; [unfold encodable; fold b; lia|done|].
  fold b in Hc. rewrite Hc. cbn [of_sum comp_bind fmap list_fmap part_bytes].
  pose proof (split_list_variable MAX_OPS_PER_REQUEST [v]) as Hs. fold l in Hs.
  rewrite Hs; [|unfold MAX_OPS_PER_REQUEST; cbn [length]; lia|unfold encodable; fold l; lia].
  cbn [of_sum comp_bind comp_map]. unfold v, vparts. by rewrite short_verified.
Qed.

(** No request can crash the decoder.  A response crashes it when it is empty, and,
    for the one protocol whose responses carry user operations, when one of these
    is shorter than its fixed part; under the other protocols nothing else does. *)
Theorem codec_crashes :
  (∀ p src, decode_request p src ≠ Panic) ∧
  (∀ p, decode_response p [] = Panic) ∧
  (∀ p x src, p.(protocol) ≠ PrPooledUserOpsByHash → decode_response p (x :: src) ≠ Panic) ∧
  (∃ src, src ≠ [] ∧ decode_response (ProtocolId_new PrPooledUserOpsByHash) src = Panic).
Proof using LOk TOk SOk.
  split; [apply decode_request_returns|]. split; [done|]. split; [apply decode_response_returns|].
  by eapply (crashing_response (repeat Byte.x00 20) (repeat Byte.x00 20) (repeat Byte.x00 32));
    rewrite ?repeat_length; lia.
Qed.
End codec.

(** ** A concrete stream: LEB128 lengths and stored frames *)
Fixpoint leb (fuel : nat) (z : Z) : bytes :=
  match fuel with
  | O => []
  | S fuel => if bool_decide (z < 128) then [byte.of_Z z] else byte.of_Z (128 + z mod 128) :: leb fuel (z / 128)
  end.
Fixpoint unleb (b : bytes) : option (Z * bytes) :=
  match b with
  | [] => None
  | x :: b => if bool_decide (byte.unsigned x < 128) then Some (byte.unsigned x, b)
              else '(z, b) ← unleb b; Some (byte.unsigned x - 128 + 128 * z, b)
  end.
Definition stored : StreamLib := {|
  uvi_encode n := leb 10 (Z.of_nat n);
  uvi_decode b := match unleb b with Some (z, b) => inr (Some (Z.to_nat z), b) | None => inr (None, b) end;
  frame_encode b := b; frame_decode b := inr b |}.

Lemma unleb_small z b : 0 ≤ z < 128 → unleb (byte.of_Z z :: b) = Some (z, b).
Proof.
  intros Hz. cbn [unleb]. rewrite byte.unsigned_of_Z; unfold byte.wrap; rewrite Z.mod_small by lia.
  by rewrite bool_decide_true by lia.
Qed.
Lemma unleb_leb fuel z rest :
  0 ≤ z < 128 ^ Z.of_nat (S fuel) → unleb (leb (S fuel) z ++ rest) = Some (z, rest).
Proof.
  revert z. induction fuel as [|fuel IH]; intros z Hz.
  { cbn [leb]. rewrite bool_decide_true by lia. apply unleb_small. lia. }
  remember (S fuel) as k eqn:Hk. cbn [leb]. case_bool_decide; cbn [app]; [apply unleb_small; lia|].
  cbn [unleb]. pose proof (Z.mod_pos_bound z 128). pose proof (Z.div_mod z 128).
  rewrite byte.unsigned_of_Z; unfold byte.wrap; rewrite Z.mod_small by lia. rewrite bool_decide_false by lia. rewrite IH.
  - simpl. do 2 f_equal. lia.
  - split; [apply Z.div_pos; lia|]. apply Z.div_lt_upper_bound; [lia|].
    rewrite Nat2Z.inj_succ, Z.pow_succ_r in Hz by lia. lia.
Qed.
#[global] Instance stored_ok : StreamOk stored.
Proof.
  split; [|done..]. intros n rest Hn. cbn [uvi_decode uvi_encode stored].
  rewrite unleb_leb by (change (128 ^ Z.of_nat 10) with (2 ^ 70); lia). by rewrite Nat2Z.id.
Qed.

Module Example.
#[local] Existing Instances le_ssz le_types stored.

(** the names of the protocols *)
Example supported_names : protocol_id <$> SUPPORTED_PROTOCOLS = [
  "/account_abstraction/req/status/1/ssz_snappy"; "/account_abstraction/req/goodbye/1/ssz_snappy";
  "/account_abstraction/req/ping/1/ssz_snappy"; "/account_abstraction/req/metadata/1/ssz_snappy";
  "/account_abstraction/req/pooled_user_op_hashes/1/ssz_snappy";
  "/account_abstraction/req/pooled_user_ops_by_hash/1/ssz_snappy"]%string.
Proof. reflexivity. Qed.

Definition verified : VerifiedUserOperation :=
  {| vu_user_operation := Ssz.Example.uo; vu_entry_point := 7; vu_verified_at_block_hash := 77 |}.
Example operations_cross : ∃ b, encode_response (RespPooledUserOpsByHash [verified; verified]) [] = Ok b ∧
  decode_response (ProtocolId_new PrPooledUserOpsByHash) b = Ok (Some (RespPooledUserOpsByHash [verified; verified])).
Proof. eexists. split; [vm_compute; reflexivity|]. vm_compute. reflexivity. Qed.

Lemma codec_roundtrip_witness : ∃ b, encode_request (ReqPing {| ping_data := 5 |}) [] = Ok b ∧
  decode_request (ProtocolId_new PrPing) b = Ok (Some (ReqPing {| ping_data := 5 |})).
Proof.
  destruct codec_roundtrip as [H _].
  destruct (H (ReqPing {| ping_data := 5 |})) as (b & Hb & Hp).
  - unfold request_ok, ping_wf, is_u64, U64_MAX. simpl. lia.
  - exists b. split; [exact Hb|]. apply Hp. apply list_elem_of_singleton. reflexivity.
Defined.

Lemma codec_crashes_witness : decode_response (ProtocolId_new PrPing) [Byte.x00] ≠ Panic.
Proof. destruct codec_crashes as (_ & _ & H & _). apply H. discriminate. Defined.
End Example.
