(* ===== verification/Handler.v ===== *)
(** The connection handler of the request-response protocol
    ([crates/p2p/src/rpc/handler.rs]): the substreams of one connection, the
    asynchronous tasks that read and write them, and what is reported to the
    protocol ([Rpc]).

    A task advances when its socket, its channel or its timer does; [Worker] is the
    point at which it waits, and the functions [inbound_data], [inbound_response],
    [outbound_send], [outbound_data] and [timeout] are its code between two such
    points.  [poll] receives which finished task and in which order the delivered
    requests are found, since [FuturesMap] and [FuturesUnordered] promise no order. *)

From stdpp Require Import gmultiset.
From S2P Require Import Prelude Primitives Ssz Rpc SszMessages Codec.

Definition REQUEST_SIZE_MAXIMUM : nat := Z.to_nat (1024 * 1024).
Definition RESPONSE_SIZE_MAXIMUM : nat := Z.to_nat (10 * 1024 * 1024).
(** the capacity of [worker_streams] *)
Definition WORKER_CAPACITY : nat := 100.

Inductive BoundTypeId := Inbound (id : RequestId) | Outbound (id : RequestId).
#[global] Instance BoundTypeId_eq_dec : EqDecision BoundTypeId.
Proof. solve_decision. Defined.
#[global] Instance BoundTypeId_countable : Countable BoundTypeId.
Proof.
  refine (inj_countable' (λ i, match i with Inbound x => inl x | Outbound x => inr x end)
    (λ s, match s with inl x => Inbound x | inr x => Outbound x end) _). by intros [].
Defined.

(** ** State *)
Inductive Outcome := Finished (r : HandlerError + HandlerEvent) | TimedOut.
Inductive Worker :=
| WRead (protocol_id : ProtocolId)
| WRespond (protocol_id : ProtocolId)
| WSend (protocol_id : ProtocolId) (request : Request)
| WReceive (protocol_id : ProtocolId)
| WOut (o : Outcome).
(** the channel on which an inbound task hands over its request *)
Inductive Chan := ChWaiting | ChReady (request : Request) | ChCanceled.

Record RPCHandler := {
  h_pending_events : list HandlerEvent;
  h_outbound : list OutboundInfo;
  h_inbound : gmap RequestId Chan;
  h_workers : gmap BoundTypeId Worker;
}.
Definition RPCHandler_new : RPCHandler :=
  {| h_pending_events := []; h_outbound := []; h_inbound := ∅; h_workers := ∅ |}.
Implicit Types (self : RPCHandler).

Definition with_events l self : RPCHandler := {| h_pending_events := l; h_outbound := self.(h_outbound);
  h_inbound := self.(h_inbound); h_workers := self.(h_workers) |}.
Definition with_outbound l self : RPCHandler := {| h_pending_events := self.(h_pending_events);
  h_outbound := l; h_inbound := self.(h_inbound); h_workers := self.(h_workers) |}.
Definition with_inbound m self : RPCHandler := {| h_pending_events := self.(h_pending_events);
  h_outbound := self.(h_outbound); h_inbound := m; h_workers := self.(h_workers) |}.
Definition with_workers m self : RPCHandler := {| h_pending_events := self.(h_pending_events);
  h_outbound := self.(h_outbound); h_inbound := self.(h_inbound); h_workers := m |}.
Definition set_worker (id : BoundTypeId) (w : Worker) self : RPCHandler :=
  with_workers (<[id := w]> self.(h_workers)) self.

(** dropping the sending half of a channel that holds no request cancels it *)
Definition cancel (req_id : RequestId) self : RPCHandler :=
  match self.(h_inbound) !! req_id with
  | Some ChWaiting => with_inbound (<[req_id := ChCanceled]> self.(h_inbound)) self
  | _ => self
  end.

(** ** The callbacks of libp2p *)
(** [listen_protocol]: [next] is the counter shared by the handlers *)
Definition listen_protocol (next : RequestId) self : RequestId * RequestId * RPCHandler :=
  (next, (next + 1) mod 2 ^ 64, with_inbound (<[next := ChWaiting]> self.(h_inbound)) self).

Definition h_on_behaviour_event (event : OutboundInfo) self : RPCHandler :=
  with_outbound (self.(h_outbound) ++ [event]) self.

(** [FuturesMap::try_push]: refused beyond the capacity, replaces a task of the same
    name *)
Definition try_push (id : BoundTypeId) (w : Worker) self : bool * RPCHandler :=
  if bool_decide (WORKER_CAPACITY ≤ size self.(h_workers))%nat then (false, self)
  else (true, set_worker id w self).

(** the task is dropped at capacity, and with it both channel halves *)
Definition on_fully_negotiated_inbound (protocol_id : ProtocolId) (req_id : RequestId) self : RPCHandler :=
  let '(pushed, self) := try_push (Inbound req_id) (WRead protocol_id) self in
  if pushed then self else cancel req_id self.
Definition on_fully_negotiated_outbound (protocol_id : ProtocolId) (info : OutboundInfo) self : RPCHandler :=
  (try_push (Outbound info.(oi_req_id)) (WSend protocol_id info.(oi_request)) self).2.

Inductive UpgradeError := UpTimeout | UpNegotiationFailed | UpOther.
Inductive ConnectionEvent :=
| FullyNegotiatedInbound (protocol_id : ProtocolId) (req_id : RequestId)
| FullyNegotiatedOutbound (protocol_id : ProtocolId) (info : OutboundInfo)
| DialUpgradeError (info : OutboundInfo) (error : UpgradeError)
| OtherConnectionEvent.
Definition on_connection_event (event : ConnectionEvent) self : RPCHandler :=
  match event with
  | FullyNegotiatedInbound p req_id => on_fully_negotiated_inbound p req_id self
  | FullyNegotiatedOutbound p info => on_fully_negotiated_outbound p info self
  | DialUpgradeError info UpTimeout =>
      with_events (self.(h_pending_events) ++ [HDialUpgradeTimeout info.(oi_req_id)]) self
  | DialUpgradeError info UpNegotiationFailed =>
      with_events (self.(h_pending_events) ++ [HOutboundUnsuportedProtocol info.(oi_req_id)]) self
  | DialUpgradeError _ UpOther | OtherConnectionEvent => self
  end.

(** ** The tasks *)
Section tasks.
Context {L : SszLib} {T : SszTypes} {SL : StreamLib}.

Definition finish {E} (id : BoundTypeId) (r : comp HandlerError HandlerEvent) : ST RPCHandler E () := λ self,
  match r with
  | Ok e => (Ok (), set_worker id (WOut (Finished (inr e))) self)
  | Err e => (Ok (), set_worker id (WOut (Finished (inl e))) self)
  | Panic => (Panic, self)
  end.

(** the inbound task, from the socket ([read_to_end] of at most the maximum) to the
    channel of the response; [send] panics when the handler no longer listens *)
Definition recv_request (p : ProtocolId) (data : string + bytes) : comp HandlerError Request :=
  let* data := io_error data in
  let* request := decode_request p (take REQUEST_SIZE_MAXIMUM data) in
  ok_or (IoError "Failed to decode request") request.
Definition inbound_data {E} (req_id : RequestId) (data : string + bytes) : ST RPCHandler E () := λ self,
  match self.(h_workers) !! Inbound req_id with
  | Some (WRead p) =>
      match recv_request p data with
      | Ok request =>
          match self.(h_inbound) !! req_id with
          | Some ChWaiting =>
              (Ok (), set_worker (Inbound req_id) (WRespond p)
                        (with_inbound (<[req_id := ChReady request]> self.(h_inbound)) self))
          | _ => (Panic, self)
          end
      | Err e => (Ok (), cancel req_id (set_worker (Inbound req_id) (WOut (Finished (inl e))) self))
      | Panic => (Panic, self)
      end
  | _ => (Ok (), self)
  end.

(** the response, or [None] when its sender was dropped; [io] is an error of the
    socket.  Returns what is written to the socket *)
Definition inbound_response {E} (req_id : RequestId) (response : option RPCResponse) (io : option string)
  : ST RPCHandler E (option bytes) := λ self,
  match self.(h_workers) !! Inbound req_id with
  | Some (WRespond p) =>
      let written := match response with
                     | Some response => map_ok Some (encode_response response [])
                     | None => Ok None
                     end in
      let event := match response with
                   | Some _ => HResponseSent req_id
                   | None => HResponseOmission req_id
                   end in
      (do* _ := finish (Inbound req_id)
         (let* _ := written in match io with None => Ok event | Some e => Err (IoError e) end) in
       st_ret match written, io with Ok (Some b), None => Some b | _, _ => None end) self
  | _ => (Ok None, self)
  end.

(** the outbound task: the request is written, then the response read *)
Definition outbound_send {E} (req_id : RequestId) (io : option string) : ST RPCHandler E (option bytes) := λ self,
  match self.(h_workers) !! Outbound req_id with
  | Some (WSend p request) =>
      match encode_request request [], io with
      | Ok b, None => (Ok (Some b), set_worker (Outbound req_id) (WReceive p) self)
      | r, _ =>
          (do* _ := finish (Outbound req_id)
             (let* _ := r in Err (IoError (default ""%string io))) in st_ret None) self
      end
  | _ => (Ok None, self)
  end.
Definition recv_response (p : ProtocolId) (data : string + bytes) : comp HandlerError RPCResponse :=
  let* data := io_error data in
  let* response := decode_response p (take RESPONSE_SIZE_MAXIMUM data) in
  ok_or (IoError "Failed to decode response") response.
Definition outbound_data {E} (req_id : RequestId) (data : string + bytes) : ST RPCHandler E () := λ self,
  match self.(h_workers) !! Outbound req_id with
  | Some (WReceive p) => finish (Outbound req_id) (map_ok (HResponse req_id) (recv_response p data)) self
  | _ => (Ok (), self)
  end.

(** the timer of a task; its future is dropped *)
Definition timeout (id : BoundTypeId) self : RPCHandler :=
  match self.(h_workers) !! id with
  | Some (WOut _) | None => self
  | Some w =>
      let self := set_worker id (WOut TimedOut) self in
      match id, w with Inbound req_id, WRead _ => cancel req_id self | _, _ => self end
  end.

(** ** [poll] *)
Inductive HandlerOutput :=
| NotifyBehaviour (event : HandlerEvent)
| OutboundSubstreamRequest (info : OutboundInfo).

Definition outcome_event (id : BoundTypeId) (o : Outcome) : HandlerEvent :=
  match o, id with
  | Finished (inr event), _ => event
  | TimedOut, Inbound id => HInboundTimeout id
  | TimedOut, Outbound id => HOutboundTimeout id
  | Finished (inl err), Inbound id => HInboundError id err
  | Finished (inl err), Outbound id => HOutboundError id err
  end.

(** the first delivered request; cancelled channels are dropped on the way *)
Fixpoint poll_inbound (order : list RequestId) (m : gmap RequestId Chan)
  : option (RequestId * Request) * gmap RequestId Chan :=
  match order with
  | [] => (None, m)
  | id :: order =>
      match m !! id with
      | Some (ChReady request) => (Some (id, request), delete id m)
      | Some ChCanceled => poll_inbound order (delete id m)
      | _ => poll_inbound order m
      end
  end.

Definition h_poll (finished : option BoundTypeId) (order : list RequestId) self
  : option HandlerOutput * RPCHandler :=
  match (id ← finished; w ← self.(h_workers) !! id; match w with WOut o => Some (id, o) | _ => None end) with
  | Some (id, o) =>
      (Some (NotifyBehaviour (outcome_event id o)), with_workers (delete id self.(h_workers)) self)
  | None =>
      match self.(h_pending_events) with
      | event :: events => (Some (NotifyBehaviour event), with_events events self)
      | [] =>
          let '(found, m) := poll_inbound order self.(h_inbound) in
          let self := with_inbound m self in
          match found with
          | Some (req_id, request) => (Some (NotifyBehaviour (HRequest req_id request req_id)), self)
          | None =>
              match self.(h_outbound) with
              | info :: infos => (Some (OutboundSubstreamRequest info), with_outbound infos self)
              | [] => (None, self)
              end
          end
      end
  end.
End tasks.

(** ** A handler and its surroundings: the substreams that libp2p negotiates, what was
    handed to the handler and what it reported *)
Record Sys := {
  s_handler : RPCHandler;
  s_next : RequestId;
  s_negotiating : list OutboundInfo;
  s_submitted : list RequestId;
  s_reported : list HandlerEvent;
  s_lost : list RequestId;
}.
Definition Sys_new : Sys := {| s_handler := RPCHandler_new; s_next := 1; s_negotiating := [];
  s_submitted := []; s_reported := []; s_lost := [] |}.

Inductive Call :=
| CSubmit (info : OutboundInfo)
| CListen
| CDropInfo (req_id : RequestId)
| CEvent (event : ConnectionEvent)
| CInData (req_id : RequestId) (data : string + bytes)
| CInResponse (req_id : RequestId) (response : option RPCResponse) (io : option string)
| COutSend (req_id : RequestId) (io : option string)
| COutData (req_id : RequestId) (data : string + bytes)
| CTimeout (id : BoundTypeId)
| CPoll (finished : option BoundTypeId) (order : list RequestId).

(** the request that an event of libp2p answers *)
Definition answered (event : ConnectionEvent) : option OutboundInfo :=
  match event with
  | FullyNegotiatedOutbound _ info | DialUpgradeError info _ => Some info
  | _ => None
  end.
Fixpoint remove_info (id : RequestId) (l : list OutboundInfo) : list OutboundInfo :=
  match l with
  | [] => []
  | x :: l => if bool_decide (x.(oi_req_id) = id) then l else x :: remove_info id l
  end.
(** the two ways in which the handler forgets a request *)
Definition forgets (event : ConnectionEvent) self : bool :=
  match event with
  | FullyNegotiatedOutbound _ _ => bool_decide (WORKER_CAPACITY ≤ size self.(h_workers))%nat
  | DialUpgradeError _ UpOther => true
  | _ => false
  end.

Definition with_handler (h : RPCHandler) (s : Sys) : Sys := {| s_handler := h; s_next := s.(s_next);
  s_negotiating := s.(s_negotiating); s_submitted := s.(s_submitted); s_reported := s.(s_reported);
  s_lost := s.(s_lost) |}.
Definition in_handler {X} (m : ST RPCHandler Empty_set X) (s : Sys) : comp Empty_set Sys :=
  let '(r, h) := m s.(s_handler) in map_ok (λ _, with_handler h s) r.

Section system.
Context {L : SszLib} {T : SszTypes} {SL : StreamLib}.

Definition sys_step (c : Call) (s : Sys) : comp Empty_set Sys :=
  match c with
  | CSubmit info =>
      Ok {| s_handler := h_on_behaviour_event info s.(s_handler); s_next := s.(s_next);
            s_negotiating := s.(s_negotiating); s_submitted := s.(s_submitted) ++ [info.(oi_req_id)];
            s_reported := s.(s_reported); s_lost := s.(s_lost) |}
  | CListen =>
      let '(_, next, h) := listen_protocol s.(s_next) s.(s_handler) in
      Ok {| s_handler := h; s_next := next; s_negotiating := s.(s_negotiating);
            s_submitted := s.(s_submitted); s_reported := s.(s_reported); s_lost := s.(s_lost) |}
  | CDropInfo req_id => Ok (with_handler (cancel req_id s.(s_handler)) s)
  | CEvent event =>
      let gone := from_option (λ i, [i.(oi_req_id)]) [] (answered event) in
      Ok {| s_handler := on_connection_event event s.(s_handler); s_next := s.(s_next);
            s_negotiating := foldr remove_info s.(s_negotiating) gone;
            s_submitted := s.(s_submitted); s_reported := s.(s_reported);
            s_lost := s.(s_lost) ++ if forgets event s.(s_handler) then gone else [] |}
  | CInData req_id data => in_handler (inbound_data req_id data) s
  | CInResponse req_id response io => in_handler (inbound_response req_id response io) s
  | COutSend req_id io => in_handler (outbound_send req_id io) s
  | COutData req_id data => in_handler (outbound_data req_id data) s
  | CTimeout id => Ok (with_handler (timeout id s.(s_handler)) s)
  | CPoll finished order =>
      let '(out, h) := h_poll finished order s.(s_handler) in
      Ok {| s_handler := h; s_next := s.(s_next);
            s_negotiating := s.(s_negotiating)
              ++ match out with Some (OutboundSubstreamRequest info) => [info] | _ => [] end;
            s_submitted := s.(s_submitted);
            s_reported := s.(s_reported)
              ++ match out with Some (NotifyBehaviour e) => [e] | _ => [] end;
            s_lost := s.(s_lost) |}
  end.

(** what the protocol and libp2p promise: request numbers are not reused, libp2p
    answers what it was asked, and opens a stream with an unused [InboundInfo] *)
Definition allowed (c : Call) (s : Sys) : Prop :=
  match c with
  | CSubmit info => info.(oi_req_id) ∉ s.(s_submitted)
  | CListen => s.(s_next) + 1 < 2 ^ 64
  | CDropInfo req_id | CEvent (FullyNegotiatedInbound _ req_id) =>
      s.(s_handler).(h_inbound) !! req_id = Some ChWaiting ∧
      s.(s_handler).(h_workers) !! Inbound req_id = None
  | CEvent event =>
      match answered event with Some info => info ∈ s.(s_negotiating) | None => True end
  | _ => True
  end.
Inductive reach : Sys → Prop :=
| reach_new : reach Sys_new
| reach_call c s s' : reach s → allowed c s → sys_step c s = Ok s' → reach s'.

(** ** Where the requests are *)
Definition outcome_of (e : HandlerEvent) : option RequestId :=
  match e with
  | HResponse id _ | HOutboundTimeout id | HOutboundError id _ | HDialUpgradeTimeout id
  | HOutboundUnsuportedProtocol id => Some id
  | _ => None
  end.
Definition outbound_id (id : BoundTypeId) : option RequestId :=
  match id with Outbound id => Some id | Inbound _ => None end.
Definition working (m : gmap BoundTypeId Worker) : list RequestId :=
  omap outbound_id (map_to_list m).*1.
Definition counted (l : list RequestId) : gmultiset RequestId := list_to_set_disj l.
(** a request waits, is being negotiated, is worked on, or its outcome is about to be
    or has been reported, or it was forgotten *)
Definition places (s : Sys) : gmultiset RequestId :=
  counted (oi_req_id <$> s.(s_handler).(h_outbound)) ⊎ counted (oi_req_id <$> s.(s_negotiating))
  ⊎ counted (working s.(s_handler).(h_workers))
  ⊎ counted (omap outcome_of s.(s_handler).(h_pending_events))
  ⊎ counted (omap outcome_of s.(s_reported)) ⊎ counted s.(s_lost).

(** what a finished task reports names its own request, inbound tasks answer for no
    outbound one, and a task that reads a request has a channel to deliver it *)
Definition worker_ok (self : RPCHandler) (id : BoundTypeId) (w : Worker) : Prop :=
  match w with
  | WOut (Finished (inr e)) => outcome_of e = outbound_id id
  | WRead _ => match id with Inbound i => self.(h_inbound) !! i = Some ChWaiting | _ => False end
  | WRespond _ => match id with Inbound i => True | _ => False end
  | _ => True
  end.
Definition handler_ok (s : Sys) : Prop :=
  NoDup s.(s_submitted) ∧ places s = counted s.(s_submitted) ∧
  map_Forall (worker_ok s.(s_handler)) s.(s_handler).(h_workers) ∧
  map_Forall (λ id (_ : Chan), id < s.(s_next)) s.(s_handler).(h_inbound).

Lemma counted_app l1 l2 : counted (l1 ++ l2) = counted l1 ⊎ counted l2.
Proof. apply list_to_set_disj_app. Qed.
Lemma counted_cons x l : counted (x :: l) = {[+ x +]} ⊎ counted l.
Proof. apply list_to_set_disj_cons. Qed.
Lemma elem_of_counted x l : x ∈ counted l ↔ x ∈ l.
Proof. apply elem_of_list_to_set_disj. Qed.

Definition own (id : BoundTypeId) : gmultiset RequestId := counted (option_list (outbound_id id)).
Lemma working_insert id w m : m !! id = None →
  counted (working (<[id := w]> m)) = own id ⊎ counted (working m).
Proof.
  intros Hn. unfold own. rewrite <-counted_app. apply list_to_set_disj_perm. unfold working.
  rewrite (map_to_list_insert m id w Hn). rewrite fmap_cons. simpl. by destruct (outbound_id id).
Qed.
Lemma working_delete id w m : m !! id = Some w →
  counted (working m) = own id ⊎ counted (working (delete id m)).
Proof.
  intros Hw. rewrite <-(insert_delete_id m id w Hw) at 1. by rewrite working_insert by apply lookup_delete_eq.
Qed.
Lemma working_update id w m : is_Some (m !! id) →
  counted (working (<[id := w]> m)) = counted (working m).
Proof.
  intros [w' Hw]. rewrite (working_delete id w' m Hw), <-insert_delete_eq.
  by rewrite working_insert by apply lookup_delete_eq.
Qed.
Lemma remove_info_counted info l : info ∈ l →
  counted (oi_req_id <$> l) = {[+ info.(oi_req_id) +]} ⊎ counted (oi_req_id <$> remove_info info.(oi_req_id) l).
Proof.
  induction l as [|x l IH]; [by inversion 1|]. intros [-> | Hin]%elem_of_cons; cbn [remove_info].
  - by rewrite bool_decide_true, fmap_cons, counted_cons by done.
  - case_bool_decide as Hx; [by rewrite fmap_cons, counted_cons, Hx|].
    rewrite !fmap_cons, !counted_cons, (IH Hin). multiset_solver.
Qed.
Lemma omap_snoc (l : list HandlerEvent) e :
  counted (omap outcome_of (l ++ [e])) = counted (omap outcome_of l) ⊎ counted (option_list (outcome_of e)).
Proof. by rewrite omap_app, counted_app. Qed.

(** ** Changes inside of the handler *)
Lemma handler_ok_keep s h : handler_ok s → h.(h_outbound) = s.(s_handler).(h_outbound) →
  h.(h_pending_events) = s.(s_handler).(h_pending_events) →
  counted (working h.(h_workers)) = counted (working s.(s_handler).(h_workers)) →
  map_Forall (worker_ok h) h.(h_workers) → map_Forall (λ id (_ : Chan), id < s.(s_next)) h.(h_inbound) →
  handler_ok (with_handler h s).
Proof.
  intros (Hn & Hp & _ & _) Ho He Hw Hok Hin. split; [done|]. split; [|done].
  simpl. rewrite <-Hp. unfold places. simpl. by rewrite Ho, He, Hw.
Qed.
Lemma handler_ok_set s id w : handler_ok s → is_Some (s.(s_handler).(h_workers) !! id) →
  worker_ok s.(s_handler) id w → handler_ok (with_handler (set_worker id w s.(s_handler)) s).
Proof.
  intros Hs Hid Hw. pose proof Hs as (_ & _ & Hok & Hin).
  apply handler_ok_keep; try done; simpl; [by apply working_update|].
  apply map_Forall_insert_2; [done|exact Hok].
Qed.
(** the channel of a request that no task is reading may change *)
Definition unread (req_id : RequestId) self : Prop :=
  ∀ p, self.(h_workers) !! Inbound req_id ≠ Some (WRead p).
Lemma handler_ok_chan s req_id c : handler_ok s → unread req_id s.(s_handler) →
  is_Some (s.(s_handler).(h_inbound) !! req_id) →
  handler_ok (with_handler (with_inbound (<[req_id := c]> s.(s_handler).(h_inbound)) s.(s_handler)) s).
Proof.
  intros Hs Hu [c' Hc]. pose proof Hs as (_ & _ & Hok & Hin).
  apply handler_ok_keep; try done; simpl.
  - intros id w Hw. specialize (Hok id w Hw). destruct w as [p| | | |]; try done. simpl in *.
    destruct id as [i|]; [|done]. destruct (decide (i = req_id)) as [-> |]; [by destruct (Hu p)|].
    by rewrite lookup_insert_ne.
  - apply map_Forall_insert_2; [by apply (Hin _ _ Hc)|done].
Qed.
Lemma handler_ok_cancel s req_id : handler_ok s → unread req_id s.(s_handler) →
  handler_ok (with_handler (cancel req_id s.(s_handler)) s).
Proof.
  intros Hs Hu. unfold cancel. destruct (_ !! req_id) as [[]|] eqn:Hc; try by destruct s.
  apply handler_ok_chan; [done..|by eexists].
Qed.

Lemma finish_ok {X} s id r (k : comp Empty_set X) s' : handler_ok s →
  is_Some (s.(s_handler).(h_workers) !! id) → (∀ e, r = Ok e → outcome_of e = outbound_id id) →
  in_handler (do* _ := finish id r in st_lift k) s = Ok s' → handler_ok s'.
Proof.
  intros Hs Hid He. unfold in_handler, finish, st_bind, st_lift.
  destruct r as [e|e|]; [| |done]; simpl; destruct k; simpl; intros [= <-]; apply handler_ok_set; try done.
  by apply He.
Qed.

Lemma in_data_ok s req_id data s' : handler_ok s →
  in_handler (inbound_data req_id data) s = Ok s' → handler_ok s'.
Proof.
  intros Hs. unfold in_handler, inbound_data.
  destruct (h_workers (s_handler s) !! Inbound req_id) as [[p|p|p r|p|o]|] eqn:Hw;
    try (intros [= <-]; by destruct s).
  destruct (recv_request p data) as [request|e|]; [| |done].
  - destruct (h_inbound (s_handler s) !! req_id) as [[]|] eqn:Hc; try done. intros [= <-].
    apply (handler_ok_chan (with_handler (set_worker (Inbound req_id) (WRespond p) (s_handler s)) s)).
    + by apply handler_ok_set; [|eexists|].
    + intros q. simpl. by rewrite lookup_insert_eq.
    + by eexists.
  - intros [= <-].
    apply (handler_ok_cancel (with_handler (set_worker (Inbound req_id) (WOut (Finished (inl e))) (s_handler s)) s)).
    + by apply handler_ok_set; [|eexists|].
    + intros q. simpl. by rewrite lookup_insert_eq.
Qed.

Lemma in_response_ok s req_id response io s' : handler_ok s →
  in_handler (inbound_response req_id response io) s = Ok s' → handler_ok s'.
Proof.
  intros Hs. unfold inbound_response.
  destruct (h_workers (s_handler s) !! Inbound req_id) as [[p|p|p r|p|o]|] eqn:Hw; unfold in_handler;
    rewrite Hw; try (intros [= <-]; by destruct s).
  apply (finish_ok s (Inbound req_id) _ (Ok _)); [done|by eexists|].
  intros e (x & _ & He)%comp_bind_ok. destruct io; [done|]. simplify_eq. by destruct response.
Qed.

Lemma out_send_ok s req_id io s' : handler_ok s →
  in_handler (outbound_send req_id io) s = Ok s' → handler_ok s'.
Proof.
  intros Hs. unfold outbound_send.
  destruct (h_workers (s_handler s) !! Outbound req_id) as [[p|p|p r|p|o]|] eqn:Hw; unfold in_handler;
    rewrite Hw; try (intros [= <-]; by destruct s).
  destruct (encode_request r []) as [b|e|] eqn:He; [destruct io as [e|]|..].
  - apply (finish_ok s (Outbound req_id) _ (Ok None)); [done|by eexists|done].
  - intros [= <-]. by apply handler_ok_set; [|eexists|].
  - apply (finish_ok s (Outbound req_id) _ (Ok None)); [done|by eexists|done].
  - apply (finish_ok s (Outbound req_id) _ (Ok None)); [done|by eexists|done].
Qed.

Lemma out_data_ok s req_id data s' : handler_ok s →
  in_handler (outbound_data req_id data) s = Ok s' → handler_ok s'.
Proof.
  intros Hs. unfold outbound_data.
  destruct (h_workers (s_handler s) !! Outbound req_id) as [[p|p|p r|p|o]|] eqn:Hw; unfold in_handler;
    rewrite Hw; try (intros [= <-]; by destruct s).
  unfold finish. destruct (recv_response p data) as [r|e|]; [| |done]; simpl; intros [= <-];
    by apply handler_ok_set; [|eexists|].
Qed.

Lemma timeout_ok s id : handler_ok s → handler_ok (with_handler (timeout id s.(s_handler)) s).
Proof.
  intros Hs. unfold timeout. destruct (h_workers (s_handler s) !! id) as [w|] eqn:Hw; [|by destruct s].
  assert (handler_ok (with_handler (set_worker id (WOut TimedOut) (s_handler s)) s)) as Ht
    by (by apply handler_ok_set; [|eexists|]).
  destruct w as [p|p|p r|p|o]; [|destruct id; exact Ht..|by destruct s].
  destruct id as [i|i]; [|exact Ht].
  apply (handler_ok_cancel _ i Ht). intros q. simpl. by rewrite lookup_insert_eq.
Qed.

Lemma counted_once l x : NoDup l → (multiplicity x (counted l) ≤ 1)%nat.
Proof.
  induction 1 as [|y l Hy _ IH]; [unfold counted; rewrite list_to_set_disj_nil, multiplicity_empty; lia|].
  rewrite counted_cons, multiplicity_disj_union.
  destruct (decide (x = y)) as [-> | Hne].
  - rewrite multiplicity_singleton, decide_True by done.
    assert (multiplicity y (counted l) = 0%nat); [|lia].
    apply not_elem_of_multiplicity. by rewrite elem_of_counted.
  - by rewrite multiplicity_singleton, decide_False by done.
Qed.
(** a request that is being negotiated has no task yet *)
Lemma negotiating_fresh s info : handler_ok s → info ∈ s.(s_negotiating) →
  s.(s_handler).(h_workers) !! Outbound info.(oi_req_id) = None.
Proof.
  intros (Hn & Hp & _) Hin. destruct (_ !! _) as [w|] eqn:Hw; [exfalso|done].
  apply (counted_once _ info.(oi_req_id)) in Hn. rewrite <-Hp in Hn. unfold places in Hn.
  rewrite (remove_info_counted info _ Hin), (working_delete _ _ _ Hw) in Hn. unfold own in Hn.
  change (option_list (outbound_id (Outbound (oi_req_id info)))) with [oi_req_id info] in Hn.
  rewrite counted_cons, !multiplicity_disj_union, !multiplicity_singleton, !decide_True in Hn by done. lia.
Qed.

Lemma event_ok s event s' : handler_ok s → allowed (CEvent event) s →
  sys_step (CEvent event) s = Ok s' → handler_ok s'.
Proof.
  intros Hs Ha [= <-]. pose proof Hs as (Hn & Hp & Hok & Hin). unfold places in Hp.
  destruct event as [p id|p info|info e|]; simpl in Ha |- *; unfold on_fully_negotiated_inbound,
    on_fully_negotiated_outbound, try_push.
  - destruct Ha as [Hc Hw]. case_bool_decide; rewrite app_nil_r.
    + apply (handler_ok_cancel s id Hs). intros q. by rewrite Hw.
    + split; [done|]. split; [unfold places; simpl; rewrite <-Hp, working_insert by done; multiset_solver|].
      split; [|done]. by apply map_Forall_insert_2.
  - pose proof (negotiating_fresh s info Hs Ha) as Hw. rewrite (remove_info_counted info _ Ha) in Hp.
    case_bool_decide; (split; [done|]); (split; [|split; [|done]]); simpl; try done.
    + unfold places. simpl. rewrite <-Hp, counted_app. multiset_solver.
    + unfold places. simpl. rewrite <-Hp, app_nil_r, working_insert by done. multiset_solver.
    + by apply map_Forall_insert_2.
  - rewrite (remove_info_counted info _ Ha) in Hp.
    destruct e; (split; [done|]); (split; [|split; done]); unfold places; simpl;
      rewrite <-Hp, ?app_nil_r, ?omap_snoc, ?counted_app; multiset_solver.
  - rewrite app_nil_r. by destruct s.
Qed.

Lemma poll_inbound_keeps order m id : m !! id = Some ChWaiting →
  (poll_inbound order m).2 !! id = Some ChWaiting.
Proof.
  revert m. induction order as [|i order IH]; intros m Hm; [done|]. simpl.
  destruct (m !! i) as [[| |]|] eqn:Hi; try by apply IH.
  - simpl. by rewrite lookup_delete_ne by congruence.
  - apply IH. by rewrite lookup_delete_ne by congruence.
Qed.
Lemma poll_inbound_subseteq order m : (poll_inbound order m).2 ⊆ m.
Proof.
  revert m. induction order as [|i order IH]; intros m; [done|]. simpl.
  destruct (m !! i) as [[| |]|]; try apply IH; [apply delete_subseteq|].
  etrans; [apply IH|apply delete_subseteq].
Qed.

Lemma poll_ok s finished order s' : handler_ok s → sys_step (CPoll finished order) s = Ok s' → handler_ok s'.
Proof.
  intros Hs. pose proof Hs as (Hn & Hp & Hok & Hin). unfold places in Hp. cbn [sys_step]. unfold h_poll.
  destruct (id ← finished; _) as [[id o]|] eqn:Hf.
  { apply bind_Some in Hf as (i & -> & (w & Hw & Hwo)%bind_Some).
    destruct w; try done. simplify_eq. intros [= <-].
    split; [done|]. split; [|split; [by apply map_Forall_delete|done]].
    unfold places. simpl. rewrite <-Hp, (working_delete _ _ _ Hw), omap_snoc, app_nil_r.
    assert (option_list (outcome_of (outcome_event id o)) = option_list (outbound_id id)) as ->.
    { specialize (Hok _ _ Hw). destruct o as [[|]|]; simpl in *; [by destruct id|by rewrite Hok|by destruct id]. }
    fold (own id). multiset_solver. }
  clear Hf. destruct (h_pending_events (s_handler s)) as [|event events] eqn:He.
  2: { intros [= <-]. split; [done|]. split; [|done]. unfold places. simpl.
       rewrite <-Hp, omap_snoc, app_nil_r. cbn [omap list_omap].
       destruct (outcome_of event); simpl; rewrite ?counted_cons; multiset_solver. }
  pose proof (poll_inbound_keeps order (h_inbound (s_handler s))) as Hk.
  pose proof (poll_inbound_subseteq order (h_inbound (s_handler s))) as Hsub.
  destruct (poll_inbound order (h_inbound (s_handler s))) as [found m]. simpl in Hk, Hsub.
  assert (map_Forall (worker_ok (with_inbound m (s_handler s))) (h_workers (s_handler s))) as Hok'.
  { intros id w Hw. specialize (Hok id w Hw). destruct w; try done. destruct id; [by apply Hk|done]. }
  assert (map_Forall (λ id (_ : Chan), id < s.(s_next)) m) as Hin'.
  { intros id c Hc. apply (Hin id c). by eapply lookup_weaken. }
  destruct found as [[req_id request]|].
  { intros [= <-]. split; [done|]. split; [|split; done]. unfold places. simpl.
    rewrite <-Hp, He, omap_snoc, app_nil_r. multiset_solver. }
  simpl. destruct (h_outbound (s_handler s)) as [|info infos] eqn:Ho; intros [= <-];
    (split; [done|]); (split; [|split; done]); unfold places; simpl; rewrite <-Hp, ?Ho, ?He, ?app_nil_r.
  - done.
  - rewrite fmap_app, fmap_cons, counted_app, counted_cons. simpl. rewrite counted_cons. multiset_solver.
Qed.

Lemma submit_ok s info s' : handler_ok s → allowed (CSubmit info) s →
  sys_step (CSubmit info) s = Ok s' → handler_ok s'.
Proof.
  intros (Hn & Hp & Hok) Ha [= <-]. split; [|split; [|done]].
  - apply NoDup_app. split; [done|]. split; [|apply NoDup_singleton].
    intros x Hx ->%list_elem_of_singleton. by apply Ha.
  - simpl. rewrite counted_app, <-Hp. unfold places. simpl. rewrite fmap_app, counted_app. multiset_solver.
Qed.
Lemma listen_ok s s' : handler_ok s → allowed CListen s → 0 < s.(s_next) →
  sys_step CListen s = Ok s' → handler_ok s' ∧ 0 < s'.(s_next).
Proof.
  intros (Hn & Hp & Hok & Hin) Ha H0 [= <-]. simpl in *. rewrite Z.mod_small by lia. split; [|lia].
  split; [done|]. split; [done|]. simpl. split.
  - intros id w Hw. specialize (Hok id w Hw). destruct w; try done. destruct id as [i|]; [|done].
    simpl in *. rewrite lookup_insert_ne; [done|]. intros <-. specialize (Hin _ _ Hok). simpl in Hin. lia.
  - apply map_Forall_insert_2; [lia|]. intros i c Hc. specialize (Hin i c Hc). simpl in Hin. lia.
Qed.

Lemma in_handler_frame {X} (m : ST RPCHandler Empty_set X) s s' : in_handler m s = Ok s' →
  s'.(s_lost) = s.(s_lost) ∧ s'.(s_next) = s.(s_next).
Proof. unfold in_handler. destruct (m (s_handler s)) as [[]]; simpl; by intros [= <-]. Qed.

Lemma reach_inv s : reach s → handler_ok s ∧ 0 < s.(s_next).
Proof.
  induction 1 as [|c s s' _ [IH Hn] Ha Hstep].
  - split; [|done]. split; [constructor|]. split; [done|]. split; apply map_Forall_empty.
  - destruct c; cbn [sys_step] in Hstep.
    + split; [by eapply submit_ok|by simplify_eq].
    + by eapply listen_ok.
    + simplify_eq. split; [|done]. apply handler_ok_cancel; [done|]. destruct Ha as [_ Hw].
      intros q. by rewrite Hw.
    + split; [by eapply event_ok|by simplify_eq].
    + split; [by eapply in_data_ok|]. by apply in_handler_frame in Hstep as [_ ->].
    + split; [by eapply in_response_ok|]. by apply in_handler_frame in Hstep as [_ ->].
    + split; [by eapply out_send_ok|]. by apply in_handler_frame in Hstep as [_ ->].
    + split; [by eapply out_data_ok|]. by apply in_handler_frame in Hstep as [_ ->].
    + simplify_eq. split; [by apply timeout_ok|done].
    + split; [by eapply poll_ok|]. destruct (h_poll _ _ _). by simplify_eq.
Qed.

(** what can panic: only the decoding of a response *)
Lemma step_panics s c : handler_ok s → sys_step c s = Panic → ∃ id data p,
  c = COutData id data ∧ s.(s_handler).(h_workers) !! Outbound id = Some (WReceive p) ∧
  recv_response p data = Panic.
Proof.
  intros (_ & _ & Hok & _). destruct c as [| | |event|id data|id r io|id io|id data| |f o];
    cbn [sys_step]; unfold in_handler; try done.
  - unfold inbound_data. destruct (_ !! _) as [[p| | | |]|] eqn:Hw; try done.
    destruct (recv_request p data) as [request|e|] eqn:Hr; try done.
    + specialize (Hok _ _ Hw). simpl in Hok. by rewrite Hok.
    + exfalso. revert Hr. unfold recv_request. apply returns_bind; [apply returns_map_err, returns_sum|].
      intros x. apply returns_bind; [apply decode_request_returns|]. by intros [].
  - unfold inbound_response. destruct (_ !! _) as [[]|]; try done. unfold st_bind, finish.
    assert (∀ item dst, encode_response item dst ≠ Panic) as He.
    { intros item dst. apply returns_bind; [|done]. apply returns_map_err, response_serialize_returns. }
    destruct r as [r|]; [|by destruct io].
    specialize (He r []). destruct (encode_response r []); by destruct io.
  - unfold outbound_send. destruct (_ !! _) as [[]|]; try done.
    assert (encode_request request [] ≠ Panic) as He.
    { apply returns_bind; [|done]. apply returns_map_err, request_serialize_returns. }
    destruct (encode_request request []); [by destruct io| |done]. done.
  - unfold outbound_data. destruct (_ !! _) as [[| | |p|]|] eqn:Hw; try done.
    unfold finish. destruct (recv_response p data) eqn:Hr; try done. intros _. by eexists _, _, _.
  - by destruct (h_poll f o (s_handler s)).
Qed.

(** C30. Every request handed to a connection is, at any time, in exactly one place: it
    waits, its substream is being negotiated, a task works on it, its outcome is
    about to be or has been reported, or it was forgotten; so no outcome is
    reported twice.  A request is forgotten without any report in exactly two cases,
    when its substream opens while 100 tasks are active and when opening it fails
    for another reason than a timeout or an unknown protocol.  The handler panics
    only where the response of a peer crashes the decoder. *)
Theorem handler_accounts s : reach s →
  NoDup s.(s_submitted) ∧ places s = counted s.(s_submitted) ∧
  (∀ c s', sys_step c s = Ok s' → s'.(s_lost) ≠ s.(s_lost) → s'.(s_handler) = s.(s_handler) ∧
     ∃ info, s'.(s_lost) = s.(s_lost) ++ [info.(oi_req_id)] ∧
       (c = CEvent (DialUpgradeError info UpOther) ∨
        ∃ p, c = CEvent (FullyNegotiatedOutbound p info) ∧
             (WORKER_CAPACITY ≤ size s.(s_handler).(h_workers))%nat)) ∧
  (∀ c, sys_step c s = Panic → ∃ id data p, c = COutData id data ∧
     s.(s_handler).(h_workers) !! Outbound id = Some (WReceive p) ∧ recv_response p data = Panic).
Proof.
  intros [Hs _]%reach_inv. split; [apply Hs|]. split; [apply Hs|]. split; [|by intros c; apply step_panics].
  intros c s' Hstep Hlost. destruct c as [| | |event| | | | | |f o]; cbn [sys_step] in Hstep;
    try (by simplify_eq/=); try (by apply in_handler_frame in Hstep as [? _]).
  - injection Hstep as <-. simpl in Hlost |- *.
    destruct event as [p id|p info|info e|]; simpl in *; try (by rewrite app_nil_r in Hlost).
    + unfold on_fully_negotiated_outbound, try_push. case_bool_decide; [|by rewrite app_nil_r in Hlost].
      split; [done|]. exists info. split; [done|]. right. by exists p.
    + destruct e; try (by rewrite app_nil_r in Hlost). split; [done|]. exists info. split; [done|by left].
  - destruct (h_poll f o (s_handler s)). by simplify_eq.
Qed.

Context {LOk : SszOk L} {TOk : SszTypesOk T} {SOk : StreamOk SL}.

(** A request and its response, end to end: the request that one handler writes is
    read by the handler at the other end and reported there under a number of its
    own; the response given for this number comes back and is reported for the
    number of the request, as long as both fit into the sizes that are read. *)
Theorem handlers_exchange (a b : RPCHandler) next p info resp :
  request_ok info.(oi_request) → outbound_protocol_info info.(oi_request) = [p] →
  response_ok resp → p.(protocol) = protocol_of_response resp →
  (size a.(h_workers) < WORKER_CAPACITY)%nat → (size b.(h_workers) < WORKER_CAPACITY)%nat →
  b.(h_pending_events) = [] →
  ∃ sent a1, outbound_send (E:=Empty_set) info.(oi_req_id) None (on_fully_negotiated_outbound p info a)
               = (Ok (Some sent), a1) ∧
  ((length sent ≤ REQUEST_SIZE_MAXIMUM)%nat →
   ∃ b1 b2, inbound_data (E:=Empty_set) next (inr sent)
              (on_fully_negotiated_inbound p next (listen_protocol next b).2) = (Ok (), b1) ∧
     h_poll None [next] b1 = (Some (NotifyBehaviour (HRequest next info.(oi_request) next)), b2) ∧
     ∃ answer b3, inbound_response (E:=Empty_set) next (Some resp) None b2 = (Ok (Some answer), b3) ∧
       (h_poll (Some (Inbound next)) [] b3).1 = Some (NotifyBehaviour (HResponseSent next)) ∧
       ((length answer ≤ RESPONSE_SIZE_MAXIMUM)%nat →
        ∃ a2, outbound_data (E:=Empty_set) info.(oi_req_id) (inr answer) a1 = (Ok (), a2) ∧
          (h_poll (Some (Outbound info.(oi_req_id))) [] a2).1 =
            Some (NotifyBehaviour (HResponse info.(oi_req_id) resp)))).
Proof using LOk TOk SOk.
  intros Hreq Hp Hresp Hpr Ha Hb He.
  destruct (request_streams _ Hreq) as (sent & Hs & Hd). rewrite Hp in Hd.
  destruct (Hd p) as [_ Hdp]; [by apply list_elem_of_singleton|]. clear Hd.
  destruct (response_streams resp p Hresp Hpr) as (answer & Hw & Hr).
  eexists sent, _. split.
  { unfold outbound_send, on_fully_negotiated_outbound, try_push.
    rewrite bool_decide_false by lia. simpl. rewrite lookup_insert_eq, Hs. reflexivity. }
  intros Hlen. eexists _, _. split.
  { unfold inbound_data, on_fully_negotiated_inbound, try_push. simpl.
    rewrite bool_decide_false by lia. simpl. rewrite lookup_insert_eq.
    unfold recv_request. simpl. rewrite take_ge, Hdp by done. simpl. rewrite lookup_insert_eq. reflexivity. }
  split; [unfold h_poll; simpl; rewrite He; simpl; rewrite lookup_insert_eq; reflexivity|].
  eexists answer, _. split.
  { unfold inbound_response. simpl. rewrite lookup_insert_eq, Hw. reflexivity. }
  split; [unfold h_poll; simpl; by rewrite lookup_insert_eq|].
  intros Hlen'. eexists. split.
  { unfold outbound_data. simpl. rewrite lookup_insert_eq. unfold recv_response. simpl.
    rewrite take_ge, Hr by done. reflexivity. }
  unfold h_poll. simpl. by rewrite lookup_insert_eq.
Qed.

(** A request that the other side does not answer, because it drops the channel of the
    response as the network service does for every goodbye, crashes the one who sent
    it: the handler at the other end closes the stream without writing a byte and
    reports the omission, and the empty response panics in the decoder. *)
Theorem omitted_response_crashes (a b : RPCHandler) next p info :
  request_ok info.(oi_request) → outbound_protocol_info info.(oi_request) = [p] →
  (size a.(h_workers) < WORKER_CAPACITY)%nat → b.(h_workers) !! Inbound next = Some (WRespond p) →
  ∃ sent a1 b1, outbound_send (E:=Empty_set) info.(oi_req_id) None (on_fully_negotiated_outbound p info a)
               = (Ok (Some sent), a1) ∧
    inbound_response (E:=Empty_set) next None None b = (Ok None, b1) ∧
    (h_poll (Some (Inbound next)) [] b1).1 = Some (NotifyBehaviour (HResponseOmission next)) ∧
    (outbound_data (E:=Empty_set) info.(oi_req_id) (inr []) a1).1 = Panic.
Proof using LOk TOk SOk.
  intros Hreq Hp Ha Hb. destruct (request_streams _ Hreq) as (sent & Hs & _).
  eexists sent, _, _. split.
  { unfold outbound_send, on_fully_negotiated_outbound, try_push.
    rewrite bool_decide_false by lia. simpl. rewrite lookup_insert_eq, Hs. reflexivity. }
  split; [unfold inbound_response; rewrite Hb; reflexivity|].
  split; [unfold h_poll; simpl; by rewrite lookup_insert_eq|].
  unfold outbound_data. simpl. by rewrite lookup_insert_eq.
Qed.
End system.

(** ** One ping over one connection *)
Module Example.
#[local] Existing Instances le_ssz le_types stored.

Definition info : OutboundInfo := {| oi_req_id := 1; oi_request := ReqPing {| ping_data := 5 |} |}.
Definition ping_id : ProtocolId := ProtocolId_new PrPing.

(** the request is handed over, negotiated and written; its empty answer crashes *)
Definition after_submit : Sys := {| s_handler := h_on_behaviour_event info RPCHandler_new; s_next := 1;
  s_negotiating := []; s_submitted := [1]; s_reported := []; s_lost := [] |}.
Definition after_poll : Sys := {| s_handler := RPCHandler_new; s_next := 1;
  s_negotiating := [info]; s_submitted := [1]; s_reported := []; s_lost := [] |}.
Lemma after_poll_reach : reach after_poll.
Proof.
  apply (reach_call (CPoll None []) after_submit); [|exact I|reflexivity].
  apply (reach_call (CSubmit info) Sys_new); [apply reach_new|apply not_elem_of_nil|reflexivity].
Qed.
Lemma handler_accounts_witness : places after_poll = counted [1].
Proof. apply (handler_accounts after_poll after_poll_reach). Defined.

Lemma handlers_exchange_witness : ∃ sent a1,
  outbound_send (E:=Empty_set) 1 None (on_fully_negotiated_outbound ping_id info RPCHandler_new)
    = (Ok (Some sent), a1).
Proof.
  destruct (handlers_exchange RPCHandler_new RPCHandler_new 1 ping_id info (RespPong {| ping_data := 7 |}))
    as (sent & a1 & H & _).
  - unfold request_ok, ping_wf, is_u64, U64_MAX. simpl. lia.
  - reflexivity.
  - unfold response_ok, ping_wf, is_u64, U64_MAX. simpl. lia.
  - reflexivity.
  - unfold WORKER_CAPACITY. simpl. rewrite map_size_empty. lia.
  - unfold WORKER_CAPACITY. simpl. rewrite map_size_empty. lia.
  - reflexivity.
  - exists sent, a1. exact H.
Defined.

Lemma omitted_response_crashes_witness : ∃ sent a1,
  outbound_send (E:=Empty_set) 1 None (on_fully_negotiated_outbound ping_id info RPCHandler_new)
    = (Ok (Some sent), a1) ∧ (outbound_data (E:=Empty_set) 1 (inr []) a1).1 = Panic.
Proof.
  destruct (omitted_response_crashes RPCHandler_new
    (set_worker (Inbound 3) (WRespond ping_id) RPCHandler_new) 3 ping_id info)
    as (sent & a1 & _ & H1 & _ & _ & H2).
  - unfold request_ok, ping_wf, is_u64, U64_MAX. simpl. lia.
  - reflexivity.
  - unfold WORKER_CAPACITY. simpl. rewrite map_size_empty. lia.
  - reflexivity.
  - exists sent, a1. split; [exact H1|exact H2].
Defined.

(** a peer that closes the stream without an answer crashes the task *)
Example empty_answer_panics : (outbound_data (E:=Empty_set) 1 (inr [])
  (outbound_send (E:=Empty_set) 1 None (on_fully_negotiated_outbound ping_id info RPCHandler_new)).2).1 = Panic.
Proof. vm_compute. reflexivity. Qed.
End Example.
