(* ===== verification/Gossip.v ===== *)
(** Gossip ([crates/p2p/src/types/topics.rs], [types/pubsub.rs] and
    [gossipsub_config] of [config.rs]): topics and the subscription filter, the
    snappy transformation of messages and their identifiers. *)

From S2P Require Import Prelude Primitives Ssz Rpc SszMessages.

Definition TOPIC_PREFIX : string := "account_abstraction".
Definition USER_OPERATIONS_TOPIC : string := "user_operations".
Definition SSZ_SNAPPY_ENCODING : string := "ssz_snappy".
Definition GOSSIP_MAX_SIZE : nat := Z.to_nat 1048576.
Definition MESSAGE_DOMAIN_VALID_SNAPPY : bytes := [Byte.x01; Byte.x00; Byte.x00; Byte.x00].

(** ** [topics.rs] *)
Definition topic (mempool_id : string) : string :=
  ("/" +:+ TOPIC_PREFIX +:+ "/" +:+ mempool_id +:+ "/" +:+ USER_OPERATIONS_TOPIC +:+ "/"
   +:+ SSZ_SNAPPY_ENCODING)%string.

(** [WhitelistSubscriptionFilter]: the topics that may be subscribed to *)
Definition create_whitelist_filter (mempool_ids : list string) : gset string :=
  fold_left (λ hashes mempool_id, {[topic mempool_id]} ∪ hashes) mempool_ids ∅.

(** ** Libraries: the raw snappy format, SHA-256, and the constructor of gossipsub *)
Class SnapLib := {
  decompress_len : bytes → string + nat;
  decompress : bytes → string + bytes;
  compress : bytes → string + bytes;
  sha256 : bytes → bytes;
  gossipsub_new : option string;
}.
(** snappy is lossless for blocks of less than 4 GiB and records their length *)
Class SnapOk (SN : SnapLib) := {
  snap_roundtrip : ∀ d, Z.of_nat (length d) < 2 ^ 32 → ∃ c,
    compress d = inr c ∧ decompress_len c = inr (length d) ∧ decompress c = inr d;
  snap_len : ∀ c d, decompress c = inr d → decompress_len c = inr (length d);
}.

Section gossip.
Context {SN : SnapLib}.

(** ** [SnappyTransform] *)
Record SnappyTransform := { max_size_per_message : nat }.
Definition SnappyTransform_default : SnappyTransform := {| max_size_per_message := GOSSIP_MAX_SIZE |}.

Definition inbound_transform (self : SnappyTransform) (data : bytes) : comp string bytes :=
  let* len := of_sum (decompress_len data) in
  if bool_decide (self.(max_size_per_message) < len)%nat
  then Err "ssz_snappy decoded data > GOSSIP_MAX_SIZE"%string
  else of_sum (decompress data).
Definition outbound_transform (self : SnappyTransform) (data : bytes) : comp string bytes :=
  if bool_decide (self.(max_size_per_message) < length data)%nat
  then Err "ssz_snappy Encoded data > GOSSIP_MAX_SIZE"%string
  else of_sum (compress data).

(** [message_id_fn] of [gossipsub_config] *)
Definition message_id (topic : string) (data : bytes) : bytes :=
  let topic_bytes := String.list_byte_of_string topic in
  take 20 (sha256 (MESSAGE_DOMAIN_VALID_SNAPPY ++ le_split 8 (Z.of_nat (length topic_bytes))
                   ++ topic_bytes ++ data)).

(** ** [create_gossipsub] *)
Record Gossipsub := {
  gs_filter : gset string;
  gs_transform : SnappyTransform;
  gs_subscriptions : gset string;
  gs_explicit_peers : gset PeerId;
}.
(** [Behaviour::subscribe]: the filter decides; [false] if subscribed already *)
Definition gs_subscribe (t : string) : ST Gossipsub string bool := λ self,
  if bool_decide (t ∈ self.(gs_filter)) then
    if bool_decide (t ∈ self.(gs_subscriptions)) then (Ok false, self)
    else (Ok true, {| gs_filter := self.(gs_filter); gs_transform := self.(gs_transform);
                      gs_subscriptions := {[t]} ∪ self.(gs_subscriptions);
                      gs_explicit_peers := self.(gs_explicit_peers) |})
  else (Err "NotAllowed"%string, self).
Definition add_explicit_peer (p : PeerId) (self : Gossipsub) : Gossipsub :=
  {| gs_filter := self.(gs_filter); gs_transform := self.(gs_transform);
     gs_subscriptions := self.(gs_subscriptions);
     gs_explicit_peers := {[p]} ∪ self.(gs_explicit_peers) |}.

Definition create_gossipsub (mempool_ids : list string) : comp string Gossipsub :=
  match gossipsub_new with
  | Some e => Err e
  | None =>
      let gossipsub := {| gs_filter := create_whitelist_filter mempool_ids;
        gs_transform := {| max_size_per_message := GOSSIP_MAX_SIZE |};
        gs_subscriptions := ∅; gs_explicit_peers := ∅ |} in
      match st_for mempool_ids (λ mempool_id,
              do* _ := st_map_err (λ _, "subscribe error"%string) (gs_subscribe (topic mempool_id)) in st_ret ()) gossipsub with
      | (Ok _, gossipsub) => Ok gossipsub
      | (Err e, _) => Err e
      | (Panic, _) => Panic
      end
  end.

Definition topics_of (ids : list string) : gset string := list_to_set (topic <$> ids).
Lemma whitelist_spec ids : create_whitelist_filter ids = topics_of ids.
Proof.
  unfold create_whitelist_filter, topics_of.
  assert (∀ acc : gset string, fold_left (λ hashes i, {[topic i]} ∪ hashes) ids acc
    = list_to_set (topic <$> ids) ∪ acc) as H.
  { induction ids as [|i ids IH]; intros acc; [simpl; set_solver|].
    cbn [fold_left]. rewrite IH, fmap_cons, list_to_set_cons. set_solver. }
  rewrite H. set_solver.
Qed.

Lemma subscribe_all ids self : topics_of ids ⊆ self.(gs_filter) →
  st_for ids (λ mempool_id, do* _ := st_map_err (λ _, "subscribe error"%string)
    (gs_subscribe (topic mempool_id)) in st_ret ()) self =
  (Ok (), {| gs_filter := self.(gs_filter); gs_transform := self.(gs_transform);
             gs_subscriptions := topics_of ids ∪ self.(gs_subscriptions);
             gs_explicit_peers := self.(gs_explicit_peers) |}).
Proof.
  unfold topics_of. revert self. induction ids as [|i ids IH]; intros self Hf.
  { destruct self. cbn. do 2 f_equal. set_solver. }
  rewrite fmap_cons, list_to_set_cons in Hf. cbn [st_for].
  erewrite st_bind_step.
  2: { erewrite st_bind_step; [done|]. unfold st_map_err, gs_subscribe.
       rewrite bool_decide_true by set_solver.
       instantiate (1 := {| gs_filter := self.(gs_filter); gs_transform := self.(gs_transform);
         gs_subscriptions := {[topic i]} ∪ self.(gs_subscriptions);
         gs_explicit_peers := self.(gs_explicit_peers) |}).
       instantiate (1 := negb (bool_decide (topic i ∈ self.(gs_subscriptions)))).
       case_bool_decide; [|done]. simpl. f_equal. destruct self. f_equal. simpl in *. set_solver. }
  rewrite IH by (simpl; set_solver). rewrite fmap_cons, list_to_set_cons.
  cbn [gs_filter gs_transform gs_subscriptions gs_explicit_peers]. do 2 f_equal. set_solver.
Qed.

(** The node subscribes to the topics of its mempools and to no other, now or later. *)
Lemma gossipsub_created ids : gossipsub_new = None → ∃ g,
  create_gossipsub ids = Ok g ∧ g.(gs_subscriptions) = topics_of ids ∧ g.(gs_filter) = topics_of ids ∧
  g.(gs_transform) = SnappyTransform_default.
Proof.
  intros Hn. unfold create_gossipsub. rewrite Hn, subscribe_all by (simpl; by rewrite whitelist_spec).
  eexists. split; [done|]. simpl. rewrite whitelist_spec, union_empty_r_L. done.
Qed.

Lemma length_append a b : String.length (a +:+ b) = (String.length a + String.length b)%nat.
Proof. induction a as [|c a IH]; [done|]. simpl. by rewrite IH. Qed.
Lemma append_cancel s a b : a +:+ s = b +:+ s → a = b.
Proof.
  revert b. induction a as [|c a IH]; intros [|d b] H; [done| | |].
  - apply (f_equal String.length) in H. simpl in H. rewrite !length_append in H. simpl in H. lia.
  - apply (f_equal String.length) in H. simpl in H. rewrite !length_append in H. simpl in H. lia.
  - simpl in H. injection H as -> H. f_equal. by apply IH.
Qed.
(** different mempools have different topics *)
#[global] Instance topic_inj : Inj (=) (=) topic.
Proof.
  intros a b H. unfold topic in H.
  apply (inj (String.append "/")), (inj (String.append TOPIC_PREFIX)), (inj (String.append "/")) in H.
  by apply append_cancel in H.
Qed.

Context {L : SszLib} {T : SszTypes} {LOk : SszOk L} {TOk : SszTypesOk T} {SOk : SnapOk SN}.

(** A well-formed operation fits into a message and survives the compression. *)
Lemma message_crosses v : verified_wf v → ∃ data wire,
  verified_serialize v = Ok data ∧ outbound_transform SnappyTransform_default data = Ok wire ∧
  inbound_transform SnappyTransform_default wire = Ok data ∧ verified_deserialize data = Ok v.
Proof using LOk TOk SOk.
  intros Hv. destruct (verified_encoded v Hv) as [Hs Hd]. pose proof (verified_length v Hv) as Hl.
  exists (ssz_container (verified_parts v)).
  destruct (snap_roundtrip (ssz_container (verified_parts v))) as (c & Hc & Hlen & Hb); [lia|].
  exists c. split; [done|]. unfold outbound_transform, inbound_transform. rewrite Hc, Hlen, Hb.
  cbn [of_sum comp_bind]. simpl max_size_per_message.
  rewrite !bool_decide_false by (unfold GOSSIP_MAX_SIZE; lia). done.
Qed.

(** No message is decompressed beyond the limit. *)
Lemma inbound_bounded self wire data :
  inbound_transform self wire = Ok data → (length data ≤ self.(max_size_per_message))%nat.
Proof using SOk.
  unfold inbound_transform. intros (len & Hlen & Hd)%comp_bind_ok.
  case_bool_decide; [done|]. destruct (decompress wire) as [|d] eqn:Hw; [done|].
  simplify_eq/=. apply snap_len in Hw. rewrite Hw in Hlen. simplify_eq/=. lia.
Qed.
End gossip.
Arguments SnappyTransform : clear implicits.
Arguments Gossipsub : clear implicits.

(** ** A concrete library: stored blocks *)
Definition stored_blocks : SnapLib := {|
  decompress_len b := inr (length b); decompress := inr; compress := inr;
  sha256 b := take 32 (b ++ repeat Byte.x00 32);
  gossipsub_new := None |}.
#[global] Instance stored_blocks_ok : SnapOk stored_blocks.
Proof. split; [|by intros c d [= ->]]. intros d _. by exists d. Qed.

Module Example.
#[local] Existing Instance stored_blocks.
Example topic_name : topic "Qm" = "/account_abstraction/Qm/user_operations/ssz_snappy"%string.
Proof. reflexivity. Qed.
Example two_mempools : ∃ g, create_gossipsub ["Qm1"; "Qm2"]%string = Ok g ∧
  (gs_subscribe (topic "Qm3") g).1 = Err "NotAllowed"%string.
Proof. eexists. split; [reflexivity|]. vm_compute. reflexivity. Qed.
End Example.
