(* ===== verification/Peers.v ===== *)
(** The peer manager ([crates/p2p/src/peer_manager]): the connection state of every
    known peer, the peers that are pinged, the queue of peers to dial, and the
    discovery of further ones. *)

From S2P Require Import Prelude Primitives Rpc.

(** [discv5::Enr], compared by value; [peer_id] derives the peer from its key *)
Class EnrLib := {
  Enr : Type;
  Enr_eq_dec :: EqDecision Enr;
  enr_peer_id : Enr → PeerId;
}.

(** ** [peer_info.rs] *)
Inductive PeerConnectionStatus := PConnected | PDisconnected | PDisconnecting | PDialing | PUnknown.
Inductive ConnectionDirection := Incoming | Outgoing.
#[global] Instance status_eq_dec : EqDecision PeerConnectionStatus.
Proof. solve_decision. Defined.
#[global] Instance direction_eq_dec : EqDecision ConnectionDirection.
Proof. solve_decision. Defined.

Inductive PeerManagerEvent :=
| PeerConnectedIncoming (p : PeerId)
| PeerConnectedOutgoing (p : PeerId)
| PeerDisconnected (p : PeerId)
| EvPing (p : PeerId)
| EvMetaData (p : PeerId)
| DiscoverPeers (n : nat)
| DisconnectPeer (p : PeerId) (reason : GoodbyeReason).

Definition TARGET_PEERS : nat := 50.

Section peers.
Context {EN : EnrLib}.

Record PeerInfo := {
  connection_status : PeerConnectionStatus;
  enr : option Enr;
  metadata : option MetaData;
  connection_direction : option ConnectionDirection;
}.
Definition PeerInfo_default : PeerInfo :=
  {| connection_status := PUnknown; enr := None; metadata := None; connection_direction := None |}.

Definition set_metadata (m : MetaData) (i : PeerInfo) : PeerInfo :=
  {| connection_status := i.(connection_status); enr := i.(enr); metadata := Some m;
     connection_direction := i.(connection_direction) |}.
Definition set_enr (e : option Enr) (i : PeerInfo) : PeerInfo :=
  {| connection_status := i.(connection_status); enr := e; metadata := i.(metadata);
     connection_direction := i.(connection_direction) |}.
Definition set_connection_status (s : PeerConnectionStatus) (i : PeerInfo) : PeerInfo :=
  {| connection_status := s; enr := i.(enr); metadata := i.(metadata);
     connection_direction := i.(connection_direction) |}.
(** the error is only logged by the caller *)
Definition set_dialing_peer (i : PeerInfo) : string + PeerInfo :=
  match i.(connection_status) with
  | PConnected => inl "Dialing peer is already connected"%string
  | PDisconnecting => inl "Dialing peer is disconnecting"%string
  | PDialing => inl "Dialing peer is already dialing"%string
  | PDisconnected | PUnknown => inr (set_connection_status PDialing i)
  end.
Definition connect (d : ConnectionDirection) (i : PeerInfo) : PeerInfo :=
  {| connection_status := PConnected; enr := i.(enr); metadata := i.(metadata);
     connection_direction := Some d |}.

(** ** [peerdb.rs] *)
Abbreviation PeerDB := (gmap PeerId PeerInfo).

Definition PeerDB_new (trusted_peers : list PeerId) : PeerDB :=
  fold_left (λ m p, <[p := PeerInfo_default]> m) trusted_peers ∅.

Definition status_of (p : PeerId) (db : PeerDB) : option PeerConnectionStatus :=
  connection_status <$> db !! p.
Definition is_connected_or_disconnecting (p : PeerId) (db : PeerDB) : bool :=
  bool_decide (status_of p db = Some PConnected) || bool_decide (status_of p db = Some PDisconnecting).
Definition is_connected (p : PeerId) (db : PeerDB) : bool :=
  bool_decide (status_of p db = Some PConnected).
Definition is_connected_or_dialing (p : PeerId) (db : PeerDB) : bool :=
  bool_decide (status_of p db = Some PConnected) || bool_decide (status_of p db = Some PDialing).
Definition connected_or_dialing_peers (db : PeerDB) : nat :=
  size (filter (λ kv, kv.2.(connection_status) = PConnected ∨ kv.2.(connection_status) = PDialing) db).
Definition should_dial (p : PeerId) (db : PeerDB) : bool :=
  match status_of p db with
  | Some PDisconnected | Some PUnknown | None => true
  | _ => false
  end.

Inductive NewConnectionState :=
| NewConnected (e : option Enr) (direction : ConnectionDirection)
| NewDisconnected
| NewDisconnecting
| NewDialing (e : option Enr).

Definition new_info (s : NewConnectionState) (info : PeerInfo) : PeerInfo :=
  match s with
  | NewConnected e direction => connect direction (set_enr e info)
  | NewDialing e =>
      let info := set_enr e info in
      match set_dialing_peer info with inr info => info | inl _ => info end
  | NewDisconnected => set_connection_status PDisconnected info
  | NewDisconnecting => set_connection_status PDisconnecting info
  end.
(** [entry(peer).or_default()] *)
Definition update_connection_state (p : PeerId) (s : NewConnectionState) (db : PeerDB) : PeerDB :=
  <[p := new_info s (default PeerInfo_default (db !! p))]> db.
Arguments update_connection_state p s db /.

(** ** [peer_manager/mod.rs]; a [HashSetDelay] is the set of its keys, which
    expire at some time *)
Record PeerManager := {
  peers : PeerDB;
  events : list PeerManagerEvent;
  inbound_ping_peers : gset PeerId;
  outbound_ping_peers : gset PeerId;
  target_peers : nat;
  peers_to_dial : list Enr;
}.
Definition PeerManager_new (db : PeerDB) : PeerManager :=
  {| peers := db; events := []; inbound_ping_peers := ∅; outbound_ping_peers := ∅;
     target_peers := TARGET_PEERS; peers_to_dial := [] |}.

Definition with_peers db self : PeerManager :=
  {| peers := db; events := self.(events); inbound_ping_peers := self.(inbound_ping_peers);
     outbound_ping_peers := self.(outbound_ping_peers); target_peers := self.(target_peers);
     peers_to_dial := self.(peers_to_dial) |}.
Definition push_back (e : PeerManagerEvent) self : PeerManager :=
  {| peers := self.(peers); events := self.(events) ++ [e];
     inbound_ping_peers := self.(inbound_ping_peers);
     outbound_ping_peers := self.(outbound_ping_peers); target_peers := self.(target_peers);
     peers_to_dial := self.(peers_to_dial) |}.
Definition with_pings i o self : PeerManager :=
  {| peers := self.(peers); events := self.(events); inbound_ping_peers := i;
     outbound_ping_peers := o; target_peers := self.(target_peers);
     peers_to_dial := self.(peers_to_dial) |}.
Definition with_dials l self : PeerManager :=
  {| peers := self.(peers); events := self.(events);
     inbound_ping_peers := self.(inbound_ping_peers);
     outbound_ping_peers := self.(outbound_ping_peers); target_peers := self.(target_peers);
     peers_to_dial := l |}.
Definition ping_inbound p self :=
  with_pings ({[p]} ∪ self.(inbound_ping_peers)) self.(outbound_ping_peers) self.
Definition ping_outbound p self :=
  with_pings self.(inbound_ping_peers) ({[p]} ∪ self.(outbound_ping_peers)) self.
Implicit Types (self : PeerManager).

Definition dial_peer (e : Enr) self : bool * PeerManager :=
  if should_dial (enr_peer_id e) self.(peers)
  then (true, with_dials (self.(peers_to_dial) ++ [e]) self)
  else (false, self).

Definition maintain_peer_count (dialing_peers : nat) self : PeerManager :=
  if bool_decide (connected_or_dialing_peers self.(peers) < self.(target_peers) - dialing_peers)%nat
     && negb (bool_decide (dialing_peers = 0)%nat)
  then push_back (DiscoverPeers dialing_peers) self else self.

Fixpoint dial_all (results : list Enr) (to_dial_peers : nat) self : nat * PeerManager :=
  match results with
  | [] => (to_dial_peers, self)
  | e :: results =>
      if bool_decide (e ∈ self.(peers_to_dial)) then dial_all results to_dial_peers self
      else
        let '(b, self) := dial_peer e self in
        dial_all results (if b then S to_dial_peers else to_dial_peers) self
  end.
Definition peers_discovered (results : list Enr) self : PeerManager :=
  let '(to_dial_peers, self) := dial_all results 0 self in
  maintain_peer_count to_dial_peers self.

(** asks for metadata that are missing or older than [seq] *)
Definition refresh_metadata (p : PeerId) (info : PeerInfo) (seq : Z) self : PeerManager :=
  match info.(metadata) with
  | Some m => if bool_decide (m.(seq_number) < seq) then push_back (EvMetaData p) self else self
  | None => push_back (EvMetaData p) self
  end.

Definition ping_request (p : PeerId) (seq : Z) self : PeerManager :=
  match self.(peers) !! p with
  | Some info =>
      let self := match info.(connection_direction) with
                  | Some Incoming => ping_inbound p self
                  | Some Outgoing => ping_outbound p self
                  | None => self
                  end in
      refresh_metadata p info seq self
  | None => self
  end.
Definition pong_response (p : PeerId) (seq : Z) self : PeerManager :=
  match self.(peers) !! p with Some info => refresh_metadata p info seq self | None => self end.
Definition metadata_response (p : PeerId) (m : MetaData) self : PeerManager :=
  match self.(peers) !! p with
  | Some info => with_peers (<[p := set_metadata m info]> self.(peers)) self
  | None => self
  end.

Definition inject_disconnect (p : PeerId) self : PeerManager :=
  with_pings (self.(inbound_ping_peers) ∖ {[p]}) (self.(outbound_ping_peers) ∖ {[p]})
    (with_peers (update_connection_state p NewDisconnected self.(peers)) self).

Inductive ConnectingType := Dialing | IngoingConnected | OutgoingConnected.
Definition inject_peer_connection (p : PeerId) (c : ConnectingType) (e : option Enr) self : PeerManager :=
  match c with
  | Dialing => with_peers (update_connection_state p (NewDialing e) self.(peers)) self
  | IngoingConnected =>
      ping_inbound p (with_peers (update_connection_state p (NewConnected e Incoming) self.(peers)) self)
  | OutgoingConnected =>
      ping_outbound p (with_peers (update_connection_state p (NewConnected e Outgoing) self.(peers)) self)
  end.

Definition disconnect_peer (p : PeerId) (reason : GoodbyeReason) self : PeerManager :=
  with_peers (update_connection_state p NewDisconnecting self.(peers))
    (push_back (DisconnectPeer p reason) self).

(** ** [network_behaviour.rs] *)
Definition on_connection_established (p : PeerId) (endpoint : ConnectionDirection)
    (other_established : nat) self : PeerManager :=
  let self := if bool_decide (other_established = 0)%nat then push_back (EvMetaData p) self else self in
  match endpoint with
  | Incoming => push_back (PeerConnectedIncoming p) (inject_peer_connection p IngoingConnected None self)
  | Outgoing => push_back (PeerConnectedOutgoing p) (inject_peer_connection p OutgoingConnected None self)
  end.

Definition on_connection_closed (p : PeerId) (remaining_established : nat) self : PeerManager :=
  if bool_decide (0 < remaining_established)%nat then self
  else
    let self := if is_connected_or_disconnecting p self.(peers)
                then push_back (PeerDisconnected p) self else self in
    inject_disconnect p self.

Definition on_dial_failure (p : option PeerId) self : PeerManager :=
  match p with
  | Some p => if is_connected p self.(peers) then self else inject_disconnect p self
  | None => self
  end.

(** ** [network_behaviour.rs]: the events of the swarm, the others are ignored *)
Inductive FromSwarm :=
| PmEstablished (p : PeerId) (endpoint : ConnectionDirection) (other_established : nat)
| PmClosed (p : PeerId) (remaining_established : nat)
| PmDialFailure (p : option PeerId)
| PmOther.
Definition on_swarm_event (event : FromSwarm) self : PeerManager :=
  match event with
  | PmEstablished p endpoint other_established => on_connection_established p endpoint other_established self
  | PmClosed p remaining_established => on_connection_closed p remaining_established self
  | PmDialFailure p => on_dial_failure p self
  | PmOther => self
  end.

(** the keys that have expired are pinged and inserted again *)
Definition ping_expired_inbound (expired : list PeerId) self : PeerManager :=
  fold_left (λ self p, push_back (EvPing p)
    (ping_inbound p (with_pings (self.(inbound_ping_peers) ∖ {[p]}) self.(outbound_ping_peers) self)))
    expired self.
Definition ping_expired_outbound (expired : list PeerId) self : PeerManager :=
  fold_left (λ self p, push_back (EvPing p)
    (ping_outbound p (with_pings self.(inbound_ping_peers) (self.(outbound_ping_peers) ∖ {[p]}) self)))
    expired self.

Inductive Polled := PollEvent (e : PeerManagerEvent) | PollDial (p : PeerId) (e : Enr) | Pending.
Definition poll (expired_inbound expired_outbound : list PeerId) self : Polled * PeerManager :=
  let self := ping_expired_outbound expired_outbound (ping_expired_inbound expired_inbound self) in
  match self.(events) with
  | e :: es => (PollEvent e,
      {| peers := self.(peers); events := es; inbound_ping_peers := self.(inbound_ping_peers);
         outbound_ping_peers := self.(outbound_ping_peers); target_peers := self.(target_peers);
         peers_to_dial := self.(peers_to_dial) |})
  | [] =>
      match last self.(peers_to_dial) with
      | Some e =>
          let p := enr_peer_id e in
          let self := with_dials (removelast self.(peers_to_dial)) self in
          (PollDial p e, inject_peer_connection p Dialing (Some e) self)
      | None => (Pending, self)
      end
  end.

(** ** The calls of the network service and of libp2p; only keys of the sets expire.
    A step carries the peers that are late: those whose ping request is handled
    when they are no longer connected. *)
Definition pinged (p : PeerId) self : Prop :=
  p ∈ self.(inbound_ping_peers) ∨ p ∈ self.(outbound_ping_peers).

Inductive peer_step : PeerManager → list PeerId → PeerManager → Prop :=
| step_discovered self results : peer_step self [] (peers_discovered results self)
| step_ping self p seq :
    peer_step self (if is_connected_or_disconnecting p self.(peers) then [] else [p])
      (ping_request p seq self)
| step_pong self p seq : peer_step self [] (pong_response p seq self)
| step_metadata self p m : peer_step self [] (metadata_response p m self)
| step_established self p endpoint other :
    peer_step self [] (on_connection_established p endpoint other self)
| step_closed self p remaining : peer_step self [] (on_connection_closed p remaining self)
| step_dial_failure self p : peer_step self [] (on_dial_failure p self)
| step_disconnect self p reason : peer_step self [] (disconnect_peer p reason self)
| step_poll self ein eout :
    (∀ p, p ∈ ein → p ∈ self.(inbound_ping_peers)) →
    (∀ p, p ∈ eout → p ∈ self.(outbound_ping_peers)) →
    peer_step self [] (poll ein eout self).2.

Inductive peer_run : PeerManager → list PeerId → PeerManager → Prop :=
| run_start self : peer_run self [] self
| run_step self late self1 late1 self2 :
    peer_run self late self1 → peer_step self1 late1 self2 → peer_run self (late1 ++ late) self2.

(** ** Invariant: pings follow the connections *)
Definition ping_set (d : ConnectionDirection) self : gset PeerId :=
  match d with Incoming => self.(inbound_ping_peers) | Outgoing => self.(outbound_ping_peers) end.

Definition peers_ok (late : list PeerId) self : Prop := ∀ p,
  (p ∉ late → pinged p self → is_connected_or_disconnecting p self.(peers) = true) ∧
  (∀ info, self.(peers) !! p = Some info → info.(connection_status) = PConnected →
     ∃ d, info.(connection_direction) = Some d ∧ p ∈ ping_set d self).

(** the same peers with the same status and direction *)
Definition same_conn (a b : PeerManager) : Prop :=
  a.(inbound_ping_peers) = b.(inbound_ping_peers) ∧ a.(outbound_ping_peers) = b.(outbound_ping_peers) ∧
  ∀ p, (λ i, (i.(connection_status), i.(connection_direction))) <$> a.(peers) !! p =
       (λ i, (i.(connection_status), i.(connection_direction))) <$> b.(peers) !! p.

Lemma connected_or_disconnecting_true p db :
  is_connected_or_disconnecting p db = true ↔
  ∃ i, db !! p = Some i ∧ (i.(connection_status) = PConnected ∨ i.(connection_status) = PDisconnecting).
Proof.
  unfold is_connected_or_disconnecting, status_of. rewrite orb_true_iff, !bool_decide_eq_true.
  destruct (db !! p) as [i|]; simpl; split.
  - intros [[= Hs]|[= Hs]]; eauto.
  - intros (j & [= <-] & [Hs|Hs]); rewrite Hs; auto.
  - by intros [?|?].
  - by intros (? & ? & _).
Qed.

Lemma same_conn_ok late a b : same_conn a b → peers_ok late a → peers_ok late b.
Proof.
  intros (Hi & Ho & Hp) Ha p. specialize (Ha p) as [H1 H2]. specialize (Hp p).
  rewrite connected_or_disconnecting_true in *. unfold pinged in *. rewrite <-Hi, <-Ho. split.
  - intros Hnl Hping. destruct (H1 Hnl Hping) as (i & Hl & Hs). rewrite Hl in Hp. destruct (peers b !! p) as [j|]; [|done].
    exists j. split; [done|]. injection Hp as Hs1 Hs2. by rewrite <-Hs1.
  - intros info Hl Hs. rewrite Hl in Hp. destruct (peers a !! p) as [i|]; [|done]. simplify_eq/=.
    destruct (H2 i) as (d & ? & ?); [done|congruence|]. exists d. split; [congruence|].
    by destruct d; simpl; rewrite <-?Hi, <-?Ho.
Qed.

Lemma peers_ok_push late e self : peers_ok late self → peers_ok late (push_back e self).
Proof. by apply same_conn_ok. Qed.

Lemma peers_ok_dials late l self : peers_ok late self → peers_ok late (with_dials l self).
Proof. by apply same_conn_ok. Qed.

Lemma peers_ok_refresh late p info seq self : peers_ok late self → peers_ok late (refresh_metadata p info seq self).
Proof.
  intros Hok. unfold refresh_metadata. destruct (metadata info); [case_bool_decide|];
    auto using peers_ok_push.
Qed.

Lemma peers_ok_dial_all late results n self : peers_ok late self → peers_ok late (dial_all results n self).2.
Proof.
  revert n self. induction results as [|e results IH]; intros n self Hok; simpl; [done|].
  case_bool_decide; [by apply IH|]. unfold dial_peer.
  destruct (should_dial _ _); apply IH; auto using peers_ok_dials.
Qed.

(** another peer is not affected by a change of [p] *)
Lemma peers_ok_update late (f : PeerManager → PeerManager) p self :
  peers_ok late self →
  (∀ q, q ≠ p → (f self).(peers) !! q = self.(peers) !! q ∧
     (∀ d, q ∈ ping_set d (f self) ↔ q ∈ ping_set d self)) →
  (p ∉ late → pinged p (f self) → is_connected_or_disconnecting p (f self).(peers) = true) →
  (∀ info, (f self).(peers) !! p = Some info → info.(connection_status) = PConnected →
     ∃ d, info.(connection_direction) = Some d ∧ p ∈ ping_set d (f self)) →
  peers_ok late (f self).
Proof.
  intros Hok Hq Hp1 Hp2 q. destruct (decide (q = p)) as [->|Hne]; [done|].
  destruct (Hq q Hne) as [Hl Hs]. destruct (Hok q) as [H1 H2]. rewrite Hl.
  rewrite connected_or_disconnecting_true in *. rewrite Hl. split.
  - intros Hnl Hping. apply H1; [done|]. destruct Hping as [?|?]; [left; by apply (Hs Incoming)|right; by apply (Hs Outgoing)].
  - intros info Hi Hst. destruct (H2 info Hi Hst) as (d & ? & ?). exists d. split; [done|]. by apply Hs.
Qed.

Lemma peers_ok_disconnect late p self : peers_ok late self → peers_ok late (inject_disconnect p self).
Proof.
  intros Hok. apply (peers_ok_update late (inject_disconnect p) p self Hok).
  - intros q Hne. simpl. rewrite lookup_insert_ne by done. split; [done|].
    intros []; simpl; set_solver.
  - unfold pinged. simpl. set_solver.
  - simpl. intros info. rewrite lookup_insert_eq. by intros [= <-].
Qed.

Lemma peers_ok_connect late p endpoint e self :
  peers_ok late self →
  peers_ok late (inject_peer_connection p
    (match endpoint with Incoming => IngoingConnected | Outgoing => OutgoingConnected end) e self).
Proof.
  intros Hok. apply (peers_ok_update late (inject_peer_connection p _ e) p self Hok).
  - intros q Hne. destruct endpoint; simpl; rewrite lookup_insert_ne by done; (split; [done|]);
      intros []; simpl; set_solver.
  - intros _ _. apply connected_or_disconnecting_true.
    destruct endpoint; simpl; rewrite lookup_insert_eq; eauto.
  - intros info Hl _. exists endpoint.
    destruct endpoint; simpl in *; rewrite lookup_insert_eq in Hl; simplify_eq/=; set_solver.
Qed.

Lemma peers_ok_dialing late p e self : peers_ok late self → peers_ok late (inject_peer_connection p Dialing e self).
Proof.
  intros Hok. apply (peers_ok_update late (inject_peer_connection p Dialing e) p self Hok).
  - intros q Hne. simpl. by rewrite lookup_insert_ne.
  - intros Hnl Hping. apply Hok in Hping; [|done]. rewrite connected_or_disconnecting_true in *.
    destruct Hping as (i & Hl & Hs). simpl. rewrite lookup_insert_eq, Hl. simpl.
    eexists. split; [done|]. unfold set_dialing_peer. simpl. destruct Hs as [Hs|Hs]; rewrite Hs; auto.
  - intros info. simpl. rewrite lookup_insert_eq. intros [= <-].
    unfold set_dialing_peer. simpl. destruct (peers self !! p) as [i|] eqn:Hl; simpl; [|done].
    destruct (connection_status i) eqn:Hs; simpl; try done.
    + intros _. by apply (Hok p).
    + by rewrite Hs.
    + by rewrite Hs.
Qed.

Lemma peers_ok_disconnecting late p self :
  peers_ok late self →
  peers_ok late (with_peers (update_connection_state p NewDisconnecting self.(peers)) self).
Proof.
  intros Hok.
  apply (peers_ok_update late (λ s, with_peers (update_connection_state p NewDisconnecting s.(peers)) s) p self Hok).
  - intros q Hne. simpl. by rewrite lookup_insert_ne.
  - intros _ _. apply connected_or_disconnecting_true. simpl. rewrite lookup_insert_eq. eauto.
  - simpl. intros info. rewrite lookup_insert_eq. by intros [= <-].
Qed.

(** pinging again a peer that expired leaves the sets as they were *)
Lemma expired_inbound expired self :
  (∀ p, p ∈ expired → p ∈ self.(inbound_ping_peers)) →
  same_conn self (ping_expired_inbound expired self).
Proof.
  unfold ping_expired_inbound. revert self. induction expired as [|p expired IH]; intros self Hin; [done|].
  cbn [fold_left].
  match goal with |- same_conn _ (fold_left _ _ ?s) => set (self1 := s) end.
  assert (Hi : self1.(inbound_ping_peers) = self.(inbound_ping_peers)).
  { simpl. assert (p ∈ self.(inbound_ping_peers)) by set_solver.
    rewrite <-union_difference_singleton_L; done. }
  destruct (IH self1) as (Hi' & Ho' & Hp').
  { intros q Hq. rewrite Hi. set_solver. }
  split; [by rewrite <-Hi', Hi|]. split; [done|]. intros q. by rewrite <-Hp'.
Qed.

Lemma expired_outbound expired self :
  (∀ p, p ∈ expired → p ∈ self.(outbound_ping_peers)) →
  same_conn self (ping_expired_outbound expired self).
Proof.
  unfold ping_expired_outbound. revert self. induction expired as [|p expired IH]; intros self Hin; [done|].
  cbn [fold_left].
  match goal with |- same_conn _ (fold_left _ _ ?s) => set (self1 := s) end.
  assert (Ho : self1.(outbound_ping_peers) = self.(outbound_ping_peers)).
  { simpl. assert (p ∈ self.(outbound_ping_peers)) by set_solver.
    rewrite <-union_difference_singleton_L; done. }
  destruct (IH self1) as (Hi' & Ho' & Hp').
  { intros q Hq. rewrite Ho. set_solver. }
  split; [done|]. split; [by rewrite <-Ho', Ho|]. intros q. by rewrite <-Hp'.
Qed.

Lemma peers_ok_poll late ein eout self :
  (∀ p, p ∈ ein → p ∈ self.(inbound_ping_peers)) →
  (∀ p, p ∈ eout → p ∈ self.(outbound_ping_peers)) →
  peers_ok late self → peers_ok late (poll ein eout self).2.
Proof.
  intros Hin Hout Hok. unfold poll.
  set (self1 := ping_expired_outbound eout (ping_expired_inbound ein self)).
  assert (Hc1 : same_conn self (ping_expired_inbound ein self)) by (by apply expired_inbound).
  assert (Hok1 : peers_ok late self1).
  { eapply same_conn_ok; [apply expired_outbound|by eapply same_conn_ok].
    destruct Hc1 as (_ & <- & _). done. }
  destruct (events self1) as [|e es]; [|by eapply same_conn_ok].
  destruct (last (peers_to_dial self1)); [|done]. by apply peers_ok_dialing, peers_ok_dials.
Qed.

Lemma peers_ok_ping late p seq self :
  (p ∉ late → is_connected_or_disconnecting p self.(peers) = true) → peers_ok late self →
  peers_ok late (ping_request p seq self).
Proof.
  intros Hconn Hok. unfold ping_request. destruct (peers self !! p) as [info|] eqn:Hl; [|done].
  apply peers_ok_refresh.
  assert (Hadd : ∀ d, peers_ok late (match d with Incoming => ping_inbound p self
                                           | Outgoing => ping_outbound p self end)).
  { intros d. apply (peers_ok_update late (λ s, match d with Incoming => ping_inbound p s
                                           | Outgoing => ping_outbound p s end) p self Hok).
    - intros q Hne. destruct d; (split; [done|]); intros []; simpl; set_solver.
    - intros Hnl _. rewrite <-(Hconn Hnl). by destruct d.
    - intros i Hi Hs. destruct (Hok p) as [_ H2].
      destruct (H2 i) as (d' & ? & ?); [by destruct d|done|]. exists d'. split; [done|].
      destruct d, d'; simpl in *; set_solver. }
  destruct (connection_direction info) as [[]|]; [apply (Hadd Incoming)|apply (Hadd Outgoing)|done].
Qed.

Lemma peers_ok_mono late late' self : late ⊆ late' → peers_ok late self → peers_ok late' self.
Proof. intros Hs Hok p. destruct (Hok p) as [H1 H2]. split; [|done]. intros Hnl. apply H1. set_solver. Qed.

Lemma peer_step_ok late self late1 self' :
  peer_step self late1 self' → peers_ok late self → peers_ok (late1 ++ late) self'.
Proof.
  destruct 1 as [self results|self p seq|self p seq|self p m|self p endpoint other|self p remaining
    |self p|self p reason|self ein eout Hin Hout]; intros Hok.
  - unfold peers_discovered. assert (Hd := peers_ok_dial_all late results 0 self Hok).
    destruct (dial_all results 0 self) as [n self1]. unfold maintain_peer_count.
    destruct (_ && _); [by apply peers_ok_push|done].
  - apply peers_ok_ping; [|eapply peers_ok_mono; [|done]; set_solver].
    destruct (is_connected_or_disconnecting p (peers self)); [done|]. intros Hnl. set_solver.
  - unfold pong_response. destruct (peers self !! p); [by apply peers_ok_refresh|done].
  - unfold metadata_response. destruct (peers self !! p) as [i|] eqn:Hl; [|done].
    eapply same_conn_ok; [|done]. split_and!; [done..|]. intros q. simpl.
    destruct (decide (q = p)) as [->|?]; [by rewrite lookup_insert_eq, Hl|by rewrite lookup_insert_ne].
  - unfold on_connection_established.
    destruct endpoint; apply peers_ok_push;
      [apply (peers_ok_connect late p Incoming)|apply (peers_ok_connect late p Outgoing)];
      case_bool_decide; auto using peers_ok_push.
  - unfold on_connection_closed. case_bool_decide; [done|]. apply peers_ok_disconnect.
    destruct (is_connected_or_disconnecting _ _); auto using peers_ok_push.
  - destruct p as [p|]; simpl; [|done]. destruct (is_connected _ _); auto using peers_ok_disconnect.
  - by apply (peers_ok_disconnecting late p (push_back _ self)), peers_ok_push.
  - by apply peers_ok_poll.
Qed.

Lemma peers_ok_new trusted : peers_ok [] (PeerManager_new (PeerDB_new trusted)).
Proof.
  assert (Hdef : ∀ l (db : PeerDB), (∀ p i, db !! p = Some i → i = PeerInfo_default) →
    ∀ p i, fold_left (λ m p, <[p := PeerInfo_default]> m) l db !! p = Some i → i = PeerInfo_default).
  { induction l as [|q l IH]; intros db Hdb; [done|]. apply IH. intros p i.
    rewrite lookup_insert_Some. intros [[_ <-]|[_ ?]]; [done|by eapply Hdb]. }
  intros p. split; [unfold pinged; simpl; set_solver|].
  intros info Hl Hs. assert (info = PeerInfo_default) as ->; [|done].
  eapply (Hdef trusted ∅); [|apply Hl]. intros q i. by rewrite lookup_empty.
Qed.

(** C26. Pings follow the connections: in every reachable state, each connected peer
    is in the ping set of the direction of its connection, and every peer that
    is pinged is connected or about to be disconnected, except for those of which
    a ping request was handled after they were gone. *)
Theorem pings_follow_connections trusted late self :
  peer_run (PeerManager_new (PeerDB_new trusted)) late self →
  ∀ p, (∀ info, self.(peers) !! p = Some info → info.(connection_status) = PConnected →
          ∃ d, info.(connection_direction) = Some d ∧ p ∈ ping_set d self) ∧
       (pinged p self → is_connected_or_disconnecting p self.(peers) = true ∨ p ∈ late).
Proof.
  intros Hrun. assert (Hok : peers_ok late self).
  { remember (PeerManager_new (PeerDB_new trusted)) as self0 eqn:H0.
    induction Hrun as [|self0 late self1 late1 self2 _ IH Hst]; subst;
      [apply peers_ok_new|]. eapply peer_step_ok; [done|by apply IH]. }
  intros p. destruct (Hok p) as [H1 H2]. split; [done|]. intros Hp.
  destruct (decide (p ∈ late)); [by right|left; by apply H1].
Qed.

(** The exception is real: the direction of a connection outlives it, so a late
    ping request puts the peer back into the set of those to ping. *)
Theorem late_ping_is_pinged p seq info d self :
  self.(peers) !! p = Some info → info.(connection_direction) = Some d →
  let gone := on_connection_closed p 0 self in
  ¬ pinged p gone ∧ pinged p (ping_request p seq gone) ∧
  is_connected_or_disconnecting p (ping_request p seq gone).(peers) = false.
Proof.
  intros Hl Hd gone.
  assert (gone.(peers) !! p = Some (set_connection_status PDisconnected info)) as Hg.
  { unfold gone, on_connection_closed. simpl. destruct (is_connected_or_disconnecting _ _); simpl;
      by rewrite lookup_insert_eq, Hl. }
  assert (∀ i s, (refresh_metadata p i seq s).(peers) = s.(peers) ∧
    (pinged p s → pinged p (refresh_metadata p i seq s))) as Hr.
  { intros i s. unfold refresh_metadata. destruct (metadata i); [case_bool_decide|]; done. }
  split_and!.
  - unfold gone, on_connection_closed, pinged. simpl.
    destruct (is_connected_or_disconnecting _ _); simpl; set_solver.
  - unfold ping_request. rewrite Hg. cbn [set_connection_status connection_direction]. rewrite Hd.
    apply Hr. unfold pinged. destruct d; simpl; set_solver.
  - assert ((ping_request p seq gone).(peers) !! p = Some (set_connection_status PDisconnected info)) as Hp.
    { unfold ping_request. rewrite Hg. cbn [set_connection_status connection_direction]. rewrite Hd.
      rewrite (proj1 (Hr _ _)). by destruct d. }
    unfold is_connected_or_disconnecting, status_of. by rewrite Hp.
Qed.

(** A connection forgets the record of the peer that discovery had found. *)
Lemma connection_forgets_enr p endpoint other self info :
  (on_connection_established p endpoint other self).(peers) !! p = Some info → info.(enr) = None.
Proof.
  unfold on_connection_established. destruct endpoint; simpl; rewrite lookup_insert_eq; by intros [= <-].
Qed.

(** Discovery goes on only after a round that found a peer to dial. *)
Lemma discovery_stalls results self :
  (∀ e, e ∈ results → e ∈ self.(peers_to_dial) ∨ should_dial (enr_peer_id e) self.(peers) = false) →
  peers_discovered results self = self.
Proof.
  intros Hr. unfold peers_discovered. assert (dial_all results 0 self = (0%nat, self)) as ->.
  { induction results as [|e results IH]; simpl; [done|]. case_bool_decide; [apply IH; set_solver|].
    unfold dial_peer. destruct (Hr e) as [?| ->]; [set_solver|done|]. apply IH. set_solver. }
  unfold maintain_peer_count. by rewrite andb_false_r.
Qed.
End peers.

(** ** One peer that connects and pings *)
Module Example.
#[local] Instance numbers : EnrLib := {| Enr := Z; enr_peer_id := λ e, e |}.

Definition start : PeerManager := PeerManager_new (PeerDB_new [5]).
Definition connected_peer : PeerManager := on_connection_established 7 Incoming 0 start.
Definition after_ping : PeerManager := ping_request 7 3 connected_peer.

Lemma pings_follow_connections_witness : ∃ d : ConnectionDirection, 7 ∈ ping_set d after_ping.
Proof.
  assert (Hrun : peer_run start [] after_ping).
  { apply (run_step start [] connected_peer []); [|apply (step_ping connected_peer 7 3)].
    apply (run_step start [] start []); [apply run_start|apply (step_established start 7 Incoming 0)]. }
  destruct (proj1 (pings_follow_connections [5] [] after_ping Hrun 7) _ eq_refl eq_refl) as (d & _ & Hd).
  by exists d.
Defined.

Lemma late_ping_is_pinged_witness :
  pinged 7 (ping_request 7 3 (on_connection_closed 7 0 connected_peer)).
Proof.
  exact (proj1 (proj2 (late_ping_is_pinged 7 3 _ Incoming connected_peer eq_refl eq_refl))).
Defined.
End Example.
