(* ===== verification/Network.v ===== *)
(** The network service ([crates/p2p/src/service/mod.rs]): gossip between the peers
    and the pools, the requests and events of the peer manager, and the task of
    the gRPC service ([crates/grpc/src/uopool.rs]) that admits what the network
    hands over. *)

From S2P Require Import Prelude Primitives Errors AbiStd Gas Reputation Mempool.
From S2P Require Import MemoryStore EntryPoint Fixture Sanity Simulation Trace.
From S2P Require Import Validator UoPool Bundling Ssz Rpc SszMessages Gossip Peers.

(** ** [crates/primitives/src/p2p.rs] *)
Record MempoolConfig := { mc_chain_id : U256; mc_entry_point : Address; mc_description : string;
  mc_min_stake : U256; mc_id : string }.
Inductive NetworkMessage :=
| MPublish (user_operation : UserOperation) (verified_at_block_hash : U256)
    (validation_config : ValidationConfig)
| MFindNewMempool (user_operation : UserOperation) (topic : string)
| MValidate (user_operation : UserOperation) (validation_config : ValidationConfig).

(** What gossipsub answers to the publication of a message; the message is
    transformed before *)
Inductive PublishError := InsufficientPeers | TransformFailed | OtherPublishError.
Class GossipLib := { gossip_publish : string → bytes → option PublishError }.

(** A mempool channel: the entry point, whether the pool still listens, what was
    sent to the pool and what the pool has sent *)
Record Channel := {
  ch_entry_point : Address;
  ch_open : bool;
  ch_to_pool : list NetworkMessage;
  ch_from_pool : list NetworkMessage;
}.

Definition FIND_NODE_QUERY_CLOSEST_PEERS : nat := 16.

Section network.
Context {P : Profile} {A : Abi} {HO : HashOrder} {EN : EnrLib} {GL : GossipLib}.
Context {L : SszLib} {T : SszTypes} {SN : SnapLib}.

Record Network := {
  channels : list Channel;
  configs : list (string * MempoolConfig);
  nw_chain_id : Z;
  nw_metadata : MetaData;
  nw_rpc : RPC;
  nw_peers : PeerManager;
  (** answers sent on the channels of requests, the topics and transformed bytes
      handed over for publication, and the discoveries asked for *)
  answers : list (Z * RPCResponse);
  gossiped : list (string * bytes);
  discoveries : list nat;
}.
Implicit Types (self : Network).

Definition with_channels l self : Network :=
  {| channels := l; configs := self.(configs); nw_chain_id := self.(nw_chain_id);
     nw_metadata := self.(nw_metadata); nw_rpc := self.(nw_rpc); nw_peers := self.(nw_peers);
     answers := self.(answers); gossiped := self.(gossiped); discoveries := self.(discoveries) |}.
Definition with_rpc r self : Network :=
  {| channels := self.(channels); configs := self.(configs); nw_chain_id := self.(nw_chain_id);
     nw_metadata := self.(nw_metadata); nw_rpc := r; nw_peers := self.(nw_peers);
     answers := self.(answers); gossiped := self.(gossiped); discoveries := self.(discoveries) |}.
Definition with_manager p self : Network :=
  {| channels := self.(channels); configs := self.(configs); nw_chain_id := self.(nw_chain_id);
     nw_metadata := self.(nw_metadata); nw_rpc := self.(nw_rpc); nw_peers := p;
     answers := self.(answers); gossiped := self.(gossiped); discoveries := self.(discoveries) |}.
Definition add_answer (sender : Z) (r : RPCResponse) self : Network :=
  {| channels := self.(channels); configs := self.(configs); nw_chain_id := self.(nw_chain_id);
     nw_metadata := self.(nw_metadata); nw_rpc := self.(nw_rpc); nw_peers := self.(nw_peers);
     answers := self.(answers) ++ [(sender, r)]; gossiped := self.(gossiped);
     discoveries := self.(discoveries) |}.
Definition discover_peers (n : nat) self : Network :=
  {| channels := self.(channels); configs := self.(configs); nw_chain_id := self.(nw_chain_id);
     nw_metadata := self.(nw_metadata); nw_rpc := self.(nw_rpc); nw_peers := self.(nw_peers);
     answers := self.(answers); gossiped := self.(gossiped);
     discoveries := self.(discoveries) ++ [n] |}.
Definition add_gossip (x : string * bytes) self : Network :=
  {| channels := self.(channels); configs := self.(configs); nw_chain_id := self.(nw_chain_id);
     nw_metadata := self.(nw_metadata); nw_rpc := self.(nw_rpc); nw_peers := self.(nw_peers);
     answers := self.(answers); gossiped := self.(gossiped) ++ [x];
     discoveries := self.(discoveries) |}.

(** [unbounded_send(..).expect(..)] *)
Definition send_to_pool {E} (m : NetworkMessage) (c : Channel) : comp E Channel :=
  if c.(ch_open)
  then Ok {| ch_entry_point := c.(ch_entry_point); ch_open := true;
             ch_to_pool := c.(ch_to_pool) ++ [m]; ch_from_pool := c.(ch_from_pool) |}
  else Panic.

Definition canonical_config (topic : string) (c : MempoolConfig) (ignore_prev : bool)
  : ValidationConfig :=
  {| vc_min_stake := Some c.(mc_min_stake); vc_min_unstake_delay := None; vc_topic := Some topic;
     vc_ignore_prev := ignore_prev |}.

(** ** Gossip from the network *)
Definition find_config (t : string) self : option MempoolConfig :=
  snd <$> (snd <$> list_find (λ tc : string * MempoolConfig, tc.1 = t) self.(configs)).

Definition validate_message (uo : VerifiedUserOperation) (t : string) (c : MempoolConfig) self
  : NetworkMessage :=
  let uo' := uo.(vu_user_operation) in
  MValidate (from_user_operation_signed (hash uo' uo.(vu_entry_point) self.(nw_chain_id)) uo')
    (canonical_config t c false).

(** [find_map] over the channels, then over the configurations *)
Definition route_gossip {E} (uo : VerifiedUserOperation) (t : string) : ST Network E () := λ self,
  match list_find (λ c, c.(ch_entry_point) = uo.(vu_entry_point)) self.(channels) with
  | Some (i, c) =>
      match find_config t self with
      | Some config =>
          match send_to_pool (validate_message uo t config self) c with
          | Ok c' => (Ok (), with_channels (<[i := c']> self.(channels)) self)
          | Err e => (Err e, self)
          | Panic => (Panic, self)
          end
      | None => (Ok (), self)
      end
  | None => (Ok (), self)
  end.

Inductive NetworkEvent :=
| NwPeerConnectedIncoming (p : PeerId)
| NwPeerConnectedOutgoing (p : PeerId)
| NwPeerDisconnected (p : PeerId)
| NwPubsubMessage (source : PeerId) (uo : VerifiedUserOperation)
| NwRequestMessage (p : PeerId) (request : Request) (sender : Z)
| NwResponseMessage (p : PeerId) (response : RPCResponse)
| NwSubscribe (p : PeerId) (t : string)
| NwNewListenAddr (address : string).

Inductive GossipEvent :=
| GsMessage (source : PeerId) (t : string) (data : bytes)
| GsSubscribed (p : PeerId) (t : string)
| GsOther.

Definition handle_gossipsub_event {E} (event : GossipEvent) : ST Network E (option NetworkEvent) :=
  match event with
  | GsMessage source t data =>
      match verified_deserialize data with
      | Ok uo => do* _ := route_gossip uo t in st_ret (Some (NwPubsubMessage source uo))
      | Err _ => st_ret None
      | Panic => st_lift Panic
      end
  | GsSubscribed p t => st_ret (Some (NwSubscribe p t))
  | GsOther => st_ret None
  end.

(** ** Requests, discovery and peers *)
Definition rpc_call {E X} (m : ST RPC E X) : ST Network E X := st_zoom nw_rpc with_rpc m.
Definition on_manager {E} (f : PeerManager → PeerManager) : ST Network E () :=
  st_mod (λ self, with_manager (f self.(nw_peers)) self).
Definition answer {E} (sender : Z) (r : Network → RPCResponse) : ST Network E () :=
  st_mod (λ self, add_answer sender (r self) self).

Definition handle_rpc_event {E} (event : RPCEvent) : ST Network E (option NetworkEvent) :=
  match event with
  | EvRequest p request _ sender =>
      match request with
      | ReqPing ping =>
          do* _ := on_manager (ping_request p ping.(ping_data)) in
          do* _ := answer sender (λ self, RespPong {| ping_data := self.(nw_metadata).(seq_number) |}) in
          st_ret None
      | ReqMetaData =>
          do* _ := answer sender (λ self, RespMetaData self.(nw_metadata)) in
          st_ret None
      | ReqGoodbye _ => st_ret None
      | _ => st_ret (Some (NwRequestMessage p request sender))
      end
  | EvResponse p _ response =>
      match response with
      | RespPong ping =>
          do* _ := on_manager (pong_response p ping.(ping_data)) in st_ret None
      | RespMetaData m => do* _ := on_manager (metadata_response p m) in st_ret None
      | _ => st_ret (Some (NwResponseMessage p response))
      end
  | _ => st_ret None
  end.

Definition handle_discovery_event {E} (found : list Enr) : ST Network E (option NetworkEvent) :=
  do* _ := on_manager (peers_discovered found) in st_ret None.

Definition handler_peer_manager_event {E} (event : PeerManagerEvent)
  : ST Network E (option NetworkEvent) :=
  match event with
  | PeerConnectedIncoming p => st_ret (Some (NwPeerConnectedIncoming p))
  | PeerConnectedOutgoing p => st_ret (Some (NwPeerConnectedOutgoing p))
  | PeerDisconnected p => st_ret (Some (NwPeerDisconnected p))
  | DiscoverPeers n => do* _ := st_mod (discover_peers n) in st_ret None
  | EvPing p =>
      do* seq := st_get (λ self, Ok self.(nw_metadata).(seq_number)) in
      do* _ := rpc_call (send_request p (ReqPing {| ping_data := seq |})) in
      st_ret None
  | EvMetaData p => do* _ := rpc_call (send_request p ReqMetaData) in st_ret None
  | DisconnectPeer _ _ => st_ret None
  end.

(** ** Messages from the pools *)
(** the configuration after the one of [topic] *)
Fixpoint next_mempool (topic : string) (next : bool) (cs : list (string * MempoolConfig))
  : option (string * MempoolConfig) :=
  match cs with
  | [] => None
  | (t, c) :: cs =>
      if next then Some (t, c) else next_mempool topic (next || bool_decide (topic = t)) cs
  end.

Definition handle_message {E} (self : Network) (c : Channel) (m : NetworkMessage)
  : comp E (Channel * list (VerifiedUserOperation * string)) :=
  match m with
  | MPublish uo block vc =>
      let user_op := {| vu_user_operation := uo; vu_entry_point := c.(ch_entry_point);
                        vu_verified_at_block_hash := block |} in
      match vc.(vc_topic) with
      | Some t => Ok (c, [(user_op, t)])
      | None =>
          match head self.(configs) with
          | Some (t, config) =>
              let* c := send_to_pool (MValidate uo (canonical_config t config true)) c in
              Ok (c, [])
          | None => Ok (c, [])
          end
      end
  | MFindNewMempool uo topic =>
      match next_mempool topic false self.(configs) with
      | Some (t, config) =>
          let* c := send_to_pool (MValidate uo (canonical_config t config true)) c in
          Ok (c, [])
      | None => Ok (c, [])
      end
  | MValidate _ _ => Ok (c, [])
  end.

(** [while let Ok(Some(message)) = receiver.try_next()] *)
Definition drain_channel {E} (self : Network) (c : Channel)
  : comp E (Channel * list (VerifiedUserOperation * string)) :=
  comp_fold (λ '(c, received) m,
      let* r := handle_message self c m in Ok (r.1, received ++ r.2))
    ({| ch_entry_point := c.(ch_entry_point); ch_open := c.(ch_open);
        ch_to_pool := c.(ch_to_pool); ch_from_pool := [] |}, []) c.(ch_from_pool).

Fixpoint drain_channels {E} (self : Network) (cs : list Channel)
  : comp E (list Channel * list (VerifiedUserOperation * string)) :=
  match cs with
  | [] => Ok ([], [])
  | c :: cs =>
      let* r := drain_channel self c in
      let* rs := drain_channels self cs in
      Ok (r.1 :: rs.1, r.2 ++ rs.2)
  end.

(** [publish]: an operation that cannot be encoded panics ([expect]) *)
Definition publish {E} (user_op : VerifiedUserOperation) (t : string)
  : ST Network E (option PublishError) :=
  match verified_serialize user_op with
  | Ok buf =>
      match outbound_transform SnappyTransform_default buf with
      | Ok data => do* _ := st_mod (add_gossip (t, data)) in st_ret (gossip_publish t data)
      | _ => st_ret (Some TransformFailed)
      end
  | _ => st_lift Panic
  end.

(** an error other than a lack of peers is only logged *)
Definition publish_one {E} (x : VerifiedUserOperation * string) : ST Network E () :=
  do* res := publish x.1 x.2 in
  match res with
  | Some InsufficientPeers => st_mod (discover_peers FIND_NODE_QUERY_CLOSEST_PEERS)
  | _ => st_ret ()
  end.

(** the part of [poll_network] before the swarm is polled *)
Definition poll_pools {E} : ST Network E () :=
  do* r := st_get (λ self, drain_channels self self.(channels)) in
  do* _ := st_mod (with_channels r.1) in
  st_for r.2 publish_one.

(** ** The swarm *)
Inductive SwarmEvent :=
| SwGossipSub (e : GossipEvent)
| SwRPC (e : RPCEvent)
| SwDiscovery (peers : list Enr)
| SwPeerManager (e : PeerManagerEvent)
| SwNewListenAddr (address : string)
| SwOther.
Definition handle_swarm_event {E} (event : SwarmEvent) : ST Network E (option NetworkEvent) :=
  match event with
  | SwGossipSub e => handle_gossipsub_event e
  | SwRPC e => handle_rpc_event e
  | SwDiscovery peers => handle_discovery_event peers
  | SwPeerManager e => handler_peer_manager_event e
  | SwNewListenAddr address => st_ret (Some (NwNewListenAddr address))
  | SwOther => st_ret None
  end.
(** [while let Poll::Ready(..) = self.swarm.poll_next_unpin(cx)] over the events that
    are ready, up to the first one that is passed on; the rest stays in the swarm *)
Fixpoint poll_swarm {E} (ready : list SwarmEvent) : ST Network E (option NetworkEvent * list SwarmEvent) :=
  match ready with
  | [] => st_ret (None, [])
  | event :: ready =>
      do* event_opt := handle_swarm_event event in
      match event_opt with
      | Some e => st_ret (Some e, ready)
      | None => poll_swarm ready
      end
  end.
Definition poll_network {E} (ready : list SwarmEvent)
  : ST Network E (option NetworkEvent * list SwarmEvent) :=
  do* _ := poll_pools in poll_swarm ready.

(** [send_request] of the service *)
Definition nw_send_request {E} (peer : PeerId) (request : Request) : ST Network E RequestId :=
  rpc_call (send_request peer request).
End network.

(** ** Routing *)
Section routing.
Context {P : Profile} {A : Abi} {HO : HashOrder} {EN : EnrLib} {GL : GossipLib}.
Context {L : SszLib} {T : SszTypes} {SN : SnapLib}.

(** the first configuration of a topic is the one that is found *)
Lemma find_config_split t config l1 l2 self :
  self.(configs) = l1 ++ (t, config) :: l2 → t ∉ l1.*1 → find_config t self = Some config.
Proof.
  intros Hc Hn. unfold find_config.
  assert (list_find (λ tc : string * MempoolConfig, tc.1 = t) self.(configs) =
    Some (length l1, (t, config))) as ->; [|done].
  apply list_find_Some. rewrite Hc. split; [by apply list_lookup_middle|]. split; [done|].
  intros j [t' c'] Hj Hlt [= ->]. rewrite lookup_app_l in Hj by done. apply Hn.
  apply list_elem_of_lookup_2 in Hj. apply list_elem_of_fmap. by exists (t, c').
Qed.
Lemma find_config_none t self : t ∉ self.(configs).*1 → find_config t self = None.
Proof.
  intros Hn. unfold find_config. rewrite (proj2 (list_find_None _ _)); [done|].
  apply Forall_forall. intros [t' c'] Hin [= ->]. apply Hn. apply list_elem_of_fmap. by exists (t, c').
Qed.

(** the first channel of the entry point gets the message, if it is open *)
Lemma route_known {E} uo t config cs1 c cs2 self :
  self.(channels) = cs1 ++ c :: cs2 → uo.(vu_entry_point) ∉ ch_entry_point <$> cs1 →
  c.(ch_entry_point) = uo.(vu_entry_point) → c.(ch_open) = true →
  find_config t self = Some config →
  route_gossip (E:=E) uo t self = (Ok (), with_channels (cs1 ++
    {| ch_entry_point := c.(ch_entry_point); ch_open := true;
       ch_to_pool := c.(ch_to_pool) ++ [validate_message uo t config self];
       ch_from_pool := c.(ch_from_pool) |} :: cs2) self).
Proof.
  intros Hcs Hn He Ho Hf. unfold route_gossip.
  assert (list_find (λ c, c.(ch_entry_point) = uo.(vu_entry_point)) self.(channels) =
    Some (length cs1, c)) as ->.
  { apply list_find_Some. rewrite Hcs. split; [by apply list_lookup_middle|]. split; [done|].
    intros j d Hj Hlt. rewrite lookup_app_l in Hj by done. apply list_elem_of_lookup_2 in Hj.
    intros Hd. apply Hn. apply list_elem_of_fmap. by exists d. }
  rewrite Hf. unfold send_to_pool. rewrite Ho, Hcs.
  by rewrite insert_app_r_alt, Nat.sub_diag by done.
Qed.
Lemma route_unknown {E} uo t self :
  uo.(vu_entry_point) ∉ ch_entry_point <$> self.(channels) ∨ find_config t self = None →
  route_gossip (E:=E) uo t self = (Ok (), self).
Proof.
  unfold route_gossip. intros H.
  destruct (list_find (λ c, c.(ch_entry_point) = uo.(vu_entry_point)) self.(channels))
    as [[i c]|] eqn:Hf; [|done].
  destruct H as [Hn| ->]; [|done]. exfalso. apply Hn.
  apply list_find_Some in Hf as (Hi & <- & _). by eapply list_elem_of_fmap_2, list_elem_of_lookup_2.
Qed.

Lemma route_total {E} uo t self :
  Forall (λ c, c.(ch_open) = true) self.(channels) →
  ∃ self', route_gossip (E:=E) uo t self = (Ok (), self').
Proof.
  intros Ho. unfold route_gossip.
  destruct (list_find _ _) as [[i c]|] eqn:Hf; [|by eexists].
  destruct (find_config t self); [|by eexists]. apply list_find_Some in Hf as (Hi & _).
  unfold send_to_pool. rewrite Forall_lookup in Ho. rewrite (Ho _ _ Hi). by eexists.
Qed.

(** A validation that failed for one canonical mempool goes on with the next one
    in the list, and ends with the last. *)
Lemma mempools_in_order l1 t c rest :
  t ∉ l1.*1 → next_mempool t false (l1 ++ (t, c) :: rest) = head rest.
Proof.
  induction l1 as [|[t' c'] l1 IH]; simpl.
  - intros _. rewrite bool_decide_eq_true_2 by done. by destruct rest as [|[]].
  - intros Hn. rewrite bool_decide_eq_false_2 by set_solver. apply IH. set_solver.
Qed.

Context {LOk : SszOk L} {TOk : SszTypesOk T} {SOk : SnapOk SN}.

(** C28. What one node publishes reaches the right pool of another.  The publisher
    hands gossipsub, on the given topic, bytes that the receiver decompresses and
    decodes to the same operation.  If the receiver has a configuration for the
    topic and a channel for the operation's entry point, then the (first) such
    channel is sent one message: to validate the operation, under its hash for
    this entry point and the receiver's chain id, with the minimal stake of the
    (first) configuration of the topic, no minimal unstake delay, the topic, and
    the check of the previous operation kept.  Nothing else of the receiver
    changes.  For an unknown topic or an unknown entry point no pool is sent
    anything and nothing changes. *)
Theorem gossip_routed {E} source t uo (sender self : Network) :
  verified_wf uo → Forall (λ c, c.(ch_open) = true) self.(channels) →
  ∃ data wire sender' self',
    publish (E:=E) uo t sender = (Ok (gossip_publish t wire), sender') ∧
    sender'.(gossiped) = sender.(gossiped) ++ [(t, wire)] ∧
    inbound_transform SnappyTransform_default wire = Ok data ∧
    handle_gossipsub_event (E:=E) (GsMessage source t data) self =
      (Ok (Some (NwPubsubMessage source uo)), self') ∧
    (∀ l1 config l2 cs1 c cs2,
       self.(configs) = l1 ++ (t, config) :: l2 → t ∉ l1.*1 →
       self.(channels) = cs1 ++ c :: cs2 → uo.(vu_entry_point) ∉ ch_entry_point <$> cs1 →
       c.(ch_entry_point) = uo.(vu_entry_point) →
       self' = with_channels (cs1 ++
         {| ch_entry_point := uo.(vu_entry_point); ch_open := true;
            ch_to_pool := c.(ch_to_pool) ++
              [MValidate
                 {| uo_hash := hash uo.(vu_user_operation) uo.(vu_entry_point) self.(nw_chain_id);
                    user_operation := uo.(vu_user_operation) |}
                 {| vc_min_stake := Some config.(mc_min_stake); vc_min_unstake_delay := None;
                    vc_topic := Some t; vc_ignore_prev := false |}];
            ch_from_pool := c.(ch_from_pool) |} :: cs2) self) ∧
    (t ∉ self.(configs).*1 ∨ uo.(vu_entry_point) ∉ ch_entry_point <$> self.(channels) →
     self' = self).
Proof using LOk TOk SOk.
  intros Hwf Hopen. destruct (message_crosses uo Hwf) as (data & wire & Hs & Ho & Hi & Hd).
  assert (Hrun : ∀ self', route_gossip (E:=E) uo t self = (Ok (), self') →
    handle_gossipsub_event (E:=E) (GsMessage source t data) self =
      (Ok (Some (NwPubsubMessage source uo)), self')).
  { intros self' Hr. cbn [handle_gossipsub_event]. rewrite Hd. by erewrite st_bind_step. }
  assert (∃ self', route_gossip (E:=E) uo t self = (Ok (), self')) as [self' Hr].
  { by apply route_total. }
  exists data, wire, (add_gossip (t, wire) sender), self'.
  split; [unfold publish; by rewrite Hs, Ho|]. split; [done|]. split; [done|].
  split; [by apply Hrun|]. split.
  - intros l1 config l2 cs1 c cs2 Hc Hn Hcs Hep He.
    assert (c.(ch_open) = true) by (rewrite Hcs, Forall_app, Forall_cons in Hopen; tauto).
    rewrite (route_known uo t config cs1 c cs2) in Hr; [|done..|by eapply find_config_split].
    injection Hr as <-. by rewrite He.
  - intros [Hn|Hn]; (rewrite route_unknown in Hr; [by injection Hr|]);
      [right; by apply find_config_none|by left].
Qed.

(** Publishing crashes the network service exactly for an operation with a byte
    string of more than 1024 bytes, which the pool admits like any other; and a
    gossiped message whose operation is shorter than its fixed part crashes the
    service of the node that receives it. *)
Theorem gossip_crashes {E} (self : Network) :
  (∀ uo t, uo_wf uo.(vu_user_operation) → is_address uo.(vu_entry_point) →
     is_u256 uo.(vu_verified_at_block_hash) →
     ((publish_one (E:=E) (uo, t) self).1 = Panic ↔ ¬ fits uo.(vu_user_operation)) ∧
     (fits uo.(vu_user_operation) → (publish_one (E:=E) (uo, t) self).1 = Ok ())) ∧
  (∀ source t short ep h, (20 ≤ length short < 228)%nat → length ep = 20%nat → length h = 32%nat →
     (handle_gossipsub_event (E:=E)
        (GsMessage source t (ssz_container [SVariable short; SFixed ep; SFixed h])) self).1 = Panic).
Proof using LOk TOk SOk.
  split.
  - intros uo t Hwf He Hh.
    assert (fits uo.(vu_user_operation) → (publish_one (E:=E) (uo, t) self).1 = Ok ()) as Hok.
    { intros Hf. destruct (message_crosses uo) as (data & wire & Hs & Ho & _); [done|].
      unfold publish_one. erewrite st_bind_step.
      2: { unfold publish. cbn [fst snd]. rewrite Hs, Ho. reflexivity. }
      by destruct (gossip_publish t wire) as [[]|]. }
    split; [|done]. split; [intros Hp Hf; by rewrite Hok in Hp|].
    intros Hf. unfold publish_one, publish, verified_serialize.
    destruct (serialize_oversized _ Hf) as [len Hlen]. simpl. by rewrite Hlen.
  - intros source t short ep h Hshort Hep Hh. cbn [handle_gossipsub_event].
    by rewrite short_verified.
Qed.

End routing.

(** ** A local submission with the network enabled *)
Section submission.
Context {P : Profile} {A : Abi} {D : Display} {N : Node} {HO : HashOrder} {EN : EnrLib}
  {GL : GossipLib}.
Context {S : Type} `{ML : MempoolLaws S} {R : Type} `{RL : ReputationEntryLaws R}.
Context `{V : UserOperationValidator S R} (cfg : UoPoolConfig).
Implicit Types (uo : UserOperation) (self : UoPool S R).

(** the task that consumes the messages of the network; an error is logged *)
Definition consume {E} (m : NetworkMessage) : ST (UoPool S R) E () :=
  match m with
  | MValidate uo vc =>
      do* res := st_get (λ self, as_result (validate_user_operation self uo (Some vc))) in
      st_ignore (add_user_operation cfg uo res)
  | _ => st_ret ()
  end.

Definition network_message (m : Publish) : NetworkMessage :=
  MPublish m.(pub_user_operation) m.(pub_verified_at_block_hash) m.(pub_validation_config).

Lemma admitted_present uo out p : (pool_admit uo out p).(p_uos) !! uo.(uo_hash) = Some (uo : UserOperationSigned).
Proof. unfold pool_admit. destruct (out_code_hashes out); simpl; apply lookup_insert_eq. Qed.

(** C18. With the network enabled an operation that was submitted locally comes back
    from the network for the first canonical mempool.  If it validates again, it
    is admitted a second time: it is published twice, and its sender, factory
    and paymaster are counted as seen twice for one operation. *)
Theorem local_submission_counted_twice {E} nw c t config uo out1 out2 self p :
  head nw.(configs) = Some (t, config) → c.(ch_open) = true → cfg.(cfg_network) = Some true →
  out1.(out_val_config).(vc_topic) = None →
  refines self.(up_mempool) p → admissible (OpAdd uo) (without_prev out1 p) →
  keyed (rep_view self.(up_reputation).(entities)) →
  (∀ a, 0 ≤ (entry_or_default self.(up_reputation) a).(uo_seen) ≤ U64_MAX - 6) →
  let m := MValidate uo (canonical_config t config true) in
  ∃ self1 c', add_user_operation cfg uo (inr out1) self = (Ok uo.(uo_hash), self1) ∧
    handle_message (E:=E) nw c (network_message (message_of uo out1)) = Ok (c', []) ∧
    c'.(ch_to_pool) = c.(ch_to_pool) ++ [m] ∧
    (validate_user_operation self1 uo (Some (canonical_config t config true)) = Ok out2 →
     ∃ self2, consume (E:=E) m self1 = (Ok (), self2) ∧
       self2.(up_published) = self.(up_published) ++ [message_of uo out1; message_of uo out2] ∧
       ∀ a, (entry_or_default self2.(up_reputation) a).(uo_seen) =
              (entry_or_default self.(up_reputation) a).(uo_seen) + 2 * occurrences a (entities_of uo) ∧
            (entry_or_default self2.(up_reputation) a).(uo_included) =
              (entry_or_default self.(up_reputation) a).(uo_included)).
Proof.
  intros Hhead Hopen Hnet Htopic Hr Ha Hk Hb m.
  assert (Hocc : ∀ a, 0 ≤ occurrences a (entities_of uo) ≤ 3).
  { intros a. pose proof (occurrences_le a (entities_of uo)). unfold entities_of in *.
    destruct (factory_of uo), (paymaster_of uo); simpl in *; lia. }
  destruct (admission_spec cfg uo out1 self p Hr Ha) as (self1 & H1 & Hr1 & Hpub1 & Hk1 & Hs1);
    [by rewrite Hnet|done| |].
  { intros a. specialize (Hb a). lia. }
  eexists self1, _. split; [done|]. split.
  { unfold network_message, message_of. simpl. rewrite Htopic, Hhead. unfold send_to_pool.
    by rewrite Hopen. }
  split; [done|]. intros Hval.
  destruct (admission_spec cfg uo out2 self1 (pool_admit uo out1 p) Hr1)
    as (self2 & H2 & Hr2 & Hpub2 & Hk2 & Hs2); [|by rewrite Hnet|done| |].
  { intros old Hold. assert (Hin : (pool_admit uo out1 p).(p_uos) !! uo.(uo_hash) = Some old).
    { unfold without_prev in Hold. destruct (out_prev_hash out2); [|done].
      eapply lookup_weaken; [done|apply pool_drop_subset]. }
    rewrite admitted_present in Hin. by simplify_eq. }
  { intros a. destruct (Hs1 a) as [-> _]. specialize (Hb a). specialize (Hocc a). lia. }
  exists self2. split; [|split].
  - simpl. erewrite st_bind_step; [|unfold st_get; by rewrite Hval]. unfold st_ignore. by rewrite H2.
  - rewrite Hpub2, Hpub1, Hnet. simpl. by rewrite <-(assoc_L (++)).
  - intros a. destruct (Hs1 a) as [Hx Hx'], (Hs2 a) as [Hy Hy']. lia.
Qed.
End submission.

(** ** The submission of one operation, and one gossiped operation *)
Module Example.
#[local] Existing Instances std_abi std_display canonical_order fx_profile Trace.Example.lib.
#[local] Existing Instances Bundling.Example.clock Bundling.Example.node Bundling.Example.standard.
#[local] Existing Instance Peers.Example.numbers.

Definition gossip_uo : VerifiedUserOperation :=
  {| vu_user_operation := fx_uo 2 1 10; vu_entry_point := 1; vu_verified_at_block_hash := 77 |}.
#[local] Existing Instances le_ssz le_types stored_blocks.
#[local] Instance gossip : GossipLib := {| gossip_publish _ _ := None |}.

Definition config : MempoolConfig := {| mc_chain_id := 5; mc_entry_point := 1;
  mc_description := ""; mc_min_stake := 1; mc_id := "Qm" |}.
Definition channel : Channel :=
  {| ch_entry_point := 1; ch_open := true; ch_to_pool := []; ch_from_pool := [] |}.
Definition network : Network := {|
  channels := [channel]; configs := [(topic "Qm", config)]; nw_chain_id := 5;
  nw_metadata := {| seq_number := 0; supported_mempools := [] |}; nw_rpc := RPC_new;
  nw_peers := Peers.Example.start; answers := []; gossiped := []; discoveries := [] |}.

Lemma gossip_wf : verified_wf gossip_uo.
Proof.
  repeat split; unfold is_address, is_u256, U256_MAX; simpl; try lia.
  unfold fits, MAXIMUM_SSZ_BYTES_LENGTH. simpl. repeat constructor; simpl; lia.
Qed.
Lemma gossip_routed_witness : ∃ data self',
  handle_gossipsub_event (E:=Empty_set) (GsMessage 7 (topic "Qm") data) network =
    (Ok (Some (NwPubsubMessage 7 gossip_uo)), self') ∧
  ch_to_pool <$> self'.(channels) =
    [[MValidate {| uo_hash := hash (fx_uo 2 1 10) 1 5; user_operation := fx_uo 2 1 10 |}
        {| vc_min_stake := Some 1; vc_min_unstake_delay := None; vc_topic := Some (topic "Qm");
           vc_ignore_prev := false |}]].
Proof.
  destruct (gossip_routed (E:=Empty_set) 7 (topic "Qm") gossip_uo network network)
    as (data & wire & sender' & self' & _ & _ & _ & H1 & H2 & _).
  - exact gossip_wf.
  - by repeat constructor.
  - exists data, self'. split; [exact H1|].
    rewrite (H2 [] config [] [] channel []); [reflexivity| | | | |]; try reflexivity; set_solver.
Defined.

(** an operation with a paymaster field of 1025 bytes *)
Definition oversized : VerifiedUserOperation := {|
  vu_user_operation := {| uo_sender := 2; uo_nonce := 1; uo_init_code := []; uo_call_data := [];
    uo_call_gas_limit := 1; uo_verification_gas_limit := 1; uo_pre_verification_gas := 1;
    uo_max_fee_per_gas := 1; uo_max_priority_fee_per_gas := 1;
    uo_paymaster_and_data := repeat Byte.x01 1025; uo_signature := [] |};
  vu_entry_point := 1; vu_verified_at_block_hash := 77 |}.
Lemma gossip_crashes_witness :
  (publish_one (E:=Empty_set) (oversized, topic "Qm") network).1 = Panic.
Proof.
  destruct (gossip_crashes (E:=Empty_set) network) as [H _].
  apply (H oversized (topic "Qm")).
  - repeat split; unfold is_address, is_u256, U256_MAX; simpl; lia.
  - unfold is_address. simpl. lia.
  - unfold is_u256, U256_MAX. simpl. lia.
  - unfold fits, MAXIMUM_SSZ_BYTES_LENGTH. rewrite !Forall_cons. intros (_ & _ & Hp & _).
    change (1025 ≤ 1024)%nat in Hp. lia.
Defined.

(** the outcome of the second validation *)
Definition outcome2 : UserOperationValidationOutcome := {|
  out_val_config := canonical_config (topic "Qm") config true;
  out_prev_hash := Some 2; out_pre_fund := 1000000; out_verification_gas_limit := 160000;
  out_valid_after := None; out_code_hashes := None; out_storage_map := StorageMap_default;
  out_verified_block := 77 |}.
Definition pool1 := (add_user_operation Bundling.Example.cfg (fx_uo 2 1 10)
  (inr Bundling.Example.outcome) Bundling.Example.pool).2.
Lemma validated_again : validate_user_operation pool1 (fx_uo 2 1 10)
  (Some (canonical_config (topic "Qm") config true)) = Ok outcome2.
Proof. vm_compute. reflexivity. Qed.

Lemma local_submission_counted_twice_witness : ∃ self2,
  consume (E:=Empty_set) Bundling.Example.cfg
    (MValidate (fx_uo 2 1 10) (canonical_config (topic "Qm") config true)) pool1 = (Ok (), self2) ∧
  (entry_or_default self2.(up_reputation) 9).(uo_seen) = 2.
Proof.
  destruct (local_submission_counted_twice (E:=Empty_set) Bundling.Example.cfg network channel
    (topic "Qm") config (fx_uo 2 1 10) Bundling.Example.outcome outcome2 Bundling.Example.pool fx_pool)
    as (self1 & c' & H1 & _ & _ & H2).
  - reflexivity.
  - reflexivity.
  - reflexivity.
  - reflexivity.
  - exact fx_refines.
  - intros old. by vm_compute.
  - intros a e. simpl. by rewrite lookup_empty.
  - intros a. unfold entry_or_default. simpl. rewrite lookup_empty. by vm_compute.
  - assert (self1 = pool1) as -> by exact (eq_sym (f_equal snd H1)).
    destruct (H2 validated_again) as (self2 & Hc & _ & Hs). exists self2. split; [exact Hc|].
    rewrite (proj1 (Hs 9)). by vm_compute.
Defined.
End Example.
