(* ===== verification/Exchange.v ===== *)
(** Two nodes on one connection: the peer manager, the network service, the
    request-response protocol, the connection handler and the codec of each, composed the
    way libp2p drives them ([crates/p2p/src/service/mod.rs], [rpc/mod.rs],
    [rpc/handler.rs]).

    The swarm polls the behaviours and hands what they return to the connection or to the
    service; a connection polls its handler and hands what it returns to the behaviour,
    or negotiates the substream it asks for.  [exchange] is this course of events for
    one request, from the event of the peer manager that asks for it to the handling of
    its response. *)

From S2P Require Import Prelude Primitives AbiStd Fixture Ssz Rpc SszMessages Codec Handler Gossip Peers Network.

Section exchange.
Context {P : Profile} {A : Abi} {HO : HashOrder} {EN : EnrLib} {GL : GossipLib}.
Context {L : SszLib} {T : SszTypes} {SN : SnapLib} {SL : StreamLib}.

(** ** One end of the connection *)
Record Side := {
  sd_network : Network;
  sd_handler : RPCHandler;
  (** the counter of inbound requests that the handlers share *)
  sd_next_inbound_id : RequestId;
}.
Implicit Types (s : Side) (n : Network) (h : RPCHandler).
Definition with_network n s : Side := {| sd_network := n; sd_handler := s.(sd_handler);
  sd_next_inbound_id := s.(sd_next_inbound_id) |}.
Definition with_side_handler h s : Side := {| sd_network := s.(sd_network); sd_handler := h;
  sd_next_inbound_id := s.(sd_next_inbound_id) |}.
Abbreviation ACT := (ST Side Empty_set).
Definition on_network {X} (m : ST Network Empty_set X) : ACT X := st_zoom sd_network with_network m.
Definition on_handler {X} (m : ST RPCHandler Empty_set X) : ACT X := st_zoom sd_handler with_side_handler m.

(** what the swarm does with the next event of the protocol; [peer] and [conn] name the
    other end *)
Definition swarm_step (peer : PeerId) (conn : ConnectionId) : ACT (option NetworkEvent) :=
  do* ev := on_network (rpc_call Rpc.poll) in
  match ev with
  | Some (GenerateEvent e) => on_network (handle_swarm_event (SwRPC e))
  | Some (NotifyHandler p c info) =>
      do* _ := if bool_decide (p = peer ∧ c = conn) then on_handler (st_mod (h_on_behaviour_event info))
               else st_ret () in
      st_ret None
  | _ => st_ret None
  end.
(** what the connection does with the next output of its handler: the substream that is
    to be negotiated, if there is one *)
Definition handler_step (peer : PeerId) (conn : ConnectionId) (finished : option BoundTypeId)
    (order : list RequestId) : ACT (option OutboundInfo) :=
  do* out := on_handler (λ h, let '(o, h') := h_poll finished order h in (Ok o, h')) in
  match out with
  | Some (NotifyBehaviour ev) =>
      do* _ := on_network (rpc_call (Rpc.on_connection_handler_event peer conn ev)) in st_ret None
  | Some (OutboundSubstreamRequest info) => st_ret (Some info)
  | None => st_ret None
  end.

(** the first protocol offered that the other end supports, by its name *)
Definition negotiate (request : Request) : option ProtocolId :=
  snd <$> list_find (λ p, p.(protocol_id) ∈ protocol_id <$> inbound_protocol_info) (outbound_protocol_info request).

(** the end that is asked, for one substream; the service answers on the channel that
    carries the number of the request, or drops it *)
Definition listen : ACT RequestId := λ s,
  let '(req_id, next, h) := listen_protocol s.(sd_next_inbound_id) s.(sd_handler) in
  (Ok req_id, {| sd_network := s.(sd_network); sd_handler := h; sd_next_inbound_id := next |}).
Definition answer_on (sender : Z) n : option RPCResponse :=
  (λ x, x.2.2) <$> list_find (λ x, x.1 = sender) n.(answers).
Definition serve_stream (peer : PeerId) (conn : ConnectionId) (p : ProtocolId) (received : bytes)
  : ACT (option bytes) :=
  do* req_id := listen in
  do* _ := on_handler (st_mod (on_connection_event (FullyNegotiatedInbound p req_id))) in
  do* _ := on_handler (inbound_data req_id (inr received)) in
  do* _ := handler_step peer conn None [req_id] in
  do* _ := swarm_step peer conn in
  do* response := st_get (λ s, Ok (answer_on req_id s.(sd_network))) in
  do* written := on_handler (inbound_response req_id response None) in
  do* _ := handler_step peer conn (Some (Inbound req_id)) [] in
  do* _ := swarm_step peer conn in
  st_ret written.

(** ** The two ends *)
Record Link := { requester : Side; responder : Side }.
Definition at_requester {X} (m : ACT X) : ST Link Empty_set X :=
  st_zoom requester (λ s l, {| requester := s; responder := l.(responder) |}) m.
Definition at_responder {X} (m : ACT X) : ST Link Empty_set X :=
  st_zoom responder (λ s l, {| requester := l.(requester); responder := s |}) m.

(** the end that asks: up to the bytes of the request, and from those of the response *)
Definition open_stream (peer : PeerId) (conn : ConnectionId) (event : PeerManagerEvent)
  : ACT (option (RequestId * ProtocolId * bytes)) :=
  do* _ := on_network (handle_swarm_event (SwPeerManager event)) in
  do* _ := swarm_step peer conn in
  do* info := handler_step peer conn None [] in
  match info with
  | Some info =>
      match negotiate info.(oi_request) with
      | Some p =>
          do* _ := on_handler (st_mod (on_connection_event (FullyNegotiatedOutbound p info))) in
          do* sent := on_handler (outbound_send info.(oi_req_id) None) in
          st_ret ((λ b, (info.(oi_req_id), p, b)) <$> sent)
      | None =>
          do* _ := on_handler (st_mod (on_connection_event (DialUpgradeError info UpNegotiationFailed))) in
          st_ret None
      end
  | None => st_ret None
  end.
Definition close_stream (peer : PeerId) (conn : ConnectionId) (req_id : RequestId) (received : bytes)
  : ACT (option NetworkEvent) :=
  do* _ := on_handler (outbound_data req_id (inr received)) in
  do* _ := handler_step peer conn (Some (Outbound req_id)) [] in
  swarm_step peer conn.

(** [pa] and [pb] are the names of the two nodes, [ka] and [kb] those of the connection at
    its two ends *)
Definition exchange (pa pb : PeerId) (ka kb : ConnectionId) (event : PeerManagerEvent) : ST Link Empty_set () :=
  do* opened := at_requester (open_stream pb ka event) in
  match opened with
  | Some (req_id, p, sent) =>
      do* written := at_responder (serve_stream pa kb p sent) in
      do* _ := at_requester (close_stream pb ka req_id (default [] written)) in
      st_ret ()
  | None => st_ret ()
  end.

(** ** Quiescence: nothing is queued, and no task is active *)
Definition rpc_idle (peer : PeerId) (conn : ConnectionId) (r : RPC) : Prop :=
  r.(pending_events) = [] ∧ 0 < r.(next_id) ∧ ∃ c, r.(connected) !! peer = Some [c] ∧ c.(c_id) = conn.
Definition handler_idle h : Prop :=
  h.(h_pending_events) = [] ∧ h.(h_outbound) = [] ∧ h.(h_workers) = ∅.
Definition side_idle (peer : PeerId) (conn : ConnectionId) s : Prop :=
  rpc_idle peer conn s.(sd_network).(nw_rpc) ∧ handler_idle s.(sd_handler) ∧
  Forall (λ x, x.1 < s.(sd_next_inbound_id)) s.(sd_network).(answers).

(** a new connection, as the swarm announces it to the behaviours of a node *)
Definition on_established (peer : PeerId) (conn : ConnectionId) (d : ConnectionDirection) (other : nat)
  : ST Network Empty_set () :=
  do* _ := rpc_call (Rpc.on_swarm_event (ConnectionEstablished peer conn other)) in
  on_manager (Peers.on_swarm_event (PmEstablished peer d other)).
Lemma established_idle peer conn d next n : n.(nw_rpc).(pending_events) = [] → 0 < n.(nw_rpc).(next_id) →
  n.(nw_rpc).(connected) !! peer = None → n.(nw_rpc).(pending_outbound_requests) !! peer = None →
  Forall (λ x, x.1 < next) n.(answers) →
  ∃ n', on_established peer conn d 0 n = (Ok (), n') ∧
    side_idle peer conn {| sd_network := n'; sd_handler := RPCHandler_new; sd_next_inbound_id := next |}.
Proof.
  intros He Hn Hc Hq Ha. unfold on_established. erewrite st_bind_step.
  2:{ unfold rpc_call, st_zoom, Rpc.on_swarm_event. erewrite st_bind_step by reflexivity.
      rewrite bool_decide_true by done. unfold st_bind, st_get. cbn [add_connection with_connected pending_outbound_requests].
      rewrite Hq. reflexivity. }
  eexists. split; [reflexivity|]. split; [|by split].
  split; [done|]. split; [done|]. cbn. rewrite Hc, lookup_insert_eq. by eexists.
Qed.

(** ** The steps of the protocol on a quiet connection *)
Lemma rpc_sends {E} peer conn request (r : RPC) : rpc_idle peer conn r → r.(next_id) < U64_MAX →
  ∃ r1 r2, send_request (E:=E) peer request r = (Ok r.(next_id), r1) ∧
    Rpc.poll (E:=E) r1 =
      (Ok (Some (NotifyHandler peer conn {| oi_req_id := r.(next_id); oi_request := request |})), r2) ∧
    rpc_idle peer conn r2 ∧ r2.(next_id) = r.(next_id) + 1.
Proof.
  intros (He & Hp & c & Hc & Hk) Hn.
  assert (Hid : next_request_id (E:=E) r = (Ok r.(next_id), with_next_id (r.(next_id) + 1) r)).
  { unfold next_request_id. erewrite st_bind_step; [|done]. erewrite st_bind_step.
    2: { unfold st_lift, u64_add. rewrite u64_norm_small; [done|]. unfold is_u64. lia. }
    by erewrite st_bind_step. }
  unfold send_request. rewrite (st_bind_step _ _ _ _ _ Hid).
  unfold try_send_request, st_bind at 1. cbn [with_next_id connected]. rewrite Hc. cbn [is_nil length].
  rewrite Z.mod_1_r. cbn [Z.to_nat lookup list_lookup].
  eexists _, _. split; [reflexivity|]. unfold Rpc.poll. cbn. rewrite He, Hk.
  split; [reflexivity|]. split; [|done]. unfold rpc_idle. cbn. split; [done|]. split; [lia|].
  eexists. rewrite lookup_insert_eq. done.
Qed.

(** what the protocol reports when a connection delivers a message *)
Inductive reports (peer : PeerId) : HandlerEvent → RPCEvent → Prop :=
| reports_request id request sender : reports peer (HRequest id request sender) (EvRequest peer request id sender)
| reports_response id response : reports peer (HResponse id response) (EvResponse peer id response)
| reports_sent id : reports peer (HResponseSent id) (EvResponseSent peer id).
Lemma set_connection_idle peer conn f (r : RPC) c : r.(connected) !! peer = Some [c] → c.(c_id) = conn →
  (set_connection peer conn f r).(connected) !! peer = Some [f c].
Proof. intros Hc Hk. cbn. rewrite lookup_alter_eq, Hc. cbn. by rewrite bool_decide_true. Qed.
Lemma get_connection_idle peer conn (r : RPC) c : r.(connected) !! peer = Some [c] → c.(c_id) = conn →
  get_connection peer conn r = Some c.
Proof. intros Hc Hk. unfold get_connection. rewrite Hc. cbn. by rewrite decide_True. Qed.
Lemma rpc_receives {E} peer conn ev e (r : RPC) : rpc_idle peer conn r → reports peer ev e →
  ∃ r1 r2, Rpc.on_connection_handler_event (E:=E) peer conn ev r = (Ok (), r1) ∧
    Rpc.poll (E:=E) r1 = (Ok (Some (GenerateEvent e)), r2) ∧ rpc_idle peer conn r2 ∧ r2.(next_id) = r.(next_id).
Proof.
  intros (He & Hp & c & Hc & Hk) Hr.
  assert (∃ f r1, Rpc.on_connection_handler_event (E:=E) peer conn ev r = (Ok (), r1) ∧ (∀ x, c_id (f x) = c_id x) ∧
    r1.(pending_events) = [GenerateEvent e] ∧ r1.(next_id) = r.(next_id) ∧
    r1.(connected) = (set_connection peer conn f r).(connected)) as (f & r1 & H1 & Hf & H2 & H3 & H4).
  { destruct Hr as [id request sender|id response|id]; unfold Rpc.on_connection_handler_event, generate.
    - exists (insert_outbound id). eexists. erewrite st_bind_step by reflexivity. unfold st_bind, st_get.
      rewrite (get_connection_idle _ _ _ c) by done. split; [reflexivity|]. cbn. by rewrite He.
    - exists (remove_inbound id). eexists. split; [reflexivity|]. cbn. by rewrite He.
    - exists (remove_outbound id). eexists. split; [reflexivity|]. cbn. by rewrite He. }
  exists r1. unfold Rpc.poll. rewrite H2. eexists. split; [done|]. split; [reflexivity|]. split; [|done].
  split; [done|]. cbn [next_id connected]. rewrite H3, H4. split; [done|].
  rewrite (set_connection_idle _ _ _ _ c) by done. eexists. split; [done|]. by rewrite Hf.
Qed.

(** ** The steps at one end *)
Definition set_rpc (r : RPC) s : Side := with_network (with_rpc r s.(sd_network)) s.
Lemma handler_reports peer conn finished order ev e h' s :
  h_poll finished order s.(sd_handler) = (Some (NotifyBehaviour ev), h') → reports peer ev e →
  rpc_idle peer conn s.(sd_network).(nw_rpc) →
  ∃ r1 r2, handler_step peer conn finished order s = (Ok None, set_rpc r1 (with_side_handler h' s)) ∧
    swarm_step peer conn (set_rpc r1 (with_side_handler h' s)) =
      on_network (handle_swarm_event (SwRPC e)) (set_rpc r2 (with_side_handler h' s)) ∧
    rpc_idle peer conn r2 ∧ r2.(next_id) = s.(sd_network).(nw_rpc).(next_id).
Proof.
  intros Hp Hr Hi. destruct (rpc_receives (E:=Empty_set) peer conn ev e _ Hi Hr) as (r1 & r2 & H1 & H2 & H3 & H4).
  exists r1, r2. split; [|split; [|done]].
  - unfold handler_step. unfold st_bind, on_handler, st_zoom at 1. rewrite Hp.
    unfold on_network, rpc_call, st_zoom. cbn [sd_network with_side_handler]. by rewrite H1.
  - unfold swarm_step, st_bind. unfold on_network at 1, rpc_call, st_zoom.
    cbn [sd_network with_side_handler set_rpc with_network nw_rpc with_rpc]. by rewrite H2.
Qed.

(** ** What the service does with the messages of a ping and of a request for metadata *)
Definition answer_to (m : MetaData) (request : Request) : option RPCResponse :=
  match request with
  | ReqPing _ => Some (RespPong {| ping_data := m.(seq_number) |})
  | ReqMetaData => Some (RespMetaData m)
  | _ => None
  end.
Definition asked (peer : PeerId) (request : Request) (pm : PeerManager) : PeerManager :=
  match request with ReqPing ping => ping_request peer ping.(ping_data) pm | _ => pm end.
Definition told (peer : PeerId) (response : RPCResponse) (pm : PeerManager) : PeerManager :=
  match response with
  | RespPong ping => pong_response peer ping.(ping_data) pm
  | RespMetaData m => metadata_response peer m pm
  | _ => pm
  end.
Lemma service_answers {E} peer request response id n : answer_to n.(nw_metadata) request = Some response →
  handle_swarm_event (E:=E) (SwRPC (EvRequest peer request id id)) n =
    (Ok None, add_answer id response (with_manager (asked peer request n.(nw_peers)) n)).
Proof. destruct request; intros H; simplify_eq/=; by destruct n. Qed.
Lemma service_told {E} peer request response id n m : answer_to m request = Some response →
  handle_swarm_event (E:=E) (SwRPC (EvResponse peer id response)) n =
    (Ok None, with_manager (told peer response n.(nw_peers)) n).
Proof. destruct request; intros H; simplify_eq/=; by destruct n. Qed.
Lemma answer_found id response n : Forall (λ x, x.1 < id) n.(answers) →
  answer_on id (add_answer id response n) = Some response.
Proof.
  unfold answer_on. cbn [answers add_answer]. induction 1 as [|[i r] l Hx _ IH]; cbn.
  - by rewrite decide_True.
  - rewrite decide_False by (cbn in Hx; lia). cbn in IH. by destruct (list_find _ _) as [[??]|].
Qed.

(** ** The two ends of a substream *)
(** a handler with one active task *)
Definition busy (inb : gmap RequestId Chan) (id : BoundTypeId) (w : Worker) : RPCHandler :=
  {| h_pending_events := []; h_outbound := []; h_inbound := inb; h_workers := {[id := w]} |}.
Definition quiet (inb : gmap RequestId Chan) : RPCHandler :=
  {| h_pending_events := []; h_outbound := []; h_inbound := inb; h_workers := ∅ |}.
Lemma idle_quiet h : handler_idle h → h = quiet h.(h_inbound).
Proof. destruct h. by intros (? & ? & ?); simplify_eq/=. Qed.
Lemma push_idle id w inb : try_push id w (quiet inb) = (true, busy inb id w).
Proof. unfold try_push. rewrite bool_decide_false; [done|]. cbn. rewrite map_size_empty. unfold WORKER_CAPACITY. lia. Qed.
Lemma busy_set inb id w w' : set_worker id w' (busy inb id w) = busy inb id w'.
Proof. unfold set_worker, with_workers, busy. cbn. by rewrite insert_singleton_eq. Qed.
Lemma busy_worker inb id w : (busy inb id w).(h_workers) !! id = Some w.
Proof. apply lookup_singleton_eq. Qed.
Lemma busy_polled inb id o order : h_poll (Some id) order (busy inb id (WOut o)) =
  (Some (NotifyBehaviour (outcome_event id o)), quiet inb).
Proof. unfold h_poll. cbn. rewrite lookup_singleton_eq. cbn. unfold with_workers. cbn. by rewrite delete_singleton_eq. Qed.

Lemma negotiated_inbound p id inb :
  on_connection_event (FullyNegotiatedInbound p id) (quiet inb) = busy inb (Inbound id) (WRead p).
Proof. cbn [on_connection_event]. unfold on_fully_negotiated_inbound. by rewrite push_idle. Qed.
Lemma negotiated_outbound p info inb : on_connection_event (FullyNegotiatedOutbound p info) (quiet inb) =
  busy inb (Outbound info.(oi_req_id)) (WSend p info.(oi_request)).
Proof. cbn [on_connection_event]. unfold on_fully_negotiated_outbound. by rewrite push_idle. Qed.
Lemma request_read {E} p id inb sent request :
  decode_request p sent = Ok (Some request) → (length sent ≤ REQUEST_SIZE_MAXIMUM)%nat →
  inbound_data (E:=E) id (inr sent) (busy (<[id := ChWaiting]> inb) (Inbound id) (WRead p)) =
    (Ok (), busy (<[id := ChReady request]> inb) (Inbound id) (WRespond p)).
Proof.
  intros Hd Hl. unfold inbound_data. rewrite busy_worker. unfold recv_request.
  cbn [io_error of_sum map_err comp_bind]. rewrite take_ge, Hd by done. cbn [comp_bind ok_or h_inbound busy].
  rewrite lookup_insert_eq, insert_insert_eq. unfold set_worker, with_workers, with_inbound, busy. cbn.
  by rewrite insert_singleton_eq.
Qed.
Lemma request_polled id inb request w :
  h_poll None [id] (busy (<[id := ChReady request]> inb) (Inbound id) w) =
    (Some (NotifyBehaviour (HRequest id request id)), busy (delete id inb) (Inbound id) w).
Proof.
  unfold h_poll. cbn. rewrite lookup_insert_eq. unfold with_inbound, busy. cbn.
  by rewrite delete_insert_eq.
Qed.
Lemma response_written {E} p id inb response answer : encode_response response [] = Ok answer →
  inbound_response (E:=E) id (Some response) None (busy inb (Inbound id) (WRespond p)) =
    (Ok (Some answer), busy inb (Inbound id) (WOut (Finished (inr (HResponseSent id))))).
Proof.
  intros He. unfold inbound_response. rewrite busy_worker, He. unfold st_bind, finish. cbn [map_ok comp_bind].
  by rewrite busy_set.
Qed.
Lemma request_written {E} p id inb request sent : encode_request request [] = Ok sent →
  outbound_send (E:=E) id None (busy inb (Outbound id) (WSend p request)) =
    (Ok (Some sent), busy inb (Outbound id) (WReceive p)).
Proof. intros He. unfold outbound_send. by rewrite busy_worker, He, busy_set. Qed.
Lemma response_read {E} p id inb response answer : decode_response p answer = Ok (Some response) →
  (length answer ≤ RESPONSE_SIZE_MAXIMUM)%nat →
  outbound_data (E:=E) id (inr answer) (busy inb (Outbound id) (WReceive p)) =
    (Ok (), busy inb (Outbound id) (WOut (Finished (inr (HResponse id response))))).
Proof.
  intros Hd Hl. unfold outbound_data. rewrite busy_worker. unfold recv_response.
  cbn [io_error of_sum map_err comp_bind]. rewrite take_ge, Hd by done. cbn. unfold finish. by rewrite busy_set.
Qed.

Lemma on_handler_step {X} (m : ST RPCHandler Empty_set X) n h id r h' : m h = (r, h') →
  on_handler m {| sd_network := n; sd_handler := h; sd_next_inbound_id := id |} =
    (r, {| sd_network := n; sd_handler := h'; sd_next_inbound_id := id |}).
Proof. unfold on_handler, st_zoom. cbn. by intros ->. Qed.

Lemma stream_served peer conn p request response sent answer s :
  side_idle peer conn s → 0 ≤ s.(sd_next_inbound_id) < U64_MAX →
  answer_to s.(sd_network).(nw_metadata) request = Some response →
  decode_request p sent = Ok (Some request) → (length sent ≤ REQUEST_SIZE_MAXIMUM)%nat →
  encode_response response [] = Ok answer →
  ∃ s', serve_stream peer conn p sent s = (Ok (Some answer), s') ∧ side_idle peer conn s' ∧
    s'.(sd_network).(nw_peers) = asked peer request s.(sd_network).(nw_peers) ∧
    s'.(sd_network).(nw_metadata) = s.(sd_network).(nw_metadata) ∧
    s'.(sd_network).(nw_rpc).(next_id) = s.(sd_network).(nw_rpc).(next_id) ∧
    s'.(sd_next_inbound_id) = s.(sd_next_inbound_id) + 1.
Proof.
  intros (Hr & Hh & Ha) Hid Hans Hdec Hlen Henc. destruct s as [n h id]. cbn in *.
  apply idle_quiet in Hh. rewrite Hh. set (inb := h_inbound h).
  unfold serve_stream. erewrite st_bind_step by reflexivity. cbn [sd_network sd_handler sd_next_inbound_id].
  rewrite Z.mod_small by (unfold U64_MAX in Hid; lia).
  change (with_inbound _ (quiet inb)) with (quiet (<[id := ChWaiting]> inb)).
  erewrite st_bind_step by (apply on_handler_step; unfold st_mod; by rewrite negotiated_inbound).
  erewrite st_bind_step by (by apply on_handler_step, request_read).
  destruct (handler_reports peer conn None [id] (HRequest id request id) (EvRequest peer request id id)
    (busy (delete id inb) (Inbound id) (WRespond p)) {| sd_network := n;
      sd_handler := busy (<[id := ChReady request]> inb) (Inbound id) (WRespond p); sd_next_inbound_id := id + 1 |})
    as (r1 & r2 & H1 & H2 & H3 & H4); [apply request_polled|constructor|done|].
  erewrite st_bind_step by exact H1. erewrite st_bind_step.
  2:{ rewrite H2. unfold on_network, st_zoom. by rewrite (service_answers _ _ response). }
  unfold set_rpc, with_network, with_side_handler. cbn [sd_network sd_handler sd_next_inbound_id].
  cbn [sd_network] in H4. set (n1 := with_manager _ _).
  erewrite st_bind_step by (unfold st_get; cbn [sd_network]; by rewrite answer_found).
  erewrite st_bind_step by (by apply on_handler_step, response_written).
  edestruct (handler_reports peer conn (Some (Inbound id)) [] (HResponseSent id) (EvResponseSent peer id))
    as (r3 & r4 & H5 & H6 & H7 & H8); [| |  |erewrite st_bind_step by exact H5]; [apply busy_polled|constructor|done|].
  erewrite st_bind_step by (rewrite H6; reflexivity).
  eexists. split; [reflexivity|]. unfold set_rpc, with_network, with_side_handler. cbn in H8 |- *.
  split; [|by rewrite H8].
  split; [done|]. split; [done|]. cbn. apply Forall_app. split; [|by repeat constructor; cbn; lia].
  eapply Forall_impl; [exact Ha|]. cbn. lia.
Qed.

(** the request that the peer manager asks for, with the metadata of this node *)
Definition request_for (m : MetaData) (peer : PeerId) (event : PeerManagerEvent) : option Request :=
  match event with
  | EvPing p => if bool_decide (p = peer) then Some (ReqPing {| ping_data := m.(seq_number) |}) else None
  | EvMetaData p => if bool_decide (p = peer) then Some ReqMetaData else None
  | _ => None
  end.
Lemma manager_sends {E} peer event request n : request_for n.(nw_metadata) peer event = Some request →
  (send_request (E:=E) peer request n.(nw_rpc)).1 = Ok n.(nw_rpc).(next_id) →
  handle_swarm_event (E:=E) (SwPeerManager event) n =
    (Ok None, with_rpc (send_request (E:=E) peer request n.(nw_rpc)).2 n).
Proof.
  intros Hr Hs. destruct event; try discriminate Hr; cbn in Hr; case_bool_decide; simplify_eq;
    cbn [handle_swarm_event handler_peer_manager_event]; unfold st_bind, st_get, rpc_call, st_zoom;
    destruct (send_request _ _ _) as [? ?]; cbn in Hs; by simplify_eq/=.
Qed.
Lemma negotiate_only request : ∃ pr, outbound_protocol_info request = [ProtocolId_new pr] ∧
  negotiate request = Some (ProtocolId_new pr).
Proof. by destruct request; eexists. Qed.

Lemma stream_opened peer conn event request sent s : side_idle peer conn s →
  s.(sd_network).(nw_rpc).(next_id) < U64_MAX → request_for s.(sd_network).(nw_metadata) peer event = Some request →
  encode_request request [] = Ok sent →
  ∃ p r, outbound_protocol_info request = [p] ∧ rpc_idle peer conn r ∧
    r.(next_id) = s.(sd_network).(nw_rpc).(next_id) + 1 ∧
    open_stream peer conn event s = (Ok (Some (s.(sd_network).(nw_rpc).(next_id), p, sent)),
      {| sd_network := with_rpc r s.(sd_network);
         sd_handler := busy s.(sd_handler).(h_inbound) (Outbound s.(sd_network).(nw_rpc).(next_id)) (WReceive p);
         sd_next_inbound_id := s.(sd_next_inbound_id) |}).
Proof.
  intros (Hi & Hh & _) Hn Hr He. destruct s as [n h id]. cbn in *. apply idle_quiet in Hh. rewrite Hh.
  set (inb := h_inbound h). destruct (rpc_sends (E:=Empty_set) peer conn request _ Hi Hn) as (r1 & r2 & H1 & H2 & H3 & H4).
  destruct (negotiate_only request) as (pr & Hp & Hng). exists (ProtocolId_new pr), r2. split_and!; [done..|].
  unfold open_stream. erewrite st_bind_step.
  2:{ unfold on_network, st_zoom. cbn [sd_network]. rewrite (manager_sends peer event request) by (rewrite ?H1; done).
      by rewrite H1. }
  unfold with_network. cbn [sd_network sd_handler sd_next_inbound_id snd].
  erewrite st_bind_step.
  2:{ unfold swarm_step. unfold st_bind at 1. unfold on_network, rpc_call, st_zoom. cbn [sd_network with_rpc nw_rpc].
      rewrite H2. rewrite bool_decide_true by done. reflexivity. }
  unfold with_network, with_side_handler. cbn [sd_network sd_handler sd_next_inbound_id].
  erewrite st_bind_step by reflexivity. cbn [oi_request]. rewrite Hng.
  unfold with_side_handler. cbn [sd_network sd_handler sd_next_inbound_id].
  change (with_outbound [] _) with (quiet inb).
  erewrite st_bind_step by (apply on_handler_step; unfold st_mod; by rewrite negotiated_outbound).
  cbn [oi_req_id oi_request]. by erewrite st_bind_step by (by apply on_handler_step, request_written).
Qed.

Lemma stream_closed peer conn p m request response answer n inb next id : rpc_idle peer conn n.(nw_rpc) →
  answer_to m request = Some response → decode_response p answer = Ok (Some response) →
  (length answer ≤ RESPONSE_SIZE_MAXIMUM)%nat →
  ∃ r, rpc_idle peer conn r ∧ r.(next_id) = n.(nw_rpc).(next_id) ∧
    close_stream peer conn id answer {| sd_network := n; sd_handler := busy inb (Outbound id) (WReceive p);
      sd_next_inbound_id := next |} =
    (Ok None, {| sd_network := with_manager (told peer response n.(nw_peers)) (with_rpc r n);
      sd_handler := quiet inb; sd_next_inbound_id := next |}).
Proof.
  intros Hi Ha Hd Hl. unfold close_stream.
  erewrite st_bind_step by (by apply on_handler_step, response_read).
  edestruct (handler_reports peer conn (Some (Outbound id)) [] (HResponse id response) (EvResponse peer id response))
    as (r1 & r2 & H1 & H2 & H3 & H4); [| | |erewrite st_bind_step by exact H1]; [apply busy_polled|constructor|done|].
  exists r2. split; [done|]. split; [done|]. rewrite H2. unfold on_network, st_zoom.
  by rewrite (service_told _ request response _ _ m).
Qed.

(** ** The exchange *)
Definition link_idle (pa pb : PeerId) (ka kb : ConnectionId) (l : Link) : Prop :=
  side_idle pb ka l.(requester) ∧ side_idle pa kb l.(responder).
(** numbers are left for [k] more requests *)
Definition numbers_left (k : Z) (l : Link) : Prop :=
  l.(requester).(sd_network).(nw_rpc).(next_id) + k ≤ U64_MAX ∧
  0 ≤ l.(responder).(sd_next_inbound_id) ∧ l.(responder).(sd_next_inbound_id) + k ≤ U64_MAX.
Definition manager_of (s : Side) : PeerManager := s.(sd_network).(nw_peers).
Definition metadata_of (s : Side) : MetaData := s.(sd_network).(nw_metadata).
(** what is written fits into what the other end reads *)
Definition sizes_fit (request : Request) (response : RPCResponse) : Prop :=
  (∀ b, encode_request request [] = Ok b → (length b ≤ REQUEST_SIZE_MAXIMUM)%nat) ∧
  (∀ b, encode_response response [] = Ok b → (length b ≤ RESPONSE_SIZE_MAXIMUM)%nat).

Context {LOk : SszOk L} {TOk : SszTypesOk T} {SOk : StreamOk SL}.
Lemma answer_ok m request response : metadata_wf m → answer_to m request = Some response → response_ok response ∧
  ∀ p, outbound_protocol_info request = [p] → p.(protocol) = protocol_of_response response.
Proof.
  intros Hm Ha. destruct request; simplify_eq/=.
  - split; [apply Hm|]. by intros q [= <-].
  - split; [apply Hm|]. by intros q [= <-].
Qed.
Lemma exchanged pa pb ka kb event request response l : link_idle pa pb ka kb l → numbers_left 1 l →
  request_for (metadata_of l.(requester)) pb event = Some request → request_ok request →
  answer_to (metadata_of l.(responder)) request = Some response → metadata_wf (metadata_of l.(responder)) →
  sizes_fit request response →
  ∃ l', exchange pa pb ka kb event l = (Ok (), l') ∧ link_idle pa pb ka kb l' ∧
    (∀ k, numbers_left (k + 1) l → numbers_left k l') ∧
    manager_of l'.(requester) = told pb response (manager_of l.(requester)) ∧
    manager_of l'.(responder) = asked pa request (manager_of l.(responder)) ∧
    metadata_of l'.(requester) = metadata_of l.(requester) ∧ metadata_of l'.(responder) = metadata_of l.(responder).
Proof using LOk TOk SOk.
  intros [Ha Hb] (Hn1 & Hn2 & Hn3) Hreq Hok Hans Hwf [Hs1 Hs2].
  destruct (request_streams request Hok) as (sent & He & Hd).
  destruct (stream_opened pb ka event request sent l.(requester)) as (p & r & Hp & Hr & Hrn & Ho); [done|lia|done..|].
  destruct (answer_ok _ _ _ Hwf Hans) as [Hrok Hpr].
  destruct (response_streams response p Hrok (Hpr p Hp)) as (answer & Hw & Hrd).
  destruct (stream_served pa kb p request response sent answer l.(responder)) as (s' & Hse & Hsi & H1 & H2 & H3 & H4);
    [done|lia|done| |by apply Hs1|done|].
  { apply Hd. rewrite Hp. by apply list_elem_of_singleton. }
  destruct (stream_closed pb ka p (metadata_of (responder l)) request response answer (with_rpc r (sd_network (requester l)))
    (h_inbound (sd_handler (requester l))) (sd_next_inbound_id (requester l)) (next_id (nw_rpc (sd_network (requester l)))))
    as (r' & Hr' & Hrn' & Hc); [done|exact Hans|done|by apply Hs2|].
  destruct l as [sa sb]. cbn in *.
  unfold exchange. erewrite st_bind_step by (unfold at_requester, st_zoom; cbn [requester]; by rewrite Ho).
  cbn beta iota.
  erewrite st_bind_step by (unfold at_responder, st_zoom; cbn [responder]; by rewrite Hse).
  erewrite st_bind_step by (unfold at_requester, st_zoom; cbn [requester from_option id]; by rewrite Hc).
  eexists. split; [reflexivity|]. split; [|split; [|by split_and!]].
  - split; [|done]. destruct Ha as (_ & _ & Ha). by split_and!.
  - intros k (Hk1 & Hk2 & Hk3). unfold numbers_left. cbn in *. rewrite Hrn', Hrn, H4. lia.
Qed.

Definition stale (info : PeerInfo) (m : MetaData) : bool :=
  match info.(metadata) with Some m' => bool_decide (m'.(seq_number) < m.(seq_number)) | None => true end.
Lemma pong_events p info seq pm : pm.(peers) !! p = Some info → ∀ m, m.(seq_number) = seq →
  (pong_response p seq pm).(events) = pm.(events) ++ (if stale info m then [EvMetaData p] else []) ∧
  (pong_response p seq pm).(peers) = pm.(peers).
Proof.
  intros Hp m <-. unfold pong_response, refresh_metadata, stale. rewrite Hp.
  destruct (metadata info); [case_bool_decide|]; by rewrite ?app_nil_r.
Qed.

(** C31. A ping brings two nodes to agree on the metadata.  Over a quiet connection, the ping
    that the peer manager of one node asks for is sent, answered by the service of the
    other with its sequence number and handled, and leaves the connection quiet; the
    other end has rescheduled its own ping of this node and compared the number that
    came with it.  The peer manager then asks for the metadata exactly if it has none
    of the peer or older ones, and asking for them stores those of the peer. *)
Theorem ping_refreshes_metadata pa pb ka kb l info :
  link_idle pa pb ka kb l → numbers_left 2 l →
  is_u64 (metadata_of l.(requester)).(seq_number) → metadata_wf (metadata_of l.(responder)) →
  (manager_of l.(requester)).(peers) !! pb = Some info →
  sizes_fit (ReqPing {| ping_data := (metadata_of l.(requester)).(seq_number) |})
    (RespPong {| ping_data := (metadata_of l.(responder)).(seq_number) |}) →
  sizes_fit ReqMetaData (RespMetaData (metadata_of l.(responder))) →
  ∃ l1 l2, exchange pa pb ka kb (EvPing pb) l = (Ok (), l1) ∧
    manager_of l1.(responder) =
      ping_request pa (metadata_of l.(requester)).(seq_number) (manager_of l.(responder)) ∧
    (manager_of l1.(requester)).(events) = (manager_of l.(requester)).(events) ++
      (if stale info (metadata_of l.(responder)) then [EvMetaData pb] else []) ∧
    exchange pa pb ka kb (EvMetaData pb) l1 = (Ok (), l2) ∧
    (manager_of l2.(requester)).(peers) !! pb = Some (set_metadata (metadata_of l.(responder)) info) ∧
    link_idle pa pb ka kb l1 ∧ link_idle pa pb ka kb l2.
Proof using LOk TOk SOk.
  intros Hi Hn Hseq Hwf Hp Hfit1 Hfit2.
  destruct (exchanged pa pb ka kb (EvPing pb) (ReqPing {| ping_data := (metadata_of l.(requester)).(seq_number) |})
    (RespPong {| ping_data := (metadata_of l.(responder)).(seq_number) |}) l)
    as (l1 & H1 & Hi1 & Hn1 & Hm1 & Hm2 & Hd1 & Hd2); [done|unfold numbers_left in *; lia| |done|done|done|done|].
  { cbn. by rewrite bool_decide_true. }
  specialize (Hn1 1 Hn). rewrite <-Hd2 in Hwf, Hfit2.
  destruct (exchanged pa pb ka kb (EvMetaData pb) ReqMetaData (RespMetaData (metadata_of l1.(responder))) l1)
    as (l2 & H2 & Hi2 & _ & Hm3 & _); [done|done| |done|done|done|done|].
  { cbn. by rewrite bool_decide_true. }
  destruct (pong_events pb info _ (manager_of l.(requester)) Hp (metadata_of l.(responder)) eq_refl) as [He1 He2].
  exists l1, l2. split; [done|]. split; [done|]. cbn [told ping_data] in Hm1. rewrite Hm1. split; [done|].
  split; [done|]. split; [|done]. rewrite Hm3, Hm1. cbn [told]. unfold metadata_response. rewrite He2, Hp.
  cbn. by rewrite lookup_insert_eq, Hd2.
Qed.
End exchange.

(** ** Two nodes that have just connected *)
Module Example.
#[local] Existing Instances fx_profile std_abi canonical_order Peers.Example.numbers Network.Example.gossip.
#[local] Existing Instances le_ssz le_types stored_blocks stored.

(** the node with metadata [seq], on a new connection to [peer] *)
Definition node (seq : Z) : Network := {| channels := []; configs := []; nw_chain_id := 5;
  nw_metadata := {| seq_number := seq; supported_mempools := [] |}; nw_rpc := RPC_new;
  nw_peers := PeerManager_new ∅; answers := []; gossiped := []; discoveries := [] |}.
Definition side (peer : PeerId) (d : ConnectionDirection) (seq : Z) : Side := {|
  sd_network := (on_established peer 1 d 0 (node seq)).2;
  sd_handler := RPCHandler_new; sd_next_inbound_id := 1 |}.
Definition link : Link := {| requester := side 2 Outgoing 4; responder := side 1 Incoming 9 |}.

Lemma link_quiet : link_idle 1 2 1 1 link.
Proof.
  split; (split; [|split; [done|by constructor]]); (split; [done|]; split; [done|]; by eexists).
Qed.
(** the messages of the example are short *)
Definition short {E} (m : comp E bytes) : bool :=
  match m with Ok b => bool_decide (length b ≤ 64)%nat | _ => true end.
Lemma short_fits request response : short (encode_request request []) && short (encode_response response []) = true →
  sizes_fit request response.
Proof.
  intros [H1 H2]%andb_prop. unfold short in *.
  split; intros b Hb; rewrite Hb in *; [apply bool_decide_eq_true in H1|apply bool_decide_eq_true in H2].
  - unfold REQUEST_SIZE_MAXIMUM. lia.
  - unfold RESPONSE_SIZE_MAXIMUM. lia.
Qed.
Lemma ping_refreshes_metadata_witness : ∃ l1 l2, exchange 1 2 1 1 (EvPing 2) link = (Ok (), l1) ∧
  exchange 1 2 1 1 (EvMetaData 2) l1 = (Ok (), l2) ∧
  (manager_of l2.(requester)).(peers) !! 2 =
    Some (set_metadata {| seq_number := 9; supported_mempools := [] |} (connect Outgoing PeerInfo_default)).
Proof.
  destruct (ping_refreshes_metadata 1 2 1 1 link (connect Outgoing PeerInfo_default))
    as (l1 & l2 & H1 & _ & _ & H2 & H3 & _).
  - exact link_quiet.
  - repeat split; by vm_compute.
  - by split; vm_compute.
  - split; [by split; vm_compute|]. split; [apply le_0_n|constructor].
  - reflexivity.
  - apply short_fits. vm_compute. reflexivity.
  - apply short_fits. vm_compute. reflexivity.
  - exists l1, l2. split; [exact H1|]. split; [exact H2|exact H3].
Defined.
End Example.
