(* ===== verification/Discovery.v ===== *)
(** Node records and peer discovery ([crates/p2p/src/listen_addr.rs],
    [discovery/enr.rs], [discovery/enr_ext.rs], [discovery/mod.rs]): the addresses a
    node listens on and announces, and the discovery behaviour with its queries and
    its cache of records.  The records themselves, their keys and the discv5 service
    are libraries. *)

From S2P Require Import Prelude Primitives Ssz Rpc SszMessages Peers.

Abbreviation Ipv4Addr := Z.
Abbreviation Ipv6Addr := Z.

(** ** [listen_addr.rs] *)
Inductive MProto := MIp4 (addr : Ipv4Addr) | MIp6 (addr : Ipv6Addr) | MTcp (port : Z).
Abbreviation Multiaddr := (list MProto).

Record ListenAddr := { la_addr : Z; la_udp_port : Z; la_tcp_port : Z }.
Inductive ListenAddress := LV4 (v : ListenAddr) | LV6 (v : ListenAddr) | LDual (ipv4 ipv6 : ListenAddr).
Inductive ListenConfig :=
| LcIpv4 (ip : Ipv4Addr) (port : Z)
| LcIpv6 (ip : Ipv6Addr) (port : Z)
| LcDualStack (ipv4 : Ipv4Addr) (ipv4_port : Z) (ipv6 : Ipv6Addr) (ipv6_port : Z).

Definition to_multi_addr (self : ListenAddress) : list Multiaddr :=
  match self with
  | LV4 v => [[MIp4 v.(la_addr); MTcp v.(la_tcp_port)]]
  | LV6 v => [[MIp6 v.(la_addr); MTcp v.(la_tcp_port)]]
  | LDual ipv4 ipv6 => [[MIp4 ipv4.(la_addr); MTcp ipv4.(la_tcp_port)];
                        [MIp6 ipv6.(la_addr); MTcp ipv6.(la_tcp_port)]]
  end.
Definition to_listen_config (self : ListenAddress) : ListenConfig :=
  match self with
  | LV4 v => LcIpv4 v.(la_addr) v.(la_udp_port)
  | LV6 v => LcIpv6 v.(la_addr) v.(la_udp_port)
  | LDual ipv4 ipv6 =>
      LcDualStack ipv4.(la_addr) ipv4.(la_udp_port) ipv6.(la_addr) ipv6.(la_udp_port)
  end.

(** ** Records *)
(** the entries that the program sets in a record *)
Record EnrContent := {
  ec_ip4 : option Ipv4Addr; ec_ip6 : option Ipv6Addr;
  ec_tcp4 : option Z; ec_tcp6 : option Z; ec_udp4 : option Z; ec_udp6 : option Z;
  ec_chain_id : option bytes;
}.
(** keys, and the library of records; [peer_id_to_node_id] is modelled on the bytes of a
    peer id in [NodeIds] *)
Class EnrKeys {EN : EnrLib} := {
  CombinedKey : Type;
  enr_content : Enr → EnrContent;
  enr_sign : CombinedKey → EnrContent → string + Enr;
  key_peer_id : CombinedKey → PeerId;
  NodeId : Type;
  peer_id_to_node_id : PeerId → option NodeId;
}.
(** a signed record holds what was signed and belongs to the key *)
Class EnrKeysOk {EN : EnrLib} (EK : EnrKeys) := {
  enr_sign_ok : ∀ k c e, enr_sign k c = inr e → enr_content e = c ∧ enr_peer_id e = key_peer_id k;
}.

Section records.
Context {EN : EnrLib} {EK : EnrKeys} {T : SszTypes}.

(** [EnrExt::multiaddr]: only the IPv4 address, with the TCP port if there is one *)
Definition enr_multiaddr (e : Enr) : list Multiaddr :=
  match (enr_content e).(ec_ip4) with
  | Some ipv4 => [MIp4 ipv4 :: match (enr_content e).(ec_tcp4) with Some tcp4 => [MTcp tcp4] | None => [] end]
  | None => []
  end.

(** [build_enr], of the entries of the configuration it reads *)
Definition build_enr (key : CombinedKey) (ipv4_addr : option Ipv4Addr) (ipv6_addr : option Ipv6Addr)
  (enr_tcp4_port enr_tcp6_port enr_udp4_port enr_udp6_port : option Z) (chain_id : Z) : comp string Enr :=
  of_sum (enr_sign key {| ec_ip4 := ipv4_addr; ec_ip6 := ipv6_addr; ec_tcp4 := enr_tcp4_port;
    ec_tcp6 := enr_tcp6_port; ec_udp4 := enr_udp4_port; ec_udp6 := enr_udp6_port;
    ec_chain_id := Some (encode_u64 chain_id) |}).

(** ** [discovery/mod.rs] *)
(** the cache: an [LruCache] of 50 records, the last used first *)
Definition CACHED_ENRS : nat := 50.
Abbreviation LruCache := (list (PeerId * Enr)).
Definition lru_pop (p : PeerId) (c : LruCache) : LruCache := filter (λ x, x.1 ≠ p) c.
Definition lru_put (p : PeerId) (e : Enr) (c : LruCache) : LruCache :=
  take CACHED_ENRS ((p, e) :: lru_pop p c).

(** the future of discv5's event stream *)
Inductive EventStream := Awaiting | Present | InActive.

Record Discovery := {
  d_table : list Enr;
  d_disconnected : list NodeId;
  active_queries : list nat;
  cached_enrs : LruCache;
  event_stream : EventStream;
}.
Implicit Types (self : Discovery).

Definition with_queries q self : Discovery := {| d_table := self.(d_table);
  d_disconnected := self.(d_disconnected); active_queries := q; cached_enrs := self.(cached_enrs);
  event_stream := self.(event_stream) |}.
Definition with_cache c self : Discovery := {| d_table := self.(d_table);
  d_disconnected := self.(d_disconnected); active_queries := self.(active_queries); cached_enrs := c;
  event_stream := self.(event_stream) |}.
Definition with_stream st self : Discovery := {| d_table := self.(d_table);
  d_disconnected := self.(d_disconnected); active_queries := self.(active_queries);
  cached_enrs := self.(cached_enrs); event_stream := st |}.

(** [Discovery::new]: [service] is the result of creating and starting discv5; the
    bootnodes other than the node itself are added to its table *)
Definition Discovery_new (service : option string) (bootnodes : list Enr) (local : PeerId)
  : comp string Discovery :=
  match service with
  | Some e => Err e
  | None => Ok {| d_table := filter (λ e, enr_peer_id e ≠ local) bootnodes; d_disconnected := [];
                  active_queries := []; cached_enrs := []; event_stream := Awaiting |}
  end.

(** only nodes that announce a TCP port are asked for *)
Definition discovery_predicate (e : Enr) : bool :=
  bool_decide (is_Some (enr_content e).(ec_tcp4)) || bool_decide (is_Some (enr_content e).(ec_tcp6)).
Definition discover_peers (target_peers : nat) self : Discovery :=
  with_queries (self.(active_queries) ++ [target_peers]) self.
Definition remove_enr (p : PeerId) self : Discovery := with_cache (lru_pop p self.(cached_enrs)) self.
Definition disconnect_peer (p : PeerId) self : Discovery :=
  let self := match peer_id_to_node_id p with
              | Some n => {| d_table := self.(d_table); d_disconnected := self.(d_disconnected) ++ [n];
                             active_queries := self.(active_queries); cached_enrs := self.(cached_enrs);
                             event_stream := self.(event_stream) |}
              | None => self
              end in
  remove_enr p self.

Inductive DialError := LocalPeerId | Denied | NoAddresses | Transport | WrongPeerId
  | DialPeerConditionFalse | Aborted.
Definition discovery_dial_failure (p : option PeerId) (error : DialError) self : Discovery :=
  match p, error with
  | None, _ | _, DialPeerConditionFalse | _, Aborted => self
  | Some p, _ => disconnect_peer p self
  end.

(** [poll]: [ready] are the queries that have finished, each with its position among
    the active ones; a failed query is dropped, the first that succeeded reported *)
Definition cache_all (peers : list Enr) (c : LruCache) : LruCache :=
  fold_left (λ c e, lru_put (enr_peer_id e) e c) peers c.
Fixpoint poll_queries (ready : list (nat * (string + list Enr))) self : option (list Enr) * Discovery :=
  match ready with
  | [] => (None, self)
  | (i, res) :: ready =>
      let self := with_queries (delete i self.(active_queries)) self in
      match res with
      | inr peers => (Some peers, with_cache (cache_all peers self.(cached_enrs)) self)
      | inl _ => poll_queries ready self
      end
  end.
(** the stream is looked at only when no query succeeded; its events are dropped *)
Definition poll_stream (ready : option (option string)) self : Discovery :=
  match self.(event_stream), ready with
  | Awaiting, Some None => with_stream Present self
  | Awaiting, Some (Some _) => with_stream InActive self
  | _, _ => self
  end.
Definition discovery_poll (ready : list (nat * (string + list Enr))) (stream : option (option string)) self
  : option (list Enr) * Discovery :=
  match poll_queries ready self with
  | (Some peers, self) => (Some peers, self)
  | (None, self) => (None, poll_stream stream self)
  end.

(** [handle_pending_outbound_connection]: no address is ever offered for a peer *)
Definition discovery_addresses (p : option PeerId) self : list Multiaddr := [].

(** ** The cache *)
Definition lru_ok (c : LruCache) : Prop := NoDup c.*1 ∧ (length c ≤ CACHED_ENRS)%nat.

Lemma lru_pop_keys p c : (lru_pop p c).*1 = filter (λ q, q ≠ p) c.*1.
Proof.
  unfold lru_pop. induction c as [|[q e] c IH]; [done|]. rewrite fmap_cons, !filter_cons. simpl.
  by case_decide; rewrite ?fmap_cons, IH.
Qed.
Lemma lru_pop_ok p c : lru_ok c → lru_ok (lru_pop p c).
Proof.
  intros [Hn Hl]. split; [rewrite lru_pop_keys; by apply NoDup_filter|].
  unfold lru_pop. etrans; [apply length_filter|done].
Qed.
Lemma lru_put_ok p e c : lru_ok c → lru_ok (lru_put p e c).
Proof.
  intros [Hn _]. unfold lru_put. split; [|rewrite length_take; lia].
  rewrite fmap_take. eapply sublist_NoDup; [|apply sublist_take]. rewrite fmap_cons, lru_pop_keys.
  constructor; [|by apply NoDup_filter]. rewrite list_elem_of_filter. by intros [[] _].
Qed.
Lemma cache_all_ok peers c : lru_ok c → lru_ok (cache_all peers c).
Proof. unfold cache_all. revert c. induction peers as [|e peers IH]; intros c Hc; [done|]. by apply IH, lru_put_ok. Qed.

Lemma filter_keep {X : Type} (Q : X → Prop) `{∀ x, Decision (Q x)} l : Forall Q l → filter Q l = l.
Proof. induction 1 as [|x l Hx _ IH]; [done|]. by rewrite filter_cons, decide_True, IH. Qed.
(** records found together, up to the capacity, are all cached, the last one first *)
Lemma cache_all_prefix (peers : list Enr) c : NoDup (enr_peer_id <$> peers) → (length peers ≤ CACHED_ENRS)%nat →
  ∃ rest, cache_all peers c = reverse ((λ e, (enr_peer_id e, e)) <$> peers) ++ rest.
Proof.
  unfold cache_all. induction peers as [|e peers IH] using rev_ind; intros Hn Hl; [by exists c|].
  rewrite fold_left_app. rewrite fmap_app, NoDup_app in Hn. destruct Hn as (Hn & Hd & _).
  rewrite length_app in Hl. simpl in Hl. destruct IH as [rest Hr]; [done|lia|].
  cbn [fold_left]. rewrite Hr, fmap_app, reverse_app. unfold lru_put, lru_pop. rewrite filter_app.
  assert (filter (λ x : PeerId * Enr, x.1 ≠ enr_peer_id e) (reverse ((λ e, (enr_peer_id e, e)) <$> peers))
    = reverse ((λ e, (enr_peer_id e, e)) <$> peers)) as ->.
  { apply filter_keep. apply Forall_forall.
    intros [q x] (y & [= -> ->] & Hy)%elem_of_reverse%list_elem_of_fmap. simpl. intros Heq. apply (Hd (enr_peer_id y)); [by apply list_elem_of_fmap_2|].
    rewrite Heq. by apply list_elem_of_singleton. }
  eexists. rewrite app_comm_cons, take_app_ge; [done|].
  simpl. rewrite length_reverse, length_fmap. lia.
Qed.

(** ** Discovery in every reachable state *)
Inductive discovery_step : Discovery → Discovery → Prop :=
| dstep_discover self n : discovery_step self (discover_peers n self)
| dstep_remove self p : discovery_step self (remove_enr p self)
| dstep_failure self p error : discovery_step self (discovery_dial_failure p error self)
| dstep_poll self ready stream : discovery_step self (discovery_poll ready stream self).2.

Lemma poll_queries_cache ready self : lru_ok self.(cached_enrs) →
  lru_ok (poll_queries ready self).2.(cached_enrs).
Proof.
  revert self. induction ready as [|[i [e|peers]] ready IH]; intros self Hc; [done|by apply IH|].
  by apply cache_all_ok.
Qed.
Lemma poll_stream_cache stream self : (poll_stream stream self).(cached_enrs) = self.(cached_enrs).
Proof. unfold poll_stream. by destruct (event_stream self), stream as [[]|]. Qed.
Lemma discovery_step_ok self self' : discovery_step self self' → lru_ok self.(cached_enrs) →
  lru_ok self'.(cached_enrs).
Proof.
  destruct 1 as [self n|self p|self p error|self ready stream]; intros Hc; [done|by apply lru_pop_ok| |].
  - destruct p as [p|]; [|by destruct error].
    assert (lru_ok (disconnect_peer p self).(cached_enrs)) as Hd; [|by destruct error].
    unfold disconnect_peer. destruct (peer_id_to_node_id p); by apply lru_pop_ok.
  - unfold discovery_poll. pose proof (poll_queries_cache ready self Hc) as Hp.
    destruct (poll_queries ready self) as [[peers|] self1]; [done|]. simpl. by rewrite poll_stream_cache.
Qed.

(** In every state of discovery the cache holds at most 50 records, one per peer; the
    peers that a successful query reports, when they are at most 50 different ones, are
    all in it; and a peer whose dialling failed is no longer in it. *)
Theorem discovery_cache bootnodes local self : 
  (∃ d, Discovery_new None bootnodes local = Ok d ∧ rtc discovery_step d self) →
  lru_ok self.(cached_enrs) ∧
  (∀ ready stream peers self', discovery_poll ready stream self = (Some peers, self') →
     NoDup (enr_peer_id <$> peers) → (length peers ≤ CACHED_ENRS)%nat →
     ∀ e, e ∈ peers → (enr_peer_id e, e) ∈ self'.(cached_enrs)) ∧
  (∀ p error, error ≠ DialPeerConditionFalse → error ≠ Aborted →
     p ∉ (discovery_dial_failure (Some p) error self).(cached_enrs).*1).
Proof.
  intros (d & [= <-] & Hrun). split; [|split].
  - assert (lru_ok []) as H0 by (split; [constructor|simpl; lia]).
    revert Hrun. apply (rtc_ind_r (λ d, lru_ok d.(cached_enrs))); [done|].
    intros y z _ Hs Hy. by eapply discovery_step_ok.
  - clear Hrun. intros ready stream peers self'. unfold discovery_poll. revert self.
    induction ready as [|[i [err|found]] ready IH]; intros self; [done|apply IH|].
    intros [= <- <-] Hn Hl e He. simpl.
    destruct (cache_all_prefix found (cached_enrs self) Hn Hl) as [rest ->].
    apply elem_of_app. left. apply elem_of_reverse. apply list_elem_of_fmap. by exists e.
  - intros p error H1 H2. assert (p ∉ (disconnect_peer p self).(cached_enrs).*1) as Hd.
    { unfold disconnect_peer, remove_enr. simpl. rewrite lru_pop_keys, list_elem_of_filter. by intros [[] _]. }
    by destruct error.
Qed.

(** A peer that announces IPv6 only is asked for, but there is no address to dial it. *)
Lemma ipv6_peers_not_dialled e : (enr_content e).(ec_ip4) = None → is_Some (enr_content e).(ec_tcp6) →
  discovery_predicate e = true ∧ enr_multiaddr e = [].
Proof.
  intros H4 H6. unfold discovery_predicate, enr_multiaddr. rewrite H4, (bool_decide_true _ H6).
  by rewrite orb_true_r.
Qed.
End records.

(** ** Records of one entry *)
Module Example.
(** the record of a peer, with its number as its address *)
Definition content (n : Z) : EnrContent := {| ec_ip4 := Some n; ec_ip6 := None; ec_tcp4 := Some 9000;
  ec_tcp6 := None; ec_udp4 := Some 9000; ec_udp6 := None; ec_chain_id := None |}.
#[global] Instance content_eq_dec : EqDecision EnrContent.
Proof. solve_decision. Defined.
#[local] Instance records : EnrLib := {| Enr := Z * EnrContent; enr_peer_id := fst |}.
#[local] Instance keys : EnrKeys := {| CombinedKey := Z; enr_content := snd;
  enr_sign k c := inr (k, c); key_peer_id := λ k, k; NodeId := Z; peer_id_to_node_id := Some |}.
#[global] Instance keys_ok : EnrKeysOk keys.
Proof. split. by intros k c e [= <-]. Qed.

Definition found : list Enr := (λ n, (n, content n)) <$> [3; 4; 5].
Definition boot : list Enr := [(7, content 7); (1, content 1)].
Definition start : Discovery := {| d_table := [(7, content 7)]; d_disconnected := [];
  active_queries := []; cached_enrs := []; event_stream := Awaiting |}.
Lemma discovery_cache_witness : (4, (4, content 4) : Enr) ∈ (discovery_poll [(0%nat, inr found)] None
  (discover_peers 16 start)).2.(cached_enrs).
Proof.
  destruct (discovery_cache boot 1 (discover_peers 16 start)) as (_ & H & _).
  - exists start. split; [reflexivity|]. apply rtc_once, dstep_discover.
  - apply (H [(0%nat, inr found)] None found _ eq_refl) with (e := (4, content 4)).
    + repeat constructor; set_solver.
    + unfold CACHED_ENRS. simpl. lia.
    + set_solver.
Defined.
End Example.
