(* ===== verification/NodeIds.v ===== *)
(** The names of a node ([crates/p2p/src/discovery/enr_ext.rs]): the libp2p peer id of the
    public key in a discovery record, and the discovery node id of a peer id.

    The key types of the two libraries, the protobuf encoding of a libp2p key and the
    multihash of a peer id are parameters; [KeyLibOk] states what the formats promise. *)

From S2P Require Import Prelude Primitives AbiStd.

(** ** The libraries *)
Class KeyLib := {
  (** keys of the [enr] crate and how they are written *)
  VerifyingKey : Type;
  to_sec1_bytes : VerifyingKey → bytes;
  Ed25519Key : Type;
  ed25519_to_bytes : Ed25519Key → bytes;
  (** keys of libp2p *)
  LSecp256k1 : Type;
  secp256k1_try_from_bytes : bytes → option LSecp256k1;
  to_bytes_uncompressed : LSecp256k1 → bytes;
  LEd25519 : Type;
  ed25519_try_from_bytes : bytes → option LEd25519;
  led25519_to_bytes : LEd25519 → bytes;
  OtherKey : Type;
}.
Inductive CombinedPublicKey {KL : KeyLib} := Secp256k1 (pk : VerifyingKey) | Ed25519 (pk : Ed25519Key).
Inductive PublicKey {KL : KeyLib} := PkSecp256k1 (pk : LSecp256k1) | PkEd25519 (pk : LEd25519) | PkOther (pk : OtherKey).
Class PeerIdLib {KL : KeyLib} := {
  encode_protobuf : PublicKey → bytes;
  try_decode_protobuf : bytes → string + PublicKey;
  (** [PeerId::from_public_key(..).to_bytes()] *)
  peer_id_bytes : PublicKey → bytes;
  (** [NodeId] of a record: the digest of its key, not compressed *)
  encode_uncompressed : CombinedPublicKey → bytes;
}.
(** a peer id is the identity multihash of an encoding of at most 42 bytes; the two
    libraries write the same keys *)
Class KeyLibOk {KL : KeyLib} (PL : PeerIdLib) := {
  protobuf_roundtrip : ∀ pk, try_decode_protobuf (encode_protobuf pk) = inr pk;
  short_peer_id : ∀ pk, (length (encode_protobuf pk) ≤ 42)%nat →
    peer_id_bytes pk = [byte.of_Z 0; byte.of_Z (Z.of_nat (length (encode_protobuf pk)))] ++ encode_protobuf pk;
  secp256k1_short : ∀ pk, (length (encode_protobuf (PkSecp256k1 pk)) ≤ 42)%nat;
  ed25519_short : ∀ pk, (length (encode_protobuf (PkEd25519 pk)) ≤ 42)%nat;
  secp256k1_same : ∀ pk, ∃ q, secp256k1_try_from_bytes (to_sec1_bytes pk) = Some q ∧
    to_bytes_uncompressed q = byte.of_Z 4 :: encode_uncompressed (Secp256k1 pk);
  ed25519_same : ∀ pk, ∃ q, ed25519_try_from_bytes (ed25519_to_bytes pk) = Some q ∧
    led25519_to_bytes q = encode_uncompressed (Ed25519 pk);
}.

Section names.
Context {A : Abi} {KL : KeyLib} {PL : PeerIdLib}.

(** ** [CombinedPublicKeyExt::as_peer_id], [EnrExt::peer_id] of the key of the record *)
Definition as_peer_id {E} (pk : CombinedPublicKey) : comp E bytes :=
  match pk with
  | Secp256k1 pk =>
      let* libp2p_pk := expect (secp256k1_try_from_bytes (to_sec1_bytes pk)) in
      Ok (peer_id_bytes (PkSecp256k1 libp2p_pk))
  | Ed25519 pk =>
      let* libp2p_pk := expect (ed25519_try_from_bytes (ed25519_to_bytes pk)) in
      Ok (peer_id_bytes (PkEd25519 libp2p_pk))
  end.

(** ** [peer_id_to_node_id]; slices panic beyond the end *)
Definition slice_from {E} (k : nat) (b : bytes) : comp E bytes :=
  if bool_decide (k ≤ length b)%nat then Ok (drop k b) else Panic.
Definition parse_key (pk_bytes : bytes) : comp string PublicKey :=
  match try_decode_protobuf pk_bytes with
  | inr pk => Ok pk
  | inl e => Err (" Cannot parse libp2p public key public key from peer id: " +:+ e)%string
  end.
Definition peer_id_to_node_id (peer_id : bytes) : comp string bytes :=
  let* pk_bytes := slice_from 2 peer_id in
  let* public_key := parse_key pk_bytes in
  match public_key with
  | PkSecp256k1 pk =>
      let* uncompressed_key_bytes := slice_from 1 (to_bytes_uncompressed pk) in
      Ok (keccak256 uncompressed_key_bytes)
  | PkEd25519 pk => Ok (keccak256 (led25519_to_bytes pk))
  | PkOther _ => Err "Unsupported public key from peer"%string
  end.

(** the node id under which discovery knows the key of a record *)
Definition enr_node_id (pk : CombinedPublicKey) : bytes := keccak256 (encode_uncompressed pk).

Context {OK : KeyLibOk PL}.
Lemma short_key pk : (length (encode_protobuf pk) ≤ 42)%nat →
  slice_from (E:=string) 2 (peer_id_bytes pk) = Ok (encode_protobuf pk) ∧ parse_key (encode_protobuf pk) = Ok pk.
Proof using OK.
  intros Hl. unfold parse_key. rewrite short_peer_id, protobuf_roundtrip by done. unfold slice_from.
  by rewrite bool_decide_true by (cbn; lia).
Qed.

(** The two names of a node agree: the peer id of the key in a discovery record is always
    defined, and the node id computed back from it is the one under which discovery
    knows the record; so removing a peer from the discovery table by its peer id removes
    the node that was found. *)
Theorem node_id_of_peer_id pk :
  ∃ peer_id, as_peer_id (E:=string) pk = Ok peer_id ∧ peer_id_to_node_id peer_id = Ok (enr_node_id pk).
Proof using OK.
  unfold peer_id_to_node_id. destruct pk as [pk|pk]; cbn [as_peer_id].
  - destruct (secp256k1_same pk) as (q & -> & Hu), (short_key _ (secp256k1_short q)) as [H1 H2].
    eexists. split; [done|]. rewrite H1. cbn [comp_bind]. rewrite H2. cbn [comp_bind]. rewrite Hu.
    unfold slice_from. by rewrite bool_decide_true by (cbn; lia).
  - destruct (ed25519_same pk) as (q & -> & Hu), (short_key _ (ed25519_short q)) as [H1 H2].
    eexists. split; [done|]. rewrite H1. cbn [comp_bind]. rewrite H2. cbn [comp_bind]. by rewrite Hu.
Qed.
End names.

(** ** Keys that are written as they are *)
Module Example.
#[local] Existing Instance std_abi.
#[local] Instance raw_keys : KeyLib := {|
  VerifyingKey := Byte.byte; to_sec1_bytes b := [b]; Ed25519Key := Byte.byte; ed25519_to_bytes b := [b];
  LSecp256k1 := Byte.byte; secp256k1_try_from_bytes l := match l with [b] => Some b | _ => None end;
  to_bytes_uncompressed b := [byte.of_Z 4; b];
  LEd25519 := Byte.byte; ed25519_try_from_bytes l := match l with [b] => Some b | _ => None end;
  led25519_to_bytes b := [b]; OtherKey := Byte.byte |}.
#[local] Instance raw_ids : PeerIdLib := {|
  encode_protobuf pk := match pk with
    | PkOther b => [Byte.x00; b] | PkEd25519 b => [Byte.x01; b] | PkSecp256k1 b => [Byte.x02; b] end;
  try_decode_protobuf l := match l with
    | [Byte.x00; b] => inr (PkOther b) | [Byte.x01; b] => inr (PkEd25519 b) | [Byte.x02; b] => inr (PkSecp256k1 b)
    | _ => inl "invalid key"%string end;
  peer_id_bytes pk := match pk with
    | PkOther b => [byte.of_Z 0; byte.of_Z 2; Byte.x00; b] | PkEd25519 b => [byte.of_Z 0; byte.of_Z 2; Byte.x01; b]
    | PkSecp256k1 b => [byte.of_Z 0; byte.of_Z 2; Byte.x02; b] end;
  encode_uncompressed pk := match pk with Secp256k1 b | Ed25519 b => [b] end |}.
#[local] Instance raw_ok : KeyLibOk raw_ids.
Proof. split; try (intros []; done); intros pk; try (cbn; lia); by eexists. Qed.

Lemma node_id_of_peer_id_witness : ∃ peer_id,
  as_peer_id (E:=string) (Secp256k1 (Byte.x07 : VerifyingKey)) = Ok peer_id ∧
  peer_id_to_node_id peer_id = Ok (enr_node_id (Secp256k1 (Byte.x07 : VerifyingKey))).
Proof. apply node_id_of_peer_id. Defined.
(** a peer with another kind of key is not in the discovery table *)
Example other_key : peer_id_to_node_id (peer_id_bytes (PkOther (Byte.x07 : OtherKey))) =
  Err "Unsupported public key from peer"%string.
Proof. reflexivity. Qed.
End Example.
