(* ===== verification/Setup.v ===== *)
(** The start of the network ([crates/primitives/src/chain.rs],
    [crates/p2p/src/config.rs], [types/globals.rs], [service/utils.rs], and [Network::new]
    and [start] of [service/mod.rs]): chain specifications, the configuration, the
    key and the record of the node in their files, and the network built from them. *)

From S2P Require Import Prelude Primitives Errors AbiStd Gas Reputation Mempool.
From S2P Require Import MemoryStore EntryPoint Fixture Sanity Simulation Trace.
From S2P Require Import Validator UoPool Bundling Ssz Rpc SszMessages Gossip Peers Network Discovery.

(** ** [chain.rs]; a chain is its number, a duration is in milliseconds *)
Record ChainSpec := { cs_chain : Z; cs_block_time : Z; cs_canonical_mempools : list string }.
Definition spec_mainnet : ChainSpec :=
  {| cs_chain := 1; cs_block_time := 12000; cs_canonical_mempools := [] |}.
Definition spec_dev : ChainSpec := {| cs_chain := 1337; cs_block_time := 1000;
  cs_canonical_mempools := ["Qmf7P3CuhzSbpJa8LqXPwRzfPqsvoQ6RG7aXvthYTzGxb2"%string] |}.
Definition spec_sepolia : ChainSpec := {| cs_chain := 11155111; cs_block_time := 12000;
  cs_canonical_mempools := ["QmdDwVFoEEcgv5qnaTB8ncnXGMnqrhnA5nYpRr4ouWe4AT"%string] |}.
Definition spec_polygon : ChainSpec := {| cs_chain := 137; cs_block_time := 2000;
  cs_canonical_mempools := ["QmRJ1EPhmRDb8SKrPLRXcUBi2weUN8VJ8X9zUtXByC7eJg"%string;
                            "QmaHG3xiRYhxTth7vSTyZCyodBDrtj5hmEMz5DuzaJVKHH"%string] |}.
Definition spec_polygon_mumbai : ChainSpec := {| cs_chain := 80001; cs_block_time := 2000;
  cs_canonical_mempools := ["QmQfRyE9iVTBqZ17hPSP4tuMzaez83Y5wD874ymyRtj9VE"%string] |}.
Definition spec_arbitrum_sepolia : ChainSpec := {| cs_chain := 421614; cs_block_time := 250;
  cs_canonical_mempools := ["QmVwhF77aVNzRUkMJNLDkeF9BtQMHLnfDY5ePpZ81uKLzA"%string] |}.
Definition spec_default (chain_id : Z) : ChainSpec :=
  {| cs_chain := chain_id; cs_block_time := 2000; cs_canonical_mempools := [] |}.
Definition from_chain_id (chain_id : Z) : ChainSpec :=
  if bool_decide (chain_id = 1) then spec_mainnet
  else if bool_decide (chain_id = 1337) then spec_dev
  else if bool_decide (chain_id = 11155111) then spec_sepolia
  else if bool_decide (chain_id = 137) then spec_polygon
  else if bool_decide (chain_id = 80001) then spec_polygon_mumbai
  else if bool_decide (chain_id = 421614) then spec_arbitrum_sepolia
  else spec_default chain_id.

(** ** [constants.rs] *)
Definition ENTRY_POINT_ADDRESS : Address := 0x5FF137D4b0FDCD49DcA30c7CF57E578a026d2789.
Definition IPV4_ADDRESS : Ipv4Addr := 0.
Definition UDP_PORT : Z := 9000.
Definition TCP_PORT : Z := 9000.
Definition NODE_KEY_FILE_NAME : string := "p2p/node-key".
Definition NODE_ENR_FILE_NAME : string := "p2p/node-enr".

(** [MempoolConfig::dev] and [with_id] *)
Definition MempoolConfig_dev : MempoolConfig := {| mc_chain_id := 1337; mc_entry_point := ENTRY_POINT_ADDRESS;
  mc_description := ""; mc_min_stake := 0; mc_id := "" |}.
Definition with_id (id : string) (c : MempoolConfig) : MempoolConfig := {| mc_chain_id := c.(mc_chain_id);
  mc_entry_point := c.(mc_entry_point); mc_description := c.(mc_description);
  mc_min_stake := c.(mc_min_stake); mc_id := id |}.

(** ** Libraries: key pairs and their encodings, the text of records, files that cannot be
    written, canonical mempools on IPFS, and the discv5 service *)
Class NodeLib {EN : EnrLib} {EK : EnrKeys} := {
  Keypair : Type;
  key_decode : bytes → option Keypair;
  key_encode : Keypair → option bytes;
  seed_key : bytes → option Keypair;
  secp256k1_key : Keypair → option CombinedKey;
  enr_parse : bytes → option Enr;
  enr_text : Enr → bytes;
  writable : string → bool;
  fetch_mempool_config : string → string + MempoolConfig;
  discv5_service : Enr → CombinedKey → ListenConfig → option string;
}.
Class NodeLibOk {EN : EnrLib} {EK : EnrKeys} (NL : NodeLib) := {
  key_roundtrip : ∀ k b, key_encode k = Some b → key_decode b = Some k;
  enr_roundtrip : ∀ e, enr_parse (enr_text e) = Some e;
}.

Section setup.
Context {EN : EnrLib} {EK : EnrKeys} {NL : NodeLib} {T : SszTypes} {SN : SnapLib}.

(** ** [config.rs]; the gossipsub configuration of the record is never read *)
Record Config := {
  node_key_file : string;
  node_enr_file : string;
  listen_addr : ListenAddress;
  ipv4_addr : option Ipv4Addr;
  ipv6_addr : option Ipv6Addr;
  enr_udp4_port : option Z;
  enr_tcp4_port : option Z;
  enr_udp6_port : option Z;
  enr_tcp6_port : option Z;
  discv5_config : ListenConfig;
  chain_spec : ChainSpec;
  cfg_target_peers : nat;
  bootnodes : list Enr;
}.
Definition Config_default : Config := {|
  node_key_file := NODE_KEY_FILE_NAME; node_enr_file := NODE_ENR_FILE_NAME;
  listen_addr := LV4 {| la_addr := IPV4_ADDRESS; la_udp_port := UDP_PORT; la_tcp_port := TCP_PORT |};
  ipv4_addr := Some IPV4_ADDRESS; ipv6_addr := None;
  enr_udp4_port := Some UDP_PORT; enr_tcp4_port := Some TCP_PORT; enr_udp6_port := None; enr_tcp6_port := None;
  discv5_config := LcIpv4 IPV4_ADDRESS UDP_PORT; chain_spec := spec_dev;
  cfg_target_peers := TARGET_PEERS; bootnodes := [] |}.

(** ** [ConfigBuilder]: the default configuration, changed field by field; the
    configuration of gossipsub is not modelled *)
Record ConfigBuilder := { cb_config : Config }.
Definition ConfigBuilder_new : ConfigBuilder := {| cb_config := Config_default |}.
Definition build (self : ConfigBuilder) : Config := self.(cb_config).
Definition set_node_key_file (x : string) (self : ConfigBuilder) : ConfigBuilder :=
  let c := self.(cb_config) in
  {| cb_config := {| node_key_file := x; node_enr_file := c.(node_enr_file); listen_addr := c.(listen_addr);
     ipv4_addr := c.(ipv4_addr); ipv6_addr := c.(ipv6_addr); enr_udp4_port := c.(enr_udp4_port);
     enr_tcp4_port := c.(enr_tcp4_port); enr_udp6_port := c.(enr_udp6_port);
     enr_tcp6_port := c.(enr_tcp6_port); discv5_config := c.(discv5_config); chain_spec := c.(chain_spec);
     cfg_target_peers := c.(cfg_target_peers); bootnodes := c.(bootnodes) |} |}.
Definition set_node_enr_file (x : string) (self : ConfigBuilder) : ConfigBuilder :=
  let c := self.(cb_config) in
  {| cb_config := {| node_key_file := c.(node_key_file); node_enr_file := x; listen_addr := c.(listen_addr);
     ipv4_addr := c.(ipv4_addr); ipv6_addr := c.(ipv6_addr); enr_udp4_port := c.(enr_udp4_port);
     enr_tcp4_port := c.(enr_tcp4_port); enr_udp6_port := c.(enr_udp6_port);
     enr_tcp6_port := c.(enr_tcp6_port); discv5_config := c.(discv5_config); chain_spec := c.(chain_spec);
     cfg_target_peers := c.(cfg_target_peers); bootnodes := c.(bootnodes) |} |}.
Definition set_listen_addr (x : ListenAddress) (self : ConfigBuilder) : ConfigBuilder :=
  let c := self.(cb_config) in
  {| cb_config := {| node_key_file := c.(node_key_file); node_enr_file := c.(node_enr_file); listen_addr := x;
     ipv4_addr := c.(ipv4_addr); ipv6_addr := c.(ipv6_addr); enr_udp4_port := c.(enr_udp4_port);
     enr_tcp4_port := c.(enr_tcp4_port); enr_udp6_port := c.(enr_udp6_port);
     enr_tcp6_port := c.(enr_tcp6_port); discv5_config := c.(discv5_config); chain_spec := c.(chain_spec);
     cfg_target_peers := c.(cfg_target_peers); bootnodes := c.(bootnodes) |} |}.
Definition set_ipv4_addr (x : option Ipv4Addr) (self : ConfigBuilder) : ConfigBuilder :=
  let c := self.(cb_config) in
  {| cb_config := {| node_key_file := c.(node_key_file); node_enr_file := c.(node_enr_file);
     listen_addr := c.(listen_addr); ipv4_addr := x; ipv6_addr := c.(ipv6_addr);
     enr_udp4_port := c.(enr_udp4_port); enr_tcp4_port := c.(enr_tcp4_port);
     enr_udp6_port := c.(enr_udp6_port); enr_tcp6_port := c.(enr_tcp6_port);
     discv5_config := c.(discv5_config); chain_spec := c.(chain_spec);
     cfg_target_peers := c.(cfg_target_peers); bootnodes := c.(bootnodes) |} |}.
Definition set_ipv6_addr (x : option Ipv6Addr) (self : ConfigBuilder) : ConfigBuilder :=
  let c := self.(cb_config) in
  {| cb_config := {| node_key_file := c.(node_key_file); node_enr_file := c.(node_enr_file);
     listen_addr := c.(listen_addr); ipv4_addr := c.(ipv4_addr); ipv6_addr := x;
     enr_udp4_port := c.(enr_udp4_port); enr_tcp4_port := c.(enr_tcp4_port);
     enr_udp6_port := c.(enr_udp6_port); enr_tcp6_port := c.(enr_tcp6_port);
     discv5_config := c.(discv5_config); chain_spec := c.(chain_spec);
     cfg_target_peers := c.(cfg_target_peers); bootnodes := c.(bootnodes) |} |}.
Definition set_enr_udp4_port (x : option Z) (self : ConfigBuilder) : ConfigBuilder :=
  let c := self.(cb_config) in
  {| cb_config := {| node_key_file := c.(node_key_file); node_enr_file := c.(node_enr_file);
     listen_addr := c.(listen_addr); ipv4_addr := c.(ipv4_addr); ipv6_addr := c.(ipv6_addr);
     enr_udp4_port := x; enr_tcp4_port := c.(enr_tcp4_port); enr_udp6_port := c.(enr_udp6_port);
     enr_tcp6_port := c.(enr_tcp6_port); discv5_config := c.(discv5_config); chain_spec := c.(chain_spec);
     cfg_target_peers := c.(cfg_target_peers); bootnodes := c.(bootnodes) |} |}.
Definition set_enr_tcp4_port (x : option Z) (self : ConfigBuilder) : ConfigBuilder :=
  let c := self.(cb_config) in
  {| cb_config := {| node_key_file := c.(node_key_file); node_enr_file := c.(node_enr_file);
     listen_addr := c.(listen_addr); ipv4_addr := c.(ipv4_addr); ipv6_addr := c.(ipv6_addr);
     enr_udp4_port := c.(enr_udp4_port); enr_tcp4_port := x; enr_udp6_port := c.(enr_udp6_port);
     enr_tcp6_port := c.(enr_tcp6_port); discv5_config := c.(discv5_config); chain_spec := c.(chain_spec);
     cfg_target_peers := c.(cfg_target_peers); bootnodes := c.(bootnodes) |} |}.
Definition set_enr_udp6_port (x : option Z) (self : ConfigBuilder) : ConfigBuilder :=
  let c := self.(cb_config) in
  {| cb_config := {| node_key_file := c.(node_key_file); node_enr_file := c.(node_enr_file);
     listen_addr := c.(listen_addr); ipv4_addr := c.(ipv4_addr); ipv6_addr := c.(ipv6_addr);
     enr_udp4_port := c.(enr_udp4_port); enr_tcp4_port := c.(enr_tcp4_port); enr_udp6_port := x;
     enr_tcp6_port := c.(enr_tcp6_port); discv5_config := c.(discv5_config); chain_spec := c.(chain_spec);
     cfg_target_peers := c.(cfg_target_peers); bootnodes := c.(bootnodes) |} |}.
Definition set_enr_tcp6_port (x : option Z) (self : ConfigBuilder) : ConfigBuilder :=
  let c := self.(cb_config) in
  {| cb_config := {| node_key_file := c.(node_key_file); node_enr_file := c.(node_enr_file);
     listen_addr := c.(listen_addr); ipv4_addr := c.(ipv4_addr); ipv6_addr := c.(ipv6_addr);
     enr_udp4_port := c.(enr_udp4_port); enr_tcp4_port := c.(enr_tcp4_port);
     enr_udp6_port := c.(enr_udp6_port); enr_tcp6_port := x; discv5_config := c.(discv5_config);
     chain_spec := c.(chain_spec); cfg_target_peers := c.(cfg_target_peers); bootnodes := c.(bootnodes) |} |}.
Definition set_discv5_config (x : ListenConfig) (self : ConfigBuilder) : ConfigBuilder :=
  let c := self.(cb_config) in
  {| cb_config := {| node_key_file := c.(node_key_file); node_enr_file := c.(node_enr_file);
     listen_addr := c.(listen_addr); ipv4_addr := c.(ipv4_addr); ipv6_addr := c.(ipv6_addr);
     enr_udp4_port := c.(enr_udp4_port); enr_tcp4_port := c.(enr_tcp4_port);
     enr_udp6_port := c.(enr_udp6_port); enr_tcp6_port := c.(enr_tcp6_port); discv5_config := x;
     chain_spec := c.(chain_spec); cfg_target_peers := c.(cfg_target_peers); bootnodes := c.(bootnodes) |} |}.
Definition set_chain_spec (x : ChainSpec) (self : ConfigBuilder) : ConfigBuilder :=
  let c := self.(cb_config) in
  {| cb_config := {| node_key_file := c.(node_key_file); node_enr_file := c.(node_enr_file);
     listen_addr := c.(listen_addr); ipv4_addr := c.(ipv4_addr); ipv6_addr := c.(ipv6_addr);
     enr_udp4_port := c.(enr_udp4_port); enr_tcp4_port := c.(enr_tcp4_port);
     enr_udp6_port := c.(enr_udp6_port); enr_tcp6_port := c.(enr_tcp6_port);
     discv5_config := c.(discv5_config); chain_spec := x; cfg_target_peers := c.(cfg_target_peers);
     bootnodes := c.(bootnodes) |} |}.
Definition set_cfg_target_peers (x : nat) (self : ConfigBuilder) : ConfigBuilder :=
  let c := self.(cb_config) in
  {| cb_config := {| node_key_file := c.(node_key_file); node_enr_file := c.(node_enr_file);
     listen_addr := c.(listen_addr); ipv4_addr := c.(ipv4_addr); ipv6_addr := c.(ipv6_addr);
     enr_udp4_port := c.(enr_udp4_port); enr_tcp4_port := c.(enr_tcp4_port);
     enr_udp6_port := c.(enr_udp6_port); enr_tcp6_port := c.(enr_tcp6_port);
     discv5_config := c.(discv5_config); chain_spec := c.(chain_spec); cfg_target_peers := x;
     bootnodes := c.(bootnodes) |} |}.
Definition set_bootnodes (x : list Enr) (self : ConfigBuilder) : ConfigBuilder :=
  let c := self.(cb_config) in
  {| cb_config := {| node_key_file := c.(node_key_file); node_enr_file := c.(node_enr_file);
     listen_addr := c.(listen_addr); ipv4_addr := c.(ipv4_addr); ipv6_addr := c.(ipv6_addr);
     enr_udp4_port := c.(enr_udp4_port); enr_tcp4_port := c.(enr_tcp4_port);
     enr_udp6_port := c.(enr_udp6_port); enr_tcp6_port := c.(enr_tcp6_port);
     discv5_config := c.(discv5_config); chain_spec := c.(chain_spec);
     cfg_target_peers := c.(cfg_target_peers); bootnodes := x |} |}.

(** ** [service/utils.rs] *)
Abbreviation Files := (gmap string bytes).
Definition load_enr_from_file {E} (path : string) (fs : Files) : comp E (option Enr) :=
  match fs !! path with
  | Some content => map_ok Some (expect (enr_parse content))
  | None => Ok None
  end.
Definition load_private_key_from_file {E} (path : string) (fs : Files) : comp E (option Keypair) :=
  match fs !! path with
  | Some content => map_ok Some (expect (key_decode content))
  | None => Ok None
  end.
Definition write_file {E} (path : string) (content : bytes) : ST Files E () := λ fs,
  if writable path then (Ok (), <[path := content]> fs) else (Panic, fs).
Definition save_enr_to_file {E} (e : Enr) (path : string) : ST Files E () := write_file path (enr_text e).
Definition save_private_key_to_file {E} (k : Keypair) (path : string) : ST Files E () :=
  match key_encode k with Some content => write_file path content | None => st_lift Panic end.

(** ** The key and the record of the node.  [seed] is the variable [P2P_SEED], [generated] a
    new key pair *)
Definition node_key {E} (config : Config) (seed : option bytes) (generated : Keypair) : ST Files E Keypair :=
  do* stored := st_get (load_private_key_from_file config.(node_key_file)) in
  match stored, seed with
  | Some key, _ => st_ret key
  | None, Some seed => st_lift (expect (seed_key seed))
  | None, None =>
      do* _ := save_private_key_to_file generated config.(node_key_file) in
      st_ret generated
  end.
Definition config_enr (key : CombinedKey) (config : Config) : comp string Enr :=
  build_enr key config.(ipv4_addr) config.(ipv6_addr) config.(enr_tcp4_port) config.(enr_tcp6_port)
    config.(enr_udp4_port) config.(enr_udp6_port) config.(chain_spec).(cs_chain).
(** [expect] on a result *)
Definition expect_ok {E F X : Type} (r : comp E X) : comp F X := match r with Ok x => Ok x | _ => Panic end.
Definition new_enr {E} (key : CombinedKey) (config : Config) : ST Files E Enr :=
  do* e := st_lift (expect_ok (config_enr key config)) in
  do* _ := save_enr_to_file e config.(node_enr_file) in
  st_ret e.
Definition node_enr {E} (key : CombinedKey) (config : Config) : ST Files E Enr :=
  do* stored := st_get (load_enr_from_file config.(node_enr_file)) in
  match stored with
  | Some e => if bool_decide ((enr_content e).(ec_ip4) = config.(ipv4_addr)) then st_ret e
              else new_enr key config
  | None => new_enr key config
  end.
Definition node_identity {E} (config : Config) (seed : option bytes) (generated : Keypair)
  : ST Files E (Keypair * CombinedKey * Enr) :=
  do* key := node_key config seed generated in
  do* combined := st_lift (expect (secp256k1_key key)) in
  do* e := node_enr combined config in
  st_ret (key, combined, e).

(** ** [NetworkGlobals] and [Network::new] *)
(** [resize_with(256, Default::default)] *)
Definition padded_id (mempool_id : string) : bytes :=
  let id := String.list_byte_of_string mempool_id in
  take MAX_IPFS_CID_LENGTH id ++ repeat Byte.x00 (MAX_IPFS_CID_LENGTH - length id).
Definition local_metadata (canonical_mempools : list string) : MetaData :=
  {| seq_number := 0; supported_mempools := padded_id <$> canonical_mempools |}.

Definition mempool_configs (spec : ChainSpec) : comp string (list (string * MempoolConfig)) :=
  comp_map (λ canonical_mempool,
    let* config := if bool_decide (spec.(cs_chain) = 1337) then Ok MempoolConfig_dev
                   else of_sum (fetch_mempool_config canonical_mempool) in
    Ok (topic canonical_mempool, with_id canonical_mempool config)) spec.(cs_canonical_mempools).

Record NetworkGlobals := {
  g_local_enr : Enr;
  g_peer_id : PeerId;
  g_listen_multiaddrs : list Multiaddr;
  g_peers : gmap PeerId PeerInfo;
  g_local_metadata : MetaData;
  g_chain_spec : ChainSpec;
}.
Definition NetworkGlobals_new (e : Enr) (metadata : MetaData) (trusted_peers : list PeerId) (spec : ChainSpec)
  : NetworkGlobals := {| g_local_enr := e; g_peer_id := enr_peer_id e; g_listen_multiaddrs := enr_multiaddr e;
    g_peers := PeerDB_new trusted_peers; g_local_metadata := metadata; g_chain_spec := spec |}.

(** the network, with the behaviours of its swarm and the calls of [listen_on] and
    [dial] that [start] makes *)
Record Started := {
  st_network : Network;
  st_globals : NetworkGlobals;
  st_gossipsub : Gossipsub;
  st_discovery : Discovery;
  st_listen : list Multiaddr;
  st_dials : list Multiaddr;
}.

(** [start]: the results of [listen_on] and [dial] are ignored *)
Definition start_dials (config : Config) (db : gmap PeerId PeerInfo) : list Multiaddr :=
  concat ((λ bootnode, filter (λ _, is_connected_or_dialing (enr_peer_id bootnode) db = false)
                         (enr_multiaddr bootnode)) <$> config.(bootnodes)).

Definition Network_new (config : Config) (seed : option bytes) (generated : Keypair) (pools : list Channel)
  : ST Files string Started :=
  do* '(_, combined_key, e) := node_identity config seed generated in
  let canonical_mempools := config.(chain_spec).(cs_canonical_mempools) in
  do* configs := st_lift (mempool_configs config.(chain_spec)) in
  let globals := NetworkGlobals_new e (local_metadata canonical_mempools)
                   (enr_peer_id <$> config.(bootnodes)) config.(chain_spec) in
  do* gossipsub := st_lift (create_gossipsub canonical_mempools) in
  let gossipsub := fold_left (λ g b, add_explicit_peer (enr_peer_id b) g) config.(bootnodes) gossipsub in
  do* discovery := st_lift (Discovery_new (discv5_service e combined_key config.(discv5_config))
                              config.(bootnodes) globals.(g_peer_id)) in
  let discovery := Discovery.discover_peers FIND_NODE_QUERY_CLOSEST_PEERS discovery in
  st_ret {|
    st_network := {| channels := pools; configs := configs; nw_chain_id := config.(chain_spec).(cs_chain);
      nw_metadata := globals.(g_local_metadata); nw_rpc := RPC_new;
      nw_peers := PeerManager_new globals.(g_peers); answers := []; gossiped := []; discoveries := [] |};
    st_globals := globals; st_gossipsub := gossipsub; st_discovery := discovery;
    st_listen := to_multi_addr config.(listen_addr);
    st_dials := start_dials config globals.(g_peers) |}.

(** ** What the network is configured for *)
Lemma padded_length id : length (padded_id id) = MAX_IPFS_CID_LENGTH.
Proof. unfold padded_id. rewrite length_app, length_take, repeat_length. lia. Qed.
Lemma local_metadata_wf ids : (length ids ≤ MAX_SUPPORTED_MEMPOOLS)%nat → metadata_wf (local_metadata ids).
Proof.
  intros Hl. split; [unfold is_u64, U64_MAX; simpl; lia|]. simpl. split; [by rewrite length_fmap|].
  apply Forall_fmap, Forall_true. intros id. apply padded_length.
Qed.

Lemma mempool_configs_spec spec l : mempool_configs spec = Ok l →
  l.*1 = topic <$> spec.(cs_canonical_mempools) ∧
  mc_id <$> l.*2 = spec.(cs_canonical_mempools).
Proof.
  unfold mempool_configs. rewrite comp_map_ok. generalize (cs_canonical_mempools spec). intros ids H.
  induction H as [|id [t c] ids l Hc _ [IH1 IH2]]; [done|].
  apply comp_bind_ok in Hc as (config & _ & [= <- <-]). rewrite !fmap_cons, IH1, IH2. done.
Qed.
Lemma find_config_spec t (self : Network) : is_Some (find_config t self) ↔ t ∈ self.(configs).*1.
Proof.
  unfold find_config. split.
  - intros [c Hc]. destruct (list_find _ _) as [[i [t' c']]|] eqn:Hf; [|done].
    apply list_find_Some in Hf as (Hi & <- & _). simpl. apply list_elem_of_fmap. exists (t', c').
    split; [done|]. by eapply list_elem_of_lookup_2.
  - intros ([t' c] & -> & Hin)%list_elem_of_fmap.
    destruct (list_find_elem_of (λ tc : string * MempoolConfig, tc.1 = t') (configs self) (t', c)) as [[i x] Hf];
      [done..|]. simpl. rewrite Hf. by eexists.
Qed.

Lemma explicit_peers (l : list Enr) g :
  let g' := fold_left (λ g b, add_explicit_peer (enr_peer_id b) g) l g in
  g'.(gs_subscriptions) = g.(gs_subscriptions) ∧
  g'.(gs_explicit_peers) = list_to_set (enr_peer_id <$> l) ∪ g.(gs_explicit_peers).
Proof.
  revert g. induction l as [|e l IH]; intros g; [split; [done|simpl; set_solver]|].
  destruct (IH (add_explicit_peer (enr_peer_id e) g)) as [H1 H2]. split; [done|].
  etrans; [exact H2|]. simpl. set_solver.
Qed.

(** A network that starts knows what it subscribes to: its gossip subscriptions are
    the topics of the canonical mempools of its chain, each of them has the
    configuration under which gossiped operations are validated, its metadata can be
    encoded and lists all of them, and it has asked for its first peers. *)
Theorem network_configured config seed generated pools fs st fs' :
  Network_new config seed generated pools fs = (Ok st, fs') →
  let ids := config.(chain_spec).(cs_canonical_mempools) in
  st.(st_gossipsub).(gs_subscriptions) = topics_of ids ∧
  (∀ t, is_Some (find_config t st.(st_network)) ↔ t ∈ st.(st_gossipsub).(gs_subscriptions)) ∧
  mc_id <$> st.(st_network).(configs).*2 = ids ∧
  ((length ids ≤ MAX_SUPPORTED_MEMPOOLS)%nat → metadata_wf st.(st_network).(nw_metadata)) ∧
  st.(st_network).(nw_metadata).(supported_mempools) = padded_id <$> ids ∧
  (∀ b, b ∈ config.(bootnodes) → enr_peer_id b ∈ st.(st_gossipsub).(gs_explicit_peers)) ∧
  st.(st_discovery).(active_queries) = [FIND_NODE_QUERY_CLOSEST_PEERS].
Proof.
  intros H ids. unfold Network_new in H. cbv zeta in H.
  apply st_bind_ok in H as ([[k c] e] & fs1 & _ & H).
  apply st_bind_ok in H as (cfgs & fs2 & Hcfg & H). unfold st_lift in Hcfg. injection Hcfg as Hcfg <-.
  apply st_bind_ok in H as (g & fs3 & Hg & H). unfold st_lift in Hg. injection Hg as Hg <-.
  apply st_bind_ok in H as (d & fs4 & Hd & H). unfold st_lift in Hd. injection Hd as Hd <-.
  injection H as <- <-. simpl. apply mempool_configs_spec in Hcfg as [Hc1 Hc2].
  assert (gs_subscriptions g = topics_of ids) as Hs.
  { destruct gossipsub_new as [err|] eqn:Hn; [unfold create_gossipsub in Hg; by rewrite Hn in Hg|].
    destruct (gossipsub_created ids Hn) as (g' & Hg' & Hs & _). unfold ids in *. rewrite Hg in Hg'. by injection Hg' as <-. }
  destruct (explicit_peers config.(bootnodes) g) as [He1 He2]. simpl in He1, He2.
  split; [by rewrite He1|]. split.
  { intros t. rewrite find_config_spec. simpl. rewrite He1, Hs, Hc1. unfold topics_of.
    by rewrite elem_of_list_to_set. }
  split; [done|]. split; [apply local_metadata_wf|]. split; [done|]. split.
  - intros b Hb. rewrite He2. apply elem_of_union_l, elem_of_list_to_set, list_elem_of_fmap. by exists b.
  - unfold Discovery_new in Hd. destruct (discv5_service _ _ _); by simplify_eq/=.
Qed.

(** every chain has its own specification, with few enough mempools *)
Lemma from_chain_id_spec n : (from_chain_id n).(cs_chain) = n ∧
  (length (from_chain_id n).(cs_canonical_mempools) ≤ MAX_SUPPORTED_MEMPOOLS)%nat.
Proof.
  unfold from_chain_id, MAX_SUPPORTED_MEMPOOLS. repeat case_bool_decide; subst; split; simpl; done || lia.
Qed.

(** ** The identity of the node *)
Context {EOk : EnrKeysOk EK} {NOk : NodeLibOk NL}.

(** the key can be found again *)
Definition key_source (config : Config) (seed : option bytes) (fs : Files) (k : Keypair) : Prop :=
  (∃ b, fs !! config.(node_key_file) = Some b ∧ key_decode b = Some k) ∨
  (fs !! config.(node_key_file) = None ∧ ∃ b, seed = Some b ∧ seed_key b = Some k).
Lemma write_file_ok {E} path b fs fs' : write_file (E:=E) path b fs = (Ok (), fs') → fs' = <[path := b]> fs.
Proof. unfold write_file. by destruct (writable path); intros [= <-]. Qed.

Lemma node_key_spec {E} config seed generated fs k fs' :
  node_key (E:=E) config seed generated fs = (Ok k, fs') →
  key_source config seed fs' k ∧ ∀ p, p ≠ config.(node_key_file) → fs' !! p = fs !! p.
Proof using NOk.
  unfold node_key. intros (stored & fs1 & H1 & H2)%st_bind_ok. unfold st_get in H1.
  injection H1 as H1 <-. unfold load_private_key_from_file in H1.
  destruct (fs !! node_key_file config) as [b|] eqn:Hf.
  - destruct (key_decode b) as [k'|] eqn:Hk; [|done]. simpl in H1. injection H1 as <-.
    injection H2 as -> <-. split; [|done]. left. by exists b.
  - injection H1 as <-. destruct seed as [b|].
    + unfold st_lift in H2. injection H2 as H2 <-. split; [|done]. right. split; [done|]. exists b.
      split; [done|]. by destruct (seed_key b); simplify_eq/=.
    + apply st_bind_ok in H2 as ([] & fs2 & Hs & H2). injection H2 as -> <-.
      unfold save_private_key_to_file in Hs. destruct (key_encode k) as [b|] eqn:Hb; [|done].
      apply write_file_ok in Hs as ->. split; [|intros p Hp; by apply lookup_insert_ne].
      left. exists b. split; [apply lookup_insert_eq|by apply key_roundtrip].
Qed.
Lemma node_key_again {E} config seed generated fs k :
  key_source config seed fs k → node_key (E:=E) config seed generated fs = (Ok k, fs).
Proof.
  intros Hs. unfold node_key. unfold st_bind, st_get, load_private_key_from_file.
  destruct Hs as [(b & -> & Hb)|[-> (b & -> & Hb)]]; simpl; [by rewrite Hb|].
  unfold st_lift. by rewrite Hb.
Qed.

(** the record is in its file and has the address of the configuration; other files
    are as before *)
Definition enr_kept (config : Config) (e : Enr) (fs fs' : Files) : Prop :=
  (∃ b, fs' !! config.(node_enr_file) = Some b ∧ enr_parse b = Some e) ∧
  (enr_content e).(ec_ip4) = config.(ipv4_addr) ∧ ∀ p, p ≠ config.(node_enr_file) → fs' !! p = fs !! p.
Lemma new_enr_spec {E} key config fs e fs' :
  new_enr (E:=E) key config fs = (Ok e, fs') → enr_kept config e fs fs'.
Proof using EOk NOk.
  unfold new_enr. intros (e' & fs1 & H1 & H2)%st_bind_ok.
  apply st_bind_ok in H2 as ([] & fs2 & Hs & H2). injection H2 as -> <-.
  unfold st_lift in H1. injection H1 as H1 <-. apply write_file_ok in Hs as ->.
  split; [exists (enr_text e); split; [apply lookup_insert_eq|apply enr_roundtrip]|].
  split; [|intros p Hp; by apply lookup_insert_ne]. unfold config_enr, build_enr, expect_ok in H1.
  destruct (enr_sign _ _) as [|e''] eqn:Hb; [done|]. simplify_eq/=. by apply enr_sign_ok in Hb as [-> _].
Qed.
Lemma node_enr_spec {E} key config fs e fs' :
  node_enr (E:=E) key config fs = (Ok e, fs') → enr_kept config e fs fs'.
Proof using EOk NOk.
  unfold node_enr. intros (stored & fs1 & H1 & H2)%st_bind_ok. unfold st_get in H1.
  injection H1 as H1 <-. unfold load_enr_from_file in H1.
  destruct (fs !! node_enr_file config) as [b|] eqn:Hf; [|injection H1 as <-; by eapply new_enr_spec].
  destruct (enr_parse b) as [e'|] eqn:Hk; [|done]. simpl in H1. injection H1 as <-.
  case_bool_decide; [|by eapply new_enr_spec]. injection H2 as -> <-. split; [by exists b|done].
Qed.
Lemma node_enr_again {E} key config fs e :
  (∃ b, fs !! config.(node_enr_file) = Some b ∧ enr_parse b = Some e) →
  (enr_content e).(ec_ip4) = config.(ipv4_addr) → node_enr (E:=E) key config fs = (Ok e, fs).
Proof.
  intros (b & Hb & He) Hip. unfold node_enr, st_bind, st_get, load_enr_from_file. rewrite Hb. simpl.
  rewrite He. simpl. by rewrite bool_decide_true.
Qed.

Lemma node_enr_moved {E} key config fs e e0 fs' :
  (∃ b, fs !! config.(node_enr_file) = Some b ∧ enr_parse b = Some e0) →
  (enr_content e0).(ec_ip4) ≠ config.(ipv4_addr) →
  node_enr (E:=E) key config fs = (Ok e, fs') → config_enr key config = Ok e.
Proof.
  intros (b & Hb & He) Hip. unfold node_enr, load_enr_from_file. intros (stored & fs1 & H1 & H2)%st_bind_ok.
  unfold st_get in H1. rewrite Hb in H1. simpl in H1. rewrite He in H1. injection H1 as <- <-.
  rewrite bool_decide_false in H2 by done. unfold new_enr in H2.
  apply st_bind_ok in H2 as (e' & fs2 & H1 & H2). apply st_bind_ok in H2 as ([] & fs3 & _ & H2).
  injection H2 as -> <-. unfold st_lift, expect_ok in H1. injection H1 as H1 <-.
  by destruct (config_enr key config); simplify_eq.
Qed.

(** what a start that succeeds has done *)
Lemma node_identity_spec {E} config seed generated fs k c e fs' :
  config.(node_key_file) ≠ config.(node_enr_file) →
  node_identity (E:=E) config seed generated fs = (Ok (k, c, e), fs') →
  key_source config seed fs' k ∧ secp256k1_key k = Some c ∧
  (∃ b, fs' !! config.(node_enr_file) = Some b ∧ enr_parse b = Some e) ∧
  (enr_content e).(ec_ip4) = config.(ipv4_addr).
Proof using EOk NOk.
  intros Hne Hrun. unfold node_identity in Hrun.
  apply st_bind_ok in Hrun as (k' & fs1 & Hkey & Hrun).
  apply st_bind_ok in Hrun as (c' & fs2 & Hc & Hrun).
  apply st_bind_ok in Hrun as (e' & fs3 & Henr & Hrun). injection Hrun as -> -> -> ->.
  unfold st_lift in Hc. injection Hc as Hc <-.
  apply node_key_spec in Hkey as [Hsrc _]. apply node_enr_spec in Henr as (Hb & Hip' & Hrest).
  split; [unfold key_source; rewrite Hrest by done; exact Hsrc|].
  split; [by destruct (secp256k1_key k); simplify_eq/=|]. done.
Qed.
(** the rest of a start, once its key is known *)
Lemma node_identity_keyed {E} config seed generated fs k c :
  key_source config seed fs k → secp256k1_key k = Some c →
  node_identity (E:=E) config seed generated fs =
    (do* e := node_enr c config in st_ret (k, c, e)) fs.
Proof.
  intros Hsrc Hc. unfold node_identity. erewrite st_bind_step; [|by apply node_key_again].
  erewrite st_bind_step; [done|]. unfold st_lift. by rewrite Hc.
Qed.

(** C32. A node keeps its key, and its record as long as its IPv4 address stays the
    same.  After a start that succeeded, a later start on the files it left, with
    the same two file names, in which the key file exists or the seed is the same:
    for the same IPv4 address it finds the same key and the same record and writes
    nothing, also when the ports, the IPv6 address or the chain of the
    configuration have changed, which the record then does not show; for another
    IPv4 address, if it succeeds, it has the same key and the record that this key
    signs for the new configuration.  Without a key file (the first start took its
    key from a seed, which is not saved) a start with another seed that succeeds
    has the key of that seed. *)
Theorem identity_survives_restart {E} config config' seed seed' generated generated' fs fs' k c e :
  config.(node_key_file) ≠ config.(node_enr_file) →
  node_identity (E:=E) config seed generated fs = (Ok (k, c, e), fs') →
  config'.(node_key_file) = config.(node_key_file) → config'.(node_enr_file) = config.(node_enr_file) →
  let again := node_identity (E:=E) config' seed' generated' fs' in
  (is_Some (fs' !! config.(node_key_file)) ∨ seed' = seed →
     (config'.(ipv4_addr) = config.(ipv4_addr) → again = (Ok (k, c, e), fs')) ∧
     (config'.(ipv4_addr) ≠ config.(ipv4_addr) → ∀ k2 c2 e2 fs2, again = (Ok (k2, c2, e2), fs2) →
        k2 = k ∧ c2 = c ∧ config_enr c config' = Ok e2)) ∧
  (∀ b k2 c2 e2 fs2, fs' !! config.(node_key_file) = None → seed' = Some b →
     again = (Ok (k2, c2, e2), fs2) → seed_key b = Some k2).
Proof using EOk NOk.
  intros Hne Hrun Hk He again. apply node_identity_spec in Hrun as (Hsrc & Hc & Hb & Hip); [|done].
  split.
  - intros Hor.
    assert (key_source config' seed' fs' k) as Hsrc'.
    { unfold key_source in *. rewrite Hk. destruct Hsrc as [?|[Hn ?]]; [by left|].
      destruct Hor as [[? ?]|<-]; [congruence|by right]. }
    unfold again. rewrite (node_identity_keyed config' seed' generated' fs' k c Hsrc' Hc).
    rewrite <-He in Hb. split.
    + intros Hip'. by erewrite st_bind_step by (apply node_enr_again; [done|by rewrite Hip']).
    + intros Hip' k2 c2 e2 fs2 (e' & fs3 & Henr & Hr)%st_bind_ok. injection Hr as <- <- <- <-.
      split; [done|]. split; [done|]. eapply node_enr_moved; [done| |done]. by rewrite Hip.
  - intros b k2 c2 e2 fs2 Hn -> (k' & fs1 & Hkey & Hr)%st_bind_ok.
    apply st_bind_ok in Hr as (c' & fs3 & _ & Hr). apply st_bind_ok in Hr as (e' & fs4 & _ & Hr).
    injection Hr as -> -> -> ->. unfold node_key, st_bind, st_get, load_private_key_from_file in Hkey.
    rewrite Hk, Hn in Hkey. unfold st_lift in Hkey. by destruct (seed_key b); simplify_eq/=.
Qed.
End setup.

(** ** A node on the development chain *)
Module Example.
#[local] Existing Instances Discovery.Example.records Discovery.Example.keys le_types stored_blocks.

(** records as bytes, one per bit of their code *)
#[local] Instance content_countable : Countable EnrContent.
Proof.
  refine (inj_countable' (λ c, (c.(ec_ip4), c.(ec_ip6), c.(ec_tcp4), c.(ec_tcp6), c.(ec_udp4), c.(ec_udp6),
      c.(ec_chain_id)))
    (λ '(a, b, c, d, e, f, g), {| ec_ip4 := a; ec_ip6 := b; ec_tcp4 := c; ec_tcp6 := d; ec_udp4 := e;
      ec_udp6 := f; ec_chain_id := g |}) _). by intros [].
Defined.
Fixpoint bytes_of (p : positive) : bytes :=
  match p with xH => [] | xO p => Byte.x00 :: bytes_of p | xI p => Byte.x01 :: bytes_of p end.
Fixpoint unbytes (b : bytes) : positive :=
  match b with [] => xH | Byte.x00 :: b => xO (unbytes b) | _ :: b => xI (unbytes b) end.
Lemma unbytes_bytes_of p : unbytes (bytes_of p) = p.
Proof. induction p as [p IH|p IH|]; simpl; by rewrite ?IH. Qed.

#[local] Instance files : NodeLib := {|
  Keypair := Z; key_decode b := decode (unbytes b); key_encode k := Some (bytes_of (encode k));
  seed_key b := Some (le_combine b); secp256k1_key := Some;
  enr_parse b := decode (A := Z * EnrContent) (unbytes b); enr_text e := bytes_of (encode (A := Z * EnrContent) e);
  writable _ := true; fetch_mempool_config _ := inl "offline"%string; discv5_service _ _ _ := None |}.
#[local] Instance files_ok : NodeLibOk files.
Proof.
  split; simpl.
  - intros k b [= <-]. by rewrite unbytes_bytes_of, decode_encode.
  - intros e. by rewrite unbytes_bytes_of, decode_encode.
Qed.

Definition config : Config := Config_default.
(** the same node on another port and chain *)
Definition config2 : Config := {| node_key_file := NODE_KEY_FILE_NAME; node_enr_file := NODE_ENR_FILE_NAME;
  listen_addr := listen_addr config; ipv4_addr := Some IPV4_ADDRESS; ipv6_addr := None;
  enr_udp4_port := Some 9001; enr_tcp4_port := Some 9001; enr_udp6_port := None; enr_tcp6_port := None;
  discv5_config := LcIpv4 IPV4_ADDRESS 9001; chain_spec := spec_sepolia; cfg_target_peers := TARGET_PEERS;
  bootnodes := [] |}.
Definition key1 : Keypair := 42.
Definition key2 : Keypair := 43.
Definition first_start := node_identity (E:=string) config None key1 ∅.

Lemma identity_survives_restart_witness : ∃ k c e,
  node_identity (E:=string) config2 None key2 first_start.2 = (Ok (k, c, e), first_start.2) ∧
  (enr_content e).(ec_tcp4) = Some 9000.
Proof.
  destruct first_start as [[r| |] fs'] eqn:Hf; [|vm_compute in Hf; discriminate..].
  destruct r as [[k c] e]. exists k, c, e. split.
  - apply (identity_survives_restart config config2 None None key1 key2 ∅ fs' k c e);
      [discriminate|exact Hf|reflexivity|reflexivity|by right|reflexivity].
  - vm_compute in Hf. injection Hf as _ _ He _. rewrite <-He. reflexivity.
Defined.

Definition started := Network_new config None key1 [] ∅.
Lemma network_configured_witness : ∃ st, started.1 = Ok st ∧
  st.(st_gossipsub).(gs_subscriptions) = topics_of ["Qmf7P3CuhzSbpJa8LqXPwRzfPqsvoQ6RG7aXvthYTzGxb2"%string].
Proof.
  assert (match started.1 with Ok _ => true | _ => false end = true) as Hok by (vm_compute; reflexivity).
  destruct started as [[st| |] fs'] eqn:Hs; [|discriminate Hok..].
  exists st. split; [reflexivity|]. apply (network_configured config None key1 [] ∅ st fs' Hs).
Defined.
End Example.
