(* ===== verification/Bundler.v ===== *)
(** The bundler ([crates/bundler]): the bundle transaction and the clients that
    send it; and its gRPC service ([crates/grpc/src/bundler.rs]): the periodic
    tasks and the requests that switch them or send a bundle at once. *)

From S2P Require Import Prelude Primitives.

(** ** Transactions, and what the bundler asks the node *)
Class TxLib := {
  AccessList : Type;
  no_access_list : AccessList;
  (** ABI encoding of a [handleOps] call *)
  encode_handle_ops : list UserOperationSigned → Address → bytes;
}.

Section transactions.
Context {TX : TxLib}.

Record CallTx := { ct_to : Address; ct_data : bytes; ct_access_list : option AccessList }.
Record Eip1559TransactionRequest := {
  t_to : option Address;
  t_from : option Address;
  t_data : option bytes;
  t_chain_id : option Z;
  t_max_priority_fee_per_gas : option U256;
  t_max_fee_per_gas : option U256;
  t_gas : option U256;
  t_nonce : option U256;
  t_value : option U256;
  t_access_list : AccessList;
}.
End transactions.

Inductive AccountStorage := RootHash (h : H256) | SlotValues (s : gmap string string).
Record ConditionalOptions := {
  known_accounts_of : gmap Address AccountStorage;
  block_number_min : option Z;
  block_number_max : option Z;
  timestamp_min : option Z;
  timestamp_max : option Z;
}.
Record LatestBlock := { lb_number : option Z; lb_timestamp : U256 }.
Record SimulatedTx := { st_error : option string; st_revert : option string }.

(** node, signer and relays: [await_*] waits for the transaction or bundle *)
Class BundlerNode {TX : TxLib} := {
  get_transaction_count : Address → string + U256;
  get_balance : Address → string + U256;
  create_access_list : CallTx → string + AccessList;
  estimate_gas : CallTx → string + U256;
  estimate_eip1559_fees : string + U256 * U256;
  send_transaction : Eip1559TransactionRequest → string + H256;
  sign_transaction : Eip1559TransactionRequest → string + bytes;
  get_chainid : string + U256;
  get_latest_block : string + option LatestBlock;
  get_latest_number : string + Z;
  send_raw_transaction_conditional : bytes → option string → ConditionalOptions → string + H256;
  await_transaction : H256 → string + ();
  relay_simulate : list bytes → bool → Z → Z → string + list SimulatedTx;
  relay_send : list bytes → bool → Z → string + H256;
  relay_await : H256 → string + ();
}.

(** the trait [SendBundleOp] *)
Class SendBundleOp {TX : TxLib} :=
  send_bundle : Eip1559TransactionRequest → StorageMap → comp string H256.

Definition of_rpc {X} (r : string + X) : comp string X :=
  match r with inr x => Ok x | inl e => Err e end.

Section bundler.
Context {P : Profile} {HO : HashOrder} {TX : TxLib} {BN : BundlerNode}.

(** ** [bundler.rs] *)
Record Bundler := {
  wallet_address : Address;
  beneficiary : Address;
  bn_entry_point : Address;
  bn_chain : Z;
  min_balance : U256;
  enable_access_list : bool;
}.

Definition create_bundle (self : Bundler) (uos : list UserOperation)
  : comp string Eip1559TransactionRequest :=
  let* nonce := of_rpc (get_transaction_count self.(wallet_address)) in
  let* balance := of_rpc (get_balance self.(wallet_address)) in
  let to := if bool_decide (balance < self.(min_balance)) then self.(wallet_address)
            else self.(beneficiary) in
  let data := encode_handle_ops (user_operation <$> uos) to in
  let tx := {| ct_to := self.(bn_entry_point); ct_data := data; ct_access_list := None |} in
  let* r := if self.(enable_access_list) then
              let* l := of_rpc (create_access_list tx) in
              Ok ({| ct_to := tx.(ct_to); ct_data := tx.(ct_data); ct_access_list := Some l |}, l)
            else Ok (tx, no_access_list) in
  let* estimated_gas := of_rpc (estimate_gas r.1) in
  let* fees := of_rpc estimate_eip1559_fees in
  Ok {| t_to := Some r.1.(ct_to); t_from := Some self.(wallet_address); t_data := Some r.1.(ct_data);
        t_chain_id := Some self.(bn_chain); t_max_priority_fee_per_gas := Some fees.2;
        t_max_fee_per_gas := Some fees.1; t_gas := Some estimated_gas; t_nonce := Some nonce;
        t_value := None; t_access_list := r.2 |}.

(** ** [ethereum.rs] *)
Definition ethereum_send (bundle : Eip1559TransactionRequest) (storage_map : StorageMap)
  : comp string H256 :=
  let* tx_hash := of_rpc (send_transaction bundle) in
  let* _ := of_rpc (await_transaction tx_hash) in
  Ok tx_hash.

(** ** [conditional.rs] and [fastlane.rs] *)
Definition known_accounts (m : StorageMap) : gmap Address AccountStorage :=
  fold_left (λ acc kv, <[kv.1 := SlotValues kv.2]> acc) (iter_map m.(slots))
    (fold_left (λ acc kv, <[kv.1 := RootHash kv.2]> acc) (iter_map m.(root_hashes)) ∅).

Definition plain_options (m : StorageMap) : ConditionalOptions :=
  {| known_accounts_of := known_accounts m; block_number_min := None; block_number_max := None;
     timestamp_min := None; timestamp_max := None |}.

Definition POLYGON_ID : Z := 137.

Definition conditional_send (bundle : Eip1559TransactionRequest) (storage_map : StorageMap)
  : comp string H256 :=
  let* signed_tx := of_rpc (sign_transaction bundle) in
  let* chainid := of_rpc get_chainid in
  let prefix := if bool_decide (chainid = POLYGON_ID) then Some "bor"%string else None in
  let* tx_hash := of_rpc (send_raw_transaction_conditional signed_tx prefix (plain_options storage_map)) in
  let* _ := of_rpc (await_transaction tx_hash) in
  Ok tx_hash.

(** [U64] additions panic on overflow, those of [u64] follow the build *)
Definition fastlane_options (storage_map : StorageMap) (block : option LatestBlock)
  : comp string ConditionalOptions :=
  match block with
  | Some block =>
      match block.(lb_number) with
      | Some n =>
          let* n' := if bool_decide (n + 100 ≤ U64_MAX) then Ok (n + 100) else Panic in
          let* ts := as_u64 block.(lb_timestamp) in
          let* ts' := u64_add ts 420 in
          Ok {| known_accounts_of := known_accounts storage_map; block_number_min := Some n;
                block_number_max := Some n'; timestamp_min := Some ts; timestamp_max := Some ts' |}
      | None => Ok (plain_options storage_map)
      end
  | None => Ok (plain_options storage_map)
  end.

Definition fastlane_send (bundle : Eip1559TransactionRequest) (storage_map : StorageMap)
  : comp string H256 :=
  let* signed_tx := of_rpc (sign_transaction bundle) in
  let* block := of_rpc get_latest_block in
  let* options := fastlane_options storage_map block in
  let* tx_hash := of_rpc (send_raw_transaction_conditional signed_tx (Some "pfl"%string) options) in
  let* _ := of_rpc (await_transaction tx_hash) in
  Ok tx_hash.

(** ** [flashbots.rs] *)
Record BundleRequest := { br_txs : list bytes; br_revertible : bool; br_block : Z; br_simulation_block : Z }.

Fixpoint sign_all (txs : list Eip1559TransactionRequest) : comp string (list bytes) :=
  match txs with
  | [] => Ok []
  | tx :: txs =>
      let* raw := map_err (λ e, ("Failed to sign transaction: " +:+ e)%string) (of_rpc (sign_transaction tx)) in
      let* raws := sign_all txs in
      Ok (raw :: raws)
  end.
(** the bundle is for the next block and simulated on the latest one *)
Definition generate_bundle_req (txs : list Eip1559TransactionRequest) (revertible : bool)
  : comp string BundleRequest :=
  let* raw := sign_all txs in
  let* block_num := of_rpc get_latest_number in
  let* next := if bool_decide (block_num + 1 ≤ U64_MAX) then Ok (block_num + 1) else Panic in
  Ok {| br_txs := raw; br_revertible := revertible; br_block := next;
        br_simulation_block := block_num |}.

Definition simulate_flashbots_bundle (b : BundleRequest) : comp string (list SimulatedTx) :=
  let* txs := of_rpc (relay_simulate b.(br_txs) b.(br_revertible) b.(br_simulation_block) 0) in
  let* _ := comp_for txs (λ tx,
    match tx.(st_error), tx.(st_revert) with
    | Some e, _ => Err ("Transaction failed simulation with error: " +:+ e)%string
    | None, Some r => Err ("Transaction failed simulation with revert: " +:+ r)%string
    | None, None => Ok ()
    end) in
  Ok txs.

Definition send_flashbots_bundle (b : BundleRequest) : comp string H256 :=
  let* h := map_err (λ e, ("Failed to send bundle: " +:+ e)%string)
              (of_rpc (relay_send b.(br_txs) b.(br_revertible) b.(br_block))) in
  let* _ := of_rpc (relay_await h) in
  Ok h.

Definition flashbots_send (bundle : Eip1559TransactionRequest) (storage_map : StorageMap)
  : comp string H256 :=
  let* bundle_req := generate_bundle_req [bundle] false in
  let* _ := map_err (λ e, ("Bundle simulation failed: " +:+ e)%string)
              (simulate_flashbots_bundle bundle_req) in
  send_flashbots_bundle bundle_req.

(** What reaches a conditional endpoint about the storage of the bundle: slot
    values where there are any, else the root hash. *)
Lemma known_accounts_spec m a :
  known_accounts m !! a =
  match m.(slots) !! a with
  | Some s => Some (SlotValues s)
  | None => RootHash <$> m.(root_hashes) !! a
  end.
Proof.
  assert (Hfold : ∀ {V} (f : V → AccountStorage) (g : gmap Address V) (acc : gmap Address AccountStorage),
    fold_left (λ acc kv, <[kv.1 := f kv.2]> acc) (iter_map g) acc !! a =
    match g !! a with Some v => Some (f v) | None => acc !! a end).
  { intros V f g acc. pose proof (NoDup_iter_map_fst g) as Hnd.
    assert (Hin : ∀ v, g !! a = Some v ↔ (a, v) ∈ iter_map g) by (intros v; by rewrite elem_of_iter_map).
    revert acc Hnd Hin. generalize (g !! a) as o. generalize (iter_map g) as l.
    induction l as [|[k v] l IH]; intros o acc Hnd Hin; cbn [fold_left].
    - destruct o as [v|]; [|done]. destruct (Hin v) as [Hv _].
      by apply not_elem_of_nil in Hv.
    - rewrite fmap_cons in Hnd. apply NoDup_cons in Hnd as [Hk Hnd].
      destruct (decide (a = k)) as [<-|Hne].
      + rewrite (IH None); [| done|].
        * rewrite (proj2 (Hin v)) by set_solver. apply lookup_insert_eq.
        * intros w. split; [done|]. intros Hw. destruct Hk. apply list_elem_of_fmap. by exists (a, w).
      + rewrite (IH o); [|done|].
        * destruct o; [done|]. by apply lookup_insert_ne.
        * intros w. rewrite Hin, elem_of_cons. split; [intros [[=]|?]; done|by right]. }
  unfold known_accounts. rewrite Hfold. destruct (slots m !! a); [done|].
  rewrite Hfold. by destruct (root_hashes m !! a).
Qed.
End bundler.

(** ** [crates/grpc/src/bundler.rs] *)
(** the client of the pool service; [receipt h k] is the answer to the [k]-th
    request for the receipt of [h] *)
Class PoolClient := {
  pool_get_sorted : Address → string + list UserOperation * StorageMap;
  pool_remove : list UserOperation → Address → string + ();
  receipt : H256 → nat → string + bool;
}.

(** What was handed to the client and removed from the pools, by entry point *)
Record World := {
  w_sent : list (Address * list UserOperation);
  w_removed : list (Address * list UserOperation);
}.
Definition log_sent ep uos (w : World) : World :=
  {| w_sent := w.(w_sent) ++ [(ep, uos)]; w_removed := w.(w_removed) |}.
Definition log_removed ep uos (w : World) : World :=
  {| w_sent := w.(w_sent); w_removed := w.(w_removed) ++ [(ep, uos)] |}.

Record Task := { tk_bundler : Bundler; tk_interval : Z }.
Record BundlerService := {
  bundlers : list Bundler;
  running : bool;
  tasks : list Task;
  (** requests to start that have seen [running] false and not set it yet *)
  starting : list Z;
  world : World;
}.

Section service.
Context {P : Profile} {HO : HashOrder} {TX : TxLib} {BN : BundlerNode} {SB : SendBundleOp}
  {PC : PoolClient}.

Definition bundler_send (self : Bundler) (uos : list UserOperation) (storage_map : StorageMap)
  : ST World string (option H256) :=
  match uos with
  | [] => st_ret None
  | _ =>
      do* bundle := st_lift (create_bundle self uos) in
      do* _ := st_mod (log_sent self.(bn_entry_point) uos) in
      do* h := st_lift (send_bundle bundle storage_map) in
      st_ret (Some h)
  end.

Definition get_user_operations (ep : Address) : comp string (list UserOperation * StorageMap) :=
  of_rpc (pool_get_sorted ep).

(** what a task does at a tick, and each bundler in [send_bundles] *)
Definition fetch_and_send (b : Bundler) : ST World string (list UserOperation * option H256) :=
  do* r := st_lift (get_user_operations b.(bn_entry_point)) in
  do* h := bundler_send b r.1 r.2 in
  st_ret (r.1, h).

Fixpoint send_all (bs : list Bundler) : ST World string (list (list UserOperation * option H256)) :=
  match bs with
  | [] => st_ret []
  | b :: bs =>
      do* r := fetch_and_send b in
      do* rs := send_all bs in
      st_ret (r :: rs)
  end.
(** operations and hash of the first bundler *)
Definition send_bundles (bs : list Bundler) : ST World string (list UserOperation * option H256) :=
  do* rs := send_all bs in
  st_lift (expect (head rs)).

(** the waiting loop; [None]: the receipt did not come within the bound *)
Fixpoint wait_receipt (fuel : nat) (attempt : nat) (h : H256) : option () :=
  match fuel with
  | O => None
  | S fuel =>
      match receipt h attempt with
      | inr true => Some ()
      | _ => wait_receipt fuel (S attempt) h
      end
  end.

Definition send_bundle_now (fuel : nat) (bs : list Bundler) (w : World)
  : option (comp string H256 * World) :=
  match send_bundles bs w with
  | (Ok (uos, Some tx_hash), w) =>
      match wait_receipt fuel 0 tx_hash with
      | None => None
      | Some _ =>
          Some ((do* b := st_lift (expect (head bs)) in
                 do* _ := st_lift (of_rpc (pool_remove uos b.(bn_entry_point))) in
                 do* _ := st_mod (log_removed b.(bn_entry_point) uos) in
                 st_ret tx_hash) w)
      end
  | (Ok (uos, None), w) => Some (Ok 0, w)
  | (Err e, w) => Some (Err ("Send bundle now with error: " +:+ e)%string, w)
  | (Panic, w) => Some (Panic, w)
  end.

(** ** Starting and stopping *)
Implicit Types (s : BundlerService).
Definition spawn (bs : list Bundler) (int : Z) : list Task :=
  (λ b, {| tk_bundler := b; tk_interval := int |}) <$> bs.

Definition stop_bundling s : BundlerService :=
  {| bundlers := s.(bundlers); running := false; tasks := s.(tasks); starting := s.(starting);
     world := s.(world) |}.
(** [start_bundling] takes the lock twice: to read the flag, and to set it *)
Definition start_check (int : Z) s : BundlerService :=
  if s.(running) then s
  else {| bundlers := s.(bundlers); running := false; tasks := s.(tasks);
          starting := s.(starting) ++ [int]; world := s.(world) |}.
Definition start_commit s : BundlerService :=
  match s.(starting) with
  | [] => s
  | int :: rest => {| bundlers := s.(bundlers); running := true;
      tasks := s.(tasks) ++ spawn s.(bundlers) int; starting := rest; world := s.(world) |}
  end.
Definition start_bundling (int : Z) s : BundlerService :=
  if s.(running) then s else start_commit (start_check int s).

Inductive Mode := Auto | Manual.
Definition set_bundler_mode (mode : Mode) (interval : Z) s : BundlerService :=
  match mode with Manual => stop_bundling s | Auto => start_bundling interval s end.

Definition with_tasks (l : list Task) (w : World) s : BundlerService :=
  {| bundlers := s.(bundlers); running := s.(running); tasks := l; starting := s.(starting);
     world := w |}.
(** the [i]-th task wakes up.  [tokio::time::interval] panics for a period of zero;
    the task ends when bundling is stopped, else it fetches and sends; errors are
    logged, a panic ends the task *)
Definition tick (i : nat) s : BundlerService :=
  match s.(tasks) !! i with
  | None => s
  | Some t =>
      if bool_decide (t.(tk_interval) = 0) then with_tasks (delete i s.(tasks)) s.(world) s
      else if s.(running) then
        let r := fetch_and_send t.(tk_bundler) s.(world) in
        with_tasks (match r.1 with Panic => delete i s.(tasks) | _ => s.(tasks) end) r.2 s
      else with_tasks (delete i s.(tasks)) s.(world) s
  end.

Definition service_new (bs : list Bundler) (w : World) : BundlerService :=
  {| bundlers := bs; running := false; tasks := []; starting := []; world := w |}.

(** ** Sending at once *)
Lemma send_all_spec bs w rs w' :
  send_all bs w = (Ok rs, w') →
  length rs = length bs ∧ w'.(w_removed) = w.(w_removed) ∧
  w'.(w_sent) = w.(w_sent) ++
    filter (λ eu, eu.2 ≠ []) (zip (bn_entry_point <$> bs) (rs.*1)).
Proof.
  revert w rs. induction bs as [|b bs IH]; intros w rs Hs; simpl in Hs.
  { unfold st_ret in Hs. simplify_eq/=. split_and!; [done..|]. symmetry. apply app_nil_r. }
  apply st_bind_ok in Hs as ([uos h] & w1 & H1 & Hs).
  apply st_bind_ok in Hs as (rs' & w2 & H2 & Hs). unfold st_ret in Hs. simplify_eq/=.
  destruct (IH w1 rs' H2) as (Hlen & Hrem & Hsent). simplify_eq/=.
  unfold fetch_and_send in H1. apply st_bind_ok in H1 as ([uos' m] & w3 & H3 & H1).
  apply st_bind_ok in H1 as (h' & w4 & H4 & H1). unfold st_lift, st_ret in *. simplify_eq/=.
  assert (Hw : w1.(w_removed) = w3.(w_removed) ∧ w1.(w_sent) = w3.(w_sent) ++
    (if decide (uos = []) then [] else [(b.(bn_entry_point), uos)])).
  { destruct uos as [|uo uos]; simpl in H4; unfold st_ret in *; simplify_eq/=; [by rewrite app_nil_r|].
    apply st_bind_ok in H4 as (tx & w5 & H5 & H4). unfold st_lift in H5. simplify_eq/=.
    apply st_bind_ok in H4 as ([] & w6 & H6 & H4). unfold st_mod in H6. simplify_eq/=.
    apply st_bind_ok in H4 as (h'' & w7 & H7 & H4). unfold st_lift, st_ret in *. by simplify_eq/=. }
  destruct Hw as [Hr1 Hs1]. split; [by rewrite Hlen|]. split; [congruence|].
  rewrite Hsent, Hs1, <-(assoc_L (++)). f_equal. rewrite filter_cons. simpl.
  case_decide; case_decide; naive_solver.
Qed.

Lemma wait_receipt_found h k attempt fuel :
  receipt h (attempt + k) = inr true → (k < fuel)%nat → wait_receipt fuel attempt h = Some ().
Proof.
  revert attempt fuel. induction k as [|k IH]; intros attempt fuel Hr Hf;
    (destruct fuel as [|fuel]; [lia|]); simpl.
  - rewrite Nat.add_0_r in Hr. by rewrite Hr.
  - destruct (receipt h attempt) as [|[]]; [|done|]; apply IH; try lia;
      by rewrite Nat.add_succ_l, <-Nat.add_succ_r.
Qed.

(** Sending at once: when every bundler answers and the receipt of the first
    bundle arrives, the request returns its hash after finitely many polls.  The
    non-empty bundles of all entry points were sent; but only the operations of
    the first entry point are removed from the pools. *)
Theorem send_now_effect b bs rs uos h w w1 k fuel :
  send_all (b :: bs) w = (Ok ((uos, Some h) :: rs), w1) →
  receipt h k = inr true → (k < fuel)%nat → pool_remove uos b.(bn_entry_point) = inr () →
  ∃ w', send_bundle_now fuel (b :: bs) w = Some (Ok h, w') ∧
    w'.(w_sent) = w.(w_sent) ++
      filter (λ eu, eu.2 ≠ []) (zip (bn_entry_point <$> b :: bs) (uos :: rs.*1)) ∧
    w'.(w_removed) = w.(w_removed) ++ [(b.(bn_entry_point), uos)].
Proof.
  intros Hs Hr Hf Hrm. destruct (send_all_spec _ _ _ _ Hs) as (_ & Hrem & Hsent).
  eexists. split.
  - unfold send_bundle_now, send_bundles. rewrite (st_bind_step _ _ _ _ _ Hs). simpl.
    rewrite (wait_receipt_found h k 0 fuel) by done.
    erewrite st_bind_step by done. erewrite st_bind_step; [|unfold st_lift; by rewrite Hrm].
    by erewrite st_bind_step.
  - simpl. by rewrite Hrem, Hsent.
Qed.

(** ** The tasks *)
Definition ticks (l : list nat) s : BundlerService := fold_left (λ s i, tick i s) l s.

(** After a stop every task ends the next time it wakes up, and none of them
    sends anything, whatever the order in which they wake up. *)
Theorem stopped_bundling_ends l s :
  s.(running) = false → length l = length s.(tasks) →
  (∀ k i, l !! k = Some i → (i + k < length s.(tasks))%nat) →
  (ticks l s).(tasks) = [] ∧ (ticks l s).(running) = false ∧ (ticks l s).(world) = s.(world).
Proof.
  revert s. induction l as [|i l IH]; intros s Hr Hlen Hv; simpl in *.
  { split_and!; [|done..]. by destruct (tasks s). }
  assert (Hi : (i < length (tasks s))%nat) by (specialize (Hv 0%nat i eq_refl); lia).
  destruct (lookup_lt_is_Some_2 _ _ Hi) as [t Ht].
  assert (Hd := length_delete _ _ (ex_intro _ t Ht)).
  assert (Htick : tick i s = {| bundlers := s.(bundlers); running := false;
    tasks := delete i s.(tasks); starting := s.(starting); world := s.(world) |}).
  { unfold tick, with_tasks. rewrite Ht, Hr. by case_bool_decide. }
  rewrite Htick. destruct (IH (tick i s)) as (H1 & H2 & H3); rewrite ?Htick in *; simpl.
  - done.
  - lia.
  - intros k j Hj. specialize (Hv (S k) j Hj). lia.
  - done.
Qed.

Lemma restart_step int s :
  s.(starting) = [] →
  set_bundler_mode Auto int (set_bundler_mode Manual 0 s) =
  {| bundlers := s.(bundlers); running := true; tasks := s.(tasks) ++ spawn s.(bundlers) int;
     starting := []; world := s.(world) |}.
Proof. intros Hs. unfold set_bundler_mode, start_bundling, start_commit, start_check. simpl. by rewrite Hs. Qed.

(** C27. A stop followed by a start before the tasks wake up does not end them: for
    any interval but zero, after [n] such restarts every bundler has [n + 1] tasks,
    and each of them fetches and sends when it wakes up and goes on afterwards,
    unless the sending panics, which ends this task only.  The same happens when
    two requests to start overlap. *)
Theorem restarts_accumulate_tasks bs w int n :
  int ≠ 0 →
  let restart s := set_bundler_mode Auto int (set_bundler_mode Manual 0 s) in
  let s := Nat.iter n restart (start_bundling int (service_new bs w)) in
  s.(tasks) = concat (replicate (S n) (spawn bs int)) ∧
  (∀ i t, s.(tasks) !! i = Some t →
     (tick i s).(world) = (fetch_and_send t.(tk_bundler) w).2 ∧
     (tick i s).(tasks) = match (fetch_and_send t.(tk_bundler) w).1 with
                          | Panic => delete i s.(tasks)
                          | _ => s.(tasks)
                          end) ∧
  ∀ int2, (start_commit (start_commit (start_check int2 (start_check int (service_new bs w))))).(tasks) =
          spawn bs int ++ spawn bs int2.
Proof.
  intros Hint restart s.
  assert (Hs : s.(tasks) = concat (replicate (S n) (spawn bs int)) ∧ s.(running) = true ∧
    s.(starting) = [] ∧ s.(bundlers) = bs ∧ s.(world) = w).
  { subst s. induction n as [|n IH].
    - simpl. split_and!; try done. by rewrite app_nil_r.
    - destruct IH as (Ht & _ & Hst & Hb & Hw).
      change (Nat.iter (S n) restart (start_bundling int (service_new bs w))) with
        (set_bundler_mode Auto int (set_bundler_mode Manual 0
          (Nat.iter n restart (start_bundling int (service_new bs w))))).
      rewrite (restart_step int _ Hst). cbn [tasks running starting bundlers world].
      rewrite Ht, Hb. split_and!; try done.
      rewrite (replicate_S_end (S n)), concat_app. simpl. by rewrite app_nil_r. }
  destruct Hs as (Ht & Hr & _ & _ & Hw). split_and!; [done| |done].
  intros i t Hi. unfold tick. rewrite Hi, Hr, Hw. rewrite bool_decide_eq_false_2; [done|].
  assert (Forall (λ t, t.(tk_interval) = int) s.(tasks)) as Hf.
  { rewrite Ht. apply Forall_concat, Forall_replicate, Forall_fmap, Forall_forall. done. }
  eapply Forall_lookup_1 in Hf; [|exact Hi]. congruence.
Qed.

(** With an interval of zero no task survives its first moment, and nothing is ever
    sent, though the service counts as running. *)
Theorem zero_interval_never_sends bs w l :
  let s := start_bundling 0 (service_new bs w) in
  (ticks l s).(world) = w ∧ (ticks l s).(running) = true.
Proof.
  intros s. assert (s.(world) = w ∧ s.(running) = true ∧ Forall (λ t, t.(tk_interval) = 0) s.(tasks))
    as (Hw & Hr & Hf).
  { subst s. split_and!; [done..|]. simpl. apply Forall_fmap, Forall_forall. done. }
  clearbody s. revert s Hw Hr Hf. induction l as [|i l IH]; intros s Hw Hr Hf; [done|].
  assert (tick i s = with_tasks (delete i s.(tasks)) s.(world) s ∨ tick i s = s) as [Ht|Ht].
  { unfold tick. destruct (tasks s !! i) as [t|] eqn:Ht; [left|by right].
    by rewrite bool_decide_eq_true_2 by (by eapply (Forall_lookup_1 _ _ _ _ Hf Ht)). }
  - cbn [ticks fold_left]. rewrite Ht. apply IH; [done..|]. by apply Forall_delete.
  - cbn [ticks fold_left]. rewrite Ht. by apply IH.
Qed.
End service.

(** ** Two entry points, one operation each *)
Module Example.
#[local] Existing Instance canonical_order.
#[local] Instance checked : Profile := true.
#[local] Instance txs : TxLib :=
  {| AccessList := (); no_access_list := (); encode_handle_ops _ _ := [] |}.
#[local] Instance node : BundlerNode := {|
  get_transaction_count _ := inr 3; get_balance _ := inr 10; create_access_list _ := inr ();
  estimate_gas _ := inr 50000; estimate_eip1559_fees := inr (20, 2); send_transaction _ := inr 99;
  sign_transaction _ := inr []; get_chainid := inr 5; get_latest_block := inr None;
  get_latest_number := inr 7; send_raw_transaction_conditional _ _ _ := inr 99;
  await_transaction _ := inr (); relay_simulate _ _ _ _ := inr []; relay_send _ _ _ := inr 99;
  relay_await _ := inr () |}.
#[local] Instance client : SendBundleOp := ethereum_send.

Definition uo (sender : Z) : UserOperation := from_user_operation_signed sender {|
  uo_sender := sender; uo_nonce := 0; uo_init_code := []; uo_call_data := [];
  uo_call_gas_limit := 0; uo_verification_gas_limit := 0; uo_pre_verification_gas := 0;
  uo_max_fee_per_gas := 0; uo_max_priority_fee_per_gas := 0; uo_paymaster_and_data := [];
  uo_signature := [] |}.
#[local] Instance pools : PoolClient := {|
  pool_get_sorted ep := inr ([uo (ep + 10)], StorageMap_default); pool_remove _ _ := inr ();
  receipt _ k := inr (bool_decide (k = 2)%nat) |}.

Definition bundler (ep : Z) : Bundler := {| wallet_address := 40; beneficiary := 41;
  bn_entry_point := ep; bn_chain := 5; min_balance := 1; enable_access_list := false |}.
Definition empty : World := {| w_sent := []; w_removed := [] |}.

(** the operation of the second entry point is sent and stays in the pool *)
Lemma send_now_effect_witness : ∃ w',
  send_bundle_now 3 [bundler 1; bundler 2] empty = Some (Ok 99, w') ∧
  w'.(w_sent) = [(1, [uo 11]); (2, [uo 12])] ∧ w'.(w_removed) = [(1, [uo 11])].
Proof.
  exact (send_now_effect (bundler 1) [bundler 2] [([uo 12], Some 99)] [uo 11] 99 empty
    {| w_sent := [(1, [uo 11]); (2, [uo 12])]; w_removed := [] |} 2 3
    eq_refl eq_refl ltac:(lia) eq_refl).
Defined.

(** one bundler, restarted twice *)
Lemma restarts_accumulate_tasks_witness :
  (Nat.iter 2 (λ s, set_bundler_mode Auto 10 (set_bundler_mode Manual 0 s))
    (start_bundling 10 (service_new [bundler 1] empty))).(tasks) =
  replicate 3 {| tk_bundler := bundler 1; tk_interval := 10 |}.
Proof. exact (proj1 (restarts_accumulate_tasks [bundler 1] empty 10 2 ltac:(done))). Defined.

Lemma stopped_bundling_ends_witness :
  (ticks [1; 0]%nat (stop_bundling (start_bundling 10 (service_new [bundler 1; bundler 2] empty)))).(tasks) = [].
Proof.
  refine (proj1 (stopped_bundling_ends [1; 0]%nat
    (stop_bundling (start_bundling 10 (service_new [bundler 1; bundler 2] empty))) eq_refl eq_refl _)).
  intros [|[|k]] i Hi; simpl in *; simplify_eq; lia.
Defined.
End Example.
