(* ===== verification/JsonRpc.v ===== *)
(** The JSON-RPC handlers ([crates/rpc/src/eth.rs], [debug.rs], [error.rs]):
    requests from users, passed on to the pool and bundler services through
    their gRPC clients.  What a user sees is stated end to end: from the JSON
    request through the protobuf messages and the service handler to the pool,
    and back. *)

From Stdlib Require Import Ascii.
From S2P Require Import Prelude Primitives Errors ErrorJson AbiStd HexStd Gas Reputation Mempool.
From S2P Require Import MemoryStore EntryPoint Fixture Sanity Simulation Trace.
From S2P Require Import Validator Bundler UoPool Bundling Estimate Proto Service.

(** ** Errors ([error.rs]) *)
Record ErrorObject := { eo_code : Z; eo_message : string }.

Definition status_message (s : GrpcStatus) : string :=
  match s with
  | InvalidArgument m | Unavailable m | Internal m | NotFound m | UnknownStatus m => m
  end.

Section errors.
Context {D : Display}.

Definition json_of_reputation (err : ReputationError) : ErrorObject :=
  {| eo_code := code_of_reputation err; eo_message := ReputationError_to_string err |}.
Definition json_of_sanity (err : SanityError) : ErrorObject :=
  {| eo_code := code_of_sanity err; eo_message := SanityError_to_string err |}.
Definition json_of_simulation (err : SimulationError) : ErrorObject :=
  {| eo_code := code_of_simulation err; eo_message := SimulationError_to_string err |}.
Definition json_of_mempool (err : MempoolError) : ErrorObject :=
  match err.(me_kind) with
  | InvalidUserOperation (InvSanity err) => json_of_sanity err
  | InvalidUserOperation (InvSimulation err) => json_of_simulation err
  | InvalidUserOperation (InvReputation err) => json_of_reputation err
  | _ => {| eo_code := INTERNAL_ERROR_CODE; eo_message := MempoolError_to_string err |}
  end.
Definition json_of_status (s : GrpcStatus) : ErrorObject :=
  {| eo_code := INTERNAL_ERROR_CODE; eo_message := "gRPC error: " +:+ status_message s |}.
Definition json_of_serde (err : string) : ErrorObject :=
  {| eo_code := PARSE_ERROR_CODE; eo_message := "JSON serializing error: " +:+ err |}.
End errors.

(** ** The text of a gas estimate, in camel case *)
Definition write_gas {SJ : SerdeJson} (g : UserOperationGasEstimation) : list Tok :=
  object (strings [("preVerificationGas", u256_text g.(ge_pre_verification_gas));
    ("verificationGasLimit", u256_text g.(ge_verification_gas_limit));
    ("callGasLimit", u256_text g.(ge_call_gas_limit))])%string.
Definition read_gas {SJ : SerdeJson} : Reader UserOperationGasEstimation :=
  read_as (λ vs, match vs with
    | [a; b; c] => a ← u256_of_text a; b ← u256_of_text b; c ← u256_of_text c;
        Some {| ge_pre_verification_gas := a; ge_verification_gas_limit := b; ge_call_gas_limit := c |}
    | _ => None end)
    (read_struct ["preVerificationGas"; "verificationGasLimit"; "callGasLimit"]%string).
Definition gas_to_json {SJ : SerdeJson} (g : UserOperationGasEstimation) : string + string :=
  to_text (write_gas g).
Definition gas_of_json {SJ : SerdeJson} : string → string + UserOperationGasEstimation :=
  of_text read_gas.
Lemma gas_text_back {SJ : SerdeJson} {SL : SerdeLaws SJ} g :
  ∃ t, gas_to_json g = inr t ∧ gas_of_json t = inr g.
Proof.
  eexists. split; [done|]. unfold gas_of_json, of_text. rewrite lex_render. cbn [mbind option_bind].
  assert (read_gas (write_gas g) = Some (g, [])) as ->; [|done]. destruct g. read_back.
Qed.

(** [to_checksum(addr, None)], and the status a client gets when the task that
    serves its request panics *)
Class RpcLib := {
  to_checksum : Address → string;
  broken_stream : GrpcStatus;
}.

Definition of_serde {X} (r : string + X) : comp string X :=
  match r with inr x => Ok x | inl e => Err e end.

(** ** The answers of the pool service as messages ([crates/grpc/src/uopool.rs]) *)
Record PbReply := { rp_res : Z; rp_data : string }.
Definition ADDED : Z := 0.
Definition NOT_ADDED : Z := 1.
Definition ESTIMATED : Z := 0.
Definition NOT_ESTIMATED : Z := 1.

Section replies.
Context {SJ : SerdeJson}.

Definition add_reply (r : AddResponse) : comp GrpcStatus PbReply :=
  match r with
  | Added h =>
      let* data := map_err (λ e, Internal ("Failed to serialize hash: " +:+ e)) (of_serde (hash_to_json h)) in
      Ok {| rp_res := ADDED; rp_data := data |}
  | NotAdded err =>
      let* data := map_err (λ e, Internal ("Failed to serialize error: " +:+ e)) (of_serde (error_to_json err)) in
      Ok {| rp_res := NOT_ADDED; rp_data := data |}
  end.

Definition estimate_reply (r : MempoolError + UserOperationGasEstimation) : comp GrpcStatus PbReply :=
  match r with
  | inr gas =>
      let* data := map_err (λ e, Internal ("Failed to serialize gas: " +:+ e)) (of_serde (gas_to_json gas)) in
      Ok {| rp_res := ESTIMATED; rp_data := data |}
  | inl err =>
      let* data := map_err (λ e, Internal ("Failed to serialize error: " +:+ e)) (of_serde (error_to_json err)) in
      Ok {| rp_res := NOT_ESTIMATED; rp_data := data |}
  end.
End replies.

(** ** gRPC calls: the handler runs in its own task *)
Section calls.
Context {D : Display} {RL : RpcLib} {T X : Type}.

Definition served (r : comp GrpcStatus X) : comp GrpcStatus X :=
  match r with Panic => Err broken_stream | _ => r end.
Definition call (m : ST T GrpcStatus X) : ST T GrpcStatus X := λ s, (served (m s).1, (m s).2).
(** [client.method(req).await.map_err(JsonRpcError::from)?] *)
Definition grpc (m : ST T GrpcStatus X) : ST T ErrorObject X := st_map_err json_of_status (call m).
Definition grpc_query (r : comp GrpcStatus X) : comp ErrorObject X := map_err json_of_status (served r).
End calls.

Inductive ResponseSuccess := RespOk.

(** [BundlerMode] of the primitives: the interval is part of the mode *)
Inductive BundlerMode := ModeAuto (interval : Z) | ModeManual.
Definition mode_of_bundler_mode (m : BundlerMode) : Mode :=
  match m with ModeAuto _ => Auto | ModeManual => Manual end.
Definition BUNDLE_INTERVAL : Z := 10.

Definition missing_hash : ErrorObject :=
  {| eo_code := USER_OPERATION_HASH; eo_message := "Missing/invalid userOpHash" |}.

(** the [?] on an optional field inside a closure that returns an [Option] *)
Definition opt_then {E X Y : Type} (o : option X) (k : X → comp E (option Y)) : comp E (option Y) :=
  match o with Some x => k x | None => Ok None end.

Definition cmp_nonce (a b : UserOperationRequest) : comparison := a.(rq_nonce) ?= b.(rq_nonce).

Section api.
Context {P : Profile} {A : Abi} {D : Display} {N : Node} {HO : HashOrder} {EL : EstimateLib}
  {CS : ChecksumText} {CD : ChainData} {HT : HashText} {SJ : SerdeJson} {RL : RpcLib}.
Context {S : Type} `{MempoolStore S} {R : Type} `{ReputationEntryOp R}.
Context `{V : UserOperationValidator S R} (sv : UoPoolService).
Implicit Types (req : UserOperationRequest) (s : UoPool S R).

(** ** [eth.rs] *)
Definition eth_chain_id : Z := get_chain_id sv.

Definition eth_supported_entry_points : list string :=
  (λ e, to_checksum (address_of_pb e)) <$> get_supported_entry_points sv.

(** the operation of a request under its hash for the entry point and chain *)
Definition request_operation req (ep : Address) : UserOperation :=
  let uo := signed_of_request req in from_user_operation_signed (hash uo ep (get_chain_id sv)) uo.

Definition eth_send_user_operation req (ep : Address) : ST (UoPool S R) ErrorObject UserOperationHash :=
  do* res := grpc (do* r := add sv (Some (pb_of_user_operation (request_operation req ep)))
                              (Some (pb_of_address ep)) in
                   st_lift (add_reply r)) in
  if bool_decide (res.(rp_res) = ADDED)
  then st_lift (map_err json_of_serde (of_serde (hash_of_json res.(rp_data))))
  else
    do* err := st_lift (map_err json_of_serde (of_serde (error_of_json res.(rp_data)))) in
    st_lift (Err (json_of_mempool err)).

(** [None]: the bound on the iterations of the estimator was too small *)
Definition eth_estimate_user_operation_gas (fuel : nat) req (ep : Address)
  : option (comp ErrorObject UserOperationGasEstimation) :=
  r ← Service.estimate_user_operation_gas sv fuel
        (Some (pb_of_user_operation (request_operation req ep))) (Some (pb_of_address ep));
  Some (let* res := grpc_query (let* r := r in estimate_reply r) in
        if bool_decide (res.(rp_res) = ESTIMATED)
        then map_err json_of_serde (of_serde (gas_of_json res.(rp_data)))
        else
          let* err := map_err json_of_serde (of_serde (error_of_json res.(rp_data))) in
          Err (json_of_mempool err)).

Definition receipt_of_response (res : GetUserOperationReceiptResponse)
  : comp ErrorObject (option UserOperationReceipt) :=
  opt_then res.(rr_user_operation_hash) (λ h,
  opt_then res.(rr_sender) (λ sender,
  opt_then res.(rr_nonce) (λ nonce, let* nonce := u256_of_pb nonce in
  opt_then res.(rr_actual_gas_cost) (λ cost, let* cost := u256_of_pb cost in
  opt_then res.(rr_actual_gas_used) (λ used, let* used := u256_of_pb used in
  let* logs := comp_map log_of_pb res.(rr_logs) in
  opt_then res.(rr_tx_receipt) (λ tx, let* tx := tx_receipt_of_pb tx in
  Ok (Some {| rc_user_operation_hash := h256_of_pb h; rc_sender := address_of_pb sender;
    rc_nonce := nonce; rc_paymaster := address_of_pb <$> res.(rr_paymaster);
    rc_actual_gas_cost := cost; rc_actual_gas_used := used; rc_success := res.(rr_success);
    rc_reason := ""; rc_logs := logs; rc_tx_receipt := tx |}))))))).

Definition by_hash_of_response (res : GetUserOperationByHashResponse)
  : comp ErrorObject (option UserOperationByHash) :=
  opt_then res.(hr_user_operation) (λ uo,
  opt_then res.(hr_entry_point) (λ ep,
  opt_then res.(hr_block_hash) (λ block_hash,
  opt_then res.(hr_transaction_hash) (λ tx_hash,
  let* uo := signed_of_pb uo in
  Ok (Some {| bh_user_operation := uo; bh_entry_point := address_of_pb ep;
    bh_transaction_hash := h256_of_pb tx_hash; bh_block_hash := h256_of_pb block_hash;
    bh_block_number := res.(hr_block_number) |}))))).

(** both queries: a bad hash and every error but [NotFound] give the same error *)
Definition query_by_hash {X Y : Type} (ask : option Pb.H256 → comp GrpcStatus X)
    (k : X → comp ErrorObject (option Y)) (uo_hash : string) : comp ErrorObject (option Y) :=
  match h256_from_str uo_hash with
  | Some h =>
      match served (ask (Some (pb_of_h256 h))) with
      | Ok res => k res
      | Err (NotFound _) => Ok None
      | Err _ => Err missing_hash
      | Panic => Panic
      end
  | None => Err missing_hash
  end.
Definition eth_get_user_operation_receipt (uo_hash : string)
  : comp ErrorObject (option UserOperationReceipt) :=
  query_by_hash (sv_get_user_operation_receipt sv) receipt_of_response uo_hash.
Definition eth_get_user_operation_by_hash (uo_hash : string)
  : comp ErrorObject (option UserOperationByHash) :=
  query_by_hash (sv_get_user_operation_by_hash sv) by_hash_of_response uo_hash.

(** ** [debug.rs] *)
Definition debug_clear_mempool : ST (UoPool S R) ErrorObject ResponseSuccess :=
  do* _ := grpc (sv_clear_mempool sv) in st_ret RespOk.
Definition debug_clear_reputation : ST (UoPool S R) ErrorObject ResponseSuccess :=
  do* _ := grpc (sv_clear_reputation sv) in st_ret RespOk.
Definition debug_clear_state : ST (UoPool S R) ErrorObject ResponseSuccess :=
  do* _ := grpc (sv_clear sv) in st_ret RespOk.

Definition debug_add_user_ops (uos : list UserOperationRequest) (ep : Address)
  : ST (UoPool S R) ErrorObject ResponseSuccess :=
  do* _ := grpc (add_mempool sv ((λ uo, pb_of_user_operation (request_operation uo ep)) <$> uos)
                   (Some (pb_of_address ep))) in
  st_ret RespOk.

Definition debug_dump_mempool (ep : Address) s : comp ErrorObject (list UserOperationRequest) :=
  let* res := grpc_query (get_all sv (Some (pb_of_address ep)) s) in
  let* uos := comp_map (λ uo, map_ok (λ uo : UserOperation, request_of_signed uo.(user_operation))
                                     (user_operation_of_pb uo)) res in
  Ok (sort_by cmp_nonce uos).

Definition debug_set_reputation (entries : list ReputationEntry) (ep : Address)
  : ST (UoPool S R) ErrorObject ResponseSuccess :=
  do* res := grpc (sv_set_reputation sv (pb_of_reputation <$> entries) (Some (pb_of_address ep))) in
  if (res : bool) then st_ret RespOk
  else st_lift (Err {| eo_code := INTERNAL_ERROR_CODE; eo_message := "Error setting reputation" |}).

Definition debug_dump_reputation (ep : Address) s : comp ErrorObject (list ReputationEntry) :=
  let* res := grpc_query (get_all_reputation sv (Some (pb_of_address ep)) s) in
  Ok (reputation_of_pb <$> res).

Definition debug_get_stake_status (addr ep : Address) s : comp ErrorObject StakeInfoResponse :=
  let* res := grpc_query (sv_get_stake_info sv (Some (pb_of_address addr)) (Some (pb_of_address ep)) s) in
  Ok {| sr_stake_info := stake_info_of_pb res.1; sr_is_staked := res.2 |}.
End api.

(** the two handlers over the bundler service *)
Section bundler_api.
Context {P : Profile} {D : Display} {HO : HashOrder} {TX : TxLib} {BN : BundlerNode} {SB : SendBundleOp}
  {PC : PoolClient} {RL : RpcLib}.

Definition debug_set_bundling_mode (mode : BundlerMode) (b : BundlerService)
  : comp ErrorObject ResponseSuccess * BundlerService :=
  (Ok RespOk, set_bundler_mode (mode_of_bundler_mode mode) BUNDLE_INTERVAL b).

Definition debug_send_bundle_now (fuel : nat) (bs : list Bundler) (w : World)
  : option (comp ErrorObject H256 * World) :=
  r ← send_bundle_now fuel bs w;
  Some (grpc_query (map_err Internal (let* h := r.1 in Ok (h256_of_pb (pb_of_h256 h)))), r.2).
End bundler_api.

(** ** Submissions, end to end *)
Definition option_range (o : option U256) : Prop := from_option is_u256 True o.
(** the field ranges of the Rust types *)
Definition request_wf (r : UserOperationRequest) : Prop :=
  is_address r.(rq_sender) ∧ is_u256 r.(rq_nonce) ∧ option_range r.(rq_call_gas_limit) ∧
  option_range r.(rq_verification_gas_limit) ∧ option_range r.(rq_pre_verification_gas) ∧
  option_range r.(rq_max_fee_per_gas) ∧ option_range r.(rq_max_priority_fee_per_gas).

Lemma default_range o : option_range o → is_u256 (default 0 o).
Proof. destruct o; [done|]. by intros _. Qed.
Lemma signed_of_request_wf r : request_wf r → uo_wf (signed_of_request r).
Proof. intros (?&?&?&?&?&?&?). unfold uo_wf; cbn. split_and!; try done; by apply default_range. Qed.

(** what a user is told about a result of the pool *)
Definition told {D : Display} {SJ : SerdeJson} {RL : RpcLib} (r : comp MempoolError UserOperationHash)
    (answer : comp ErrorObject UserOperationHash) : Prop :=
  match r with
  | Ok h => answer = Ok h
  | Err e =>
      match e.(me_kind) with
      | InvalidUserOperation _ =>
          answer = Err (if has_database e then json_of_serde (serde_message (render (write_error e)))
                        else json_of_mempool e)
      | _ => answer = Err (json_of_status (Internal ("Internal error: " +:+ MempoolError_to_string e)))
      end
  | Panic => answer = Err (json_of_status broken_stream)
  end.

Section submission.
Context {P : Profile} {A : Abi} {AOk : AbiOk A} {D : Display} {N : Node} {HO : HashOrder}
  {EL : EstimateLib} {CS : ChecksumText} {SJ : SerdeJson} {SL : SerdeLaws SJ} {RL : RpcLib}.
Context {S : Type} `{MempoolStore S} {R : Type} `{ReputationEntryOp R}.
Context `{V : UserOperationValidator S R} (sv : UoPoolService).
Implicit Types (req : UserOperationRequest) (self : UoPool S R).

(** validation and admission by the pool itself *)
Definition submit (cfg : UoPoolConfig) (uo : UserOperation) : ST (UoPool S R) MempoolError UserOperationHash :=
  do* res := st_get (λ s, as_result (validate_user_operation s uo None)) in
  add_user_operation cfg uo res.

Lemma mempool_add_hash (uo : UserOperation) (m m' : S) h :
  Mempool.add uo m = (Ok h, m') → h = uo.(uo_hash).
Proof.
  unfold Mempool.add. destruct (get_entities uo) as [[? ?] ?]. intros Hadd.
  do 4 apply st_bind_ok in Hadd as (? & ? & ? & Hadd). unfold st_ret in Hadd. by simplify_eq.
Qed.

Lemma add_returns_hash cfg uo res self h self' :
  add_user_operation cfg uo res self = (Ok h, self') → h = uo.(uo_hash).
Proof.
  unfold add_user_operation. intros Hadd. destruct res as [err|out].
  { by apply st_bind_ok in Hadd as (? & ? & ? & ?). }
  do 2 apply st_bind_ok in Hadd as (? & ? & ? & Hadd). unfold insert_validated in Hadd.
  apply st_bind_ok in Hadd as (h' & ? & Hm & Hadd).
  do 4 apply st_bind_ok in Hadd as (? & ? & ? & Hadd). unfold st_ret in Hadd. simplify_eq.
  unfold st_map_err, on_mempool, st_zoom in Hm. destruct (Mempool.add uo _) as [[]] eqn:Ha; simplify_eq/=.
  by apply mempool_add_hash in Ha.
Qed.

Lemma add_parsed req ep cfg self :
  request_wf req → is_address ep → get_uopool sv ep = Ok cfg →
  add sv (Some (pb_of_user_operation (request_operation sv req ep))) (Some (pb_of_address ep)) self =
  (do* res := st_get (λ s, as_result (validate_user_operation s (request_operation sv req ep) None)) in
   add_commit cfg (request_operation sv req ep) res) self.
Proof using AOk.
  intros Hwf Hep Hcfg. unfold add.
  rewrite (st_bind_step _ _ _ (request_operation sv req ep) self).
  2: { unfold st_lift, parse_uo. rewrite user_operation_roundtrip; [done|by apply signed_of_request_wf|].
       apply digest_range. }
  rewrite (st_bind_step _ _ _ ep self) by (unfold st_lift, parse_addr; by rewrite address_roundtrip).
  rewrite (st_bind_step _ _ _ cfg self) by (unfold st_lift; by rewrite Hcfg).
  unfold st_bind, st_get. destruct (as_result _); [|done..]. unfold st_lift. by rewrite Hcfg.
Qed.

(** the client's side of a submission: what it makes of the service's result *)
Definition add_answer (r : comp GrpcStatus AddResponse) : comp ErrorObject UserOperationHash :=
  let* res := grpc_query (let* r := r in add_reply r) in
  if bool_decide (res.(rp_res) = ADDED)
  then map_err json_of_serde (of_serde (hash_of_json res.(rp_data)))
  else let* err := map_err json_of_serde (of_serde (error_of_json res.(rp_data))) in
       Err (json_of_mempool err).

Lemma eth_send_answer req ep self :
  let r := add sv (Some (pb_of_user_operation (request_operation sv req ep))) (Some (pb_of_address ep)) self in
  eth_send_user_operation sv req ep self = (add_answer r.1, r.2).
Proof.
  intros r. unfold eth_send_user_operation, grpc, call, st_map_err, st_bind.
  fold r. destruct r as [[r'|e|] s']; simpl; [|done..].
  unfold add_answer, grpc_query. simpl. destruct (served (add_reply r')) as [res|e|]; simpl; [|done..].
  case_bool_decide; [done|]. unfold st_lift. by destruct (map_err json_of_serde _).
Qed.

Lemma add_answer_told cfg uo res self :
  told (add_user_operation cfg uo res self).1 (add_answer (add_commit cfg uo res self).1).
Proof using SL.
  unfold add_commit.
  destruct (add_user_operation cfg uo res self) as [[h|e|] s'] eqn:Hadd; simpl; [| |done].
  - apply add_returns_hash in Hadd as ->. destruct (hash_text_back uo.(uo_hash)) as (t & Ht & Hback).
    injection Ht as <-. unfold add_answer. simpl. by rewrite Hback.
  - destruct (me_kind e) eqn:Hk; [|done..]. destruct (error_text_back e) as (t & Ht & Hback).
    injection Ht as <-. unfold add_answer. simpl. rewrite Hback. by destruct (has_database e).
Qed.

(** C19. A submission over JSON-RPC acts on the pool exactly as a direct validation
    and admission of the requested operation, under its hash for the entry point
    and chain; the user gets the operation's hash, or the code and message of the
    error the pool gave.  An operation refused because of a database failure shows
    as a parse error, since the repository's reader of such errors leaves their text
    in the input; any other failure and a crash of the service show as internal
    errors, the former with the text of the failure. *)
Theorem submission_end_to_end req ep cfg self :
  request_wf req → is_address ep → get_uopool sv ep = Ok cfg →
  let r := submit cfg (request_operation sv req ep) self in
  (eth_send_user_operation sv req ep self).2 = r.2 ∧
  told r.1 (eth_send_user_operation sv req ep self).1 ∧
  ∀ h, r.1 = Ok h → h = hash (signed_of_request req) ep sv.(sv_chain).
Proof using AOk SL.
  intros Hwf Hep Hcfg. rewrite eth_send_answer. cbn [fst snd]. rewrite (add_parsed req ep cfg) by done.
  set (uo := request_operation sv req ep) in *. unfold submit, st_bind, st_get.
  destruct (validate_user_operation self uo None) as [out|err|]; cbn [as_result]; [..|done].
  all: rewrite add_commit_state; split_and!; [done|by apply add_answer_told|].
  all: intros h Hr; destruct (add_user_operation cfg uo _ self) as [r s'] eqn:Hadd; cbn in Hr; subst r;
    exact (add_returns_hash _ _ _ _ _ _ Hadd).
Qed.
End submission.

(** ** Queries, end to end *)
(** the ranges of the client library's types *)
Class ChainDataWf (CD : ChainData) := {
  events_wf : ∀ ep b h l e m, query_events ep b h = inr l → (e, m) ∈ l →
    is_address e.(ev_sender) ∧ is_u256 e.(ev_nonce) ∧ is_u256 e.(ev_actual_gas_cost) ∧
    is_u256 e.(ev_actual_gas_used) ∧ is_u256 m.(lm_transaction_hash) ∧ is_u256 m.(lm_block_hash);
  receipts_wf : ∀ h r, get_transaction_receipt h = inr (Some r) → receipt_wf r;
  transactions_wf : ∀ h tx ep, get_transaction h = inr (Some tx) → tx.(tx_to) = Some ep → is_address ep;
  decoded_wf : ∀ b uos uo, decode_handle_ops b = Some uos → uo ∈ uos → uo_wf uo;
}.

Definition by_hash_wf (r : UserOperationByHash) : Prop :=
  uo_wf r.(bh_user_operation) ∧ is_address r.(bh_entry_point) ∧ is_u256 r.(bh_transaction_hash) ∧
  is_u256 r.(bh_block_hash).
Definition user_receipt_wf (r : UserOperationReceipt) : Prop :=
  is_u256 r.(rc_user_operation_hash) ∧ is_address r.(rc_sender) ∧ is_u256 r.(rc_nonce) ∧
  from_option is_address True r.(rc_paymaster) ∧ is_u256 r.(rc_actual_gas_cost) ∧
  is_u256 r.(rc_actual_gas_used) ∧ Forall log_wf r.(rc_logs) ∧ receipt_wf r.(rc_tx_receipt).

(** what is left of a receipt on its way to the user *)
Definition user_receipt_seen (r : UserOperationReceipt) : UserOperationReceipt := {|
  rc_user_operation_hash := r.(rc_user_operation_hash); rc_sender := r.(rc_sender);
  rc_nonce := r.(rc_nonce); rc_paymaster := r.(rc_paymaster);
  rc_actual_gas_cost := r.(rc_actual_gas_cost); rc_actual_gas_used := r.(rc_actual_gas_used);
  rc_success := r.(rc_success); rc_reason := ""; rc_logs := log_seen <$> r.(rc_logs);
  rc_tx_receipt := receipt_seen r.(rc_tx_receipt) |}.

Section queries.
Context {D : Display} {HO : HashOrder} {CD : ChainData} {CW : ChainDataWf CD} {HT : HashText} {RL : RpcLib}.
Context (sv : UoPoolService).

Lemma event_meta_in cfg h e m :
  get_user_operation_event_meta cfg h = Ok (Some (e, m)) →
  ∃ b l, query_events cfg.(cfg_entry_point) b h = inr l ∧ (e, m) ∈ l.
Proof.
  unfold get_user_operation_event_meta. intros Hq.
  apply comp_bind_ok in Hq as (latest & _ & Hq). apply comp_bind_ok in Hq as (b & _ & Hq).
  apply comp_bind_ok in Hq as (l & Hl & [= Hq]). exists b, l. split.
  { unfold of_node in Hl. destruct (query_events _ _ _); by simplify_eq. }
  revert Hq. induction l as [|x l _] using rev_ind; [done|]. rewrite fold_left_app. simpl.
  intros [= ->]. apply elem_of_app. right. by left.
Qed.

Lemma by_hash_found cfg h r :
  get_user_operation_by_hash cfg h = Ok r → by_hash_wf r.
Proof using CW.
  unfold get_user_operation_by_hash. intros Hr. apply comp_bind_ok in Hr as ([[e m]|] & He & Hr); [|done].
  apply comp_bind_ok in Hr as (tx & Htx & Hr). unfold of_node in Htx.
  destruct (get_transaction _) as [|tx'] eqn:Hget; simplify_eq/=.
  apply event_meta_in in He as (b & l & Hq & Hin). destruct (events_wf _ _ _ _ _ _ Hq Hin) as (_ & _ & _ & _ & ? & ?).
  destruct tx as [tx|]; [|done]. simpl in Hr. destruct (find_in_transaction e tx) as [[uo ep]|] eqn:Hf; [|done].
  simplify_eq/=. unfold find_in_transaction in Hf.
  destruct (decode_handle_ops _) as [uos|] eqn:Hd; [|done]. destruct (tx_to tx) as [ep'|] eqn:Hto; [|done].
  simpl in Hf. destruct (list_find _ uos) as [[i uo']|] eqn:Hfind; simplify_eq/=.
  apply list_find_Some in Hfind as (Hi & _ & _). unfold by_hash_wf; simpl. split_and!; [|by eapply transactions_wf|done..].
  eapply decoded_wf; [done|]. by eapply list_elem_of_lookup_2.
Qed.

Lemma receipt_found cfg h r :
  is_u256 h → get_user_operation_receipt cfg h = Ok r → user_receipt_wf r.
Proof using CW.
  unfold get_user_operation_receipt. intros Hh Hr. apply comp_bind_ok in Hr as ([[e m]|] & He & Hr); [|done].
  apply event_meta_in in He as (b & l & Hq & Hin). destruct (events_wf _ _ _ _ _ _ Hq Hin) as (? & ? & ? & ? & _ & _).
  apply comp_bind_ok in Hr as ([tx|] & Htx & Hr); [|done]. unfold of_node in Htx.
  destruct (get_transaction_receipt _) as [|tx'] eqn:Hget; simplify_eq/=. apply receipts_wf in Hget.
  apply comp_bind_ok in Hr as (found & _ & [= <-]). unfold user_receipt_wf; simpl. split_and!; try done.
  - destruct (get_address _) eqn:Ha; [|done]. by eapply get_address_is_address.
  - by destruct Hget as (? & ? & ? & ? & ? & ? & ? & ? & _).
Qed.

Lemma first_ok_in {E F X Y : Type} (f : X → comp E Y) xs y :
  first_ok (F:=F) f xs = Ok (Some y) → ∃ x, x ∈ xs ∧ f x = Ok y.
Proof.
  induction xs as [|x xs IH]; simpl; [done|]. destruct (f x) eqn:Hf; intros; simplify_eq/=.
  - exists x. split; [by left|done].
  - destruct IH as (x' & ? & ?); [done|]. exists x'. split; [by right|done].
Qed.

Lemma first_ok_no_err {E F X Y : Type} (f : X → comp E Y) xs (e : F) : first_ok f xs ≠ Err e.
Proof. induction xs as [|x xs IH]; simpl; [done|]. by destruct (f x). Qed.

Lemma receipt_response r :
  (∀ b, bloom_from_str (bloom_text b) = None) → user_receipt_wf r →
  receipt_of_response {|
      rr_user_operation_hash := Some (pb_of_h256 r.(rc_user_operation_hash));
      rr_sender := Some (pb_of_address r.(rc_sender));
      rr_nonce := Some (pb_of_u256 r.(rc_nonce));
      rr_actual_gas_cost := Some (pb_of_u256 r.(rc_actual_gas_cost));
      rr_actual_gas_used := Some (pb_of_u256 r.(rc_actual_gas_used));
      rr_success := r.(rc_success);
      rr_tx_receipt := Some (pb_of_tx_receipt r.(rc_tx_receipt));
      rr_logs := pb_of_log <$> r.(rc_logs);
      rr_paymaster := pb_of_address <$> r.(rc_paymaster);
      rr_reason := r.(rc_reason) |} = Ok (Some (user_receipt_seen r)).
Proof.
  intros Hb (? & ? & ? & ? & ? & ? & Hlogs & ?). unfold receipt_of_response.
  cbn [rr_user_operation_hash rr_sender rr_nonce rr_actual_gas_cost rr_actual_gas_used rr_logs
    rr_tx_receipt rr_paymaster rr_success opt_then].
  do 3 (rewrite u256_of_pb_roundtrip by done; cbn [comp_bind opt_then]).
  rewrite comp_map_fmap, (comp_map_all _ log_seen) by (eapply Forall_impl; [exact Hlogs|apply log_crosses]).
  cbn [comp_bind opt_then]. rewrite receipt_crosses by done. cbn [comp_bind].
  by rewrite h256_roundtrip, address_roundtrip, option_address_roundtrip by done.
Qed.
Definition is_not_found (s : GrpcStatus) : bool := match s with NotFound _ => true | _ => false end.

(** the pool's answer to a query as the user sees it *)
Definition seen_answer {X : Type} (r : comp GrpcStatus (option X)) : comp ErrorObject (option X) :=
  match r with Ok o => Ok o | _ => Err missing_hash end.
Definition ask_receipt (h : UserOperationHash) : comp GrpcStatus (option UserOperationReceipt) :=
  first_ok (λ kv : MempoolId * UoPoolConfig, get_user_operation_receipt kv.2 h) (iter_map sv.(uopools)).
Definition ask_by_hash (h : UserOperationHash) : comp GrpcStatus (option UserOperationByHash) :=
  first_ok (λ kv : MempoolId * UoPoolConfig, get_user_operation_by_hash kv.2 h) (iter_map sv.(uopools)).

(** C20. The two queries by hash, end to end: the user gets what the first pool that
    answers has found.  The operation itself arrives unchanged; of the receipt the
    bloom filter, the transaction type, chain-specific fields and a missing
    status or block number do not.  An unknown operation gives no result, and
    every other failure the error for an invalid hash. *)
Theorem queries_end_to_end text h :
  h256_from_str text = Some h → is_u256 h → (∀ b, bloom_from_str (bloom_text b) = None) →
  is_not_found broken_stream = false →
  eth_get_user_operation_by_hash sv text = seen_answer (ask_by_hash h) ∧
  eth_get_user_operation_receipt sv text = seen_answer (map_ok (fmap user_receipt_seen) (ask_receipt h)).
Proof using CW.
  intros Htext Hh Hb Hbs. unfold eth_get_user_operation_by_hash, eth_get_user_operation_receipt, query_by_hash.
  rewrite Htext. unfold sv_get_user_operation_by_hash, sv_get_user_operation_receipt, parse_hash.
  rewrite !h256_roundtrip by done. cbn [comp_bind]. split.
  - fold (ask_by_hash h). destruct (ask_by_hash h) as [[r|]|e|] eqn:Hr; simpl; [|done|..].
    + apply first_ok_in in Hr as (kv & _ & Hr). apply by_hash_found in Hr as (? & ? & ? & ?).
      unfold by_hash_of_response. cbn [hr_user_operation hr_entry_point hr_block_hash hr_transaction_hash opt_then].
      rewrite signed_roundtrip by done. cbn [comp_bind hr_block_number].
      rewrite address_roundtrip, !h256_roundtrip by done. by destruct r.
    + destruct (first_ok_no_err _ _ _ Hr).
    + by destruct broken_stream.
  - fold (ask_receipt h). destruct (ask_receipt h) as [[r|]|e|] eqn:Hr; simpl; [|done|..].
    + apply first_ok_in in Hr as (kv & _ & Hr). apply receipt_found in Hr; [|done]. by apply receipt_response.
    + destruct (first_ok_no_err _ _ _ Hr).
    + by destruct broken_stream.
Qed.

(** On a chain of fewer than ten blocks the pools crash on every query, and the
    user is told that the hash is invalid. *)
Lemma short_chain_queries text h n :
  h256_from_str text = Some h → get_block_number = inr n → n < FILTER_MAX_DEPTH →
  sv.(uopools) ≠ ∅ → is_not_found broken_stream = false →
  eth_get_user_operation_by_hash sv text = Err missing_hash ∧
  eth_get_user_operation_receipt sv text = Err missing_hash.
Proof.
  intros Htext Hn Hd Hne Hbs.
  assert (∀ cfg h, get_user_operation_event_meta cfg h = Panic) as Hp.
  { intros cfg h'. unfold get_user_operation_event_meta. rewrite Hn. simpl. unfold u256_sub.
    by rewrite bool_decide_false by lia. }
  destruct (iter_map sv.(uopools)) as [|kv l] eqn:Hl.
  { destruct Hne. apply map_to_list_empty_iff. symmetry in Hl. apply Permutation_nil.
    rewrite <-iter_map_perm, <-Hl. done. }
  unfold eth_get_user_operation_by_hash, eth_get_user_operation_receipt, query_by_hash. rewrite Htext.
  unfold sv_get_user_operation_by_hash, sv_get_user_operation_receipt, parse_hash. rewrite Hl. cbn [comp_bind first_ok].
  unfold get_user_operation_by_hash, get_user_operation_receipt. rewrite !Hp. cbn.
  by destruct broken_stream.
Qed.
End queries.

(** ** Debugging requests *)
Section debug.
Context {P : Profile} {A : Abi} {AOk : AbiOk A} {D : Display} {N : Node} {HO : HashOrder}
  {CS : ChecksumText} {RL : RpcLib}.
Context {S : Type} `{ML : MempoolLaws S} {R : Type} `{ReputationEntryOp R}.
Context `{V : UserOperationValidator S R} (sv : UoPoolService).
Implicit Types (self : UoPool S R).

Lemma parse_requests {E} reqs ep :
  Forall request_wf reqs →
  comp_map (E:=E) user_operation_of_pb ((λ req, pb_of_user_operation (request_operation sv req ep)) <$> reqs) =
  Ok ((λ req, request_operation sv req ep) <$> reqs).
Proof using AOk.
  intros Hwf. rewrite comp_map_fmap. apply comp_map_all. eapply Forall_impl; [exact Hwf|].
  intros req Hreq. apply user_operation_roundtrip; [by apply signed_of_request_wf|apply digest_range].
Qed.

Lemma add_mempool_parsed reqs ep cfg self :
  Forall request_wf reqs → is_address ep → get_uopool sv ep = Ok cfg →
  let r := add_user_operations cfg ((λ req, request_operation sv req ep) <$> reqs) None self in
  add_mempool sv ((λ req, pb_of_user_operation (request_operation sv req ep)) <$> reqs)
    (Some (pb_of_address ep)) self =
  (match r.1 with Ok _ => Ok true | Err _ => Ok false | Panic => Panic end, r.2).
Proof using AOk.
  intros Hwf Hep Hcfg r. unfold add_mempool.
  rewrite (st_bind_step _ _ _ ep self) by (unfold st_lift, parse_addr; by rewrite address_roundtrip).
  rewrite (st_bind_step _ _ _ cfg self) by (unfold st_lift; by rewrite Hcfg).
  erewrite st_bind_step by (unfold st_lift, uos_of_pb; by rewrite parse_requests).
  fold r. by destruct r as [[] ?].
Qed.

(** Operations added by the debugging request go through the same validation and
    admission, one after the other until one fails; but the user is told that it
    went well even if it did not. *)
Theorem debug_add_effect reqs ep cfg self :
  Forall request_wf reqs → is_address ep → get_uopool sv ep = Ok cfg →
  let r := add_user_operations cfg ((λ req, request_operation sv req ep) <$> reqs) None self in
  debug_add_user_ops sv reqs ep self =
  (match r.1 with Panic => Err (json_of_status broken_stream) | _ => Ok RespOk end, r.2).
Proof using AOk.
  intros Hwf Hep Hcfg r. unfold debug_add_user_ops, grpc, call, st_map_err, st_bind.
  rewrite (add_mempool_parsed reqs ep cfg self) by done. fold r. by destruct r as [[] ?].
Qed.

Lemma cmp_nonce_trans : Transitive (cmp_le cmp_nonce).
Proof. intros a b c. unfold cmp_le, cmp_nonce. rewrite !Z.compare_ngt_iff. lia. Qed.
Lemma cmp_nonce_total a b : cmp_nonce a b = Gt → cmp_le cmp_nonce b a.
Proof. unfold cmp_le, cmp_nonce. rewrite Z.compare_gt_iff, Z.compare_ngt_iff. lia. Qed.

(** The dump of a mempool lists exactly the stored operations, by nonce. *)
Lemma debug_dump_spec ep cfg self :
  is_address ep → get_uopool sv ep = Ok cfg →
  (∀ h u, (view self.(up_mempool)).(v_uos) !! h = Some u → is_u256 h ∧ uo_wf u) →
  ∃ l, debug_dump_mempool sv ep self = Ok l ∧
    StronglySorted (λ a b, a.(rq_nonce) ≤ b.(rq_nonce)) l ∧
    l ≡ₚ request_of_signed <$> (map_to_list (view self.(up_mempool)).(v_uos)).*2.
Proof.
  intros Hep Hcfg Hwf. destruct (store_all_law self.(up_mempool)) as (uos & Hall & Hperm).
  exists (sort_by cmp_nonce ((λ uo : UserOperation, request_of_signed uo) <$> uos)). split_and!.
  - unfold debug_dump_mempool, get_all, parse_addr. rewrite address_roundtrip by done. cbn [comp_bind].
    rewrite Hcfg. cbn [comp_bind]. unfold pool_get_all, Mempool.get_all. rewrite Hall. cbn [comp_bind map_err].
    unfold grpc_query. cbn [served map_err comp_bind].
    rewrite comp_map_fmap, (comp_map_all _ (λ uo : UserOperation, request_of_signed uo)); [done|].
    rewrite Hperm. apply Forall_fmap, Forall_forall. intros [h u] Hin. apply elem_of_map_to_list in Hin.
    destruct (Hwf h u Hin). cbv beta delta [compose]. by rewrite user_operation_roundtrip.
  - eapply StronglySorted_weaken; [|apply sort_by_sorted; [apply cmp_nonce_trans|apply cmp_nonce_total]].
    intros a b Hab. apply Z.le_ngt. by apply (proj1 (Z.compare_ngt_iff _ _)) in Hab.
  - rewrite sort_by_perm, Hperm. rewrite <-!list_fmap_compose. done.
Qed.
End debug.

(** ** Concrete evaluations *)
Module Example.
#[local] Existing Instances std_abi std_abi_ok std_display canonical_order fx_profile Trace.Example.lib.
#[local] Existing Instances Bundling.Example.clock Bundling.Example.node Bundling.Example.standard
  Bundling.Example.chain Service.Example.checksum std_hash_text.

(** *** A text format for the three types: the bits of their codes *)
Fixpoint bits (p : positive) : string :=
  match p with xH => "" | xO p => String "0"%char (bits p) | xI p => String "1"%char (bits p) end.
Fixpoint unbits (s : string) : positive :=
  match s with
  | EmptyString => xH
  | String c s => if bool_decide (c = "0"%char) then xO (unbits s) else xI (unbits s)
  end.
Lemma unbits_bits p : unbits (bits p) = p.
Proof. induction p as [p IH|p IH|]; simpl; [by rewrite IH..|done]. Qed.

#[local] Instance Tok_countable : Countable Tok.
Proof.
  refine (inj_countable' (λ t, match t with
      | LBrace => inl 0 | RBrace => inl 1 | Colon => inl 2 | Comma => inl 3 | Str s => inr s end)
    (λ c, match c with
      | inl 0 => LBrace | inl 1 => RBrace | inl 2 => Colon | inl _ => Comma | inr s => Str s end) _).
  by intros [].
Defined.

#[local] Instance serde : SerdeJson := {|
  render ts := bits (encode ts); lex t := decode (unbits t);
  serde_message _ := "expected value"%string; debug_database_error _ := "NotFound"%string;
  account_text a := bits (encode a); account_of_text t := decode (unbits t);
  u256_text n := bits (encode n); u256_of_text t := decode (unbits t);
  digest_text h := bits (encode h); digest_of_text t := decode (unbits t) |}.
#[local] Instance serde_laws : SerdeLaws serde.
Proof.
  split.
  all: intros x; unfold lex, account_of_text, u256_of_text, digest_of_text, serde;
    cbn [render account_text u256_text digest_text];
    by rewrite unbits_bits, decode_encode.
Qed.
#[local] Instance rpclib : RpcLib := {| to_checksum := hash_debug 20; broken_stream := UnknownStatus "transport error" |}.

Definition sv : UoPoolService := Service.Example.sv.
Definition request : UserOperationRequest := request_of_signed Service.Example.first.

Lemma submission_end_to_end_witness :
  (eth_send_user_operation sv request 1 Bundling.Example.pool0).1 =
  Ok (hash (signed_of_request request) 1 5).
Proof.
  destruct (submission_end_to_end sv request 1 (Service.Example.cfg_of 1) Bundling.Example.pool0) as (_ & Ht & Hh).
  - unfold request_wf, option_range, is_address, is_u256, U256_MAX; simpl; lia.
  - unfold is_address; lia.
  - by vm_compute.
  - assert (∃ h, (submit (Service.Example.cfg_of 1) (request_operation sv request 1) Bundling.Example.pool0).1 = Ok h)
      as [h Hr] by (eexists; by vm_compute).
    rewrite Hr in Ht. simpl in Ht. by rewrite Ht, (Hh h Hr).
Defined.
(** *** A chain with one included operation *)
Definition included : UserOperationSigned := Service.Example.first.
Definition event : UserOperationEvent := {| ev_user_op_hash := 7; ev_sender := included.(uo_sender);
  ev_paymaster := 0; ev_nonce := included.(uo_nonce); ev_success := true; ev_actual_gas_cost := 90;
  ev_actual_gas_used := 30 |}.
Definition meta : LogMeta := {| lm_transaction_hash := 55; lm_block_hash := 66; lm_block_number := 99 |}.
(** before Byzantium: no status, but a state root; with a bloom filter *)
Definition old_receipt : TransactionReceipt := {| tr_transaction_hash := 55; tr_transaction_index := 2;
  tr_block_hash := Some 66; tr_block_number := Some 99; tr_from := 3; tr_to := Some 1;
  tr_cumulative_gas_used := 40; tr_gas_used := Some 30; tr_contract_address := None; tr_logs := [];
  tr_status := None; tr_root := Some 8; tr_logs_bloom := replicate 256 Byte.xff;
  tr_transaction_type := Some 2; tr_effective_gas_price := Some 3; tr_other := ∅ |}.
Definition one_chain : ChainData := {| get_block_number := inr 100;
  query_events _ _ h := inr (if bool_decide (h = 7) then [(event, meta)] else []);
  get_transaction _ := inr (Some {| tx_input := []; tx_to := Some 1 |});
  get_transaction_receipt _ := inr (Some old_receipt); get_block_txs _ := inr None;
  decode_handle_ops _ := Some [included] |}.

Lemma one_chain_wf : ChainDataWf one_chain.
Proof.
  split; simpl.
  - intros ep b h l e m Hl Hin. case_bool_decide; injection Hl as <-; [|set_solver].
    apply list_elem_of_singleton in Hin as [= -> ->].
    unfold is_address, is_u256, U256_MAX; simpl; lia.
  - intros h r [= <-]. unfold receipt_wf, is_address, is_u256, U256_MAX; simpl. split_and!; try lia; constructor.
  - intros h tx ep [= <-] [= <-]. unfold is_address; lia.
  - intros b uos uo [= <-] ->%list_elem_of_singleton.
    unfold uo_wf, is_address, is_u256, U256_MAX; simpl; lia.
Qed.

(** the receipt reports a failed transaction and an empty bloom filter *)
Lemma queries_end_to_end_witness :
  ∃ r, eth_get_user_operation_receipt (CD:=one_chain) sv (hash_debug 32 7) = Ok (Some r) ∧
    r.(rc_tx_receipt).(tr_status) = Some 0 ∧ r.(rc_tx_receipt).(tr_logs_bloom) = Bloom_default ∧
    eth_get_user_operation_by_hash (CD:=one_chain) sv (hash_debug 32 7) =
    Ok (Some {| bh_user_operation := included; bh_entry_point := 1; bh_transaction_hash := 55;
                bh_block_hash := 66; bh_block_number := 99 |}).
Proof.
  destruct (queries_end_to_end (CD:=one_chain) (CW:=one_chain_wf) sv (hash_debug 32 7) 7) as [H1 H2].
  - by vm_compute.
  - done.
  - intros b. unfold bloom_from_str, bloom_text, std_hash_text. by rewrite bytes_display_unreadable.
  - done.
  - rewrite H1, H2. eexists. split_and!; [by vm_compute|done|done|by vm_compute].
Defined.

(** an operation whose verification gas limit is out of bounds is rejected, and
    the user is told that all went well *)
Definition rejected : UserOperationRequest := {| rq_sender := 3; rq_nonce := 3; rq_init_code := [];
  rq_call_data := []; rq_call_gas_limit := None; rq_verification_gas_limit := Some (2 ^ 200);
  rq_pre_verification_gas := None; rq_max_fee_per_gas := None; rq_max_priority_fee_per_gas := None;
  rq_paymaster_and_data := []; rq_signature := None |}.
Lemma debug_add_effect_witness :
  is_err (add_user_operations (Service.Example.cfg_of 1) [request_operation sv rejected 1] None
    Bundling.Example.pool0).1 = true ∧
  (debug_add_user_ops sv [rejected] 1 Bundling.Example.pool0).1 = Ok RespOk.
Proof.
  split; [by vm_compute|].
  rewrite (debug_add_effect sv [rejected] 1 (Service.Example.cfg_of 1) Bundling.Example.pool0).
  - by vm_compute.
  - repeat constructor; unfold is_address, is_u256, U256_MAX; simpl; lia.
  - unfold is_address; lia.
  - by vm_compute.
Defined.
End Example.
