(* ===== verification/Lifecycle.v ===== *)
(** The life of an operation across the components: submitted over JSON-RPC
    ([crates/rpc]), pooled ([crates/mempool]), fetched through the pool service
    ([crates/grpc]), sent in a bundle transaction ([crates/bundler]) and settled
    by the block that includes it ([crates/mempool/src/builder.rs]). *)

From S2P Require Import Prelude Primitives Errors ErrorJson AbiStd Gas Reputation Mempool.
From S2P Require Import MemoryStore EntryPoint Fixture Sanity Simulation Trace.
From S2P Require Import Validator UoPool Bundling Blocks Estimate Proto Service Bundler JsonRpc.

(** ** The reply of the pool service, as the bundler reads it
    ([BundlerService::get_user_operations]) *)
Section fetch.
Context {P : Profile} {A : Abi} {D : Display} {N : Node} {HO : HashOrder} {CS : ChecksumText}
  {HT : HashText} {RPL : RpcLib}.
Context {S : Type} `{MempoolStore S} {R : Type} `{ReputationEntryOp R}.
Context `{V : UserOperationValidator S R} (sv : UoPoolService).

Definition fetch_user_operations (ep : Address)
  : ST (UoPool S R) GrpcStatus (list UserOperation * StorageMap) :=
  do* res := call (get_sorted_user_operations sv (Some (pb_of_address ep))) in
  do* uos := st_lift (uos_of_pb (pb_of_user_operation <$> res.1)) in
  st_ret (uos, storage_map_of_pb (pb_of_storage_map res.2)).
End fetch.

(** the bundle transaction carries the operations it was made from *)
Class HandleOpsAbi {TX : TxLib} {CD : ChainData} : Prop :=
  decode_encode_handle_ops : ∀ uos to, decode_handle_ops (encode_handle_ops uos to) = Some uos.

Section lifecycle.
Context {P : Profile} {A : Abi} {AOk : AbiOk A} {D : Display} {N : Node} {HO : HashOrder}
  {EL : EstimateLib} {CS : ChecksumText} {HT : HashText} {CD : ChainData}
  {SJ : SerdeJson} {SL : SerdeLaws SJ} {RPL : RpcLib}.
Context {TX : TxLib} {BN : BundlerNode} {SB : SendBundleOp} {HA : HandleOpsAbi}.
Context {S : Type} `{PS : PoolStorage S} {R : Type} `{RL : ReputationEntryLaws R}.
Context `{V : UserOperationValidator S R} {VL : ValidatorLaws S R} (sv : UoPoolService).
Implicit Types (self : UoPool S R) (uo : UserOperation) (cfg : UoPoolConfig).

(** bundling changes nothing of the reputation *)
#[local] Instance reputation_kept r :
  PoolInvariant (λ self : UoPool S R, self.(up_reputation) = r).
Proof. by intros self s op _ _ Hr. Qed.

(** what the bundler gets from a pool in order: pooled operations, the pool in
    order and the counters as they were *)
Lemma fetch_spec known ep cfg self uos m self' :
  is_address ep → get_uopool sv ep = Ok cfg → pool_inv cfg known self →
  fetch_user_operations sv ep self = (Ok (uos, m), self') →
  pool_inv cfg known self' ∧ self'.(up_reputation) = self.(up_reputation) ∧
  ∀ uo, uo ∈ uos → uo.(uo_hash) = hash uo cfg.(cfg_entry_point) cfg.(cfg_chain_id) ∧ uo_wf uo ∧ uo ∈ known ∧
    ∀ g, holds self.(up_mempool) g →
      (ghost_pool g).(p_uos) !! uo.(uo_hash) = Some uo.(user_operation).
Proof using VL AOk.
  intros Hep Hcfg Hi Hf. pose proof Hi as (g & Hg & (_ & _ & Hh) & _ & Hpk).
  unfold fetch_user_operations in Hf. apply st_bind_ok in Hf as ([us sm] & s1 & Hc & Hf).
  unfold call in Hc. destruct (get_sorted_user_operations _ _ self) as [r s1'] eqn:Hs.
  destruct r as [x|e|]; cbn in Hc; [|done..]. injection Hc as -> ->.
  unfold get_sorted_user_operations in Hs.
  rewrite (st_bind_step _ _ _ ep self) in Hs
    by (unfold st_lift, parse_addr; by rewrite address_roundtrip).
  rewrite (st_bind_step _ _ _ cfg self) in Hs by (unfold st_lift; by rewrite Hcfg).
  destruct (holds_sorted _ g Hg) as (l & Hl & Hp).
  rewrite (st_bind_step _ _ _ (sort_by cmp_priority l) self) in Hs
    by (unfold st_get, UoPool.get_sorted_user_operations, get_sorted; by rewrite Hl).
  unfold st_map_err in Hs. destruct (bundle_user_operations cfg _ self) as [r s2] eqn:Hb.
  destruct r as [y|e|]; cbn in Hs; [|done..]. injection Hs as -> ->.
  assert (∀ uo, uo ∈ us → (ghost_pool g).(p_uos) !! uo.(uo_hash) = Some uo.(user_operation)) as Hin.
  { destruct (selected_with cfg (λ _ _, True) (sort_by cmp_priority l) us sm self s1) as (log & b & -> & Hsub & _); [done..|].
    intros uo Huo. eapply elem_of_sublist in Huo; [|exact Hsub]. rewrite sort_by_perm, Hp in Huo.
    apply list_elem_of_fmap in Huo as ([h u] & -> & Hu). by apply elem_of_map_to_list in Hu. }
  assert (∀ uo, uo ∈ us → uo.(uo_hash) = hash uo cfg.(cfg_entry_point) cfg.(cfg_chain_id) ∧ uo_wf uo)
    as Hhash by (intros uo Huo; by apply Hh, Hin).
  apply st_bind_ok in Hf as (uos' & s3 & Hpb & [= -> <- ->]).
  unfold st_lift, uos_of_pb in Hpb.
  rewrite comp_map_fmap, (comp_map_all _ id) in Hpb.
  2: { apply Forall_forall. intros uo Huo. destruct (Hhash uo Huo) as [He Hwf].
       change (id uo) with uo. apply user_operation_roundtrip; [done|].
       rewrite He. apply digest_range. }
  rewrite list_fmap_id in Hpb. injection Hpb as -> ->. split_and!.
  - pose proof (preserves_bundle cfg (pool_inv cfg known) (sort_by cmp_priority l) self Hi) as Hk.
    by rewrite Hb in Hk.
  - pose proof (preserves_bundle cfg (λ s : UoPool S R, s.(up_reputation) = self.(up_reputation))
      (sort_by cmp_priority l) self eq_refl) as Hk. by rewrite Hb in Hk.
  - intros uo Huo. destruct (Hhash uo Huo). split_and!; [done..| |].
    { specialize (Hpk _ _ (Hin uo Huo)). by destruct uo. }
    intros g' Hg'.
    pose proof (holds_get _ g uo.(uo_hash) Hg) as Hq. rewrite (holds_get _ g' _ Hg') in Hq.
    rewrite (Hin uo Huo) in Hq. destruct ((ghost_pool g').(p_uos) !! uo.(uo_hash)) as [q|]; [|done].
    by injection Hq as ->.
Qed.

(** the transaction of a bundle is a call of the entry point with its operations *)
Lemma create_bundle_call b uos t : create_bundle b uos = Ok t →
  t.(t_to) = Some b.(bn_entry_point) ∧
  ∃ to, t.(t_data) = Some (encode_handle_ops (user_operation <$> uos) to).
Proof.
  unfold create_bundle. intros Ht. apply comp_bind_ok in Ht as (nonce & _ & Ht).
  apply comp_bind_ok in Ht as (balance & _ & Ht). apply comp_bind_ok in Ht as ([c l] & Hc & Ht).
  apply comp_bind_ok in Ht as (gas & _ & Ht). apply comp_bind_ok in Ht as (fees & _ & [= <-]).
  cbn [t_to t_data fst snd]. destruct (enable_access_list b).
  - apply comp_bind_ok in Hc as (al & _ & [= <- <-]). split; [done|]. by eexists.
  - injection Hc as <- <-. split; [done|]. by eexists.
Qed.

Lemma sent_logged b uos m w h w' : bundler_send b uos m w = (Ok (Some h), w') →
  w'.(w_sent) = w.(w_sent) ++ [(b.(bn_entry_point), uos)] ∧ ∃ t, create_bundle b uos = Ok t.
Proof.
  unfold bundler_send. destruct uos as [|uo uos]; [done|]. intros Hs.
  apply st_bind_ok in Hs as (t & w1 & Ht & Hs). unfold st_lift in Ht.
  apply st_bind_ok in Hs as ([] & w2 & Hw & Hs). apply st_bind_ok in Hs as (h' & w3 & Hh & Hs).
  unfold st_mod in Hw. unfold st_lift in Hh. unfold st_ret in Hs. simplify_eq. split; [done|]. by exists t.
Qed.

Lemma preserves_block_stream (I : UoPool S R → Prop) `{HI : !HandlerInvariant I} cfg stream :
  preserves (E:=MempoolError) I (register_block_updates cfg stream).
Proof.
  apply preserves_for. intros [e|h]; [apply preserves_ret|].
  apply preserves_ignore. by apply (preserves_block cfg I).
Qed.

Lemma settled known cfg self bh txs tx uos to :
  pool_inv cfg known self → has_room (3 * included_count cfg [inr bh]) self.(up_reputation) →
  get_block_txs bh = inr (Some txs) → tx ∈ txs → tx.(tx_to) = Some cfg.(cfg_entry_point) →
  tx.(tx_input) = encode_handle_ops (user_operation <$> uos) to →
  (∀ uo, uo ∈ uos → uo.(uo_hash) = hash uo cfg.(cfg_entry_point) cfg.(cfg_chain_id)) →
  ∃ self', register_block_updates (E:=MempoolError) cfg [inr bh] self = (Ok (), self') ∧
    pool_inv cfg known self' ∧
    ∀ g uo, holds self'.(up_mempool) g → uo ∈ uos → (ghost_pool g).(p_uos) !! uo.(uo_hash) = None.
Proof using HA.
  intros Hi Hroom Hb Htx Hto Hin Hh. pose proof Hi as (g & Hg & _).
  destruct (stream_removes_included (E:=MempoolError) cfg [inr bh] self g Hg Hroom)
    as (self' & g' & Hs & Hg' & Hu). exists self'. split; [done|]. split.
  - pose proof (preserves_block_stream (pool_inv cfg known) cfg [inr bh] self Hi) as Hk. by rewrite Hs in Hk.
  - intros g2 uo Hg2 Huo.
    pose proof (holds_get _ g' uo.(uo_hash) Hg') as Hq. rewrite (holds_get _ g2 _ Hg2) in Hq.
    assert ((ghost_pool g').(p_uos) !! uo.(uo_hash) = None) as Hn.
    { rewrite Hu. apply map_lookup_filter_None. right. intros q _ Hnot. apply Hnot. cbn [fst].
      unfold included_hashes. apply elem_of_list_to_set, list_elem_of_fmap.
      exists (from_user_operation_signed (hash uo cfg.(cfg_entry_point) cfg.(cfg_chain_id)) uo).
      split; [by apply Hh|]. cbn [mbind list_bind]. rewrite app_nil_r. cbn [item_ops].
      unfold block_ops. rewrite Hb. apply list_elem_of_bind. exists tx. split; [|done].
      unfold tx_ops. rewrite bool_decide_eq_true_2 by done. rewrite Hin, decode_encode_handle_ops.
      cbn [default]. apply list_elem_of_fmap. exists uo.(user_operation). split; [done|].
      apply list_elem_of_fmap. by exists uo. }
    rewrite Hn in Hq. by destruct (_ !! _) as [q|].
Qed.

(** a submission over JSON-RPC keeps the pool in order *)
Lemma submission_inv known req ep cfg self :
  request_wf req → is_address ep → is_u256 sv.(sv_chain) → get_uopool sv ep = Ok cfg →
  cfg.(cfg_entry_point) = ep → cfg.(cfg_chain_id) = sv.(sv_chain) →
  distinct_ops cfg (request_operation sv req ep :: known) → pool_inv cfg known self →
  pool_inv cfg (request_operation sv req ep :: known) (eth_send_user_operation sv req ep self).2.
Proof using VL AOk SL RL.
  intros Hwf Hep Hch Hcfg Hce Hcc Hd Hi. rewrite eth_send_answer. cbn [snd].
  rewrite (add_parsed sv req ep cfg) by done. set (uo := request_operation sv req ep) in *.
  assert (pool_inv cfg (uo :: known) self) as Hi'
    by (eapply pool_inv_mono; [|exact Hi]; intros v Hv; by apply list_elem_of_further).
  unfold st_bind, st_get. destruct (as_result _) as [res|e|] eqn:Hv; [|exact Hi'..].
  rewrite add_commit_state.
  destruct res as [err|out]; [by apply (preserves_reject cfg (pool_inv cfg (uo :: known)))|].
  eapply (add_valid_inv cfg known self uo None); [by rewrite Hce|by rewrite Hcc|..|done|done].
  - by apply signed_of_request_wf.
  - by rewrite Hce, Hcc.
  - unfold as_result in Hv. by destruct (validate_user_operation self uo None); simplify_eq/=.
Qed.

(** C4. The life of an operation, from a pool in order, as long as keccak256 tells
    the submitted operation and those the storage was given before apart: after a
    submission over JSON-RPC and a fetch by the bundler through the pool service,
    whatever the bundler sends in its transaction under the hash that the
    submission is answered with is the submitted operation, up to the signature.
    When a block includes the transaction, the block's update takes every operation
    of the bundle out of the pool, leaves the pool in order, and no later fetch
    returns any of them. *)
Theorem operation_lifecycle known req ep cfg b self uos m self2 w w' hb bh txs tx :
  request_wf req → is_address ep → is_u256 sv.(sv_chain) → get_uopool sv ep = Ok cfg →
  cfg.(cfg_entry_point) = ep → cfg.(cfg_chain_id) = sv.(sv_chain) → b.(bn_entry_point) = ep →
  distinct_ops cfg (request_operation sv req ep :: known) → pool_inv cfg known self →
  fetch_user_operations sv ep (eth_send_user_operation sv req ep self).2 = (Ok (uos, m), self2) →
  bundler_send b uos m w = (Ok (Some hb), w') →
  get_block_txs bh = inr (Some txs) → tx ∈ txs →
  (∀ t, create_bundle b uos = Ok t → tx.(tx_to) = t.(t_to) ∧ Some tx.(tx_input) = t.(t_data)) →
  has_room (3 * included_count cfg [inr bh]) (eth_send_user_operation sv req ep self).2.(up_reputation) →
  w'.(w_sent) = w.(w_sent) ++ [(ep, uos)] ∧
  (∀ uo, uo ∈ uos → uo.(uo_hash) = hash (signed_of_request req) ep sv.(sv_chain) →
     signature [] uo = signature [] (signed_of_request req)) ∧
  ∃ self3, register_block_updates (E:=MempoolError) cfg [inr bh] self2 = (Ok (), self3) ∧
    pool_inv cfg (request_operation sv req ep :: known) self3 ∧
    (∀ uo, uo ∈ uos → get self3.(up_mempool) uo.(uo_hash) = Ok None) ∧
    ∀ uos' m' self4, fetch_user_operations sv ep self3 = (Ok (uos', m'), self4) →
      ∀ uo, uo ∈ uos → uo ∉ uos'.
Proof using VL AOk SL RL HA.
  intros Hwf Hep Hch Hcfg Hce Hcc Hbe Hd Hi Hf Hsend Hblk Htx Hmined Hroom.
  pose proof (submission_inv known req ep cfg self Hwf Hep Hch Hcfg Hce Hcc Hd Hi) as Hi1.
  destruct (fetch_spec _ ep cfg _ uos m self2 Hep Hcfg Hi1 Hf) as (Hi2 & Hrep & Hin).
  destruct (sent_logged _ _ _ _ _ _ Hsend) as (Hlog & t & Ht).
  destruct (create_bundle_call b uos t Ht) as (Hto & to & Hdata).
  destruct (Hmined t Ht) as [Htt Htd].
  destruct (settled _ cfg self2 bh txs tx uos to Hi2) as (self3 & Hs3 & Hi3 & Hgone).
  { by rewrite Hrep. } { done. } { done. } { by rewrite Htt, Hto, Hbe, Hce. }
  { rewrite Hdata in Htd. by injection Htd. } { intros uo Huo. by apply Hin. }
  split; [by rewrite <-Hbe|]. split.
  { intros uo Huo He. destruct (Hin uo Huo) as (Hx & Hxw & Hk & _).
    eapply (told_apart_hash ep sv.(sv_chain) (user_operation <$> request_operation sv req ep :: known));
      [done|done|by rewrite <-Hce, <-Hcc|by apply list_elem_of_fmap_2| |done|by apply signed_of_request_wf|].
    - apply list_elem_of_here.
    - by rewrite <-He, Hx, Hce, Hcc. }
  exists self3. split; [done|]. split; [done|].
  pose proof Hi3 as (g3 & Hg3 & _). split.
  - intros uo Huo. unfold get. rewrite (holds_get _ g3 _ Hg3). by rewrite (Hgone g3 uo).
  - intros uos' m' self4 Hf' uo Huo Huo'.
    destruct (fetch_spec _ ep cfg self3 uos' m' self4 Hep Hcfg Hi3 Hf') as (_ & _ & Hin').
    destruct (Hin' uo Huo') as (_ & _ & _ & Hl). specialize (Hl g3 Hg3). by rewrite (Hgone g3 uo) in Hl.
Qed.
End lifecycle.

(** ** Concrete evaluations: one operation from its submission to its block *)
Module Example.
#[local] Existing Instances std_abi std_abi_ok std_display canonical_order fx_profile Trace.Example.lib.
#[local] Existing Instances Bundling.Example.clock Bundling.Example.node Bundling.Example.standard
  Service.Example.checksum std_hash_text JsonRpc.Example.serde JsonRpc.Example.serde_laws
  JsonRpc.Example.rpclib.

(** *** A call encoding: the bits of the code of the list, a byte each *)
Fixpoint bit_bytes (p : positive) : bytes :=
  match p with
  | xH => [] | xO p => Byte.x00 :: bit_bytes p | xI p => Byte.x01 :: bit_bytes p
  end.
Fixpoint of_bit_bytes (b : bytes) : positive :=
  match b with
  | [] => xH
  | c :: b => if bool_decide (c = Byte.x00) then xO (of_bit_bytes b) else xI (of_bit_bytes b)
  end.
Lemma of_to_bit_bytes p : of_bit_bytes (bit_bytes p) = p.
Proof. induction p as [p IH|p IH|]; simpl; [by rewrite IH..|done]. Qed.

#[local] Instance UserOperationSigned_countable : Countable UserOperationSigned.
Proof.
  refine (inj_countable' (λ u, (u.(uo_sender), u.(uo_nonce), u.(uo_init_code), u.(uo_call_data),
      u.(uo_call_gas_limit), u.(uo_verification_gas_limit), u.(uo_pre_verification_gas),
      u.(uo_max_fee_per_gas), u.(uo_max_priority_fee_per_gas), u.(uo_paymaster_and_data),
      u.(uo_signature)))
    (λ '(a, b, c, d, e, f, g, h, i, j, k), Build_UserOperationSigned a b c d e f g h i j k) _).
  by intros [].
Defined.

#[local] Instance txlib : TxLib := {| AccessList := (); no_access_list := ();
  encode_handle_ops uos _ := bit_bytes (encode uos) |}.
#[local] Instance bundler_node : BundlerNode := {|
  get_transaction_count _ := inr 3; get_balance _ := inr 10; create_access_list _ := inr ();
  estimate_gas _ := inr 50000; estimate_eip1559_fees := inr (20, 2); send_transaction _ := inr 99;
  sign_transaction _ := inr []; get_chainid := inr 5; get_latest_block := inr None;
  get_latest_number := inr 7; send_raw_transaction_conditional _ _ _ := inr 99;
  await_transaction _ := inr (); relay_simulate _ _ _ _ := inr []; relay_send _ _ _ := inr 99;
  relay_await _ := inr () |}.
#[local] Instance client : SendBundleOp := ethereum_send.
Definition bundler : Bundler := {| wallet_address := 40; beneficiary := 41;
  bn_entry_point := 1; bn_chain := 5; min_balance := 1; enable_access_list := false |}.

Definition submitted : UserOperation :=
  request_operation Service.Example.sv JsonRpc.Example.request 1.
(** block 7 holds the bundle *)
Definition mined : Transaction :=
  {| tx_input := bit_bytes (encode [submitted.(user_operation)]); tx_to := Some 1 |}.
#[local] Instance chain : ChainData := {|
  get_block_number := inr 8; query_events _ _ _ := inr []; get_transaction _ := inr None;
  get_transaction_receipt _ := inr None;
  get_block_txs h := inr (if bool_decide (h = 7) then Some [mined] else None);
  decode_handle_ops b := decode (of_bit_bytes b) |}.
#[local] Instance handle_ops_abi : HandleOpsAbi.
Proof. intros uos to. cbn. by rewrite of_to_bit_bytes, decode_encode. Qed.

Definition pooled : UoPool MemStore (gmap Address ReputationEntry) :=
  (eth_send_user_operation Service.Example.sv JsonRpc.Example.request 1 Bundling.Example.pool0).2.
Definition fetched : UoPool MemStore (gmap Address ReputationEntry) :=
  (fetch_user_operations Service.Example.sv 1 pooled).2.

Lemma fetches_it : fetch_user_operations Service.Example.sv 1 pooled =
  (Ok ([submitted], StorageMap_default), fetched).
Proof. by vm_compute. Qed.

Lemma operation_lifecycle_witness : ∃ self3,
  register_block_updates (E:=MempoolError) (Service.Example.cfg_of 1) [inr 7] fetched = (Ok (), self3) ∧
  get self3.(up_mempool) submitted.(uo_hash) = Ok None.
Proof.
  destruct (operation_lifecycle (VL:=standard_validator_laws Bundling.Example.validator)
    Service.Example.sv [] JsonRpc.Example.request 1 (Service.Example.cfg_of 1) bundler
    Bundling.Example.pool0 [submitted] StorageMap_default fetched {| w_sent := []; w_removed := [] |}
    {| w_sent := [(1, [submitted])]; w_removed := [] |} 99 7 [mined] mined)
    as (_ & _ & self3 & Hs & _ & Hgone & _); [..|exists self3].
  - unfold request_wf, option_range, is_address, is_u256, U256_MAX; simpl; lia.
  - unfold is_address; lia.
  - unfold is_u256, U256_MAX; simpl; lia.
  - by vm_compute.
  - done.
  - done.
  - done.
  - apply (bool_decide_unpack _). by vm_compute.
  - exact Bundling.Example.pool0_inv.
  - exact fetches_it.
  - reflexivity.
  - reflexivity.
  - apply list_elem_of_here.
  - intros t Ht. injection Ht as <-. split; reflexivity.
  - split_and!.
    + change (map_Forall (λ a (e : ReputationEntry), e.(re_address) = a)
        pooled.(up_reputation).(entities)). apply (bool_decide_unpack _). by vm_compute.
    + by vm_compute.
    + change (map_Forall (λ _ (e : ReputationEntry), 0 ≤ e.(uo_included) ≤
        U64_MAX - 3 * included_count (Service.Example.cfg_of 1) [inr 7]) pooled.(up_reputation).(entities)).
      apply (bool_decide_unpack _). by vm_compute.
  - split; [exact Hs|]. apply Hgone, list_elem_of_here.
Defined.
End Example.
