(* ===== verification/JsonServer.v ===== *)
(** The JSON-RPC server ([crates/rpc/src/rpc.rs]): which methods are exposed over
    HTTP and WebSocket and behind which layers; and the proxy layer
    ([middleware.rs]), which passes requests for unknown methods on to the
    execution client. *)

From S2P Require Import Prelude Primitives Errors ErrorJson AbiStd HexStd Gas Reputation Mempool.
From S2P Require Import MemoryStore EntryPoint Fixture Sanity Simulation Trace.
From S2P Require Import Validator Bundler UoPool Bundling Estimate Proto Service JsonRpc.

(** ** [middleware.rs] *)
(** a response: its head and its body, which may fail while it is read *)
Record HttpResponse := { rs_head : Z; rs_body : string + bytes }.

(** serde's reading of a response with an error, and the HTTP client *)
Class HttpLib := {
  error_response : bytes → option ErrorObject;
  build_post : string → bytes → string + ();
  http_request : bool → string → bytes → string + HttpResponse;
}.

Definition METHOD_NOT_FOUND_CODE : Z := -32601.
Definition METHOD_NOT_FOUND_MSG : string := "Method not found".
Definition method_not_found (e : ErrorObject) : bool :=
  bool_decide (e.(eo_code) = METHOD_NOT_FOUND_CODE) && bool_decide (e.(eo_message) = METHOD_NOT_FOUND_MSG).

Section proxy.
Context {HL : HttpLib}.

Definition forward (address : string) (req : bytes) : string + HttpResponse :=
  match build_post address req with
  | inl e => inl e
  | inr _ => http_request (String.prefix "https" address) address req
  end.

Definition proxy_call (address : string) (inner : bytes → string + HttpResponse) (req : string + bytes)
  : string + HttpResponse :=
  match req with
  | inl e => inl e
  | inr req =>
      match inner req with
      | inl e => inl e
      | inr res =>
          match res.(rs_body) with
          | inl e => inl e
          | inr body =>
              match error_response body with
              | Some err => if method_not_found err then forward address req else inr res
              | None => inr res
              end
          end
      end
  end.
End proxy.

(** ** [rpc.rs] *)
Inductive CorsLayer := CorsAny | CorsOrigins (origins : list string).
Inductive JsonRpcServerType := Both | Http | Ws.
(** [std::net::IpAddr] *)
Inductive IpAddr := IpV4 (addr : Z) | IpV6 (addr : Z).

Section server.
Context {M : Type}.

Record JsonRpcServer := {
  js_http : bool;
  js_http_addr : IpAddr;
  js_http_port : Z;
  js_http_methods : gmap string M;
  js_http_cors_layer : option CorsLayer;
  js_ws : bool;
  js_ws_addr : IpAddr;
  js_ws_port : Z;
  js_ws_methods : gmap string M;
  js_ws_cors_layer : option CorsLayer;
  js_proxy_layer : option string;
  js_metric_layer : bool;
}.

Definition server_new (http : bool) (http_addr : IpAddr) (http_port : Z) (ws : bool) (ws_addr : IpAddr)
    (ws_port : Z)
  : JsonRpcServer := {|
  js_http := http; js_http_addr := http_addr; js_http_port := http_port; js_http_methods := ∅;
  js_http_cors_layer := None; js_ws := ws; js_ws_addr := ws_addr; js_ws_port := ws_port;
  js_ws_methods := ∅; js_ws_cors_layer := None; js_proxy_layer := None; js_metric_layer := false |}.

Definition set_http_cors (l : CorsLayer) (self : JsonRpcServer) : JsonRpcServer := {|
  js_http := self.(js_http); js_http_addr := self.(js_http_addr); js_http_port := self.(js_http_port);
  js_http_methods := self.(js_http_methods); js_http_cors_layer := Some l; js_ws := self.(js_ws);
  js_ws_addr := self.(js_ws_addr); js_ws_port := self.(js_ws_port); js_ws_methods := self.(js_ws_methods);
  js_ws_cors_layer := self.(js_ws_cors_layer); js_proxy_layer := self.(js_proxy_layer);
  js_metric_layer := self.(js_metric_layer) |}.
Definition set_ws_cors (l : CorsLayer) (self : JsonRpcServer) : JsonRpcServer := {|
  js_http := self.(js_http); js_http_addr := self.(js_http_addr); js_http_port := self.(js_http_port);
  js_http_methods := self.(js_http_methods); js_http_cors_layer := self.(js_http_cors_layer);
  js_ws := self.(js_ws); js_ws_addr := self.(js_ws_addr); js_ws_port := self.(js_ws_port);
  js_ws_methods := self.(js_ws_methods); js_ws_cors_layer := Some l;
  js_proxy_layer := self.(js_proxy_layer); js_metric_layer := self.(js_metric_layer) |}.

(** [domain.parse::<HeaderValue>()]; an origin that does not parse is left out *)
Context (parse_origin : string → option string).
Definition cors_layer (cors_domain : list string) : CorsLayer :=
  if bool_decide ("*"%string ∈ cors_domain) then CorsAny else CorsOrigins (omap parse_origin cors_domain).

Definition with_cors (cors_domain : list string) (typ : JsonRpcServerType) (self : JsonRpcServer)
  : JsonRpcServer :=
  match typ with
  | Both => set_ws_cors (cors_layer cors_domain) (set_http_cors (cors_layer cors_domain) self)
  | Http => set_http_cors (cors_layer cors_domain) self
  | Ws => set_ws_cors (cors_layer cors_domain) self
  end.

Definition with_proxy (address : string) (self : JsonRpcServer) : JsonRpcServer := {|
  js_http := self.(js_http); js_http_addr := self.(js_http_addr); js_http_port := self.(js_http_port);
  js_http_methods := self.(js_http_methods); js_http_cors_layer := self.(js_http_cors_layer);
  js_ws := self.(js_ws); js_ws_addr := self.(js_ws_addr); js_ws_port := self.(js_ws_port);
  js_ws_methods := self.(js_ws_methods); js_ws_cors_layer := self.(js_ws_cors_layer);
  js_proxy_layer := Some address; js_metric_layer := self.(js_metric_layer) |}.
Definition with_metrics (self : JsonRpcServer) : JsonRpcServer := {|
  js_http := self.(js_http); js_http_addr := self.(js_http_addr); js_http_port := self.(js_http_port);
  js_http_methods := self.(js_http_methods); js_http_cors_layer := self.(js_http_cors_layer);
  js_ws := self.(js_ws); js_ws_addr := self.(js_ws_addr); js_ws_port := self.(js_ws_port);
  js_ws_methods := self.(js_ws_methods); js_ws_cors_layer := self.(js_ws_cors_layer);
  js_proxy_layer := self.(js_proxy_layer); js_metric_layer := true |}.

Definition set_methods (typ : JsonRpcServerType) (m : gmap string M) (self : JsonRpcServer)
  : JsonRpcServer := {|
  js_http := self.(js_http); js_http_addr := self.(js_http_addr); js_http_port := self.(js_http_port);
  js_http_methods := match typ with Ws => self.(js_http_methods) | _ => m end;
  js_http_cors_layer := self.(js_http_cors_layer);
  js_ws := self.(js_ws); js_ws_addr := self.(js_ws_addr); js_ws_port := self.(js_ws_port);
  js_ws_methods := match typ with Http => self.(js_ws_methods) | _ => m end;
  js_ws_cors_layer := self.(js_ws_cors_layer); js_proxy_layer := self.(js_proxy_layer);
  js_metric_layer := self.(js_metric_layer) |}.

(** [Methods::merge]: nothing is added when a name is taken *)
Definition merge (methods new : gmap string M) : comp string (gmap string M) :=
  if forallb (λ kv, bool_decide (methods !! kv.1 = None)) (map_to_list new) then Ok (new ∪ methods)
  else Err "Method already registered"%string.
Definition merge_http (new : gmap string M) : ST JsonRpcServer string () := λ self,
  match merge self.(js_http_methods) new with
  | Ok m => (Ok (), set_methods Http m self)
  | Err e => (Err e, self)
  | Panic => (Panic, self)
  end.
Definition merge_ws (new : gmap string M) : ST JsonRpcServer string () := λ self,
  match merge self.(js_ws_methods) new with
  | Ok m => (Ok (), set_methods Ws m self)
  | Err e => (Err e, self)
  | Panic => (Panic, self)
  end.

Definition add_methods (methods : gmap string M) (typ : JsonRpcServerType) : ST JsonRpcServer string () :=
  match typ with
  | Both => do* _ := merge_http methods in merge_ws methods
  | Http => merge_http methods
  | Ws => merge_ws methods
  end.

(** a running server: its address, methods and layers from the outside in *)
Record ServerHandle := {
  sh_addr : IpAddr;
  sh_port : Z;
  sh_methods : gmap string M;
  sh_cors : option CorsLayer;
  sh_proxy : option string;
  sh_metrics : bool;
}.
(** [build], which binds the port, given the ports bound just before *)
Context (bind : list (IpAddr * Z) → IpAddr → Z → string + ()).
Definition start_http (self : JsonRpcServer) : comp string (option ServerHandle) :=
  if self.(js_http) then
    match bind [] self.(js_http_addr) self.(js_http_port) with
    | inl e => Err e
    | inr _ => Ok (Some {| sh_addr := self.(js_http_addr); sh_port := self.(js_http_port);
        sh_methods := self.(js_http_methods); sh_cors := self.(js_http_cors_layer);
        sh_proxy := self.(js_proxy_layer); sh_metrics := self.(js_metric_layer) |})
    end
  else Ok None.
Definition start_ws (self : JsonRpcServer) : comp string (option ServerHandle) :=
  if self.(js_ws) then
    match bind (if self.(js_http) then [(self.(js_http_addr), self.(js_http_port))] else [])
            self.(js_ws_addr) self.(js_ws_port) with
    | inl e => Err e
    | inr _ => Ok (Some {| sh_addr := self.(js_ws_addr); sh_port := self.(js_ws_port);
        sh_methods := self.(js_ws_methods); sh_cors := self.(js_ws_cors_layer);
        sh_proxy := self.(js_proxy_layer); sh_metrics := self.(js_metric_layer) |})
    end
  else Ok None.
Definition start (self : JsonRpcServer) : comp string (option ServerHandle * option ServerHandle) :=
  let* http_handle := start_http self in
  let* ws_handle := start_ws self in
  Ok (http_handle, ws_handle).
End server.
Arguments JsonRpcServer M : clear implicits.
Arguments ServerHandle M : clear implicits.

(** ** The methods of the three namespaces ([eth_api.rs], [debug_api.rs], [web3_api.rs]) *)
Inductive Method :=
| EthChainId | EthSupportedEntryPoints | EthSendUserOperation | EthEstimateUserOperationGas
| EthGetUserOperationReceipt | EthGetUserOperationByHash
| DebugClearMempool | DebugClearReputation | DebugClearState | DebugAddUserOps | DebugDumpMempool
| DebugSetReputation | DebugDumpReputation | DebugSetBundlingMode | DebugSendBundleNow
| DebugGetStakeStatus
| Web3ClientVersion.

Definition eth_rpc : gmap string Method := list_to_map [
  ("eth_chainId", EthChainId); ("eth_supportedEntryPoints", EthSupportedEntryPoints);
  ("eth_sendUserOperation", EthSendUserOperation);
  ("eth_estimateUserOperationGas", EthEstimateUserOperationGas);
  ("eth_getUserOperationReceipt", EthGetUserOperationReceipt);
  ("eth_getUserOperationByHash", EthGetUserOperationByHash)]%string.
Definition debug_rpc : gmap string Method := list_to_map [
  ("debug_bundler_clearMempool", DebugClearMempool);
  ("debug_bundler_clearReputation", DebugClearReputation);
  ("debug_bundler_clearState", DebugClearState); ("debug_bundler_addUserOps", DebugAddUserOps);
  ("debug_bundler_dumpMempool", DebugDumpMempool); ("debug_bundler_setReputation", DebugSetReputation);
  ("debug_bundler_dumpReputation", DebugDumpReputation);
  ("debug_bundler_setBundlingMode", DebugSetBundlingMode);
  ("debug_bundler_sendBundleNow", DebugSendBundleNow);
  ("debug_bundler_getStakeStatus", DebugGetStakeStatus)]%string.
Definition web3_rpc : gmap string Method := {[ "web3_clientVersion"%string := Web3ClientVersion ]}.

(** [web3.rs]; the version from git is fixed when the program is built *)
Definition VERSION : string := "0.6.0".
Definition web3_client_version (git_version : string) : string := "silius/" +:+ VERSION +:+ "/" +:+ git_version.

(** ** The errors of the handlers *)
Inductive handler_error {D : Display} : ErrorObject → Prop :=
| he_mempool e : handler_error (json_of_mempool e)
| he_status s : handler_error (json_of_status s)
| he_serde m : handler_error (json_of_serde m)
| he_missing : handler_error missing_hash
| he_reputation : handler_error {| eo_code := INTERNAL_ERROR_CODE; eo_message := "Error setting reputation" |}.

Definition errors_in {X : Type} {D : Display} (r : comp ErrorObject X) : Prop :=
  ∀ e, r = Err e → handler_error e.

Section errors.
Context {D : Display} {RL : RpcLib}.

Lemma code_kept (e : ErrorObject) : e.(eo_code) ≠ METHOD_NOT_FOUND_CODE → method_not_found e = false.
Proof. intros He. unfold method_not_found. by rewrite bool_decide_false. Qed.

Lemma handler_error_kept e : handler_error e → method_not_found e = false.
Proof.
  destruct 1 as [[h k]|s|m| |]; try (by apply code_kept); [|done].
  apply code_kept. unfold json_of_mempool; simpl. destruct k as [[r|r|r]| | |]; try done; simpl.
  - by destruct r.
  - by destruct r as [| | | | | | | | |[]| | |].
  - by destruct r as [| | | | | | | | | |[]| | |].
Qed.

Lemma errors_ok {X} (x : X) : errors_in (Ok x).
Proof. done. Qed.
Lemma errors_status {X} (r : comp GrpcStatus X) : errors_in (map_err json_of_status r).
Proof. intros e. destruct r; simpl; intros [= <-]. constructor. Qed.
Lemma errors_serde {X} (r : comp string X) : errors_in (map_err json_of_serde r).
Proof. intros e. destruct r; simpl; intros [= <-]. constructor. Qed.
Lemma errors_bind {X Y} (r : comp ErrorObject X) (k : X → comp ErrorObject Y) :
  errors_in r → (∀ x, errors_in (k x)) → errors_in (comp_bind r k).
Proof. intros Hr Hk e [?|(x & _ & ?)]%comp_bind_err; [by apply Hr|by apply (Hk x)]. Qed.
Lemma errors_st_bind {T X Y} (m : ST T ErrorObject X) (k : X → ST T ErrorObject Y) s :
  errors_in (m s).1 → (∀ x s, errors_in (k x s).1) → errors_in (st_bind m k s).1.
Proof.
  intros Hm Hk. unfold st_bind. destruct (m s) as [[x|e|] s']; simpl in *; [apply Hk| |done].
  intros e' [= <-]. by apply Hm.
Qed.
Lemma errors_grpc {T X} (m : ST T GrpcStatus X) s : errors_in (grpc m s).1.
Proof. apply errors_status. Qed.
Lemma errors_map_ok {X Y} (f : X → Y) (r : comp ErrorObject X) : errors_in r → errors_in (map_ok f r).
Proof. intros Hr e. destruct r; simpl; intros [= <-]. by apply Hr. Qed.
Lemma errors_u256 m : errors_in (u256_of_pb m).
Proof. intros e. unfold u256_of_pb. by case_bool_decide. Qed.
Lemma errors_comp_opt {X Y} (f : X → comp ErrorObject Y) o :
  (∀ x, errors_in (f x)) → errors_in (comp_opt f o).
Proof. intros Hf. destruct o; [|done]. by apply errors_map_ok. Qed.
Lemma errors_comp_map {X Y} (f : X → comp ErrorObject Y) l :
  (∀ x, errors_in (f x)) → errors_in (comp_map f l).
Proof.
  intros Hf. induction l as [|x l IH]; simpl; [done|].
  apply errors_bind; [done|]. intros y. by apply errors_bind.
Qed.
Lemma errors_opt_then {X Y} (o : option X) (k : X → comp ErrorObject (option Y)) :
  (∀ x, errors_in (k x)) → errors_in (opt_then o k).
Proof. intros Hk. destruct o; [apply Hk|done]. Qed.
Lemma errors_u256_or_zero o : errors_in (u256_or_zero o).
Proof. destruct o; [apply errors_u256|done]. Qed.
Lemma errors_signed m : errors_in (signed_of_pb m).
Proof. unfold signed_of_pb. do 6 (apply errors_bind; [apply errors_u256_or_zero|intros ?]). done. Qed.
Lemma errors_operation m : errors_in (user_operation_of_pb m).
Proof.
  unfold user_operation_of_pb. apply errors_bind; [|done]. destruct (Pb.uo m); [apply errors_signed|done].
Qed.
Lemma errors_log l : errors_in (log_of_pb l).
Proof. apply errors_bind; [|done]. apply errors_comp_opt, errors_u256. Qed.
Lemma errors_tx_receipt `{HashText} r : errors_in (tx_receipt_of_pb r).
Proof.
  unfold tx_receipt_of_pb. apply errors_bind; [apply errors_u256_or_zero|intros ?].
  apply errors_bind; [apply errors_comp_opt, errors_u256|intros ?].
  apply errors_bind; [apply errors_comp_map, errors_log|intros ?].
  by apply errors_bind; [apply errors_comp_opt, errors_u256|].
Qed.
Lemma errors_query `{HashText} {X Y} (ask : option Pb.H256 → comp GrpcStatus X)
    (k : X → comp ErrorObject (option Y)) t :
  (∀ x, errors_in (k x)) → errors_in (query_by_hash ask k t).
Proof.
  intros Hk e. unfold query_by_hash. destruct (h256_from_str t); [|intros [= <-]; constructor].
  destruct (served _) as [x|[]|]; intros; simplify_eq; [by apply (Hk x)|constructor..].
Qed.
End errors.

Ltac errors :=
  repeat first
    [ exact (errors_ok _) | apply errors_status | apply errors_serde | apply errors_u256
    | apply errors_signed | apply errors_operation | apply errors_log | apply errors_tx_receipt
    | apply errors_comp_map; intros ? | apply errors_map_ok | apply errors_opt_then; intros ?
    | apply errors_bind; [|intros ?] ].

(** the results of the handlers, method by method *)
Section api_errors.
Context {P : Profile} {A : Abi} {D : Display} {N : Node} {HO : HashOrder} {EL : EstimateLib}
  {CS : ChecksumText} {CD : ChainData} {HT : HashText} {SJ : SerdeJson} {RL : RpcLib}.
Context {S : Type} `{MempoolStore S} {R : Type} `{ReputationEntryOp R}.
Context `{V : UserOperationValidator S R} (sv : UoPoolService).
Context {TX : TxLib} {BN : BundlerNode} {SB : SendBundleOp} {PC : PoolClient}.

(** what a request to a method may fail with *)
Inductive fails : Method → ErrorObject → Prop :=
| f_send req ep (s : UoPool S R) e :
    (eth_send_user_operation sv req ep s).1 = Err e → fails EthSendUserOperation e
| f_estimate fuel req ep e :
    eth_estimate_user_operation_gas sv fuel req ep = Some (Err e) → fails EthEstimateUserOperationGas e
| f_receipt t e : eth_get_user_operation_receipt sv t = Err e → fails EthGetUserOperationReceipt e
| f_by_hash t e : eth_get_user_operation_by_hash sv t = Err e → fails EthGetUserOperationByHash e
| f_clear_mempool (s : UoPool S R) e : (debug_clear_mempool sv s).1 = Err e → fails DebugClearMempool e
| f_clear_reputation (s : UoPool S R) e :
    (debug_clear_reputation sv s).1 = Err e → fails DebugClearReputation e
| f_clear_state (s : UoPool S R) e : (debug_clear_state sv s).1 = Err e → fails DebugClearState e
| f_add reqs ep (s : UoPool S R) e : (debug_add_user_ops sv reqs ep s).1 = Err e → fails DebugAddUserOps e
| f_dump ep (s : UoPool S R) e : debug_dump_mempool sv ep s = Err e → fails DebugDumpMempool e
| f_set_reputation es ep (s : UoPool S R) e :
    (debug_set_reputation sv es ep s).1 = Err e → fails DebugSetReputation e
| f_dump_reputation ep (s : UoPool S R) e :
    debug_dump_reputation sv ep s = Err e → fails DebugDumpReputation e
| f_stake addr ep (s : UoPool S R) e : debug_get_stake_status sv addr ep s = Err e → fails DebugGetStakeStatus e
| f_mode mode b e : (debug_set_bundling_mode mode b).1 = Err e → fails DebugSetBundlingMode e
| f_now fuel bs w e w' : debug_send_bundle_now fuel bs w = Some (Err e, w') → fails DebugSendBundleNow e.

Lemma fails_handler_error m e : fails m e → handler_error e.
Proof.
  assert (Herr : ∀ (r : comp string MempoolError), errors_in (X:=UserOperationGasEstimation)
    (let* err := map_err json_of_serde r in Err (json_of_mempool err))).
  { intros r. apply errors_bind; [apply errors_serde|]. intros err e' [= <-]. constructor. }
  destruct 1 as [req ep s e He|fuel req ep e He|t e He|t e He|s e He|s e He|s e He|reqs ep s e He|ep s e He|
    es ep s e He|ep s e He|addr ep s e He|mode b e He|fuel bs w e w' He].
  - revert He. apply errors_st_bind; [apply errors_grpc|]. intros res s'. case_bool_decide; [apply errors_serde|].
    apply errors_st_bind; [apply errors_serde|]. intros err s'' e' [= <-]. constructor.
  - unfold eth_estimate_user_operation_gas in He. destruct (Service.estimate_user_operation_gas _ _ _ _); [|done].
    simpl in He. injection He as He. revert He. apply errors_bind; [apply errors_status|].
    intros res. case_bool_decide; [apply errors_serde|apply Herr].
  - revert He. apply errors_query. intros x. unfold receipt_of_response. errors.
  - revert He. apply errors_query. intros x. unfold by_hash_of_response. errors.
  - revert He. apply errors_st_bind; [apply errors_grpc|done].
  - revert He. apply errors_st_bind; [apply errors_grpc|done].
  - revert He. apply errors_st_bind; [apply errors_grpc|done].
  - revert He. apply errors_st_bind; [apply errors_grpc|done].
  - revert He. unfold debug_dump_mempool, grpc_query. errors.
  - revert He. apply errors_st_bind; [apply errors_grpc|]. intros [] s'; [done|]. intros ? [= <-]. constructor.
  - revert He. unfold debug_dump_reputation, grpc_query. errors.
  - revert He. unfold debug_get_stake_status, grpc_query. errors.
  - done.
  - unfold debug_send_bundle_now in He. destruct (send_bundle_now _ _ _) as [[r w'']|]; [|done].
    simpl in He. injection He as He ->. revert He. apply errors_status.
Qed.
End api_errors.

(** ** The proxy and the server together *)
(** what the server library does with a request for a single method: an unknown
    method gives the protocol's error, a known one the result of its handler *)
Record Serves {HL : HttpLib} (methods : gmap string Method) (fails : Method → ErrorObject → Prop)
    (method_of : bytes → option string) (inner : bytes → string + HttpResponse) : Prop := {
  serves_unknown : ∀ b m, method_of b = Some m → methods !! m = None →
    ∃ h body, inner b = inr {| rs_head := h; rs_body := inr body |} ∧
      error_response body = Some {| eo_code := METHOD_NOT_FOUND_CODE; eo_message := METHOD_NOT_FOUND_MSG |};
  serves_known : ∀ b m f, method_of b = Some m → methods !! m = Some f →
    ∃ h body, inner b = inr {| rs_head := h; rs_body := inr body |} ∧
      ∀ e, error_response body = Some e → fails f e;
}.

Section proxied.
Context {P : Profile} {A : Abi} {D : Display} {N : Node} {HO : HashOrder} {EL : EstimateLib}
  {CS : ChecksumText} {CD : ChainData} {HT : HashText} {SJ : SerdeJson} {RL : RpcLib} {HL : HttpLib}.
Context {S : Type} `{MempoolStore S} {R : Type} `{ReputationEntryOp R}.
Context `{V : UserOperationValidator S R} (sv : UoPoolService).
Context {TX : TxLib} {BN : BundlerNode} {SB : SendBundleOp} {PC : PoolClient}.

(** Behind the proxy every request for a method the server has is answered by the
    server, whatever the handler's result: no error of the handlers is mistaken
    for an unknown method, although one of them has the same code.  Every other
    single request is answered by the execution client. *)
Theorem proxy_forwards_unknown methods method_of inner address b m :
  Serves methods (fails (S:=S) (R:=R) sv) method_of inner → method_of b = Some m →
  proxy_call address inner (inr b) =
  if decide (is_Some (methods !! m)) then inner b else forward address b.
Proof.
  intros Hs Hm. unfold proxy_call. destruct (methods !! m) as [f|] eqn:Hf.
  - rewrite decide_True by done.
    destruct (serves_known _ _ _ _ Hs b m f Hm Hf) as (h & body & -> & He). simpl. destruct (error_response body) as [e|]; [|done].
    rewrite handler_error_kept; [done|]. by eapply fails_handler_error, He.
  - rewrite decide_False by (by intros [? ?]).
    destruct (serves_unknown _ _ _ _ Hs b m Hm Hf) as (h & body & -> & He). simpl. by rewrite He.
Qed.

(** A batch is answered with a list, which is not read as an error: unknown
    methods in it are not passed on. *)
Lemma proxy_keeps_batches inner address b h body :
  inner b = inr {| rs_head := h; rs_body := inr body |} → error_response body = None →
  proxy_call address inner (inr b) = inner b.
Proof. intros Hi He. unfold proxy_call. rewrite Hi. simpl. by rewrite He. Qed.
End proxied.

(** ** Adding methods *)
Section methods.
Context {M : Type}.
Implicit Types (self : JsonRpcServer M) (new : gmap string M).

Lemma merge_free (m new : gmap string M) : m ##ₘ new → merge m new = Ok (new ∪ m).
Proof.
  intros Hd. unfold merge. replace (forallb _ _) with true; [done|]. symmetry. apply forallb_forall.
  intros [k v] Hin%list_elem_of_In%elem_of_map_to_list. apply bool_decide_eq_true_2. simpl.
  destruct (m !! k) eqn:Hk; [|done]. by rewrite (map_disjoint_Some_l _ _ _ _ Hd Hk) in Hin.
Qed.
Lemma merge_taken (m new : gmap string M) k :
  is_Some (m !! k) → is_Some (new !! k) → merge m new = Err "Method already registered"%string.
Proof.
  intros [x Hx] [y Hy]. unfold merge. destruct (forallb _ _) eqn:Hf; [|done].
  rewrite forallb_forall in Hf. specialize (Hf (k, y)). rewrite bool_decide_eq_true in Hf. simpl in Hf.
  rewrite Hf in Hx; [done|]. by apply list_elem_of_In, elem_of_map_to_list.
Qed.

(** Methods for both servers, free on HTTP: when a name is taken on the WebSocket
    server the call fails, and HTTP has the new methods. *)
Lemma add_both_half new self k :
  self.(js_http_methods) ##ₘ new → is_Some (self.(js_ws_methods) !! k) → is_Some (new !! k) →
  add_methods new Both self =
  (Err "Method already registered"%string, set_methods Http (new ∪ self.(js_http_methods)) self).
Proof.
  intros Hd Hk Hn. unfold add_methods, st_bind, merge_http. rewrite merge_free by done.
  unfold merge_ws. simpl. by rewrite (merge_taken _ _ k).
Qed.
End methods.

(** ** Concrete evaluations *)
Module Example.
#[local] Existing Instances std_abi std_display canonical_order fx_profile Trace.Example.lib.
#[local] Existing Instances Bundling.Example.clock Bundling.Example.node Bundling.Example.standard
  Bundling.Example.chain Service.Example.checksum std_hash_text JsonRpc.Example.serde JsonRpc.Example.rpclib
  Estimate.Example.lib   Bundler.Example.txs Bundler.Example.node Bundler.Example.client Bundler.Example.pools.

(** requests and responses of one byte: [01] asks for a receipt with a bad hash,
    [02] for a method the server does not have *)
Definition code_of (b : bytes) : Z := be_to_Z b.
#[local] Instance http : HttpLib := {|
  error_response b :=
    if bool_decide (code_of b = 1) then Some missing_hash
    else if bool_decide (code_of b = 2)
    then Some {| eo_code := METHOD_NOT_FOUND_CODE; eo_message := METHOD_NOT_FOUND_MSG |} else None;
  build_post _ _ := inr ();
  http_request _ _ _ := inr {| rs_head := 200; rs_body := inr [Byte.x09] |} |}.
Definition method_of (b : bytes) : option string :=
  if bool_decide (code_of b = 1) then Some "eth_getUserOperationReceipt"%string
  else if bool_decide (code_of b = 2) then Some "eth_blockNumber"%string else None.
Definition inner (b : bytes) : string + HttpResponse := inr {| rs_head := 200; rs_body := inr b |}.

Lemma example_serves :
  Serves eth_rpc (fails (S:=MemStore) (R:=gmap Address ReputationEntry) JsonRpc.Example.sv) method_of inner.
Proof.
  split; unfold method_of; intros b m.
  - intros Hm Hn. exists 200, b. split; [done|]. simpl.
    case_bool_decide; [injection Hm as <-; by vm_compute in Hn|]. case_bool_decide; done.
  - intros f Hm Hf. exists 200, b. split; [done|]. simpl.
    case_bool_decide as H1; [injection Hm as <-; vm_compute in Hf; injection Hf as <-|].
    + intros e [= <-]. by apply (f_receipt _ "" missing_hash).
    + case_bool_decide; [injection Hm as <-; by vm_compute in Hf|done].
Qed.

Lemma proxy_forwards_unknown_witness :
  proxy_call "http://node" inner (inr [Byte.x01]) = inner [Byte.x01] ∧
  proxy_call "http://node" inner (inr [Byte.x02]) = forward "http://node" [Byte.x02].
Proof.
  pose proof (proxy_forwards_unknown JsonRpc.Example.sv eth_rpc method_of inner "http://node") as H.
  split; [rewrite (H [Byte.x01] _ example_serves eq_refl)|rewrite (H [Byte.x02] _ example_serves eq_refl)];
    by vm_compute.
Defined.
End Example.
