(* ===== verification/Metrics.v ===== *)
(** Metrics ([crates/metrics]): the handlers and layers that count what passes
    through them.  [MetricsHandler] wraps the stores of the mempool and the
    reputation, [MetricsMiddleware] the client of the execution node, and two
    service layers the JSON-RPC and gRPC servers.  Wrapping changes no result;
    what the counters say about the program is stated for each. *)

From S2P Require Import Prelude Primitives Errors AbiStd Reputation Mempool MemoryStore Fixture.

(** ** The recorder: counters ([u64]) and gauges by name and labels *)
Abbreviation MetricKey := (string * list (string * string))%type.
Record Recorder := {
  counters : gmap MetricKey Z;
  gauges : gmap MetricKey Z;
}.
Definition Recorder_default : Recorder := {| counters := ∅; gauges := ∅ |}.

Definition counter (k : MetricKey) (r : Recorder) : Z := default 0 (r.(counters) !! k).
Definition gauge (k : MetricKey) (r : Recorder) : Z := default 0 (r.(gauges) !! k).
Definition counter_increment (k : MetricKey) (r : Recorder) : Recorder :=
  {| counters := <[k := (counter k r + 1) mod 2 ^ 64]> r.(counters); gauges := r.(gauges) |}.
(** gauges are [f64]: exact on the integers below 2^53 *)
Definition gauge_set (k : MetricKey) (x : Z) (r : Recorder) : Recorder :=
  {| counters := r.(counters); gauges := <[k := x]> r.(gauges) |}.
Definition gauge_increment (k : MetricKey) (r : Recorder) : Recorder := gauge_set k (gauge k r + 1) r.
Definition gauge_decrement (k : MetricKey) (r : Recorder) : Recorder := gauge_set k (gauge k r - 1) r.

(** [absolute]: a counter never goes back *)
Definition counter_absolute (k : MetricKey) (x : Z) (r : Recorder) : Recorder :=
  {| counters := <[k := Z.max (counter k r) x]> r.(counters); gauges := r.(gauges) |}.

(** ** [mempool.rs] *)
Definition MEMPOOL_SIZE : MetricKey := ("silius_mempool_size"%string, []).
Definition MEMPOOL_ADD_ERROR : string := "silius_mempool_add_error".
Definition MEMPOOL_REMOVE_ERROR : string := "silius_mempool_remove_error".
Definition REPUTATION_UO_SEEN : string := "silius_reputation_uo_seen".
Definition REPUTATION_UO_INCLUDED : string := "silius_reputation_uo_included".
Definition REPUTATION_STATUS : string := "silius_reputation_status".
Definition REPUTATION_SET_ENTRY_ERROR : string := "silius_reputation_set_entry.error".

(** [Debug] and [LowerHex] renderings used as labels *)
Class MetricText := {
  debug_kind : MempoolErrorKind → string;
  debug_reputation : ReputationError → string;
  hex_address : Address → string;
}.

Record MetricsHandler (S : Type) := { inner : S; recorder : Recorder }.
Arguments inner {S}.
Arguments recorder {S}.

Section handler.
Context {MT : MetricText} {S : Type}.

Definition metrics_new (s : S) (r : Recorder) : MetricsHandler S := {| inner := s; recorder := r |}.

(** a call of the wrapped store, after which the recorder is updated *)
Definition metered {E A} (m : ST S E A) (record : comp E A → Recorder → Recorder)
  : ST (MetricsHandler S) E A := λ self,
  let '(r, s') := m self.(inner) in (r, {| inner := s'; recorder := record r self.(recorder) |}).
Definition through {E A} (m : ST S E A) : ST (MetricsHandler S) E A := metered m (λ _ r, r).

Definition record_add (res : comp MempoolErrorKind UserOperationHash) (r : Recorder) : Recorder :=
  match res with
  | Ok _ => gauge_increment MEMPOOL_SIZE r
  | Err e => counter_increment (MEMPOOL_ADD_ERROR, [("error"%string, debug_kind e)]) r
  | Panic => r
  end.
Definition record_remove (res : comp MempoolErrorKind bool) (r : Recorder) : Recorder :=
  match res with
  | Ok _ => gauge_decrement MEMPOOL_SIZE r
  | Err e => counter_increment (MEMPOOL_REMOVE_ERROR, [("error"%string, debug_kind e)]) r
  | Panic => r
  end.

(** the user operation store is metered; the other three tables are not *)
#[global] Instance metrics_store `{MempoolStore S} : MempoolStore (MetricsHandler S) := {|
  ms_uo := {| store_add uo := metered (store_add uo) record_add;
              remove_by_uo_hash h := metered (remove_by_uo_hash h) record_remove |};
  ms_hash := {| hash_add t a h := through (hash_add t a h);
                remove_uo_hash t a h := through (remove_uo_hash t a h) |};
  ms_op := {| get_by_uo_hash self h := get_by_uo_hash self.(inner) h;
              store_sorted self := store_sorted self.(inner);
              store_all self := store_all self.(inner) |};
  ms_addr := λ t self a, get_all_by_address t self.(inner) a;
  ms_code := {| store_has_code_hashes self h := store_has_code_hashes self.(inner) h;
                store_set_code_hashes h cs := through (store_set_code_hashes h cs);
                store_get_code_hashes self h := store_get_code_hashes self.(inner) h;
                remove_code_hashes h := through (remove_code_hashes h) |};
  ms_clear := λ E t, through (clear_table t) |}.

Definition record_entry (entry : ReputationEntry) (res : comp ReputationError (option ReputationEntry))
    (r : Recorder) : Recorder :=
  let labels := [("address"%string, hex_address entry.(re_address))] in
  match res with
  | Ok _ => gauge_set (REPUTATION_STATUS, labels) entry.(re_status)
              (gauge_set (REPUTATION_UO_INCLUDED, labels) entry.(uo_included)
                (gauge_set (REPUTATION_UO_SEEN, labels) entry.(uo_seen) r))
  | Err e => counter_increment (REPUTATION_SET_ENTRY_ERROR, [("error"%string, debug_reputation e)]) r
  | Panic => r
  end.

#[global] Instance metrics_reputation `{ReputationEntryOp S} : ReputationEntryOp (MetricsHandler S) := {|
  get_entry self a := get_entry self.(inner) a;
  set_entry e := metered (set_entry e) (record_entry e);
  contains_entry self a := contains_entry self.(inner) a;
  rep_entries self := rep_entries self.(inner);
  rep_clear E := through rep_clear |}.
End handler.

Definition describe_mempool_metrics (r : Recorder) : Recorder :=
  gauge_set (REPUTATION_STATUS, []) 0 (gauge_set (REPUTATION_UO_INCLUDED, []) 0
    (gauge_set (REPUTATION_UO_SEEN, []) 0 (gauge_set MEMPOOL_SIZE 0
      (counter_absolute (REPUTATION_SET_ENTRY_ERROR, []) 0 (counter_absolute (MEMPOOL_REMOVE_ERROR, []) 0
        (counter_absolute (MEMPOOL_ADD_ERROR, []) 0 r)))))).

(** ** [ethers.rs]: the requests of a middleware, each with its own type of
    arguments and results *)
Inductive ChainRequest :=
| ClientVersion | GetBlockNumber | SendTransaction | GetBlock | GetBlockWithTxs | GetTransactionCount
| EstimateGas | EthCall | GetChainid | GetBalance | GetTransaction | GetTransactionReceipt
| GetBlockReceipts.
Inductive AccountRequest :=
| GetGasPrice | EstimateEip1559Fees | GetAccounts | SendRawTransaction | Sign | SignTransaction | GetLogs
| Watch | WatchPendingTransactions | WatchBlocks | GetCode | GetStorageAt.
Inductive TraceRequest :=
| DebugTraceTransaction | DebugTraceCall | DebugTraceBlockByNumber | DebugTraceBlockByHash
| SubscribeBlocks | SubscribePendingTxs | SubscribeFullPendingTxs | SubscribeLogs | FeeHistory
| CreateAccessList.
Inductive EthRequest :=
| EthChain (r : ChainRequest) | EthAccount (r : AccountRequest) | EthTrace (r : TraceRequest).

Definition chain_request_name (r : ChainRequest) : string :=
  match r with
  | ClientVersion => "silius_ethers_client_version"
  | GetBlockNumber => "silius_ethers_get_block_number"
  | SendTransaction => "silius_ethers_send_transaction"
  | GetBlock => "silius_ethers_get_block"
  | GetBlockWithTxs => "silius_ethers_get_block_with_txs"
  | GetTransactionCount => "silius_ethers_get_transaction_count"
  | EstimateGas => "silius_ethers_estimate_gas"
  | EthCall => "silius_ethers_call"
  | GetChainid => "silius_ethers_get_chainid"
  | GetBalance => "silius_ethers_get_balance"
  | GetTransaction => "silius_ethers_get_transaction"
  | GetTransactionReceipt => "silius_ethers_get_transaction_receipt"
  | GetBlockReceipts => "silius_ethers_get_block_receipts"
  end.
Definition account_request_name (r : AccountRequest) : string :=
  match r with
  | GetGasPrice => "silius_ethers_get_gas_price"
  | EstimateEip1559Fees => "silius_ethers_estimate_eip1559_fees"
  | GetAccounts => "silius_ethers_get_accounts"
  | SendRawTransaction => "silius_ethers_send_raw_transaction"
  | Sign => "silius_ethers_sign"
  | SignTransaction => "silius_ethers_sign_transaction"
  | GetLogs => "silius_ethers_get_logs"
  | Watch => "silius_ethers_watch"
  | WatchPendingTransactions => "silius_ethers_watch_pending_transactions"
  | WatchBlocks => "silius_ethers_watch_blocks"
  | GetCode => "silius_ethers_get_code"
  | GetStorageAt => "silius_ethers_get_storage_at"
  end.
Definition trace_request_name (r : TraceRequest) : string :=
  match r with
  | DebugTraceTransaction => "silius_ethers_debug_trace_transaction"
  | DebugTraceCall => "silius_ethers_debug_trace_call"
  | DebugTraceBlockByNumber => "silius_ethers_debug_trace_block_by_number"
  | DebugTraceBlockByHash => "silius_ethers_debug_trace_block_by_hash"
  | SubscribeBlocks => "silius_ethers_subscribe_blocks"
  | SubscribePendingTxs => "silius_ethers_subscribe_pending_txs"
  | SubscribeFullPendingTxs => "silius_ethers_subscribe_full_pending_txs"
  | SubscribeLogs => "silius_ethers_subscribe_logs"
  | FeeHistory => "silius_ethers_fee_history"
  | CreateAccessList => "silius_ethers_create_access_list"
  end.
Definition request_name (r : EthRequest) : string :=
  match r with
  | EthChain r => chain_request_name r
  | EthAccount r => account_request_name r
  | EthTrace r => trace_request_name r
  end.

(** the trait [Middleware], as far as the wrapper overrides it; requests act on
    the state [W] of the outside world *)
Class Middleware (W F : Type) := {
  Args : EthRequest → Type;
  Reply : EthRequest → Type;
  request : ∀ r : EthRequest, Args r → ST W F (Reply r);
}.

(** [MetricError] *)
Inductive MetricError (F : Type) := MiddlewareError (e : F).
Arguments MiddlewareError {F} e.

Definition result_counter {F A : Type} (result : comp F A) (request_type : string) (r : Recorder)
  : comp (MetricError F) A * Recorder :=
  match result with
  | Ok res => (Ok res, counter_increment (request_type +:+ "_success", []) r)
  | Err e => (Err (MiddlewareError e), counter_increment (request_type +:+ "_failed", []) r)
  | Panic => (Panic, r)
  end.

Section middleware.
Context {W F : Type} {MW : Middleware W F}.

#[global] Instance metrics_middleware : Middleware (MetricsHandler W) (MetricError F) := {|
  Args := Args;
  Reply := Reply;
  request r args := λ self,
    let rec1 := counter_increment (request_name r, []) self.(recorder) in
    let '(res, w) := request r args self.(inner) in
    let '(res', rec2) := result_counter res (request_name r) rec1 in
    (res', {| inner := w; recorder := rec2 |}) |}.

(** [get_logs_paginated] returns a query that has not been sent yet *)
Definition get_logs_paginated {Fi Q : Type} (query : Fi → Z → Q) (filter : Fi) (page_size : Z)
    (r : Recorder) : Q * Recorder :=
  (query filter page_size, counter_increment ("silius_ethers_get_logs_paginated"%string, []) r).
End middleware.

(** ** [rpc.rs] and [grpc.rs]: the layers of the two servers *)
Definition RPC_REQUEST : string := "silius_rpc_request".
Definition RPC_REQUEST_SUCCESS : string := "silius_rpc_request_success".
Definition RPC_REQUEST_FAILED : string := "silius_rpc_request_failed".
Definition GRPC_REQUEST : string := "silius_grpc_request".
Definition GRPC_REQUEST_SUCCESS : string := "silius_grpc_request_success".
Definition GRPC_REQUEST_FAILED : string := "silius_grpc_request_failed".

(** the answer to a JSON-RPC request: whether it failed, with which code, and
    whether it answers a subscription *)
Record MethodResponse := { mr_failed : option Z; mr_subscription : bool }.

Section layers.
Context (show_code : Z → string).

Definition flag (b : bool) : string := if b then "1" else "0".
(** [MetricsFuture::poll] once the answer is there *)
Definition record_rpc (method : string) (rp : MethodResponse) (r : Recorder) : Recorder :=
  match rp.(mr_failed) with
  | None => counter_increment (RPC_REQUEST_SUCCESS,
      [("method", method); ("is_subscription", flag rp.(mr_subscription))]%string) r
  | Some code => counter_increment (RPC_REQUEST_FAILED,
      [("method", method); ("code", show_code code); ("is_subscription", flag rp.(mr_subscription))]%string) r
  end.
Definition rpc_call {W : Type} (method : string) (inner : W → MethodResponse * W)
    (self : MetricsHandler W) : MethodResponse * MetricsHandler W :=
  let rec1 := counter_increment (RPC_REQUEST, [("method"%string, method)]) self.(recorder) in
  let '(rp, w) := inner self.(Metrics.inner) in
  (rp, {| Metrics.inner := w; recorder := record_rpc method rp rec1 |}).
End layers.

Definition grpc_layer_call {W F A : Type} (path : string) (inner : ST W F A)
  : ST (MetricsHandler W) F A := λ self,
  let rec1 := counter_increment (GRPC_REQUEST, [("path"%string, path)]) self.(recorder) in
  match inner self.(Metrics.inner) with
  | (Ok res, w) => (Ok res, {| Metrics.inner := w;
      recorder := counter_increment (GRPC_REQUEST_SUCCESS, [("path"%string, path)]) rec1 |})
  | (Err e, w) => (Err e, {| Metrics.inner := w;
      recorder := counter_increment (GRPC_REQUEST_FAILED, [("path"%string, path)]) rec1 |})
  | (Panic, w) => (Panic, {| Metrics.inner := w; recorder := rec1 |})
  end.

Definition describe_json_rpc_metrics (r : Recorder) : Recorder :=
  counter_absolute (RPC_REQUEST_FAILED, []) 0 (counter_absolute (RPC_REQUEST_SUCCESS, []) 0
    (counter_absolute (RPC_REQUEST, []) 0 r)).
Definition describe_grpc_metrics (r : Recorder) : Recorder :=
  counter_absolute (GRPC_REQUEST_FAILED, []) 0 (counter_absolute (GRPC_REQUEST_SUCCESS, []) 0
    (counter_absolute (GRPC_REQUEST, []) 0 r)).

(** ** Wrapping changes nothing *)
Section transparency.
Context {MT : MetricText} {S : Type}.

(** the same result, and the wrapped state moves as it would on its own *)
Definition transparent {E A} (m' : ST (MetricsHandler S) E A) (m : ST S E A) : Prop :=
  ∀ self, (m' self).1 = (m self.(inner)).1 ∧ (m' self).2.(inner) = (m self.(inner)).2.

Lemma transparent_metered {E A} (m : ST S E A) rec : transparent (metered m rec) m.
Proof. intros self. unfold metered. by destruct (m self.(inner)). Qed.
Lemma transparent_ret {E A} (a : A) : transparent (E:=E) (st_ret a) (st_ret a).
Proof. done. Qed.
Lemma transparent_get {E A} (f : S → comp E A) : transparent (st_get (λ self, f self.(inner))) (st_get f).
Proof. done. Qed.
Lemma transparent_bind {E A B} (m' : ST _ E A) (m : ST S E A) (k' : A → ST _ E B) (k : A → ST S E B) :
  transparent m' m → (∀ a, transparent (k' a) (k a)) → transparent (st_bind m' k') (st_bind m k).
Proof.
  intros Hm Hk self. unfold st_bind. destruct (Hm self) as [H1 H2].
  destruct (m' self) as [r' s'], (m self.(inner)) as [r s]; simpl in *; subst. by destruct r; [apply Hk|..].
Qed.
Lemma transparent_for {E A} (body' : A → ST _ E ()) (body : A → ST S E ()) xs :
  (∀ x, transparent (body' x) (body x)) → transparent (st_for xs body') (st_for xs body).
Proof. intros Hb. induction xs; simpl; [done|]. by apply transparent_bind. Qed.

Context `{MempoolStore S}.
Lemma transparent_when {A B} (o : option A) (f' : A → ST _ MempoolErrorKind B) (f : A → ST S MempoolErrorKind B) :
  (∀ a, transparent (f' a) (f a)) → transparent (when_some o f') (when_some o f).
Proof. intros Hf. destruct o; simpl; [|done]. by apply transparent_bind. Qed.

Lemma transparent_remove h : transparent (Mempool.remove h) (Mempool.remove h).
Proof.
  apply transparent_bind; [apply (transparent_get (λ s, get_by_uo_hash s h))|]. intros [uo|]; [|done].
  destruct (get_entities uo) as [[a f] p].
  do 2 (apply transparent_bind; [apply transparent_metered|intros ?]).
  do 2 (apply transparent_bind; [apply transparent_when; intros ?; apply transparent_metered|intros ?]).
  by apply transparent_bind; [apply transparent_metered|].
Qed.

Lemma transparent_exec op : transparent (exec op) (exec op).
Proof.
  destruct op as [uo|h|a|h cs|]; simpl.
  - apply transparent_bind; [|done]. unfold Mempool.add. destruct (get_entities uo) as [[a f] p].
    do 2 (apply transparent_bind; [apply transparent_metered|intros ?]).
    by do 2 (apply transparent_bind; [apply transparent_when; intros ?; apply transparent_metered|intros ?]).
  - apply transparent_bind; [apply transparent_remove|done].
  - apply transparent_bind; [apply (transparent_get (λ s, Ok (get_all_by_address UserOperationsByEntity s a)))|].
    intros uos. apply transparent_for. intros h. apply transparent_bind; [apply transparent_remove|done].
  - apply transparent_metered.
  - do 3 (apply transparent_bind; [apply transparent_metered|intros ?]). apply transparent_metered.
Qed.
End transparency.

(** ** The contracts carry over, and with them everything proved from them *)
Section laws.
Context {MT : MetricText}.

Lemma acts_metered {S E A} (view : S → View) (m : ST S E A) rec self a f :
  acts view m self.(inner) a f → acts (λ x : MetricsHandler S, view x.(inner)) (metered m rec) self a f.
Proof. intros (s' & Hm & Hv). unfold acts, metered. rewrite Hm. by eexists. Qed.

#[global, refine] Instance metrics_laws {S : Type} `{ML : MempoolLaws S} : MempoolLaws (MetricsHandler S) := {|
  view x := view x.(inner) |}.
Proof.
  - intros. apply acts_metered, store_add_law.
  - intros. apply acts_metered, remove_by_uo_hash_law.
  - intros. apply acts_metered, hash_add_law.
  - intros. apply (acts_metered view), remove_uo_hash_law.
  - intros s. exact (get_by_uo_hash_law s.(inner)).
  - intros s. exact (store_sorted_law s.(inner)).
  - intros s. exact (store_all_law s.(inner)).
  - intros t s. exact (get_all_by_address_law t s.(inner)).
  - intros s. exact (has_code_hashes_law s.(inner)).
  - intros. apply acts_metered, set_code_hashes_law.
  - intros s. exact (get_code_hashes_law s.(inner)).
  - intros s h. destruct (remove_code_hashes_law s.(inner) h) as [b Hb]. exists b. by apply acts_metered.
  - intros. apply acts_metered, clear_table_law.
Defined.

(** C39. A metered mempool behaves as the mempool it wraps: every sequence of operations
    has the same outcome, errors and crashes included, and leaves the wrapped
    storage in the same state.  And if the wrapped storage obeys the laws of a mempool
    storage, the metered one obeys them too, with the contents of the wrapped storage as
    its contents. *)
Theorem metered_mempool_transparent {S : Type} `{MS : MempoolStore S} ops (self : MetricsHandler S) :
  (st_for ops exec self).1 = (st_for ops exec self.(inner)).1 ∧
  (st_for ops exec self).2.(inner) = (st_for ops exec self.(inner)).2 ∧
  (∀ ML : MempoolLaws S, ∃ ML' : MempoolLaws (MetricsHandler S), ∀ s, ML'.(view) s = ML.(view) s.(inner)).
Proof.
  destruct (transparent_for exec exec ops transparent_exec self) as [H1 H2].
  split; [exact H1|]. split; [exact H2|]. intros ML. by exists metrics_laws.
Qed.

#[global, refine] Instance metrics_reputation_laws {R : Type} `{RL : ReputationEntryLaws R} : ReputationEntryLaws (MetricsHandler R) := {|
  rep_view x := rep_view x.(inner) |}.
Proof.
  - intros r. exact (get_entry_view r.(inner)).
  - intros r. exact (contains_entry_view r.(inner)).
  - intros r e. destruct (set_entry_view r.(inner) e) as (r' & Hs & Hv). simpl. unfold metered. rewrite Hs.
    by eexists.
  - intros r. exact (rep_entries_view r.(inner)).
  - intros E r. destruct (rep_clear_view E r.(inner)) as (r' & Hs & Hv). simpl. unfold through, metered.
    rewrite Hs. by eexists.
Defined.
End laws.

(** ** What the size gauge says *)
Section gauge.
Context {MT : MetricText} {S : Type} `{ML : MempoolLaws S}.
Implicit Types (self : MetricsHandler S).

Definition pool_size self : Z := Z.of_nat (size (view self.(inner)).(v_uos)).
(** by how much the gauge is too high *)
Definition drift self : Z := gauge MEMPOOL_SIZE self.(recorder) - pool_size self.

Lemma gauge_set_eq k x r : gauge k (gauge_set k x r) = x.
Proof. unfold gauge, gauge_set. simpl. by rewrite lookup_insert_eq. Qed.

(** calls of the other tables leave the operations and the gauge alone *)
Lemma drift_through {E A} (m : ST S E A) d :
  (∀ s, ∃ a f, acts view m s a f ∧ ∀ v, (f v).(v_uos) = v.(v_uos)) →
  preserves (λ x, drift x = d) (through m).
Proof.
  intros Hm self <-. destruct (Hm self.(inner)) as (a & f & (s' & Hs & Hv) & Hf).
  unfold through, metered, drift, pool_size. rewrite Hs. simpl. by rewrite Hv, Hf.
Qed.
Lemma with_index_uos t f v : (with_index t f v).(v_uos) = v.(v_uos).
Proof. by destruct t. Qed.
Lemma drift_hash_add t a h d : preserves (λ x, drift x = d) (hash_add t a h).
Proof. apply drift_through. intros s. do 2 eexists. split; [apply hash_add_law|apply with_index_uos]. Qed.
Lemma drift_remove_uo_hash t a h d : preserves (λ x, drift x = d) (remove_uo_hash t a h).
Proof. apply drift_through. intros s. do 2 eexists. split; [apply remove_uo_hash_law|apply with_index_uos]. Qed.
Lemma drift_set_code_hashes h cs d : preserves (λ x, drift x = d) (store_set_code_hashes h cs).
Proof. apply drift_through. intros s. do 2 eexists. by split; [apply set_code_hashes_law|]. Qed.
Lemma drift_remove_code_hashes h d : preserves (λ x, drift x = d) (remove_code_hashes h).
Proof.
  apply drift_through. intros s. destruct (remove_code_hashes_law s h) as [b Hb]. do 2 eexists. by split; [exact Hb|].
Qed.
Lemma drift_clear_table {E} t d :
  t ≠ TUserOperations → preserves (λ x, drift x = d) (clear_table (E:=E) t).
Proof.
  intros Ht. apply drift_through. intros s. do 2 eexists. split; [apply clear_table_law|].
  intros v. destruct t as [|t|]; [done| |done]. apply with_index_uos.
Qed.
Lemma drift_when {A B} (o : option A) (f : A → ST (MetricsHandler S) MempoolErrorKind B) d :
  (∀ a, preserves (λ x, drift x = d) (f a)) → preserves (λ x, drift x = d) (when_some o f).
Proof. intros Hf. destruct o; simpl; [|by apply preserves_ret]. apply preserves_bind; [done|]. intros; by apply preserves_ret. Qed.

Lemma drift_remove h d : preserves (λ x, drift x = d) (Mempool.remove h).
Proof.
  intros self Hd. unfold Mempool.remove.
  rewrite (st_bind_step _ _ _ _ self) by (unfold st_get; by rewrite get_by_uo_hash_law).
  destruct (v_uos _ !! h) as [u|] eqn:Hu; [|done].
  change (from_user_operation_signed h <$> Some u) with (Some (from_user_operation_signed h u)). cbv beta iota.
  destruct (get_entities (from_user_operation_signed h u)) as [[a f] p].
  destruct (remove_by_uo_hash_law self h) as (s1 & Hs1 & Hv1). rewrite (st_bind_step _ _ _ _ _ Hs1).
  assert (drift s1 = d).
  { rewrite <-Hd. unfold drift, pool_size. change (view s1.(inner)) with (view s1). rewrite Hv1. simpl in *.
    unfold metered in Hs1. destruct (remove_by_uo_hash h (inner self)) as [r s']. injection Hs1 as -> <-. simpl.
    unfold gauge_decrement. rewrite gauge_set_eq, map_size_delete_Some by (by eexists).
    assert (size (v_uos (view (inner self))) ≠ 0)%nat; [|lia].
    rewrite map_size_ne_0_lookup. exists h, u. exact Hu. }
  apply (preserves_bind (λ x, drift x = d)); [apply drift_remove_uo_hash|intros _ |done].
  apply preserves_bind; [apply drift_when; intros; apply drift_remove_uo_hash|intros _].
  apply preserves_bind; [apply drift_when; intros; apply drift_remove_uo_hash|intros _].
  apply preserves_bind; [apply drift_remove_code_hashes|intros _]. apply preserves_ret.
Qed.

(** The gauge of the mempool's size follows additions and removals exactly, except
    that adding an operation that is already stored counts it again, and that
    clearing the mempool leaves the gauge where it was: what is too much is never
    taken back. *)
Theorem size_gauge_drift op self :
  drift (exec op self).2 = drift self +
  match op with
  | OpAdd uo => if decide (is_Some ((view self).(v_uos) !! uo.(uo_hash))) then 1 else 0
  | OpClear => pool_size self
  | _ => 0
  end.
Proof.
  destruct op as [uo|h|a|h cs|]; rewrite ?Z.add_0_r.
  - unfold exec, Mempool.add. destruct (get_entities uo) as [[a f] p].
    destruct (store_add_law self uo) as (s1 & Hs1 & Hv1).
    assert (Hd : drift s1 = drift self + if decide (is_Some ((view self).(v_uos) !! uo.(uo_hash))) then 1 else 0).
    { unfold drift, pool_size. change (view s1.(inner)) with (view s1). rewrite Hv1. simpl in *.
      unfold metered in Hs1. destruct (store_add uo (inner self)) as [r s']. injection Hs1 as -> <-. simpl.
      unfold gauge_increment. rewrite gauge_set_eq. case_decide as Hp.
      - rewrite map_size_insert_Some by done. lia.
      - rewrite map_size_insert_None by (by apply eq_None_not_Some). lia. }
    rewrite <-Hd. clear Hd Hv1.
    match goal with |- drift (st_bind (st_bind _ ?k) _ _).2 = _ =>
      assert (Ht : ∀ h, preserves (λ x, drift x = drift s1) (k h)) end.
    { intros _. apply preserves_bind; [apply drift_hash_add|intros _].
      do 2 (apply preserves_bind; [apply drift_when; intros; apply drift_hash_add|intros _]).
      apply preserves_ret. }
    unfold st_bind at 1. rewrite (st_bind_step _ _ _ _ _ Hs1). specialize (Ht uo.(uo_hash) s1 eq_refl).
    revert Ht. cbv beta. by destruct (st_bind _ _ s1) as [[] ?].
  - apply (preserves_bind (λ x, drift x = drift self)); [apply drift_remove|intros _; apply preserves_ret|done].
  - apply (preserves_bind (λ x, drift x = drift self)); [apply preserves_get|intros uos|done].
    apply preserves_for. intros h. apply preserves_bind; [apply drift_remove|intros _; apply preserves_ret].
  - by apply (drift_set_code_hashes h cs (drift self)).
  - unfold exec, Mempool.clear. destruct (clear_table_law MempoolErrorKind self TUserOperations) as (s1 & Hs1 & Hv1).
    rewrite (st_bind_step _ _ _ _ _ Hs1).
    assert (Hd : drift s1 = drift self + pool_size self).
    { unfold drift, pool_size. change (view s1.(inner)) with (view s1). rewrite Hv1. simpl in *.
      change (through (clear_table (E:=MempoolErrorKind) TUserOperations) self = (Ok (), s1)) in Hs1.
      unfold through, metered in Hs1. destruct (clear_table (E:=MempoolErrorKind) TUserOperations (inner self)) as [r s']. injection Hs1 as _ <-. simpl.
      rewrite map_size_empty. lia. }
    rewrite <-Hd.
    apply (preserves_bind (λ x, drift x = drift s1)); [by apply drift_clear_table|intros _|done].
    apply preserves_bind; [by apply drift_clear_table|intros _].
    by apply (drift_clear_table (E:=MempoolErrorKind) TCodeHashes (drift s1)).
Qed.
End gauge.

(** ** What the request counters say *)
Lemma counter_increment_eq k r : counter k (counter_increment k r) = (counter k r + 1) mod 2 ^ 64.
Proof. unfold counter, counter_increment. simpl. by rewrite lookup_insert_eq. Qed.
Lemma counter_increment_ne k k' r : k ≠ k' → counter k (counter_increment k' r) = counter k r.
Proof. intros Hk. unfold counter, counter_increment. simpl. by rewrite lookup_insert_ne. Qed.

Lemma append_ne s t : t ≠ ""%string → s +:+ t ≠ s.
Proof. intros Ht. induction s as [|c s IH]; [done|]. by intros [= Hs]. Qed.

(** A request to the node goes through unchanged, its error wrapped; it is counted
    once, and once more as a success or a failure. *)
Lemma metered_request {W F} `{Middleware W F} r args (self : MetricsHandler W) :
  let '(res, w) := request r args self.(inner) in
  let '(res', self') := request (Middleware:=metrics_middleware) r args self in
  res' = map_err MiddlewareError res ∧ self'.(inner) = w ∧
  counter (request_name r, []) self'.(recorder) = (counter (request_name r, []) self.(recorder) + 1) mod 2 ^ 64 ∧
  match res with
  | Ok _ => counter (request_name r +:+ "_success", []) self'.(recorder) =
            (counter (request_name r +:+ "_success", []) self.(recorder) + 1) mod 2 ^ 64
  | Err _ => counter (request_name r +:+ "_failed", []) self'.(recorder) =
             (counter (request_name r +:+ "_failed", []) self.(recorder) + 1) mod 2 ^ 64
  | Panic => True
  end.
Proof.
  assert (Hne : ∀ t, t ≠ ""%string → (request_name r +:+ t, []) ≠ (request_name r, [] : list (string * string))).
  { intros t Ht [= He]. by apply append_ne in He. }
  pose proof (Hne "_success"%string ltac:(done)). pose proof (Hne "_failed"%string ltac:(done)).
  simpl. destruct (request r args self.(inner)) as [[res|e|] w]; simpl; split_and!; try done.
  all: rewrite ?counter_increment_eq; rewrite ?counter_increment_ne by done; by rewrite ?counter_increment_eq.
Qed.

(** The generated servers turn a failed handler into a response that carries the
    status: the layer sees a success. *)
Definition as_response {W F A : Type} (handler : ST W F A) : ST W Empty_set (F + A) := λ w,
  match handler w with
  | (Ok a, w') => (Ok (inr a), w')
  | (Err e, w') => (Ok (inl e), w')
  | (Panic, w') => (Panic, w')
  end.
Lemma grpc_failures_uncounted {W F A} path (handler : ST W F A) (self : MetricsHandler W) e w :
  handler self.(inner) = (Err e, w) →
  let self' := (grpc_layer_call path (as_response handler) self).2 in
  counter (GRPC_REQUEST_FAILED, [("path"%string, path)]) self'.(recorder) =
    counter (GRPC_REQUEST_FAILED, [("path"%string, path)]) self.(recorder) ∧
  counter (GRPC_REQUEST_SUCCESS, [("path"%string, path)]) self'.(recorder) =
    (counter (GRPC_REQUEST_SUCCESS, [("path"%string, path)]) self.(recorder) + 1) mod 2 ^ 64.
Proof.
  intros He. unfold grpc_layer_call, as_response. rewrite He. simpl. split.
  - by rewrite !counter_increment_ne.
  - by rewrite counter_increment_eq, counter_increment_ne.
Qed.

(** ** Concrete evaluations *)
Module Example.
#[local] Existing Instances canonical_order.
#[local] Instance text : MetricText :=
  {| debug_kind _ := ""%string; debug_reputation _ := ""%string; hex_address _ := ""%string |}.
Definition empty : MetricsHandler MemStore := metrics_new MemStore_default Recorder_default.

(** one operation added twice, then the mempool cleared *)
Example gauge_after_clear :
  let self := (st_for [OpAdd (fx_uo 1 1 10); OpAdd (fx_uo 1 1 10); OpClear] exec empty).2 in
  gauge MEMPOOL_SIZE self.(recorder) = 2 ∧ pool_size self = 0.
Proof. by vm_compute. Qed.
End Example.
