(* ===== verification/Wallet.v ===== *)
(** The wallet ([crates/primitives/src/wallet.rs]): keys derived from a mnemonic
    phrase, on disk or given, or parsed from private keys, and the signature of a
    user operation. *)

From Stdlib Require Import Ascii.
From stdpp Require Import pretty.
From S2P Require Import Prelude Primitives AbiStd Fixture.

(** the directories of the file system with their files; a file by directory and name *)
Abbreviation Dirs := (gmap string (gmap string string)).
Abbreviation Path := (string * string)%type.
Definition read_file (fs : Dirs) (p : Path) : option string := fs !! p.1 ≫= λ d, d !! p.2.

(** what [MnemonicBuilder::phrase] takes: text, or a file with it *)
Inductive PathOrString := PoText (s : string) | PoFile (p : Path).

(** ** The signing library, the operating system's failures, and the order of a directory *)
Class WalletLib := {
  SigningKey : Type;
  (** the key of a phrase at a derivation path *)
  derive : string → string → string + SigningKey;
  mnemonic_build : Dirs → PathOrString → string → string + SigningKey;
  parse_key : string → string + SigningKey;
  key_address : SigningKey → Address;
  sign_message : SigningKey → bytes → string + bytes;
  recover : bytes → bytes → option Address;
  (** [format!("{:?}", address)], the name of the file of a new wallet *)
  address_debug : Address → string;
  (** whether a text is the path of an existing file *)
  is_path : Dirs → string → bool;
  create_error : string → option string;
  write_error : Path → option string;
  read_dir : gmap string string → list string;
}.
Class WalletOk (WL : WalletLib) := {
  build_text : ∀ fs s d, is_path fs s = false → mnemonic_build fs (PoText s) d = derive s d;
  build_file : ∀ fs p s d, read_file fs p = Some s → mnemonic_build fs (PoFile p) d = derive s d;
  sign_recovers : ∀ k m sig, sign_message k m = inr sig → recover m sig = Some (key_address k);
  read_dir_names : ∀ d, read_dir d ≡ₚ (map_to_list d).*1;
}.

(** [str::trim], for text without white space outside ASCII *)
Definition is_space (c : ascii) : bool :=
  let n := nat_of_ascii c in ((9 <=? n) && (n <=? 13) || (n =? 32))%nat.
Fixpoint trim_start (s : list ascii) : list ascii :=
  match s with c :: s' => if is_space c then trim_start s' else s | [] => [] end.
Definition trim (s : string) : string :=
  String.string_of_list_ascii (reverse (trim_start (reverse (trim_start (String.list_ascii_of_string s))))).

Section wallet.
Context {WL : WalletLib}.

(** a key for one chain ([with_chain_id]) *)
Record Signer := { sg_key : SigningKey; sg_chain_id : Z }.
Record Wallet := { signer : Signer; flashbots_signer : option Signer }.
Definition with_chain_id (k : SigningKey) (chain_id : Z) : Signer := {| sg_key := k; sg_chain_id := chain_id |}.

Definition PATH_0 : string := "m/44'/60'/0'/0/0".
Definition PATH_1 : string := "m/44'/60'/0'/0/1".

(** *** [build_random], with the phrase that the generator yields *)
Definition create_dir_all (dir : string) : ST Dirs string () := λ fs,
  match create_error dir with
  | Some e => (Err e, fs)
  | None => (Ok (), if bool_decide (is_Some (fs !! dir)) then fs else <[dir := ∅]> fs)
  end.
Definition write_file (p : Path) (content : string) : ST Dirs string () := λ fs,
  match write_error p with
  | Some e => (Err e, fs)
  | None => (Ok (), <[p.1 := <[p.2 := content]> (default ∅ (fs !! p.1))]> fs)
  end.

Definition build_random (path : string) (chain_id : Z) (flashbots_key : bool) (phrase : string)
  : ST Dirs string Wallet :=
  do* _ := create_dir_all path in
  do* wallet := st_lift (of_sum (derive phrase PATH_0)) in
  do* _ := write_file (path, address_debug (key_address wallet)) phrase in
  if flashbots_key then
    do* entries := st_get (λ fs, ok_or "read_dir" (read_dir <$> fs !! path)) in
    do* entry := st_lift (match entries with e :: _ => Ok e | [] => Panic end) in
    do* flashbots_wallet := st_get (λ fs, of_sum (mnemonic_build fs (PoFile (path, entry)) PATH_1)) in
    st_ret {| signer := with_chain_id wallet chain_id;
              flashbots_signer := Some (with_chain_id flashbots_wallet chain_id) |}
  else st_ret {| signer := with_chain_id wallet chain_id; flashbots_signer := None |}.

(** *** [from_phrase] and [from_file] *)
Definition from_phrase (fs : Dirs) (phrase : string) (chain_id : Z) (flashbots_key : bool)
  : comp string Wallet :=
  let* wallet := of_sum (mnemonic_build fs (PoText phrase) PATH_0) in
  if flashbots_key then
    let* flashbots_wallet := of_sum (mnemonic_build fs (PoText phrase) PATH_1) in
    Ok {| signer := with_chain_id wallet chain_id;
          flashbots_signer := Some (with_chain_id flashbots_wallet chain_id) |}
  else Ok {| signer := with_chain_id wallet chain_id; flashbots_signer := None |}.

Definition from_file (fs : Dirs) (path : Path) (chain_id : Z) (flashbots_key : bool) : comp string Wallet :=
  let* mnemonic_phrase := ok_or "read_to_string" (read_file fs path) in
  from_phrase fs (trim mnemonic_phrase) chain_id flashbots_key.

(** *** [from_private_key] *)
Definition from_private_key (private_key : string) (chain_id : Z) (flashbots_key : bool)
    (flashbots_private_key : option string) : comp string Wallet :=
  let* wallet := of_sum (parse_key private_key) in
  if flashbots_key then
    let* key := expect flashbots_private_key in
    let* flashbots_wallet := of_sum (parse_key key) in
    Ok {| signer := with_chain_id wallet chain_id;
          flashbots_signer := Some (with_chain_id flashbots_wallet chain_id) |}
  else Ok {| signer := with_chain_id wallet chain_id; flashbots_signer := None |}.

(** *** [sign_user_operation] *)
Definition sign_user_operation {A : Abi} (self : Wallet) (uo : UserOperationSigned) (ep : Address) (chain_id : Z)
  : comp string UserOperation :=
  let h := hash uo ep chain_id in
  let* sig := of_sum (sign_message self.(signer).(sg_key) (word h)) in
  Ok {| uo_hash := h; user_operation := signature sig uo |}.

(** ** A new wallet and its file *)
Context {WOk : WalletOk WL}.

Definition wallet_file (path : string) (w : Wallet) : Path :=
  (path, address_debug (key_address w.(signer).(sg_key))).
Definition directory (fs : Dirs) (path : string) : gmap string string := default ∅ (fs !! path).

(** a new wallet is in its file, and the flashbots key comes from the first file listed *)
Lemma built_wallet path chain_id fb phrase fs w fs' :
  build_random path chain_id fb phrase fs = (Ok w, fs') →
  ∃ k, derive phrase PATH_0 = inr k ∧ w.(signer) = with_chain_id k chain_id ∧
    fs' !! path = Some (<[address_debug (key_address k) := phrase]> (directory fs path)) ∧
    if fb then ∃ name rest s k1, read_dir (directory fs' path) = name :: rest ∧
      read_file fs' (path, name) = Some s ∧ derive s PATH_1 = inr k1 ∧
      w.(flashbots_signer) = Some (with_chain_id k1 chain_id)
    else w.(flashbots_signer) = None.
Proof using WOk.
  intros H. unfold build_random in H.
  apply st_bind_ok in H as ([] & fs1 & Hc & H).
  assert (directory fs1 path = directory fs path) as Hd.
  { unfold create_dir_all in Hc. destruct create_error; [done|]. injection Hc as <-.
    case_bool_decide as Hs; [done|]. unfold directory. rewrite lookup_insert_eq.
    apply eq_None_not_Some in Hs. by rewrite Hs. }
  apply st_bind_ok in H as (k & fs2 & Hk & H). unfold st_lift in Hk. injection Hk as Hk <-.
  destruct (derive phrase PATH_0) as [|k'] eqn:Hder; [done|]. injection Hk as <-.
  apply st_bind_ok in H as ([] & fs3 & Hw & H).
  unfold write_file in Hw. destruct write_error; [done|]. injection Hw as <-. simpl in H.
  fold (directory fs1 path) in H. rewrite Hd in H. exists k'. split; [done|].
  destruct fb; [|injection H as <- <-; by rewrite lookup_insert_eq].
  set (d := <[address_debug (key_address k') := phrase]> (directory fs path)) in *.
  apply st_bind_ok in H as (es & fs4 & He & H). unfold st_get in He. injection He as He <-.
  rewrite lookup_insert_eq in He. injection He as <-.
  apply st_bind_ok in H as (e & fs5 & He & H). unfold st_lift in He. injection He as He <-.
  destruct (read_dir d) as [|e' rest] eqn:Hr; [done|]. injection He as <-.
  apply st_bind_ok in H as (k1 & fs6 & Hk1 & H). unfold st_get in Hk1. injection Hk1 as Hk1 <-.
  injection H as <- <-. rewrite lookup_insert_eq. split_and!; [done..|].
  assert (is_Some (d !! e')) as [s Hs].
  { assert (e' ∈ (map_to_list d).*1) as ([n s] & -> & Hin)%list_elem_of_fmap
      by (rewrite <-read_dir_names, Hr; left).
    exists s. by apply elem_of_map_to_list. }
  assert (read_file (<[path := d]> fs1) (path, e') = Some s) as Hf
    by (unfold read_file; simpl; by rewrite lookup_insert_eq).
  rewrite (build_file _ _ s) in Hk1 by done. destruct (derive s PATH_1) as [|k2] eqn:Hd1; [done|].
  injection Hk1 as ->. unfold directory. rewrite lookup_insert_eq. simpl. by exists e', rest, s, k1.
Qed.

(** A wallet that was created in an empty directory is read back from its file as it
    was, with its flashbots key.  In a directory with other files its signer still is,
    but the flashbots key is the one of whichever phrase is listed first. *)
Theorem wallet_reloads path chain_id fb phrase fs w fs' :
  build_random path chain_id fb phrase fs = (Ok w, fs') →
  trim phrase = phrase → is_path fs' phrase = false →
  (∃ other, from_file fs' (wallet_file path w) chain_id false = Ok other ∧ other.(signer) = w.(signer)) ∧
  (directory fs path = ∅ → from_file fs' (wallet_file path w) chain_id fb = Ok w) ∧
  (fb = true → ∃ name rest s k, read_dir (directory fs' path) = name :: rest ∧
     read_file fs' (path, name) = Some s ∧ derive s PATH_1 = inr k ∧
     w.(flashbots_signer) = Some (with_chain_id k chain_id)).
Proof using WOk.
  intros (k & Hk & Hsig & Hfile & Hfb)%built_wallet Ht Hp.
  assert (read_file fs' (wallet_file path w) = Some phrase) as Hread.
  { unfold read_file, wallet_file. rewrite Hsig. simpl. rewrite Hfile. simpl. by rewrite lookup_insert_eq. }
  unfold from_file. rewrite Hread. cbn [ok_or comp_bind]. rewrite Ht. unfold from_phrase.
  rewrite !(build_text fs' phrase) by done. rewrite Hk. cbn [of_sum comp_bind]. split_and!.
  - eexists. split; [done|]. by rewrite <-Hsig.
  - intros He. destruct fb; [|destruct w; simpl in *; by subst].
    destruct Hfb as (name & rest & s & k1 & Hr & Hs & Hk1 & Hw).
    assert (name ∈ read_dir (directory fs' path)) as Hin by (rewrite Hr; left).
    rewrite read_dir_names in Hin. unfold directory in Hin at 1. rewrite Hfile, He in Hin. simpl in Hin.
    rewrite insert_empty, map_to_list_singleton in Hin. apply list_elem_of_singleton in Hin as ->.
    unfold wallet_file in Hread. rewrite Hsig in Hread. cbn [with_chain_id sg_key] in Hread.
    assert (s = phrase) as ->. { cbn [fst] in Hs. congruence. } rewrite Hk1. cbn [of_sum comp_bind].
    destruct w; simpl in *; by subst.
  - intros ->. exact Hfb.
Qed.

(** A signed operation carries the hash that the network gives it, is otherwise the given
    operation, and its signature recovers the address of the wallet. *)
Theorem signed_operation_verifies {A : Abi} (self : Wallet) uo ep chain_id u :
  sign_user_operation self uo ep chain_id = Ok u →
  u.(uo_hash) = hash u.(user_operation) ep chain_id ∧
  signature uo.(uo_signature) u.(user_operation) = uo ∧
  recover (word u.(uo_hash)) u.(user_operation).(uo_signature) = Some (key_address self.(signer).(sg_key)).
Proof using WOk.
  unfold sign_user_operation. destruct sign_message as [|sig] eqn:Hs; [done|]. intros [= <-]. simpl.
  split; [done|]. split; [by destruct uo|]. by apply sign_recovers.
Qed.
End wallet.

(** ** Concrete evaluations *)
Module Example.
(** keys that are their phrase and path; a signature names its signer *)
Definition text_address (k : string * string) : Address := Z.of_nat (String.length k.1) mod 2 ^ 160.
#[local] Instance text_keys : WalletLib := {|
  SigningKey := string * string; derive s d := inr (s, d);
  mnemonic_build fs p d := match p with
    | PoText s => inr (s, d)
    | PoFile p => match read_file fs p with Some s => inr (s, d) | None => inl "no file"%string end
    end;
  parse_key s := inr (s, ""%string); key_address := text_address;
  sign_message k _ := inr (Z_to_be 20 (text_address k)); recover _ sig := Some (be_to_Z sig);
  address_debug a := pretty a; is_path _ _ := false;
  create_error _ := None; write_error _ := None; read_dir d := (map_to_list d).*1 |}.
#[local] Instance text_keys_ok : WalletOk text_keys.
Proof.
  split; simpl; try done.
  - intros fs p s d ->. done.
  - intros k m sig [= <-]. f_equal. apply be_to_Z_to_be. apply Z.mod_pos_bound. lia.
Qed.

(** a second wallet in the directory of the first takes its flashbots key from the other file *)
Definition two := do* _ := build_random "keys" 5 true "test test" in build_random "keys" 5 true "other phrase".
Example second_flashbots_key : (λ w, sg_key <$> w.(flashbots_signer)) <$>
  (match (two ∅).1 with Ok w => Some w | _ => None end) = Some (Some ("test test", PATH_1)%string).
Proof. by vm_compute. Qed.

Lemma wallet_reloads_witness :
  let '(r, fs) := build_random "keys" 5 true "test test" ∅ in
  match r with
  | Ok w => from_file fs (wallet_file "keys" w) 5 true = Ok w ∧ w.(flashbots_signer) ≠ None
  | _ => False
  end.
Proof.
  pose proof (wallet_reloads "keys" 5 true "test test" ∅) as H.
  assert (match (build_random "keys" 5 true "test test" ∅).1 with Ok _ => true | _ => false end = true) as Hok
    by (by vm_compute).
  destruct (build_random _ _ _ _ _) as [[w|e|] fs] eqn:Hb; [|done..].
  destruct (H w fs eq_refl) as (_ & H1 & _ & _ & _ & k & _ & _ & _ & Hf); [by vm_compute|done|done|].
  split; [by apply H1|]. by rewrite Hf.
Defined.

Definition wallet : Wallet := {| signer := with_chain_id ("k", PATH_0)%string 5; flashbots_signer := None |}.
Lemma signed_operation_verifies_witness : ∃ u,
  sign_user_operation (A:=std_abi) wallet (fx_uo 2 1 10).(user_operation) 1 5 = Ok u ∧
  recover (word u.(uo_hash)) u.(user_operation).(uo_signature) = Some 1.
Proof.
  eexists. split; [reflexivity|].
  by apply (signed_operation_verifies (A:=std_abi) wallet (fx_uo 2 1 10).(user_operation) 1 5).
Defined.
End Example.
