(* ===== verification/Args.v ===== *)
(** The command line ([bin/silius/src/cli/args.rs], [cli/mod.rs], [utils.rs]): the
    arguments of the components with their defaults, the parsers of their values, and
    the network configuration that they describe. *)

From Stdlib Require Import Ascii.
From stdpp Require Import pretty.
From S2P Require Import Prelude Primitives Errors AbiStd Gas Reputation Mempool.
From S2P Require Import MemoryStore EntryPoint Fixture Sanity Simulation Trace.
From S2P Require Import Validator UoPool Bundling Ssz Rpc SszMessages Gossip Peers Network Discovery Setup.
From S2P Require Import Bundler Estimate Proto Service JsonRpc JsonServer.

(** ** [utils.rs] *)
(** [str::split]: at least one part *)
Fixpoint split (c : ascii) (s : string) : list string :=
  match s with
  | EmptyString => [""]
  | String a s' =>
      if bool_decide (a = c) then "" :: split c s'
      else match split c s' with part :: rest => String a part :: rest | [] => [String a ""] end
  end%string.

Record LabelValue := { lv_label : string; lv_value : string }.
Definition no_char (c : ascii) (s : string) : Prop := c ∉ String.list_ascii_of_string s.
Definition parse_label_value (label_value : string) : string + LabelValue :=
  match split "="%char label_value with
  | label :: value :: _ => inr {| lv_label := label; lv_value := value |}
  | _ => inl ("LabelValue " +:+ label_value +:+ " is not a valid label=value")%string
  end.

(** [str::parse::<u64>]: an optional plus sign and at least one digit *)
Definition digit (c : ascii) : option Z :=
  let n := Z.of_nat (nat_of_ascii c) in if bool_decide (48 ≤ n ≤ 57) then Some (n - 48) else None.
Fixpoint parse_digits (acc : Z) (s : string) : option Z :=
  match s with
  | EmptyString => Some acc
  | String c s =>
      match digit c with
      | Some d => let acc := acc * 10 + d in if bool_decide (acc ≤ U64_MAX) then parse_digits acc s else None
      | None => None
      end
  end.
Definition parse_u64 (s : string) : option Z :=
  let digits := match s with String c s' => if bool_decide (c = "+"%char) then s' else s | EmptyString => s end in
  match digits with EmptyString => None | _ => parse_digits 0 digits end.

(** a duration in milliseconds *)
Definition parse_duration (duration : string) : string + Z :=
  match parse_u64 duration with
  | Some n => inr n
  | None => inl (duration +:+ " must be unsigned int")%string
  end.

(** [FromStr] of the two enumerations, in kebab case *)
Inductive SendStrategy := SEthereumClient | SFlashbots | SConditional | SFastlane.
#[global] Instance SendStrategy_eq_dec : EqDecision SendStrategy.
Proof. solve_decision. Defined.
Definition parse_send_bundle_mode (s : string) : string + SendStrategy :=
  if bool_decide (s = "ethereum-client") then inr SEthereumClient
  else if bool_decide (s = "flashbots") then inr SFlashbots
  else if bool_decide (s = "conditional") then inr SConditional
  else if bool_decide (s = "fastlane") then inr SFastlane
  else inl ("String " +:+ s +:+ " is not a valid SendBundleMode")%string.
Definition parse_uopool_mode (s : string) : string + UoPoolMode :=
  if bool_decide (s = "standard") then inr Standard
  else if bool_decide (s = "unsafe") then inr Unsafe
  else inl ("String " +:+ s +:+ " is not a valid UoPoolMode")%string.

(** [Path::join] with a relative path *)
Fixpoint ends_with_slash (s : string) : bool :=
  match s with
  | EmptyString => false
  | String c EmptyString => bool_decide (c = "/"%char)
  | String _ s => ends_with_slash s
  end.
Definition join (dir name : string) : string :=
  if bool_decide (dir = "") || ends_with_slash dir then dir +:+ name else dir +:+ "/" +:+ name.

Definition unwrap_path_or_home (home : option string) (path : option string) : comp string string :=
  match path with
  | Some path => Ok path
  | None => ok_or "Get Home directory error" ((λ h, join h ".silius") <$> home)
  end.

(** ** [cli/mod.rs]: the log level of a verbosity, 0 to 4 *)
Definition get_log_level (verbosity : Z) : string :=
  if bool_decide (verbosity = 0) then "error"
  else if bool_decide (verbosity = 1) then "warn"
  else if bool_decide (verbosity = 2) then "info"
  else if bool_decide (verbosity = 3) then "debug" else "trace".

(** ** [cli/args.rs] *)
Definition LOCALHOST : Z := 0x7F000001.
Definition HTTP_PORT : Z := 3000.
Definition WS_PORT : Z := 3001.
Definition MEMPOOL_PORT : Z := 3002.
Definition BUNDLER_PORT : Z := 3003.
Definition BUNDLE_INTERVAL : Z := 10.

Inductive StorageType := StDatabase | StMemory.

(** a file by directory and name, as the wallet reads it *)
Record BundlerArgs := {
  bundler_addr : IpAddr;
  bundler_port : Z;
  mnemonic_file : option (string * string);
  private_key : option string;
  flashbots_private_key : option string;
  ba_beneficiary : Address;
  ba_min_balance : U256;
  bundle_interval : Z;
  send_bundle_mode : SendStrategy;
  ba_enable_access_list : bool;
}.
(** the defaults; the account and the beneficiary have none *)
Definition BundlerArgs_default (file : option (string * string)) (key : option string) (beneficiary : Address)
  : BundlerArgs := {| bundler_addr := IpV4 LOCALHOST; bundler_port := BUNDLER_PORT; mnemonic_file := file;
    private_key := key; flashbots_private_key := None; ba_beneficiary := beneficiary;
    ba_min_balance := 100000000000000000; bundle_interval := BUNDLE_INTERVAL;
    send_bundle_mode := SEthereumClient; ba_enable_access_list := false |}.

Record MetricsArgs := {
  enable_metrics : bool;
  custom_label_value : option (list LabelValue);
  listen_address : Ipv4Addr;
  ma_port : Z;
}.
Definition MetricsArgs_default : MetricsArgs :=
  {| enable_metrics := false; custom_label_value := None; listen_address := LOCALHOST; ma_port := 3030 |}.
Definition metrics_listen_addr (self : MetricsArgs) : IpAddr * Z := (IpV4 self.(listen_address), self.(ma_port)).

Record RpcArgs := {
  http : bool;
  http_addr : IpAddr;
  http_port : Z;
  http_api : list string;
  http_corsdomain : list string;
  ws : bool;
  ws_addr : IpAddr;
  ws_port : Z;
  ws_api : list string;
  ws_origins : list string;
  eth_client_proxy_address : option string;
}.
Definition RpcArgs_default : RpcArgs := {| http := false; http_addr := IpV4 LOCALHOST; http_port := HTTP_PORT;
  http_api := ["eth"%string]; http_corsdomain := ["*"%string]; ws := false; ws_addr := IpV4 LOCALHOST;
  ws_port := WS_PORT; ws_api := ["eth"%string]; ws_origins := ["*"%string]; eth_client_proxy_address := None |}.
Definition is_enabled (self : RpcArgs) : bool := self.(http) || self.(ws).
Definition is_api_method_enabled (self : RpcArgs) (method : string) : bool :=
  bool_decide (method ∈ self.(http_api)) || bool_decide (method ∈ self.(ws_api)).

Record CreateWalletArgs := { output_path : option string; cw_chain_id : Z; flashbots_key : bool }.
Definition CreateWalletArgs_default : CreateWalletArgs :=
  {| output_path := None; cw_chain_id := 1; flashbots_key := false |}.

(** [eth_client_address], [chain], [entry_points], [poll_interval] and [metrics] *)
Record BundlerAndUoPoolArgs := {
  eth_client_address : string;
  chain : option Z;
  entry_points : list Address;
  poll_interval : Z;
  metrics : MetricsArgs;
}.
Definition BundlerAndUoPoolArgs_default : BundlerAndUoPoolArgs := {|
  eth_client_address := "http://127.0.0.1:8545"; chain := None; entry_points := []; poll_interval := 500;
  metrics := MetricsArgs_default |}.

Section p2p.
Context {EN : EnrLib} {EK : EnrKeys} {NL : NodeLib} {T : SszTypes} {SN : SnapLib}.

Record P2PArgs := {
  enable_p2p : bool;
  p2p_listen_address : Ipv4Addr;
  p2p_broadcast_address : option Ipv4Addr;
  udp4_port : Z;
  tcp4_port : Z;
  pa_bootnodes : list Enr;
  pa_node_key : option string;
  pa_node_enr : option string;
}.
Definition P2PArgs_default : P2PArgs := {| enable_p2p := false; p2p_listen_address := 0;
  p2p_broadcast_address := None; udp4_port := 9000; tcp4_port := 9000; pa_bootnodes := []; pa_node_key := None;
  pa_node_enr := None |}.

Definition to_config (self : P2PArgs) (chain_id : Z) (datadir : string) : Config :=
  let listen_addr := LV4 {| la_addr := self.(p2p_listen_address); la_udp_port := self.(udp4_port);
                            la_tcp_port := self.(tcp4_port) |} in
  let b := ConfigBuilder_new in
  let b := set_node_key_file
             match self.(pa_node_key) with Some f => f | None => join datadir NODE_KEY_FILE_NAME end b in
  let b := set_node_enr_file
             match self.(pa_node_enr) with Some f => f | None => join datadir NODE_ENR_FILE_NAME end b in
  let b := set_listen_addr listen_addr b in
  let b := set_ipv4_addr self.(p2p_broadcast_address) b in
  let b := set_enr_tcp4_port (Some self.(tcp4_port)) b in
  let b := set_enr_udp4_port (Some self.(udp4_port)) b in
  let b := set_chain_spec (from_chain_id chain_id) b in
  let b := set_bootnodes self.(pa_bootnodes) b in
  let b := set_discv5_config (to_listen_config listen_addr) b in
  build b.

Record UoPoolArgs := {
  uopool_addr : IpAddr;
  uopool_port : Z;
  datadir : option string;
  storage_type : StorageType;
  max_verification_gas : U256;
  ua_min_stake : U256;
  min_priority_fee_per_gas : U256;
  ua_whitelist : list Address;
  uopool_mode : UoPoolMode;
  p2p_opts : P2PArgs;
}.
Definition UoPoolArgs_default : UoPoolArgs := {| uopool_addr := IpV4 LOCALHOST; uopool_port := MEMPOOL_PORT;
  datadir := None; storage_type := StDatabase; max_verification_gas := 5000000; ua_min_stake := 1;
  min_priority_fee_per_gas := 0; ua_whitelist := []; uopool_mode := Standard; p2p_opts := P2PArgs_default |}.

(** ** What the values mean *)
Lemma split_none c s : no_char c s → split c s = [s].
Proof.
  unfold no_char. induction s as [|a s IH]; [done|]. cbn [String.list_ascii_of_string]. intros Hc.
  rewrite not_elem_of_cons in Hc. destruct Hc as [Ha Hs]. simpl. rewrite IH by done.
  by rewrite bool_decide_eq_false_2.
Qed.
Lemma split_app c l r : no_char c l → split c (l +:+ String c r) = l :: split c r.
Proof.
  unfold no_char. induction l as [|a l IH]; simpl; [by rewrite bool_decide_eq_true_2|].
  rewrite not_elem_of_cons. intros [Ha Hl]. rewrite bool_decide_eq_false_2 by done. by rewrite IH.
Qed.

(** A label is read with its value; what follows a second equals sign is dropped, and
    a text without one is refused. *)
Lemma label_value_parsed l v rest : no_char "=" l → no_char "=" v →
  parse_label_value (l +:+ String "=" v) = inr {| lv_label := l; lv_value := v |} ∧
  parse_label_value (l +:+ String "=" (v +:+ String "=" rest)) = inr {| lv_label := l; lv_value := v |} ∧
  ∃ e, parse_label_value l = inl e.
Proof.
  intros Hl Hv. unfold parse_label_value. rewrite !split_app, !split_none by done. split_and!; [done..|]. by eexists.
Qed.

(** the number of a digit string never leaves the range of [u64] *)
Lemma parse_digits_range s acc n : 0 ≤ acc ≤ U64_MAX → parse_digits acc s = Some n → 0 ≤ n ≤ U64_MAX.
Proof.
  revert acc. induction s as [|c s IH]; simpl; intros acc Ha; [by intros [= <-]|].
  unfold digit. case_bool_decide as Hd; [|done]. case_bool_decide; [|done]. apply IH. lia.
Qed.
Lemma parse_duration_range s n : parse_duration s = inr n → is_u64 n.
Proof.
  unfold parse_duration, parse_u64, is_u64. destruct (match s with EmptyString => s | String c s' => _ end); [done|].
  destruct (parse_digits _ _) eqn:Hd; [|done]. intros [= <-]. apply parse_digits_range in Hd; [done|].
  unfold U64_MAX. lia.
Qed.

(** numbers in decimal notation are read back, and consist of digits *)
Lemma digit_char n : (n < 10)%N → digit (pretty_N_char n) = Some (Z.of_N n).
Proof.
  intros Hn. assert (n = 0 ∨ n = 1 ∨ n = 2 ∨ n = 3 ∨ n = 4 ∨ n = 5 ∨ n = 6 ∨ n = 7 ∨ n = 8 ∨ n = 9)%N as Hc by lia.
  by repeat (destruct Hc as [-> | Hc]; [reflexivity|]); rewrite Hc.
Qed.
Lemma parse_digits_pretty x s : Z.of_N x ≤ U64_MAX →
  parse_digits 0 (pretty_N_go x s) = parse_digits (Z.of_N x) s.
Proof.
  revert s. induction (N.lt_wf_0 x) as [x _ IH]; intros s Hx.
  assert (x = 0 ∨ 0 < x)%N as [-> | Hp] by lia; [by rewrite pretty_N_go_0|].
  assert (x `div` 10 < x)%N as Hd by (by apply N.div_lt).
  rewrite pretty_N_go_step, IH by lia.
  simpl. rewrite digit_char by (by apply N.mod_lt).
  replace (Z.of_N (x `div` 10) * 10 + Z.of_N (x `mod` 10)) with (Z.of_N x)
    by (rewrite (N.div_mod' x 10) at 1; lia).
  by rewrite bool_decide_eq_true_2.
Qed.
Lemma pretty_N_no_char c x s : digit c = None → no_char c s → no_char c (pretty_N_go x s).
Proof.
  intros Hc. revert s. induction (N.lt_wf_0 x) as [x _ IH]; intros s Hs.
  assert (x = 0 ∨ 0 < x)%N as [-> | Hp] by lia; [by rewrite pretty_N_go_0|].
  rewrite pretty_N_go_step by done. apply IH; [by apply N.div_lt|].
  unfold no_char. cbn [String.list_ascii_of_string]. apply not_elem_of_cons. split; [|done].
  intros ->. by rewrite digit_char in Hc by (by apply N.mod_lt).
Qed.
Lemma pretty_no_char c n : 0 ≤ n → digit c = None → no_char c (pretty n).
Proof.
  intros Hn Hc. destruct n as [|p|p]; [|apply (pretty_N_no_char c (N.pos p) ""); [done|by apply not_elem_of_nil]|lia].
  unfold no_char. simpl. rewrite list_elem_of_singleton. by intros ->.
Qed.
Lemma parse_u64_pretty n : is_u64 n → parse_u64 (pretty n) = Some n.
Proof.
  intros [Hn Hu]. destruct n as [|p|p]; [done| |lia].
  pose proof (pretty_no_char "+" (Z.pos p) Hn eq_refl) as Hc.
  assert (parse_digits 0 (pretty (Z.pos p)) = Some (Z.pos p)) as Hp by (by apply (parse_digits_pretty (N.pos p) "")).
  unfold parse_u64. destruct (pretty (Z.pos p)) as [|c s]; [done|].
  unfold no_char in Hc. cbn [String.list_ascii_of_string] in Hc. rewrite not_elem_of_cons in Hc.
  rewrite bool_decide_eq_false_2 by (intros ->; tauto). done.
Qed.

Context {EOk : EnrKeysOk EK}.

(** A node announces the port on which it listens: from its record other nodes dial
    the broadcast address with the TCP port of the arguments, which is the port of the
    address it listens on; without a broadcast address nobody can dial it.  It is found
    at its UDP port by discovery, for the chain it is connected to. *)
Theorem announced_node_dialable (self : P2PArgs) chain_id datadir key e :
  config_enr key (to_config self chain_id datadir) = Ok e →
  enr_multiaddr e = match self.(p2p_broadcast_address) with
                    | Some ip => [[MIp4 ip; MTcp self.(tcp4_port)]] | None => [] end ∧
  to_multi_addr (to_config self chain_id datadir).(listen_addr) =
    [[MIp4 self.(p2p_listen_address); MTcp self.(tcp4_port)]] ∧
  (to_config self chain_id datadir).(discv5_config) = LcIpv4 self.(p2p_listen_address) self.(udp4_port) ∧
  (enr_content e).(ec_udp4) = Some self.(udp4_port) ∧ discovery_predicate e = true ∧
  (enr_content e).(ec_chain_id) = Some (encode_u64 chain_id) ∧ enr_peer_id e = key_peer_id key.
Proof using EOk.
  unfold config_enr, build_enr. destruct (enr_sign _ _) as [|e'] eqn:Hs; [done|]. intros [= <-].
  apply enr_sign_ok in Hs as [Hc Hp]. unfold enr_multiaddr, discovery_predicate. rewrite Hc. cbn.
  rewrite (proj1 (from_chain_id_spec chain_id)). by destruct (p2p_broadcast_address self).
Qed.
End p2p.

(** ** Concrete evaluations *)
Module Example.
#[local] Existing Instances Discovery.Example.records Discovery.Example.keys le_types stored_blocks
  Setup.Example.files.

Example labels : parse_label_value "env=prod" = inr {| lv_label := "env"; lv_value := "prod" |} ∧
  parse_label_value "a=b=c" = inr {| lv_label := "a"; lv_value := "b" |}.
Proof. by vm_compute. Qed.
Example durations : parse_duration "500" = inr 500 ∧ parse_duration "+7" = inr 7 ∧
  parse_duration "18446744073709551616" = inl "18446744073709551616 must be unsigned int"%string.
Proof. by vm_compute. Qed.

Definition args : P2PArgs := {| enable_p2p := true; p2p_listen_address := 0;
  p2p_broadcast_address := Some LOCALHOST; udp4_port := 9000; tcp4_port := 9001; pa_bootnodes := [];
  pa_node_key := None; pa_node_enr := None |}.
Definition key : CombinedKey := 42.
Lemma announced_node_dialable_witness : ∃ e, config_enr key (to_config args 5 "/home/silius") = Ok e ∧
  enr_multiaddr e = [[MIp4 LOCALHOST; MTcp 9001]].
Proof.
  eexists. split; [reflexivity|].
  apply (announced_node_dialable args 5 "/home/silius" key _ eq_refl).
Defined.
End Example.
