(* ===== verification/Launch.v ===== *)
(** Starting the program ([bin/silius/src/bundler.rs], [cli/commands.rs], and the
    [*_service_run] functions of [crates/grpc]): which services come up on which
    addresses, with which storage, reputation, validator, wallet, client and methods. *)

From Stdlib Require Import Ascii.
From stdpp Require Import pretty.
From S2P Require Import Prelude Primitives Errors AbiStd Gas Reputation Mempool.
From S2P Require Import MemoryStore Database EntryPoint Fixture Sanity Simulation Trace.
From S2P Require Import Validator UoPool Bundling Ssz Rpc SszMessages Gossip Peers Network Discovery Setup.
From S2P Require Import Bundler Estimate Proto Service JsonRpc JsonServer Metrics Wallet Args.

Abbreviation Endpoint := (IpAddr * Z)%type.

(** ** The operating system and the libraries *)
Class HostLib := {
  (** parsing the address of a gRPC service *)
  parse_url : string → option Endpoint;
  ipv6_text : Z → string;
  (** given the bound endpoints, whether another can be bound or be reached *)
  bindable : list Endpoint → Endpoint → bool;
  reachable : list Endpoint → Endpoint → bool;
  (** the chains that have a name *)
  is_named : Z → bool;
  home_dir : option string;
  p2p_seed : option bytes;
  parse_origin : string → option string;
}.
(** [IpAddr] is printed in dotted notation *)
Definition ipv4_text (a : Z) : string :=
  pretty (a / 2 ^ 24) +:+ "." +:+ pretty (a / 2 ^ 16 mod 256) +:+ "." +:+
  pretty (a / 2 ^ 8 mod 256) +:+ "." +:+ pretty (a mod 256).
Definition ip_text {HL : HostLib} (a : IpAddr) : string :=
  match a with IpV4 a => ipv4_text a | IpV6 a => ipv6_text a end.
(** [format!("http://{:?}:{:?}", addr, port)] *)
Definition grpc_url {HL : HostLib} (e : Endpoint) : string :=
  ("http://" +:+ ip_text e.1 +:+ ":" +:+ pretty e.2)%string.
Class HostOk (HL : HostLib) := {
  parse_ipv4_url : ∀ a port, 0 ≤ a < 2 ^ 32 → 0 ≤ port < 2 ^ 16 →
    parse_url (grpc_url (IpV4 a, port)) = Some (IpV4 a, port);
  bound_reachable : ∀ l e, e ∈ l → reachable l e = true;
  (** what can be bound next to some endpoints can be bound next to fewer *)
  bindable_fewer : ∀ l l' e, l' ⊆ l → bindable l e = true → bindable l' e = true;
}.

(** ** The servers run in tasks of their own
    The runtime decides how far these tasks are when the launch goes on: [done_by p t]
    says whether the task [t] has run, if it was spawned, by the time of [p]. *)
Inductive ServerTask := TkUoPool | TkBundler | TkRpc.
Inductive Point := BundlerConnects | RpcConnectsUoPool | RpcConnectsBundler | ExporterBinds.
Class Schedule := { done_by : Point → ServerTask → bool }.

(** the execution client, and the database *)
Class EthClient := {
  eth_chainid : string + U256;
  client_version : string + string;
  (** [Provider::try_from] and [connect_with_reconnects] *)
  create_http_provider : string → string + ();
  create_ws_provider : string → string + ();
}.
(** [init_env] and [create_tables] on a directory; [DbCodec] models them on the library *)
Class DbLib {M : Mdbx} := { init_env : string → option env; create_tables : env → option env }.

Section launch.
Context {A : Abi} {CS : ChecksumText} {HO : HashOrder}.
Context {EN : EnrLib} {EK : EnrKeys} {NL : NodeLib} {T : SszTypes} {SN : SnapLib}.
Context {M : Mdbx} {DL : DbLib} {WL : WalletLib} {HL : HostLib} {EC : EthClient} {SC : Schedule}.

(** ** What runs *)
(** the storage of the pools: the mempool and the reputation over it *)
Inductive PoolStorage :=
| PsDatabase (mempool : MetricsHandler env) (reputation : Reputation (MetricsHandler env))
| PsMemory (mempool : MetricsHandler MemStore) (reputation : Reputation (MetricsHandler (gmap Address ReputationEntry))).
Record PoolServer := {
  ps_service : UoPoolService;
  ps_storage : PoolStorage;
  ps_validator : Validator;
  ps_network : option Started;
  ps_metrics : bool;
}.
Inductive Client :=
| EthereumClient (w : Wallet)
| ConditionalClient (w : Wallet)
| FlashbotsClient (relay : string) (bundle_signer : Signer) (w : Wallet)
| FastlaneClient (relays : list string) (w : Wallet).
Record BundlerServer := {
  bs_service : BundlerService;
  bs_client : Client;
  bs_uopool : Endpoint;
  bs_metrics : bool;
}.
Inductive Running :=
| RunUoPool (e : option Endpoint) (s : PoolServer)
| RunBundler (s : BundlerServer)
| RunBundlerServer (e : Endpoint)
| RunRpc (http ws : option (ServerHandle Method))
| RunExporter (e : Endpoint) (labels : list LabelValue).

(** a server that was spawned; the network is set up in the task of the pool *)
Inductive Spawned :=
| SpUoPool (addr : Endpoint) (p2p : option (Config * Keypair * list Channel))
    (server : option Started → PoolServer)
| SpBundler (addr : Endpoint)
| SpRpc (server : JsonRpcServer Method).
Definition task_of (t : Spawned) : ServerTask :=
  match t with SpUoPool _ _ _ => TkUoPool | SpBundler _ => TkBundler | SpRpc _ => TkRpc end.

(** the host: bound endpoints, what this process runs, the servers that were spawned and
    have not run yet, and the files of the node's identity and of the wallets *)
Record Host := {
  h_endpoints : list Endpoint;
  h_running : list Running;
  h_tasks : list Spawned;
  h_files : gmap string bytes;
  h_wallets : Dirs;
}.
Definition run (es : list Endpoint) (r : Running) (h : Host) : Host := {| h_endpoints := h.(h_endpoints) ++ es;
  h_running := h.(h_running) ++ [r]; h_tasks := h.(h_tasks); h_files := h.(h_files); h_wallets := h.(h_wallets) |}.
Definition set_tasks (ts : list Spawned) (h : Host) : Host := {| h_endpoints := h.(h_endpoints);
  h_running := h.(h_running); h_tasks := ts; h_files := h.(h_files); h_wallets := h.(h_wallets) |}.
Definition set_files (fs : gmap string bytes) (h : Host) : Host := {| h_endpoints := h.(h_endpoints);
  h_running := h.(h_running); h_tasks := h.(h_tasks); h_files := fs; h_wallets := h.(h_wallets) |}.
Definition set_wallets (fs : Dirs) (h : Host) : Host := {| h_endpoints := h.(h_endpoints);
  h_running := h.(h_running); h_tasks := h.(h_tasks); h_files := h.(h_files); h_wallets := fs |}.
(** [tokio::spawn] *)
Definition spawn_task (t : Spawned) (h : Host) : Host := set_tasks (h.(h_tasks) ++ [t]) h.
(** the server of the pool: a failure to bind is lost with the task, and the pools it has
    started by then run on without an endpoint *)
Definition serve (e : Endpoint) (r : option Endpoint → Running) (h : Host) : Host :=
  if bindable h.(h_endpoints) e then run [e] (r (Some e)) h else run [] (r None) h.
Lemma serve_free e r h : bindable h.(h_endpoints) e = true → serve e r h = run [e] (r (Some e)) h.
Proof. unfold serve. by intros ->. Qed.
Lemma serve_taken e r h : bindable h.(h_endpoints) e = false → serve e r h = run [] (r None) h.
Proof. unfold serve. by intros ->. Qed.

(** the task that starts the server: its failure is lost, and the handles with it *)
Definition bind_on (h : Host) (before : list Endpoint) (a : IpAddr) (port : Z) : string + () :=
  if bindable (h.(h_endpoints) ++ before) (a, port) then inr () else inl "Address already in use"%string.
Definition handle_endpoint (o : option (ServerHandle Method)) : list Endpoint :=
  match o with Some s => [(s.(sh_addr), s.(sh_port))] | None => [] end.
Definition spawn_rpc (server : JsonRpcServer Method) (h : Host) : Host :=
  match JsonServer.start (bind_on h) server with
  | Ok (http_handle, ws_handle) =>
      run (handle_endpoint http_handle ++ handle_endpoint ws_handle) (RunRpc http_handle ws_handle) h
  | _ => h
  end.

(** the rest of a spawned task, up to the point where it serves.  The task of the pool
    is gone when the network cannot be set up, the one of the bundler when its address
    cannot be bound. *)
Definition run_task (t : Spawned) (h : Host) : Host :=
  match t with
  | SpUoPool addr (Some (config, generated, channels)) server =>
      match Network_new config p2p_seed generated channels h.(h_files) with
      | (Ok started, fs) => serve addr (λ e, RunUoPool e (server (Some started))) (set_files fs h)
      | (_, fs) => set_files fs h
      end
  | SpUoPool addr None server => serve addr (λ e, RunUoPool e (server None)) h
  | SpBundler addr => if bindable h.(h_endpoints) addr then run [addr] (RunBundlerServer addr) h else h
  | SpRpc server => spawn_rpc server h
  end.
(** the spawned tasks that have run by a point of the launch, and in the end all of them *)
Definition advance_by (ready : ServerTask → bool) (h : Host) : Host :=
  fold_left (λ h t, if ready (task_of t) then run_task t h else spawn_task t h) h.(h_tasks) (set_tasks [] h).
Definition advance (p : Point) (h : Host) : Host := advance_by (done_by p) h.
Definition settle (h : Host) : Host := advance_by (λ _, true) h.

(** [UoPoolClient::connect] and [BundlerClient::connect] *)
Definition connect (url : string) (h : Host) : comp string Endpoint :=
  match parse_url url with
  | Some e => if reachable h.(h_endpoints) e then Ok e else Err "transport error"%string
  | None => Err "invalid URI"%string
  end.

(** ** [check_connected_chain]; an unsupported chain only gives a warning *)
Definition check_connected_chain (chain : option Z) : comp string string :=
  let* _ := match chain with
            | Some c =>
                let* id := of_sum eth_chainid in
                let* id := as_u64 id in
                if bool_decide (c = id) then Ok ()
                else Err ("Tried to connect to the execution client of different chain ids: " +:+
                          pretty c +:+ " != " +:+ pretty id)%string
            | None => Ok ()
            end in
  of_sum client_version.
Definition connected_chain : comp string Z := let* id := of_sum eth_chainid in as_u64 id.

(** ** [launch_uopool] *)
Definition DATABASE_FOLDER_NAME : string := "db".
Definition MIN_UNSTAKE_DELAY : Z := 86400.

(** [Reputation::new] with empty lists *)
Definition new_reputation {R} (stake : U256) (ents : R) : Reputation R := {|
  min_inclusion_denominator := MIN_INCLUSION_RATE_DENOMINATOR; throttling_slack := THROTTLING_SLACK;
  ban_slack := BAN_SLACK; min_stake := stake; min_unstake_delay := MIN_UNSTAKE_DELAY;
  whitelist := ∅; blacklist := ∅; entities := ents |}.

Definition whitelist_all {R} (l : list Address) (r : Reputation R) : Reputation R :=
  fold_left (λ r a, (add_whitelist a r).2) l r.

Definition open_storage (args : UoPoolArgs) (dir : string) : comp string PoolStorage :=
  match args.(storage_type) with
  | StDatabase =>
      let* e := expect (init_env (join dir DATABASE_FOLDER_NAME)) in
      let* e := expect (create_tables e) in
      Ok (PsDatabase (metrics_new e Recorder_default)
            (whitelist_all args.(ua_whitelist)
               (new_reputation args.(ua_min_stake) (metrics_new e Recorder_default))))
  | StMemory => Ok (PsMemory (metrics_new MemStore_default Recorder_default)
      (new_reputation args.(ua_min_stake) (metrics_new ∅ Recorder_default)))
  end.

Definition new_validator (args : UoPoolArgs) : Validator :=
  match args.(uopool_mode) with
  | Standard => new_canonical ENTRY_POINT_ADDRESS args.(max_verification_gas) args.(min_priority_fee_per_gas)
  | Unsafe => new_canonical_unsafe ENTRY_POINT_ADDRESS args.(max_verification_gas) args.(min_priority_fee_per_gas)
  end.

(** the pools of [uopool_service_run]: one per entry point with a stream of blocks *)
Definition new_channel (ep : Address) : Channel :=
  {| ch_entry_point := ep; ch_open := true; ch_to_pool := []; ch_from_pool := [] |}.

(** the launch goes on a second after the task was spawned *)
Definition uopool_service_run (addr : Endpoint) (mode : UoPoolMode) (eps : list Address) (block_streams : nat)
    (chain : Z) (max_gas : U256) (storage : PoolStorage) (validator : Validator)
    (p2p_config : option (Config * Keypair)) (enable_metrics : bool) (h : Host) : Host :=
  let eps := take block_streams eps in
  let network := match p2p_config with Some _ => Some true | None => None end in
  spawn_task (SpUoPool addr ((λ '(config, generated), (config, generated, new_channel <$> eps)) <$> p2p_config)
    (λ started, {| ps_service := build_pools mode eps max_gas chain network; ps_storage := storage;
       ps_validator := validator; ps_network := started; ps_metrics := enable_metrics |})) h.

(** [generated]: the key that would be generated for the network *)
Definition launch_uopool (args : UoPoolArgs) (block_streams : nat) (chain : option Z) (entry_points : list Address)
    (metrics_args : MetricsArgs) (generated : Keypair) : ST Host string () :=
  do* _ := st_lift (check_connected_chain chain) in
  do* chain := st_lift connected_chain in
  do* datadir := st_lift (unwrap_path_or_home home_dir args.(datadir)) in
  let p2p_config := if args.(p2p_opts).(enable_p2p)
                    then Some (to_config args.(p2p_opts) chain datadir, generated) else None in
  do* storage := st_lift (open_storage args datadir) in
  st_mod (uopool_service_run (args.(uopool_addr), args.(uopool_port)) args.(uopool_mode) entry_points
            block_streams chain args.(max_verification_gas) storage (new_validator args) p2p_config
            metrics_args.(enable_metrics)).

(** ** [launch_bundling] *)
Definition FLASHBOTS : string := "https://relay.flashbots.net".
Definition FLASHBOTS_SEPOLIA : string := "https://relay-sepolia.flashbots.net".
Definition FASTLANE_POLYGON : string := "https://polygon-test-rpc.fastlane.xyz".

Definition load_wallet (args : BundlerArgs) (chain_id : Z) (fs : Dirs) : comp string Wallet :=
  let flashbots := bool_decide (args.(send_bundle_mode) = SFlashbots) in
  match args.(mnemonic_file), args.(private_key) with
  | Some file, _ => map_err (λ e, "Could not load mnemonic file: " +:+ e)%string (from_file fs file chain_id flashbots)
  | None, Some key =>
      if flashbots
      then map_err (λ e, "Could not load from private key or flashbots key: " +:+ e)%string
             (from_private_key key chain_id true args.(flashbots_private_key))
      else map_err (λ e, "Could not load from private key: " +:+ e)%string
             (from_private_key key chain_id false None)
  | None, None => Panic
  end.

(** [Chain::named], of the chain with an id; a name is identified by its id *)
Definition chain_named (chain : Z) : option Z := if is_named chain then Some chain else None.

(** [FlashbotsClient::new]; the address of the relay is a constant that parses *)
Definition new_flashbots_client (relays : list string) (wallet : Wallet) : comp string Client :=
  let* relay := expect (head relays) in
  match wallet.(flashbots_signer) with
  | Some s => Ok (FlashbotsClient relay s wallet)
  | None => Err "No Flashbots signer provided"%string
  end.

Definition make_client (mode : SendStrategy) (chain : Z) (wallet : Wallet) : comp string Client :=
  match mode with
  | SEthereumClient => Ok (EthereumClient wallet)
  | SConditional => Ok (ConditionalClient wallet)
  | SFlashbots =>
      let* named := expect (chain_named chain) in
      let* relays := if bool_decide (named = 1) then Ok [FLASHBOTS]
                     else if bool_decide (named = 11155111) then Ok [FLASHBOTS_SEPOLIA] else Panic in
      new_flashbots_client relays wallet
  | SFastlane =>
      let* named := expect (chain_named chain) in
      let* relays := if bool_decide (named = POLYGON_ID) then Ok [FASTLANE_POLYGON] else Panic in
      Ok (FastlaneClient relays wallet)
  end.

(** bundling starts at once, the server in a task *)
Definition bundler_service_run (addr : Endpoint) (wallet : Wallet) (eps : list Address) (chain : Z)
    (beneficiary : Address) (min_balance : U256) (bundle_interval : Z) (client : Client) (uopool : Endpoint)
    (enable_metrics enable_access_list : bool) (h : Host) : Host :=
  let bundlers := (λ ep, {| wallet_address := key_address wallet.(signer).(sg_key); beneficiary := beneficiary;
    bn_entry_point := ep; bn_chain := chain; min_balance := min_balance;
    enable_access_list := enable_access_list |}) <$> eps in
  let service := start_bundling bundle_interval {| bundlers := bundlers; running := false; tasks := [];
    starting := []; world := {| w_sent := []; w_removed := [] |} |} in
  spawn_task (SpBundler addr) (run [] (RunBundler {| bs_service := service; bs_client := client;
    bs_uopool := uopool; bs_metrics := enable_metrics |}) h).

Definition launch_bundling (args : BundlerArgs) (chain : option Z) (entry_points : list Address)
    (uopool_grpc_listen_address : string) (metrics_args : MetricsArgs) : ST Host string () :=
  do* _ := st_lift (check_connected_chain chain) in
  do* chain_id := st_lift connected_chain in
  do* wallet := st_get (λ h, load_wallet args chain_id h.(h_wallets)) in
  do* _ := st_mod (advance BundlerConnects) in
  do* uopool := st_get (connect uopool_grpc_listen_address) in
  do* client := st_lift (make_client args.(send_bundle_mode) chain_id wallet) in
  st_mod (bundler_service_run (args.(bundler_addr), args.(bundler_port)) wallet entry_points chain_id
            args.(ba_beneficiary) args.(ba_min_balance) args.(bundle_interval) client uopool
            metrics_args.(enable_metrics) args.(ba_enable_access_list)).

(** ** [launch_rpc] *)
Definition rpc_server (args : RpcArgs) (metrics_args : MetricsArgs) : JsonRpcServer Method :=
  let server := server_new args.(http) args.(http_addr) args.(http_port) args.(ws) args.(ws_addr) args.(ws_port) in
  let server := with_cors parse_origin args.(ws_origins) Ws
                  (with_cors parse_origin args.(http_corsdomain) Http server) in
  let server := match args.(eth_client_proxy_address) with Some a => with_proxy a server | None => server end in
  if metrics_args.(enable_metrics) then with_metrics server else server.

Definition add_when (b : bool) (methods : gmap string Method) (typ : JsonRpcServerType)
  : ST (JsonRpcServer Method) string () := if b then add_methods methods typ else st_ret ().

(** [h] and [h'] are the hosts when the pool and the bundler are connected to *)
Definition register_methods (args : RpcArgs) (uopool_url bundler_url : string) (h h' : Host)
  : ST (JsonRpcServer Method) string () :=
  let http_api : gset string := list_to_set args.(http_api) in
  let ws_api : gset string := list_to_set args.(ws_api) in
  let in_http n := bool_decide (n ∈ http_api) in
  let in_ws n := bool_decide (n ∈ ws_api) in
  do* _ := add_when (in_http "web3"%string) web3_rpc Http in
  do* _ := add_when (in_ws "web3"%string) web3_rpc Ws in
  do* _ := st_lift (connect uopool_url h) in
  do* _ := if is_api_method_enabled args "eth" then
             do* _ := add_when (in_http "eth"%string) eth_rpc Http in add_when (in_ws "eth"%string) eth_rpc Ws
           else st_ret () in
  if is_api_method_enabled args "debug" then
    do* _ := st_lift (connect bundler_url h') in
    do* _ := add_when (in_http "debug"%string) debug_rpc Http in add_when (in_ws "debug"%string) debug_rpc Ws
  else st_ret ().

Definition launch_rpc (args : RpcArgs) (uopool_url bundler_url : string) (metrics_args : MetricsArgs)
  : ST Host string () := λ h,
  if negb (is_enabled args) then (Err "No RPC protocol is enabled"%string, h)
  else
    let h1 := advance RpcConnectsUoPool h in
    let h2 := advance RpcConnectsBundler h1 in
    match register_methods args uopool_url bundler_url h1 h2 (rpc_server args metrics_args) with
    | (Ok _, server) => (Ok (), spawn_task (SpRpc server) h2)
    | (Err e, _) => (Err e, h2)
    | (Panic, _) => (Panic, h2)
    end.

(** ** [launch_bundler] and [launch_metrics_exporter] *)
Definition launch_metrics_exporter (addr : Endpoint) (labels : option (list LabelValue)) : ST Host string () := λ h,
  let h := advance ExporterBinds h in
  if bindable h.(h_endpoints) addr then (Ok (), run [addr] (RunExporter addr (default [] labels)) h) else (Panic, h).

Definition launch_bundler (bundler_args : BundlerArgs) (uopool_args : UoPoolArgs)
    (common_args : BundlerAndUoPoolArgs) (rpc_args : RpcArgs) (metrics_args : MetricsArgs) (block_streams : nat)
    (generated : Keypair) : ST Host string () :=
  let uopool_url := grpc_url (uopool_args.(uopool_addr), uopool_args.(uopool_port)) in
  let bundler_url := grpc_url (bundler_args.(bundler_addr), bundler_args.(bundler_port)) in
  do* _ := launch_uopool uopool_args block_streams common_args.(chain) common_args.(entry_points) metrics_args
             generated in
  do* _ := launch_bundling bundler_args common_args.(chain) common_args.(entry_points) uopool_url metrics_args in
  do* _ := launch_rpc rpc_args uopool_url bundler_url metrics_args in
  if metrics_args.(enable_metrics)
  then launch_metrics_exporter (metrics_listen_addr metrics_args) metrics_args.(custom_label_value)
  else st_ret ().

(** ** [create_wallet] *)
Definition create_wallet (args : CreateWalletArgs) (phrase : string) : ST Host string () :=
  do* path := st_lift (unwrap_path_or_home home_dir args.(output_path)) in
  do* _ := st_zoom h_wallets set_wallets (build_random path args.(cw_chain_id) args.(flashbots_key) phrase) in
  st_ret ().

(** ** [cli/commands.rs]; the commands that serve wait forever when they succeed *)
Definition create_provider (address : string) : comp string () :=
  if String.prefix "http" address then of_sum (create_http_provider address)
  else of_sum (create_ws_provider address).

Definition node_execute (bundler : BundlerArgs) (uopool : UoPoolArgs) (common : BundlerAndUoPoolArgs)
    (rpc : RpcArgs) (generated : Keypair) : ST Host string () :=
  do* _ := st_lift (create_provider common.(eth_client_address)) in
  launch_bundler bundler uopool common rpc common.(metrics) (length common.(entry_points)) generated.
Definition bundler_execute (bundler : BundlerArgs) (common : BundlerAndUoPoolArgs)
    (uopool_grpc_listen_address : string) : ST Host string () :=
  do* _ := st_lift (create_provider common.(eth_client_address)) in
  launch_bundling bundler common.(chain) common.(entry_points) uopool_grpc_listen_address common.(metrics).
Definition uopool_execute (uopool : UoPoolArgs) (common : BundlerAndUoPoolArgs) (generated : Keypair)
  : ST Host string () :=
  do* _ := st_lift (create_provider common.(eth_client_address)) in
  launch_uopool uopool (length common.(entry_points)) common.(chain) common.(entry_points) common.(metrics)
    generated.
Definition rpc_execute (rpc : RpcArgs) (uopool_url bundler_url : string) (metrics_args : MetricsArgs)
  : ST Host string () := launch_rpc rpc uopool_url bundler_url metrics_args.

(** the dumps of a database *)
Definition dump_user_operations (dir : string) : comp MempoolErrorKind (list UserOperation) :=
  let* e := expect (init_env dir) in db_get_all e.
Definition dump_user_operations_by_sender (dir : string) (addr : Address) : comp MempoolErrorKind (list UserOperationHash) :=
  let* e := expect (init_env dir) in
  Ok (db_get_all_by_address UserOperationsBySender e addr ++ db_get_all_by_address UserOperationsByEntity e addr).

(** ** The methods that are exposed *)
Definition exposed (api : list string) : gmap string Method :=
  (if bool_decide ("debug"%string ∈ api) then debug_rpc else ∅) ∪
  ((if bool_decide ("eth"%string ∈ api) then eth_rpc else ∅) ∪
   (if bool_decide ("web3"%string ∈ api) then web3_rpc else ∅)).
Definition http_handle (args : RpcArgs) (metrics_args : MetricsArgs) : option (ServerHandle Method) :=
  if args.(http) then Some {| sh_addr := args.(http_addr); sh_port := args.(http_port);
    sh_methods := exposed args.(http_api); sh_cors := Some (cors_layer parse_origin args.(http_corsdomain));
    sh_proxy := args.(eth_client_proxy_address); sh_metrics := metrics_args.(enable_metrics) |} else None.
Definition ws_handle (args : RpcArgs) (metrics_args : MetricsArgs) : option (ServerHandle Method) :=
  if args.(ws) then Some {| sh_addr := args.(ws_addr); sh_port := args.(ws_port);
    sh_methods := exposed args.(ws_api); sh_cors := Some (cors_layer parse_origin args.(ws_origins));
    sh_proxy := args.(eth_client_proxy_address); sh_metrics := metrics_args.(enable_metrics) |} else None.

Lemma namespaces_disjoint : eth_rpc ##ₘ web3_rpc ∧ debug_rpc ##ₘ eth_rpc ∧ debug_rpc ##ₘ web3_rpc.
Proof. rewrite !map_disjoint_dom. split_and!; by apply (bool_decide_unpack _); vm_compute. Qed.

Lemma add_when_http b m (s : JsonRpcServer Method) : m ##ₘ s.(js_http_methods) →
  add_when b m Http s = (Ok (), set_methods Http ((if b then m else ∅) ∪ s.(js_http_methods)) s).
Proof.
  intros Hd. destruct b; cbn [add_when add_methods].
  - unfold merge_http. by rewrite merge_free.
  - unfold st_ret. f_equal. rewrite map_empty_union. by destruct s.
Qed.
Lemma add_when_ws b m (s : JsonRpcServer Method) : m ##ₘ s.(js_ws_methods) →
  add_when b m Ws s = (Ok (), set_methods Ws ((if b then m else ∅) ∪ s.(js_ws_methods)) s).
Proof.
  intros Hd. destruct b; cbn [add_when add_methods].
  - unfold merge_ws. by rewrite merge_free.
  - unfold st_ret. f_equal. rewrite map_empty_union. by destruct s.
Qed.

Definition with_exposed (args : RpcArgs) (s : JsonRpcServer Method) : JsonRpcServer Method :=
  set_methods Ws (exposed args.(ws_api)) (set_methods Http (exposed args.(http_api)) s).

Lemma api_set n (l : list string) : bool_decide (n ∈ (list_to_set l : gset string)) = bool_decide (n ∈ l).
Proof. apply bool_decide_ext. by rewrite elem_of_list_to_set. Qed.
Lemma not_enabled args n : is_api_method_enabled args n = false →
  bool_decide (n ∈ args.(http_api)) = false ∧ bool_decide (n ∈ args.(ws_api)) = false.
Proof. unfold is_api_method_enabled. by destruct (bool_decide _), (bool_decide _). Qed.

Ltac disjoint_namespaces :=
  destruct namespaces_disjoint as (? & ? & ?); cbn;
  repeat case_match; repeat first [apply map_disjoint_union_r_2 | apply map_disjoint_empty_r]; done.

(** the two servers get the same namespace one after the other *)
Lemma add_namespace args n m (s : JsonRpcServer Method) :
  m ##ₘ s.(js_http_methods) → m ##ₘ s.(js_ws_methods) →
  (do* _ := add_when (bool_decide (n ∈ (list_to_set args.(http_api) : gset string))) m Http in
   add_when (bool_decide (n ∈ (list_to_set args.(ws_api) : gset string))) m Ws) s =
  (Ok (), set_methods Ws ((if bool_decide (n ∈ args.(ws_api)) then m else ∅) ∪ s.(js_ws_methods))
            (set_methods Http ((if bool_decide (n ∈ args.(http_api)) then m else ∅) ∪ s.(js_http_methods)) s)).
Proof.
  intros H1 H2. rewrite !api_set. erewrite st_bind_step by (by apply add_when_http). by rewrite add_when_ws.
Qed.
Lemma set_methods_twice h1 w1 h2 w2 (s : JsonRpcServer Method) :
  set_methods Ws w2 (set_methods Http h2 (set_methods Ws w1 (set_methods Http h1 s))) =
  set_methods Ws w2 (set_methods Http h2 s).
Proof. by destruct s. Qed.
Lemma set_methods_same (s : JsonRpcServer Method) :
  set_methods Ws s.(js_ws_methods) (set_methods Http s.(js_http_methods) s) = s.
Proof. by destruct s. Qed.

(** a namespace that is enabled on neither server adds nothing *)
Lemma add_namespace_if args n m (s : JsonRpcServer Method) :
  m ##ₘ s.(js_http_methods) → m ##ₘ s.(js_ws_methods) →
  (if is_api_method_enabled args n then
     do* _ := add_when (bool_decide (n ∈ (list_to_set args.(http_api) : gset string))) m Http in
     add_when (bool_decide (n ∈ (list_to_set args.(ws_api) : gset string))) m Ws
   else st_ret ()) s =
  (Ok (), set_methods Ws ((if bool_decide (n ∈ args.(ws_api)) then m else ∅) ∪ s.(js_ws_methods))
            (set_methods Http ((if bool_decide (n ∈ args.(http_api)) then m else ∅) ∪ s.(js_http_methods)) s)).
Proof.
  intros H1 H2. destruct (is_api_method_enabled args n) eqn:He; [by apply add_namespace|].
  apply not_enabled in He as [-> ->]. rewrite !map_empty_union, set_methods_same. done.
Qed.

Lemma st_bind_assoc {St E X Y Z : Type} (m : ST St E X) (k : X → ST St E Y) (l : Y → ST St E Z) s :
  st_bind m (λ x, st_bind (k x) l) s = st_bind (st_bind m k) l s.
Proof. unfold st_bind. by destruct (m s) as [[] ?]. Qed.

(** registering fails only when a service that is needed cannot be reached *)
Lemma register_spec args u b h h' (s : JsonRpcServer Method) :
  s.(js_http_methods) = ∅ → s.(js_ws_methods) = ∅ →
  register_methods args u b h h' s =
    match connect u h with
    | Ok _ => if is_api_method_enabled args "debug" then
                match connect b h' with
                | Ok _ => (Ok (), with_exposed args s)
                | Err e => (Err e, (register_methods args u b h h' s).2)
                | Panic => (Panic, (register_methods args u b h h' s).2)
                end
              else (Ok (), with_exposed args s)
    | Err e => (Err e, (register_methods args u b h h' s).2)
    | Panic => (Panic, (register_methods args u b h h' s).2)
    end.
Proof.
  intros Hh Hw. unfold register_methods. rewrite st_bind_assoc.
  erewrite st_bind_step by (apply add_namespace; rewrite ?Hh, ?Hw; apply map_disjoint_empty_r).
  rewrite Hh, Hw, !map_union_empty.
  destruct (connect u h) as [e|e|] eqn:Hu; [|done..]. erewrite st_bind_step by done.
  erewrite st_bind_step by (apply add_namespace_if; disjoint_namespaces). rewrite set_methods_twice.
  cbn [js_http_methods js_ws_methods set_methods].
  destruct (is_api_method_enabled args "debug") eqn:He.
  - destruct (connect b h') eqn:Hb; [|done..]. erewrite st_bind_step by done.
    rewrite add_namespace by disjoint_namespaces. by rewrite set_methods_twice.
  - unfold st_ret, with_exposed, exposed. apply not_enabled in He as [-> ->]. by rewrite !map_empty_union.
Qed.

Lemma connect_returns url h : connect url h ≠ Panic.
Proof. unfold connect. by destruct (parse_url url) as [e|]; [destruct (reachable _ e)|]. Qed.
Lemma rpc_server_new args m : let s := rpc_server args m in
  s.(js_http_methods) = ∅ ∧ s.(js_ws_methods) = ∅ ∧
  JsonServer.start (λ _ _ _, inr ()) (with_exposed args s) = Ok (http_handle args m, ws_handle args m).
Proof.
  unfold rpc_server, with_exposed, http_handle, ws_handle, JsonServer.start, start_http, start_ws.
  destruct (eth_client_proxy_address args), (enable_metrics m), (http args), (ws args); done.
Qed.

(** binding succeeds where the ports are free *)
Lemma start_bound bind (s : JsonRpcServer Method) :
  (s.(js_http) = true → bind [] s.(js_http_addr) s.(js_http_port) = inr ()) →
  (s.(js_ws) = true → bind (if s.(js_http) then [(s.(js_http_addr), s.(js_http_port))] else [])
                        s.(js_ws_addr) s.(js_ws_port) = inr ()) →
  JsonServer.start bind s = JsonServer.start (λ _ _ _, inr ()) s.
Proof.
  intros H1 H2. unfold JsonServer.start, start_http, start_ws.
  destruct (js_http s); rewrite ?H1 by done; destruct (js_ws s); rewrite ?H2 by done; done.
Qed.

Lemma rpc_server_addrs args m : let s := with_exposed args (rpc_server args m) in
  s.(js_http) = args.(http) ∧ s.(js_http_addr) = args.(http_addr) ∧ s.(js_http_port) = args.(http_port) ∧
  s.(js_ws) = args.(ws) ∧ s.(js_ws_addr) = args.(ws_addr) ∧ s.(js_ws_port) = args.(ws_port).
Proof. unfold rpc_server. by destruct (eth_client_proxy_address args), (enable_metrics m). Qed.

Definition rpc_endpoints (args : RpcArgs) : list Endpoint :=
  (if args.(http) then [(args.(http_addr), args.(http_port))] else []) ++
  (if args.(ws) then [(args.(ws_addr), args.(ws_port))] else []).
(** the ports of the servers that are enabled are free, one after the other *)
Definition rpc_ports_free (args : RpcArgs) (h : Host) : Prop :=
  (args.(http) = true → bindable h.(h_endpoints) (args.(http_addr), args.(http_port)) = true) ∧
  (args.(ws) = true → bindable (h.(h_endpoints) ++ if args.(http) then [(args.(http_addr), args.(http_port))] else [])
                        (args.(ws_addr), args.(ws_port)) = true).

Lemma spawn_rpc_free args m h : rpc_ports_free args h →
  spawn_rpc (with_exposed args (rpc_server args m)) h =
    run (rpc_endpoints args) (RunRpc (http_handle args m) (ws_handle args m)) h.
Proof.
  intros [Hh Hw]. unfold spawn_rpc. destruct (rpc_server_addrs args m) as (E1 & E2 & E3 & E4 & E5 & E6).
  rewrite start_bound.
  - destruct (rpc_server_new args m) as (_ & _ & ->). unfold http_handle, ws_handle, rpc_endpoints.
    by destruct (http args), (ws args).
  - rewrite E1, E2, E3. intros Ht. unfold bind_on. by rewrite app_nil_r, Hh.
  - rewrite E1, E2, E3, E4, E5, E6. intros Ht. unfold bind_on. by rewrite Hw.
Qed.

(** the servers are started one after the other: if the first cannot bind, neither runs *)
Lemma spawn_rpc_taken args m h : args.(http) = true →
  bindable h.(h_endpoints) (args.(http_addr), args.(http_port)) = false →
  spawn_rpc (with_exposed args (rpc_server args m)) h = h.
Proof.
  intros Ht Hb. unfold spawn_rpc, JsonServer.start, start_http.
  destruct (rpc_server_addrs args m) as (-> & -> & -> & _). rewrite Ht. unfold bind_on. by rewrite app_nil_r, Hb.
Qed.

Lemma rpc_launched args u b m h e : is_enabled args = true →
  let h1 := advance RpcConnectsUoPool h in let h2 := advance RpcConnectsBundler h1 in
  connect u h1 = Ok e → (is_api_method_enabled args "debug" = true → ∃ e', connect b h2 = Ok e') →
  launch_rpc args u b m h = (Ok (), spawn_task (SpRpc (with_exposed args (rpc_server args m))) h2).
Proof.
  intros He h1 h2 Hu Hb. destruct (rpc_server_new args m) as (H1 & H2 & _). unfold launch_rpc. rewrite He.
  cbn [negb]. cbv zeta. fold h1. fold h2. rewrite register_spec by done. rewrite Hu.
  destruct (is_api_method_enabled args "debug"); [|done]. by destruct Hb as [e' ->].
Qed.

(** What the JSON-RPC server exposes.  The launch succeeds exactly when a transport is
    enabled and the pool, and for the debug methods the bundler, can be reached at that
    time; it never fails because a method is registered twice.  Then the task that was
    spawned for it serves, for each enabled transport and on its address, exactly the
    namespaces that were asked for on it, behind the proxy and the origins that were
    given, if the ports are free when it runs.  A launch that fails spawns nothing. *)
Theorem rpc_exposes args u b m h :
  let h1 := advance RpcConnectsUoPool h in let h2 := advance RpcConnectsBundler h1 in
  ((launch_rpc args u b m h).1 = Ok () ↔
     is_enabled args = true ∧ (∃ e, connect u h1 = Ok e) ∧
     (is_api_method_enabled args "debug" = true → ∃ e, connect b h2 = Ok e)) ∧
  (launch_rpc args u b m h).1 ≠ Panic ∧
  ((launch_rpc args u b m h).1 ≠ Ok () → (launch_rpc args u b m h).2 = h ∨ (launch_rpc args u b m h).2 = h2) ∧
  ((launch_rpc args u b m h).1 = Ok () → ∃ t, (launch_rpc args u b m h).2 = spawn_task t h2 ∧
   ∀ h', rpc_ports_free args h' →
     run_task t h' = run (rpc_endpoints args) (RunRpc (http_handle args m) (ws_handle args m)) h').
Proof.
  intros h1 h2. pose proof (connect_returns u h1) as Hu. pose proof (connect_returns b h2) as Hb.
  destruct (rpc_server_new args m) as (H1 & H2 & _). unfold launch_rpc. cbv zeta. fold h1. fold h2.
  destruct (is_enabled args); cbn [negb]; [|split_and!; [naive_solver|done|by left|done]].
  rewrite (register_spec args u b h1 h2 (rpc_server args m)) by done.
  pose proof (spawn_rpc_free args m) as Hs.
  destruct (connect u h1) as [e|e|]; [|split_and!; [naive_solver|done|by right|done]|done].
  destruct (is_api_method_enabled args "debug").
  - destruct (connect b h2) as [e'|e'|]; [| |done].
    + split_and!; [naive_solver|done|done|]. intros _. eexists. split; [done|]. exact Hs.
    + split_and!; [naive_solver|done|by right|done].
  - split_and!; [naive_solver|done|done|]. intros _. eexists. split; [done|]. exact Hs.
Qed.

(** which method a server offers, by name *)
Lemma exposed_lookup api name : is_Some (exposed api !! name) ↔
  ("debug"%string ∈ api ∧ is_Some (debug_rpc !! name)) ∨ ("eth"%string ∈ api ∧ is_Some (eth_rpc !! name)) ∨
  ("web3"%string ∈ api ∧ is_Some (web3_rpc !! name)).
Proof.
  unfold exposed. rewrite !lookup_union_is_Some.
  do 3 case_bool_decide; rewrite ?lookup_empty, ?is_Some_None; naive_solver.
Qed.

(** ** The storage: the whitelist *)
Lemma whitelist_added {R} (l : list Address) (r : Reputation R) :
  (whitelist_all l r).(whitelist) = list_to_set l ∪ r.(whitelist).
Proof.
  unfold whitelist_all. revert r. induction l as [|a l IH]; intros r; simpl; [by rewrite union_empty_l_L|]. rewrite IH. simpl. set_solver.
Qed.

Definition storage_whitelist (s : PoolStorage) : gset Address :=
  match s with PsDatabase _ r => r.(whitelist) | PsMemory _ r => r.(whitelist) end.
Definition storage_status {P : Profile} {MT : MetricText} (s : PoolStorage) (a : Address) : comp ReputationError ReputationStatus :=
  match s with PsDatabase _ r => get_status r a | PsMemory _ r => get_status r a end.

(** The whitelist of the arguments only counts with the database: there a listed entity
    has the status OK from the start, whatever was stored; in memory the list is ignored. *)
Theorem whitelist_needs_database {P : Profile} {MT : MetricText} args dir s : open_storage args dir = Ok s →
  match args.(storage_type) with
  | StDatabase => storage_whitelist s = list_to_set args.(ua_whitelist) ∧
                  ∀ a, a ∈ args.(ua_whitelist) → storage_status s a = Ok (status_code OK)
  | StMemory => storage_whitelist s = ∅
  end.
Proof.
  unfold open_storage. destruct (storage_type args); [|by intros [= <-]].
  destruct (init_env _) as [e|]; [|done]. cbn [expect comp_bind].
  destruct (create_tables e) as [e'|]; [|done]. cbn [expect comp_bind]. intros [= <-].
  cbn [storage_whitelist storage_status]. rewrite whitelist_added. cbn [new_reputation whitelist].
  rewrite union_empty_r_L. split; [done|]. intros a Ha. unfold get_status. rewrite whitelist_added. unfold is_in_list.
  rewrite bool_decide_eq_true_2; [done|]. apply elem_of_union_l. by apply elem_of_list_to_set.
Qed.

(** ** Wallets and clients *)
Lemma from_phrase_returns fs phrase chain_id fb : from_phrase fs phrase chain_id fb ≠ Panic.
Proof.
  unfold from_phrase. destruct (mnemonic_build _ _ PATH_0); [done|]. simpl.
  destruct fb; [|done]. by destruct (mnemonic_build _ _ PATH_1).
Qed.
Lemma from_private_key_panics key chain_id fb o :
  from_private_key key chain_id fb o = Panic → fb = true ∧ o = None.
Proof.
  unfold from_private_key. destruct (parse_key key); [done|]. simpl. destruct fb; [|done].
  destruct o as [k|]; [|done]. simpl. by destruct (parse_key k).
Qed.
Lemma load_wallet_panics args chain_id fs : load_wallet args chain_id fs = Panic →
  args.(mnemonic_file) = None ∧
  (args.(private_key) = None ∨ args.(send_bundle_mode) = SFlashbots ∧ args.(flashbots_private_key) = None).
Proof.
  unfold load_wallet. destruct (mnemonic_file args) as [f|].
  - unfold from_file. destruct (read_file fs f) as [s|]; [|done]. simpl.
    destruct (from_phrase _ _ _ _) eqn:Hp; [done..|]. by apply from_phrase_returns in Hp.
  - intros H. split; [done|]. destruct (private_key args) as [key|]; [right|by left].
    case_bool_decide; (destruct (from_private_key _ _ _ _) eqn:Hk; [done..|]);
      by apply from_private_key_panics in Hk as [? ?].
Qed.

(** which strategies work on which chains *)
Definition strategy_supported (mode : SendStrategy) (chain_id : Z) : Prop :=
  match mode with
  | SEthereumClient | SConditional => True
  | SFlashbots => is_named chain_id = true ∧ (chain_id = 1 ∨ chain_id = 11155111)
  | SFastlane => is_named chain_id = true ∧ chain_id = 137
  end.
Lemma make_client_panics mode chain_id w :
  make_client mode chain_id w = Panic ↔ ¬ strategy_supported mode chain_id.
Proof.
  unfold make_client, strategy_supported, chain_named, new_flashbots_client, POLYGON_ID.
  destruct mode; try (split; [done|tauto]); destruct (is_named chain_id); simpl;
    repeat case_bool_decide; simpl; try destruct (flashbots_signer w); naive_solver.
Qed.
Lemma make_client_ok mode chain_id w : strategy_supported mode chain_id →
  (mode = SFlashbots → w.(flashbots_signer) ≠ None) → ∃ c, make_client mode chain_id w = Ok c.
Proof.
  unfold make_client, strategy_supported, chain_named, new_flashbots_client, POLYGON_ID.
  intros Hs Hw. destruct mode; try (by eexists); destruct (is_named chain_id); simpl;
    repeat case_bool_decide; simpl; try destruct (flashbots_signer w); try (by eexists); naive_solver.
Qed.

Lemma check_chain_panics chain : check_connected_chain chain = Panic → ∃ id, eth_chainid = inr id ∧ U64_MAX < id.
Proof.
  unfold check_connected_chain. destruct chain as [c|]; simpl; [|by destruct client_version].
  destruct eth_chainid as [e|id] eqn:Hi; [done|]. simpl. unfold as_u64. case_bool_decide as Hu; simpl.
  - case_bool_decide; [by destruct client_version|done].
  - intros _. exists id. split; [done|lia].
Qed.

Lemma load_wallet_flashbots args chain_id fs w : load_wallet args chain_id fs = Ok w →
  args.(send_bundle_mode) = SFlashbots → w.(flashbots_signer) ≠ None.
Proof.
  unfold load_wallet. intros H Hm. rewrite bool_decide_eq_true_2 in H by done.
  destruct (mnemonic_file args), (private_key args); try done;
    rewrite map_err_ok in H; unfold from_file, from_phrase, from_private_key in H; by inv_ok.
Qed.

(** ** Starting the components *)
Definition chain_agrees (chain : option Z) (id : Z) : Prop :=
  eth_chainid = inr id ∧ is_u64 id ∧ (∃ v, client_version = inr v) ∧ (chain = None ∨ chain = Some id).
Lemma chain_connected chain id : chain_agrees chain id →
  connected_chain = Ok id ∧ ∃ v, check_connected_chain chain = Ok v.
Proof.
  intros (Hi & Hu & [v Hv] & Hc). unfold connected_chain, check_connected_chain. rewrite Hi, Hv.
  assert (as_u64 (E:=string) id = Ok id) as Ha.
  { unfold as_u64. rewrite bool_decide_eq_true_2; [done|]. by destruct Hu. }
  cbn [of_sum comp_bind]. rewrite Ha. split; [done|]. exists v.
  destruct Hc as [-> | ->]; [done|]. cbn [comp_bind]. by rewrite bool_decide_eq_true_2.
Qed.

(** the network that the arguments ask for, and the files it leaves *)
Definition network_up (args : P2PArgs) (id : Z) (dir : string) (generated : Keypair) (eps : list Address) (h : Host)
    (started : option Started) (fs : gmap string bytes) : Prop :=
  if args.(enable_p2p)
  then ∃ st, Network_new (to_config args id dir) p2p_seed generated (new_channel <$> eps) h.(h_files) = (Ok st, fs) ∧
             started = Some st
  else started = None ∧ fs = h.(h_files).

Definition pool_endpoint (args : UoPoolArgs) : Endpoint := (args.(uopool_addr), args.(uopool_port)).
Definition pool_server (args : UoPoolArgs) (m : MetricsArgs) (id : Z) (eps : list Address) (storage : PoolStorage)
    (started : option Started) : PoolServer := {|
  ps_service := build_pools args.(uopool_mode) eps args.(max_verification_gas) id
                  (if args.(p2p_opts).(enable_p2p) then Some true else None);
  ps_storage := storage; ps_validator := new_validator args; ps_network := started;
  ps_metrics := m.(enable_metrics) |}.

(** the task of a pool, and what it does where the network comes up *)
Definition pool_task (args : UoPoolArgs) (m : MetricsArgs) (id : Z) (eps : list Address) (dir : string)
    (generated : Keypair) (storage : PoolStorage) : Spawned :=
  SpUoPool (pool_endpoint args)
    (if args.(p2p_opts).(enable_p2p) then Some (to_config args.(p2p_opts) id dir, generated, new_channel <$> eps)
     else None)
    (pool_server args m id eps storage).
Lemma launch_uopool_ok args chain id eps m generated h dir storage :
  chain_agrees chain id → unwrap_path_or_home home_dir args.(datadir) = Ok dir →
  open_storage args dir = Ok storage →
  launch_uopool args (length eps) chain eps m generated h =
    (Ok (), spawn_task (pool_task args m id eps dir generated storage) h).
Proof.
  intros Hc Hd Hs. destruct (chain_connected chain id Hc) as (Hid & v & Hv). unfold launch_uopool.
  erewrite st_bind_step by (unfold st_lift; by rewrite Hv).
  erewrite st_bind_step by (unfold st_lift; by rewrite Hid).
  erewrite st_bind_step by (unfold st_lift; by rewrite Hd). cbv zeta.
  erewrite st_bind_step by (unfold st_lift; by rewrite Hs).
  unfold st_mod, uopool_service_run, pool_task, pool_server. rewrite take_ge by lia.
  by destruct (enable_p2p (p2p_opts args)).
Qed.
Lemma pool_task_runs args m id eps dir generated storage h started fs :
  network_up args.(p2p_opts) id dir generated eps h started fs →
  run_task (pool_task args m id eps dir generated storage) h =
    serve (pool_endpoint args) (λ e, RunUoPool e (pool_server args m id eps storage started)) (set_files fs h).
Proof.
  intros Hn. unfold network_up in Hn. unfold run_task, pool_task. destruct (enable_p2p (p2p_opts args)).
  - destruct Hn as (st & Hn & ->). by rewrite Hn.
  - destruct Hn as (-> & ->). by destruct h.
Qed.

Definition bundler_endpoint (args : BundlerArgs) : Endpoint := (args.(bundler_addr), args.(bundler_port)).
Definition bundlers_for (args : BundlerArgs) (w : Wallet) (id : Z) (eps : list Address) : list Bundler :=
  (λ ep, {| wallet_address := key_address w.(signer).(sg_key); beneficiary := args.(ba_beneficiary);
            bn_entry_point := ep; bn_chain := id; min_balance := args.(ba_min_balance);
            enable_access_list := args.(ba_enable_access_list) |}) <$> eps.
(** bundling runs, with one task per entry point *)
Definition bundler_server (args : BundlerArgs) (m : MetricsArgs) (w : Wallet) (id : Z) (eps : list Address)
    (client : Client) (uopool : Endpoint) : BundlerServer := {|
  bs_service := {| bundlers := bundlers_for args w id eps; running := true;
    tasks := (λ b, {| tk_bundler := b; tk_interval := args.(bundle_interval) |}) <$> bundlers_for args w id eps;
    starting := []; world := {| w_sent := []; w_removed := [] |} |};
  bs_client := client; bs_uopool := uopool; bs_metrics := m.(enable_metrics) |}.

Lemma launch_bundling_ok args chain id eps url m h w uopool client :
  chain_agrees chain id → load_wallet args id h.(h_wallets) = Ok w →
  connect url (advance BundlerConnects h) = Ok uopool →
  make_client args.(send_bundle_mode) id w = Ok client →
  launch_bundling args chain eps url m h =
    (Ok (), spawn_task (SpBundler (bundler_endpoint args))
              (run [] (RunBundler (bundler_server args m w id eps client uopool)) (advance BundlerConnects h))).
Proof.
  intros Hc Hw Hu Hm. destruct (chain_connected chain id Hc) as (Hid & v & Hv). unfold launch_bundling.
  erewrite st_bind_step by (unfold st_lift; by rewrite Hv).
  erewrite st_bind_step by (unfold st_lift; by rewrite Hid).
  erewrite st_bind_step by (unfold st_get; by rewrite Hw).
  erewrite st_bind_step by done.
  erewrite st_bind_step by (unfold st_get; by rewrite Hu).
  erewrite st_bind_step by (unfold st_lift; by rewrite Hm).
  done.
Qed.

(** When the start of the bundling panics: a chain id beyond 64 bits, no account, a
    private key without the flashbots key that its mode needs, or a mode on a chain
    that has no relay for it. *)
Lemma bundling_panics args chain eps url m h : (launch_bundling args chain eps url m h).1 = Panic →
  ∃ id, eth_chainid = inr id ∧
    (U64_MAX < id ∨ ¬ strategy_supported args.(send_bundle_mode) id ∨
     args.(mnemonic_file) = None ∧
       (args.(private_key) = None ∨ args.(send_bundle_mode) = SFlashbots ∧ args.(flashbots_private_key) = None)).
Proof.
  unfold launch_bundling, st_bind at 1. unfold st_lift at 1.
  destruct (check_connected_chain chain) eqn:Hc; [|done|].
  2:{ intros _. apply check_chain_panics in Hc as (id & Hi & Hu). exists id. auto. }
  unfold st_bind at 1. unfold st_lift at 1, connected_chain. destruct eth_chainid as [e|id]; [done|].
  intros H. exists id. split; [done|]. cbn [of_sum comp_bind] in H. unfold as_u64 in H at 1.
  case_bool_decide; [right|left; lia]. unfold st_bind at 1 in H. unfold st_get at 1 in H.
  destruct (load_wallet args id (h_wallets h)) as [w|e|] eqn:Hw; [|done|by right; apply load_wallet_panics in Hw].
  unfold st_bind at 1 in H. unfold st_mod at 1 in H. unfold st_bind at 1 in H. unfold st_get at 1 in H.
  pose proof (connect_returns url (advance BundlerConnects h)).
  destruct (connect url (advance BundlerConnects h)); [|done..]. unfold st_bind, st_lift in H.
  destruct (make_client (send_bundle_mode args) id w) eqn:Hm; [done..|]. left. by apply make_client_panics in Hm.
Qed.

(** ** The whole node *)
Definition ipv4_endpoint (e : Endpoint) : Prop :=
  ∃ a, e.1 = IpV4 a ∧ 0 ≤ a < 2 ^ 32 ∧ 0 ≤ e.2 < 2 ^ 16.
(** what the node binds *)
Definition node_endpoints (bundler : BundlerArgs) (uopool : UoPoolArgs) (common : BundlerAndUoPoolArgs)
    (rpc : RpcArgs) : list Endpoint :=
  [pool_endpoint uopool; bundler_endpoint bundler] ++ rpc_endpoints rpc ++
  (if common.(metrics).(enable_metrics) then [metrics_listen_addr common.(metrics)] else []).
(** each of the endpoints can be bound next to the others, in any order *)
Definition ports_free (l es : list Endpoint) : Prop :=
  ∀ es1 e es2, es = es1 ++ e :: es2 → bindable (l ++ es1 ++ es2) e = true.

(** a proper configuration, apart from the ports *)
Record node_configured (bundler : BundlerArgs) (uopool : UoPoolArgs) (common : BundlerAndUoPoolArgs) (rpc : RpcArgs)
    (generated : Keypair) (h : Host) (id : Z) (dir : string) (storage : PoolStorage) (started : option Started)
    (fs : gmap string bytes) (w : Wallet) : Prop := {
  nr_provider : create_provider common.(eth_client_address) = Ok ();
  nr_chain : chain_agrees common.(chain) id;
  nr_dir : unwrap_path_or_home home_dir uopool.(datadir) = Ok dir;
  nr_storage : open_storage uopool dir = Ok storage;
  nr_network : network_up uopool.(p2p_opts) id dir generated common.(entry_points) h started fs;
  nr_wallet : load_wallet bundler id h.(h_wallets) = Ok w;
  nr_strategy : strategy_supported bundler.(send_bundle_mode) id;
  nr_interval : 0 < bundler.(bundle_interval);
  nr_rpc : is_enabled rpc = true;
  nr_addresses : ipv4_endpoint (pool_endpoint uopool) ∧ ipv4_endpoint (bundler_endpoint bundler);
  nr_tasks : h.(h_tasks) = [];
}.

(** ** Tasks that run at any time *)
Lemma run_task_grows t h : (run_task t h).(h_tasks) = h.(h_tasks) ∧ h.(h_endpoints) ⊆ (run_task t h).(h_endpoints).
Proof.
  assert (∀ es r h0, h0.(h_tasks) = h.(h_tasks) → h0.(h_endpoints) = h.(h_endpoints) →
    (run es r h0).(h_tasks) = h.(h_tasks) ∧ h.(h_endpoints) ⊆ (run es r h0).(h_endpoints)) as Hrun.
  { intros es r h0 Ht He. simpl. rewrite He. split; [done|set_solver]. }
  destruct t as [addr [[[config generated] channels]|] server|addr|server]; simpl.
  - destruct (Network_new _ _ _ _ _) as [[st|e|] fs]; [|done..]. unfold serve.
    destruct (bindable _ _); by apply Hrun.
  - unfold serve. destruct (bindable _ _); by apply Hrun.
  - destruct (bindable _ _); [by apply Hrun|done].
  - unfold spawn_rpc. destruct (JsonServer.start _ _) as [[x y]|e|]; [by apply Hrun|done..].
Qed.
Lemma advance_by_grows ready h : h.(h_endpoints) ⊆ (advance_by ready h).(h_endpoints).
Proof.
  unfold advance_by. change (h_endpoints h) with (h_endpoints (set_tasks [] h)).
  generalize (set_tasks [] h) as h0. induction (h_tasks h) as [|t ts IH]; intros h0; simpl; [done|].
  etransitivity; [|apply IH]. destruct (ready (task_of t)); [apply run_task_grows|done].
Qed.
Lemma settle_tasks h : (settle h).(h_tasks) = [].
Proof.
  unfold settle, advance_by. assert ((set_tasks [] h).(h_tasks) = []) as H0 by done. revert H0.
  generalize (set_tasks [] h) as h0. induction (h_tasks h) as [|t ts IH]; intros h0 H0; simpl; [done|].
  apply IH. by rewrite (proj1 (run_task_grows t h0)).
Qed.
Lemma advance_none ready h : h.(h_tasks) = [] → advance_by ready h = h.
Proof. intros Ht. unfold advance_by. rewrite Ht. destruct h. simpl in *. by subst. Qed.
Lemma advance_one ready t h : h.(h_tasks) = [t] →
  advance_by ready h = if ready (task_of t) then run_task t (set_tasks [] h) else h.
Proof.
  intros Ht. unfold advance_by. rewrite Ht. simpl. destruct (ready (task_of t)); [done|].
  destruct h. simpl in *. by subst.
Qed.

Context {HOk : HostOk HL}.
Lemma connect_bound e h : ipv4_endpoint e → e ∈ h.(h_endpoints) → connect (grpc_url e) h = Ok e.
Proof using HOk.
  destruct e as [? port]. intros (a & Ha & Hr & Hp) Hin. simpl in *. subst. unfold connect.
  rewrite parse_ipv4_url by done. by rewrite bound_reachable.
Qed.
Lemma connect_unbound e h : ipv4_endpoint e → reachable h.(h_endpoints) e = false →
  connect (grpc_url e) h = Err "transport error"%string.
Proof using HOk.
  destruct e as [? port]. intros (a & Ha & Hr & Hp) Hin. simpl in *. subst. unfold connect.
  rewrite parse_ipv4_url by done. by rewrite Hin.
Qed.
(** an endpoint that is still to be bound can be bound, whatever was bound before it *)
Lemma free_next l all bound e rest : ports_free l all → e ∈ all → bound ++ e :: rest ≡ₚ l ++ all →
  bindable bound e = true.
Proof using HOk.
  intros Hf [es1 [es2 ->]]%list_elem_of_split Hp. apply (bindable_fewer (l ++ es1 ++ es2)); [|by apply Hf].
  assert (bound ++ rest ≡ₚ l ++ es1 ++ es2) as Heq.
  { apply (Permutation_cons_inv (a:=e)). by rewrite Permutation_middle, Hp, Permutation_middle, Permutation_middle. }
  intros x Hx. rewrite <-Heq. by apply elem_of_app; left.
Qed.

(** ** The bundler's and the JSON-RPC servers on free ports *)
Section tasks.
Context (rpc : RpcArgs) (m : MetricsArgs) (be : Endpoint) (l all : list Endpoint).
Context (Hfree : ports_free l all) (Hbe : be ∈ all) (Hrpc : rpc_endpoints rpc ⊆ all).

Definition rpc_task : Spawned := SpRpc (with_exposed rpc (rpc_server rpc m)).
Definition owed (t : Spawned) : list Endpoint := match t with SpBundler a => [a] | _ => rpc_endpoints rpc end.
Definition promised_run (t : Spawned) : Running :=
  match t with SpBundler a => RunBundlerServer a | _ => RunRpc (http_handle rpc m) (ws_handle rpc m) end.
Definition known_task (t : Spawned) : Prop := t = SpBundler be ∨ t = rpc_task.

Lemma run_known t h rest : known_task t → h.(h_endpoints) ++ owed t ++ rest ≡ₚ l ++ all →
  run_task t h = run (owed t) (promised_run t) h.
Proof using HOk Hbe Hrpc Hfree.
  intros [-> | ->] Hp; simpl in *.
  - by rewrite (free_next l all _ be rest).
  - apply spawn_rpc_free. unfold rpc_ports_free, rpc_endpoints in *. split.
    + intros Hh. rewrite Hh in *. simpl in Hp. eapply free_next; [done| |exact Hp]. set_solver.
    + intros Hw. rewrite Hw in *. eapply (free_next l all _ _ rest); [done|set_solver|].
      by rewrite <-Hp, <-!app_assoc.
Qed.

(** what is bound and runs together with what the tasks will add; [es] and [rs] are added
    by others *)
Definition going (es : list Endpoint) (rs target : list Running) (ts : list Spawned) (h : Host) : Prop :=
  Forall known_task ts ∧ h.(h_endpoints) ++ concat (owed <$> ts) ++ es ≡ₚ l ++ all ∧
  h.(h_running) ++ (promised_run <$> ts) ++ rs ≡ₚ target.
Lemma going_advance es rs target ready h : going es rs target h.(h_tasks) h →
  let h' := advance_by ready h in going es rs target h'.(h_tasks) h'.
Proof using HOk Hbe Hrpc Hfree.
  unfold advance_by. intros Hg. assert (going es rs target ((set_tasks [] h).(h_tasks) ++ h.(h_tasks)) (set_tasks [] h))
    as H0 by exact Hg. revert H0. generalize (set_tasks [] h) as h0. clear Hg.
  induction (h_tasks h) as [|t ts IH]; intros h0 Hg; simpl; [by rewrite app_nil_r in Hg|]. apply IH.
  destruct (ready (task_of t)).
  - destruct Hg as (Hk & He & Hr). rewrite fmap_app, concat_app in He. rewrite fmap_app in Hr. simpl in He, Hr.
    rewrite (proj1 (run_task_grows t h0)).
    rewrite (run_known t h0 (concat (owed <$> h_tasks h0) ++ concat (owed <$> ts) ++ es)).
    + split; [|split].
      * rewrite !Forall_app, Forall_cons in *. tauto.
      * simpl. rewrite fmap_app, concat_app, <-He. solve_Permutation.
      * simpl. rewrite fmap_app, <-Hr. solve_Permutation.
    + rewrite Forall_app, Forall_cons in Hk. tauto.
    + rewrite <-He. solve_Permutation.
  - simpl. by rewrite <-app_assoc.
Qed.
End tasks.

(** ** A proper node *)
Section node.
Context (bundler : BundlerArgs) (uopool : UoPoolArgs) (common : BundlerAndUoPoolArgs) (rpc : RpcArgs).
Context (generated : Keypair) (h : Host) (id : Z) (dir : string) (storage : PoolStorage).
Context (started : option Started) (fs : gmap string bytes) (w : Wallet).

Definition node_pool : PoolServer :=
  pool_server uopool common.(metrics) id common.(entry_points) storage started.
Definition node_bundler (client : Client) : BundlerServer :=
  bundler_server bundler common.(metrics) w id common.(entry_points) client (pool_endpoint uopool).
Definition node_exporter : list Running :=
  if common.(metrics).(enable_metrics)
  then [RunExporter (metrics_listen_addr common.(metrics)) (default [] common.(metrics).(custom_label_value))]
  else [].
(** the bundler's server has run when the JSON-RPC server connects to it *)
Definition bundler_in_time : bool :=
  done_by RpcConnectsUoPool TkBundler || done_by RpcConnectsBundler TkBundler.

(** after the pool's server, and after bundling was started *)
Definition pool_up : Host := run [pool_endpoint uopool] (RunUoPool (Some (pool_endpoint uopool)) node_pool) (set_files fs h).
Definition bundling_up (client : Client) : Host := spawn_task (SpBundler (bundler_endpoint bundler))
  (run [] (RunBundler (node_bundler client)) pool_up).

Context (Hc : node_configured bundler uopool common rpc generated h id dir storage started fs w).
Context (Hfree : ports_free h.(h_endpoints) (node_endpoints bundler uopool common rpc)).

Lemma pool_port_free : bindable h.(h_endpoints) (pool_endpoint uopool) = true.
Proof using Hfree HOk.
  eapply free_next; [exact Hfree|apply list_elem_of_here|]. unfold node_endpoints. simpl. reflexivity.
Qed.
Lemma advance_pool_task : advance BundlerConnects
    (spawn_task (pool_task uopool common.(metrics) id common.(entry_points) dir generated storage) h) =
  if done_by BundlerConnects TkUoPool then pool_up
  else spawn_task (pool_task uopool common.(metrics) id common.(entry_points) dir generated storage) h.
Proof using Hc Hfree HOk.
  destruct Hc. unfold advance. erewrite advance_one by (simpl; by rewrite nr_tasks0). cbn [task_of pool_task].
  destruct (done_by BundlerConnects TkUoPool); [|done].
  rewrite (pool_task_runs _ _ _ _ _ _ _ _ started fs).
  - rewrite serve_free by exact pool_port_free. unfold pool_up, run, set_files.
    simpl. by rewrite nr_tasks0.
  - exact nr_network0.
Qed.
(** the node up to the start of its JSON-RPC server *)
Lemma node_until_rpc client : make_client bundler.(send_bundle_mode) id w = Ok client →
  done_by BundlerConnects TkUoPool = true →
  node_execute bundler uopool common rpc generated h =
    (do* _ := launch_rpc rpc (grpc_url (pool_endpoint uopool)) (grpc_url (bundler_endpoint bundler)) common.(metrics) in
     if common.(metrics).(enable_metrics)
     then launch_metrics_exporter (metrics_listen_addr common.(metrics)) common.(metrics).(custom_label_value)
     else st_ret ()) (bundling_up client).
Proof using Hc Hfree HOk.
  intros Hm Hd. pose proof advance_pool_task as Ha. rewrite Hd in Ha. destruct Hc, nr_addresses0 as [Ha1 Ha2].
  unfold node_execute, launch_bundler. erewrite st_bind_step by (unfold st_lift; by rewrite nr_provider0).
  cbv zeta. fold (pool_endpoint uopool) (bundler_endpoint bundler).
  erewrite st_bind_step by (by apply launch_uopool_ok).
  erewrite st_bind_step; [|eapply (launch_bundling_ok _ _ id _ _ _ _ w (pool_endpoint uopool) client); try done].
  - by rewrite Ha.
  - rewrite Ha. apply connect_bound; [done|]. simpl. set_solver.
Qed.
Lemma node_waits_for_pool : done_by BundlerConnects TkUoPool = false →
  reachable h.(h_endpoints) (pool_endpoint uopool) = false →
  (node_execute bundler uopool common rpc generated h).1 = Err "transport error"%string.
Proof using Hc Hfree HOk.
  intros Hd Hr. pose proof advance_pool_task as Ha. rewrite Hd in Ha. destruct Hc, nr_addresses0 as [Ha1 Ha2].
  unfold node_execute, launch_bundler. erewrite st_bind_step by (unfold st_lift; by rewrite nr_provider0).
  cbv zeta. fold (pool_endpoint uopool) (bundler_endpoint bundler).
  erewrite st_bind_step by (by apply launch_uopool_ok).
  destruct (chain_connected _ id nr_chain0) as (Hid & v & Hv). unfold launch_bundling, st_bind, st_lift, st_get, st_mod.
  rewrite Hv, Hid. cbn [spawn_task h_wallets set_tasks]. rewrite nr_wallet0, Ha. by rewrite connect_unbound.
Qed.

Abbreviation going_on := (going rpc common.(metrics) (bundler_endpoint bundler) h.(h_endpoints)
  (node_endpoints bundler uopool common rpc)).
Definition node_runs (client : Client) : list Running := h.(h_running) ++
  [RunUoPool (Some (pool_endpoint uopool)) node_pool; RunBundler (node_bundler client);
   RunBundlerServer (bundler_endpoint bundler); RunRpc (http_handle rpc common.(metrics)) (ws_handle rpc common.(metrics))]
  ++ node_exporter.
Definition exporter_endpoint : list Endpoint :=
  if common.(metrics).(enable_metrics) then [metrics_listen_addr common.(metrics)] else [].

Lemma going_node es rs target ready h' : going_on es rs target h'.(h_tasks) h' →
  going_on es rs target (advance_by ready h').(h_tasks) (advance_by ready h').
Proof using Hfree HOk. clear Hc. apply going_advance; [done|..]; unfold node_endpoints; set_solver. Qed.
Lemma bundling_up_going client :
  going_on (rpc_endpoints rpc ++ exporter_endpoint)
    (RunRpc (http_handle rpc common.(metrics)) (ws_handle rpc common.(metrics)) :: node_exporter)
    (node_runs client) (bundling_up client).(h_tasks) (bundling_up client).
Proof using Hc.
  destruct Hc. unfold bundling_up, pool_up. cbn [spawn_task set_tasks run set_files h_tasks h_endpoints h_running].
  rewrite nr_tasks0. split; [by constructor; [left|]|]. unfold node_runs, exporter_endpoint, node_endpoints. simpl.
  split; by rewrite <-!app_assoc.
Qed.
Lemma bundler_bound client : bundler_in_time = true →
  bundler_endpoint bundler ∈
    (advance RpcConnectsBundler (advance RpcConnectsUoPool (bundling_up client))).(h_endpoints).
Proof using Hc Hfree HOk.
  intros Ht. assert (Hrun : ∀ h', h'.(h_endpoints) = (bundling_up client).(h_endpoints) →
    bundler_endpoint bundler ∈ (run_task (SpBundler (bundler_endpoint bundler)) h').(h_endpoints)).
  { intros h' He. simpl. rewrite (free_next h.(h_endpoints) (node_endpoints bundler uopool common rpc) _ _
      (rpc_endpoints rpc ++ exporter_endpoint)).
    - simpl. set_solver.
    - done.
    - unfold node_endpoints. set_solver.
    - destruct (bundling_up_going client) as (_ & Hp & _). rewrite <-Hp, He.
      destruct Hc. unfold bundling_up, pool_up. simpl. rewrite nr_tasks0. done. }
  assert ((bundling_up client).(h_tasks) = [SpBundler (bundler_endpoint bundler)]) as Htasks
    by (destruct Hc; simpl; by rewrite nr_tasks0).
  unfold advance. rewrite (advance_one _ _ _ Htasks). cbn [task_of]. unfold bundler_in_time in Ht.
  destruct (done_by RpcConnectsUoPool TkBundler).
  - apply advance_by_grows, Hrun. done.
  - rewrite (advance_one _ _ _ Htasks). cbn [task_of] in *. simpl in Ht. rewrite Ht. by apply Hrun.
Qed.
Lemma rpc_reaches_pool client : connect (grpc_url (pool_endpoint uopool))
  (advance RpcConnectsUoPool (bundling_up client)) = Ok (pool_endpoint uopool).
Proof using Hc HOk.
  clear Hfree. destruct Hc, nr_addresses0. apply connect_bound; [done|]. apply advance_by_grows. simpl. set_solver.
Qed.

(** the exporter, if there is one, binds next to what the tasks will bind *)
Lemma exporter_started target h' :
  going_on exporter_endpoint node_exporter target h'.(h_tasks) h' →
  ∃ h'', (if common.(metrics).(enable_metrics)
          then launch_metrics_exporter (metrics_listen_addr common.(metrics)) common.(metrics).(custom_label_value)
          else st_ret ()) h' = (Ok (), h'') ∧ going_on [] [] target h''.(h_tasks) h''.
Proof using Hfree HOk.
  clear Hc. unfold exporter_endpoint, node_exporter. intros Hg.
  destruct (enable_metrics (metrics common)) eqn:Hm; [|by exists h'].
  apply (going_node _ _ _ (done_by ExporterBinds)) in Hg as (Hk & He & Hr).
  unfold launch_metrics_exporter. cbv zeta. fold (advance ExporterBinds h') in *.
  set (h2 := advance ExporterBinds h') in *.
  rewrite (free_next h.(h_endpoints) (node_endpoints bundler uopool common rpc) _ _ (concat (owed rpc <$> h_tasks h2))).
  - eexists. split; [done|]. split; [done|]. simpl. rewrite <-He, <-Hr. split; solve_Permutation.
  - done.
  - unfold node_endpoints. rewrite Hm. set_solver.
  - rewrite <-He. solve_Permutation.
Qed.

Lemma node_in_time client : make_client bundler.(send_bundle_mode) id w = Ok client →
  done_by BundlerConnects TkUoPool = true →
  (is_api_method_enabled rpc "debug" = true → bundler_in_time = true) →
  ∃ h', node_execute bundler uopool common rpc generated h = (Ok (), h') ∧
    (settle h').(h_endpoints) ≡ₚ h.(h_endpoints) ++ node_endpoints bundler uopool common rpc ∧
    (settle h').(h_running) ≡ₚ node_runs client ∧
    Forall (λ t, 0 < t.(tk_interval)) (node_bundler client).(bs_service).(tasks).
Proof using Hc Hfree HOk.
  intros Hm Hd Ht. rewrite (node_until_rpc client) by done.
  set (h1 := advance RpcConnectsUoPool (bundling_up client)).
  erewrite st_bind_step; [|eapply rpc_launched; [by destruct Hc|apply rpc_reaches_pool|]].
  2: { intros Hdebug. eexists. destruct Hc, nr_addresses0. apply connect_bound; [done|].
       by apply bundler_bound, Ht. }
  edestruct (exporter_started (node_runs client)) as (h' & Hx & Hg); [|rewrite Hx].
  { pose proof (going_node _ _ _ (done_by RpcConnectsBundler) _
      (going_node _ _ _ (done_by RpcConnectsUoPool) _ (bundling_up_going client))) as (Hk & He & Hr).
    fold (advance RpcConnectsUoPool (bundling_up client)) in *. fold h1 in Hk, He, Hr.
    fold (advance RpcConnectsBundler h1) in *. split; [|split].
    - simpl. apply Forall_app. split; [exact Hk|]. by constructor; [right|].
    - simpl. rewrite fmap_app, concat_app, <-He. simpl. solve_Permutation.
    - simpl. rewrite fmap_app, <-Hr. simpl. solve_Permutation. }
  exists h'. split; [done|]. apply (going_node _ _ _ (λ _, true)) in Hg as (_ & He & Hr).
  fold (settle h') in He, Hr. rewrite settle_tasks in He, Hr. simpl in He, Hr. rewrite !app_nil_r in He, Hr.
  split; [done|]. split; [done|].
  destruct Hc. simpl. by apply Forall_fmap, Forall_true.
Qed.
Lemma node_late client : make_client bundler.(send_bundle_mode) id w = Ok client →
  done_by BundlerConnects TkUoPool = true → is_api_method_enabled rpc "debug" = true →
  bundler_in_time = false →
  reachable (h.(h_endpoints) ++ [pool_endpoint uopool]) (bundler_endpoint bundler) = false →
  (node_execute bundler uopool common rpc generated h).1 = Err "transport error"%string.
Proof using Hc Hfree HOk.
  intros Hm Hd Hdebug Ht Hr. rewrite (node_until_rpc client) by done. 
  assert ((bundling_up client).(h_tasks) = [SpBundler (bundler_endpoint bundler)]) as Htasks
    by (destruct Hc; simpl; by rewrite nr_tasks0).
  unfold bundler_in_time in Ht. apply orb_false_iff in Ht as [Ht1 Ht2].
  unfold st_bind, launch_rpc. destruct Hc, nr_addresses0. rewrite nr_rpc0. cbn [negb]. cbv zeta.
  rewrite register_spec by apply rpc_server_new. rewrite rpc_reaches_pool, Hdebug.
  unfold advance. rewrite !(advance_one _ _ _ Htasks). cbn [task_of]. rewrite Ht1.
  rewrite !(advance_one _ _ _ Htasks). cbn [task_of]. rewrite Ht2.
  rewrite connect_unbound; [done|done|]. simpl. by rewrite app_nil_r.
Qed.
End node.

(** C33. A node that is configured properly comes up, if its servers are in time.  The client is
    on the expected chain, the storage opens, the network (if it is enabled) can be set up,
    the wallet loads and its way of sending is available on the chain, bundles are sent at
    an interval above 0, a transport is enabled, the addresses are IPv4 and every port is
    free next to the others.  The servers run in tasks of their own, at any time.  If the
    one of the pool has run when the bundler connects to it, after a second, and, in case
    the debug methods are asked for, the one of the bundler when the JSON-RPC server
    connects to it, at once, then the command succeeds; and when all the tasks have run,
    just the endpoints of the node are bound in addition, the pool serves all entry points
    over the opened storage, bundling is connected to this pool with one task per entry
    point at that interval, and is served, the JSON-RPC servers expose what was asked for,
    and with metrics the exporter runs.  If the server of the pool is late, or with the
    debug methods the one of the bundler, and nobody else can be reached on its address,
    the command fails for the same configuration. *)
Theorem node_starts bundler uopool common rpc generated h id dir storage started fs w :
  node_configured bundler uopool common rpc generated h id dir storage started fs w →
  ports_free h.(h_endpoints) (node_endpoints bundler uopool common rpc) →
  ∃ client, make_client bundler.(send_bundle_mode) id w = Ok client ∧
  (done_by BundlerConnects TkUoPool = true →
   (is_api_method_enabled rpc "debug" = true → bundler_in_time = true) →
   ∃ h', node_execute bundler uopool common rpc generated h = (Ok (), h') ∧
     (settle h').(h_endpoints) ≡ₚ h.(h_endpoints) ++ node_endpoints bundler uopool common rpc ∧
     (settle h').(h_running) ≡ₚ h.(h_running) ++
       [RunUoPool (Some (pool_endpoint uopool)) (node_pool uopool common id storage started);
        RunBundler (node_bundler bundler uopool common id w client);
        RunBundlerServer (bundler_endpoint bundler);
        RunRpc (http_handle rpc common.(metrics)) (ws_handle rpc common.(metrics))] ++ node_exporter common ∧
     Forall (λ t, 0 < t.(tk_interval)) (node_bundler bundler uopool common id w client).(bs_service).(tasks)) ∧
  (done_by BundlerConnects TkUoPool = false → reachable h.(h_endpoints) (pool_endpoint uopool) = false →
   (node_execute bundler uopool common rpc generated h).1 = Err "transport error"%string) ∧
  (done_by BundlerConnects TkUoPool = true → is_api_method_enabled rpc "debug" = true →
   bundler_in_time = false →
   reachable (h.(h_endpoints) ++ [pool_endpoint uopool]) (bundler_endpoint bundler) = false →
   (node_execute bundler uopool common rpc generated h).1 = Err "transport error"%string).
Proof using HOk.
  intros Hc Hfree.
  destruct (make_client_ok bundler.(send_bundle_mode) id w) as [client Hm];
    [by destruct Hc|destruct Hc; by apply (load_wallet_flashbots bundler id (h_wallets h))|].
  exists client. split; [done|]. split; [by eapply node_in_time|].
  split; [by eapply node_waits_for_pool|by eapply node_late].
Qed.

(** a proper configuration on ports that another process serves on *)
Record node_shadowed (bundler : BundlerArgs) (uopool : UoPoolArgs) (common : BundlerAndUoPoolArgs) (rpc : RpcArgs)
    (generated : Keypair) (h : Host) (id : Z) (dir : string) (storage : PoolStorage) (started : option Started)
    (fs : gmap string bytes) (w : Wallet) : Prop := {
  ns_configured : node_configured bundler uopool common rpc generated h id dir storage started fs w;
  ns_pool : pool_endpoint uopool ∈ h.(h_endpoints) ∧ bindable h.(h_endpoints) (pool_endpoint uopool) = false;
  ns_bundler : bundler_endpoint bundler ∈ h.(h_endpoints) ∧ bindable h.(h_endpoints) (bundler_endpoint bundler) = false;
  ns_http : rpc.(http) = true ∧ bindable h.(h_endpoints) (rpc.(http_addr), rpc.(http_port)) = false;
  ns_metrics : common.(metrics).(enable_metrics) = false;
}.

Section shadowed.
Context (bundler : BundlerArgs) (uopool : UoPoolArgs) (common : BundlerAndUoPoolArgs) (rpc : RpcArgs).
Context (generated : Keypair) (h : Host) (id : Z) (dir : string) (storage : PoolStorage).
Context (started : option Started) (fs : gmap string bytes) (w : Wallet).
Context (Hs : node_shadowed bundler uopool common rpc generated h id dir storage started fs w).

Abbreviation pool_spawned := (pool_task uopool common.(metrics) id common.(entry_points) dir generated storage).
Abbreviation unserved := (RunUoPool None (node_pool uopool common id storage started)).
(** the tasks of the bundler's and the JSON-RPC servers come to nothing *)
Definition idle (t : Spawned) : Prop := t = SpBundler (bundler_endpoint bundler) ∨ t = rpc_task rpc common.(metrics).
Lemma idle_runs t h' : idle t → h'.(h_endpoints) = h.(h_endpoints) → run_task t h' = h'.
Proof using Hs.
  destruct Hs as [_ _ [_ Hb] [Ht Hh] _]. intros [-> | ->] He; simpl; [by rewrite He, Hb|].
  apply spawn_rpc_taken; [done|]. by rewrite He.
Qed.
Lemma idle_fold (ready : ServerTask → bool) ts (h' : Host) : Forall idle ts → h'.(h_endpoints) = h.(h_endpoints) → ∃ ts', Forall idle ts' ∧
  fold_left (λ h t, if ready (task_of t) then run_task t h else spawn_task t h) ts h' =
    set_tasks (h'.(h_tasks) ++ ts') h'.
Proof using Hs.
  intros Hi. revert h'. induction Hi as [|t ts Ht Hi IH]; intros h' He; simpl.
  - exists []. split; [done|]. rewrite app_nil_r. by destruct h'.
  - destruct (ready (task_of t)).
    + rewrite idle_runs by done. by apply IH.
    + destruct (IH (spawn_task t h')) as (ts' & Hts & Hf); [done|]. exists (t :: ts'). split; [by constructor|].
      rewrite Hf. simpl. by rewrite <-app_assoc.
Qed.

(** nothing is bound, and the pool's task is waiting ([late]) or has run in vain *)
Definition shadowed_at (late : bool) (rs : list Running) (h' : Host) : Prop :=
  ∃ ts, Forall idle ts ∧ h'.(h_tasks) = (if late then [pool_spawned] else []) ++ ts ∧
    h'.(h_endpoints) = h.(h_endpoints) ∧ h'.(h_files) = (if late then h.(h_files) else fs) ∧
    h'.(h_running) ≡ₚ h.(h_running) ++ (if late then [] else [unserved]) ++ rs.
Lemma shadowed_advance ready late rs h' : shadowed_at late rs h' →
  shadowed_at (late && negb (ready TkUoPool)) rs (advance_by ready h').
Proof using Hs.
  intros (ts & Hi & Ht & He & Hf & Hr). unfold advance_by. rewrite Ht. destruct late; cbn [app fold_left andb].
  - change (task_of pool_spawned) with TkUoPool. destruct (ready TkUoPool) eqn:Hy; cbn [negb].
    + rewrite (pool_task_runs _ _ _ _ _ _ _ _ started fs).
      2: { destruct Hs as [Hc _ _ _ _], Hc. unfold network_up in *. simpl. rewrite Hf. done. }
      rewrite serve_taken by (destruct Hs as [_ [_ Hb] _ _ _]; simpl; by rewrite He).
      edestruct (idle_fold ready ts) as (ts' & Hi' & ->); [done|simpl; by rewrite app_nil_r|].
      exists ts'. split; [done|]. simpl. split; [done|]. split; [by rewrite app_nil_r|]. split; [done|].
      rewrite Hr. fold (node_pool uopool common id storage started). solve_Permutation.
    + edestruct (idle_fold ready ts) as (ts' & Hi' & ->); [done|by simpl|]. by exists ts'.
  - edestruct (idle_fold ready ts) as (ts' & Hi' & ->); [done|by simpl|]. by exists ts'.
Qed.
Lemma shadowed_spawn t late rs h' : idle t → shadowed_at late rs h' → shadowed_at late rs (spawn_task t h').
Proof.
  intros Ht (ts & Hi & Hts & H). exists (ts ++ [t]). split; [by apply Forall_app; split; [|constructor]|].
  split; [simpl; by rewrite Hts, <-app_assoc|done].
Qed.
Lemma shadowed_connect late rs h' : shadowed_at late rs h' →
  connect (grpc_url (pool_endpoint uopool)) h' = Ok (pool_endpoint uopool) ∧
  connect (grpc_url (bundler_endpoint bundler)) h' = Ok (bundler_endpoint bundler).
Proof using Hs HOk.
  intros (ts & _ & _ & He & _). destruct Hs as [Hc [Hp _] [Hb _] _ _], Hc, nr_addresses0.
  split; apply connect_bound; by rewrite ?He.
Qed.
End shadowed.

(** A node whose ports another process serves on starts all the same, whenever its tasks
    run: the errors of binding are lost with the tasks of the servers.  The command
    succeeds and nothing is bound; the pool it opened is reached by nobody, its bundling
    tasks run against the pool of the other process, and it has no JSON-RPC server. *)
Theorem taken_ports_unnoticed bundler uopool common rpc generated h id dir storage started fs w :
  node_shadowed bundler uopool common rpc generated h id dir storage started fs w →
  ∃ client h', make_client bundler.(send_bundle_mode) id w = Ok client ∧
    node_execute bundler uopool common rpc generated h = (Ok (), h') ∧
    (settle h').(h_endpoints) = h.(h_endpoints) ∧
    (settle h').(h_running) ≡ₚ h.(h_running) ++
      [RunUoPool None (node_pool uopool common id storage started);
       RunBundler (node_bundler bundler uopool common id w client)].
Proof using HOk.
  intros Hs. pose proof Hs as [[Hp Hc Hd Hst Hn Hw Hsp Hint Hr [Ha1 Ha2] Hts] _ _ _ Hm].
  destruct (make_client_ok (send_bundle_mode bundler) id w) as [client Hcl];
    [done|by apply (load_wallet_flashbots bundler id (h_wallets h))|].
  unfold node_execute, launch_bundler. exists client.
  erewrite st_bind_step by (unfold st_lift; by rewrite Hp). cbv zeta.
  fold (pool_endpoint uopool) (bundler_endpoint bundler).
  erewrite st_bind_step by (by eapply launch_uopool_ok).
  set (h1 := spawn_task _ h).
  pose (at_host := shadowed_at bundler uopool common rpc generated h id dir storage started fs).
  assert (at_host true [] h1) as H1.
  { exists []. split; [done|]. simpl. by rewrite Hts, !app_nil_r. }
  apply (shadowed_advance _ _ _ _ _ _ _ _ _ _ _ _ Hs (done_by BundlerConnects)) in H1 as H2.
  set (late1 := true && _) in H2. fold (advance BundlerConnects h1) in H2.
  erewrite st_bind_step by (eapply launch_bundling_ok; [done|done|by eapply shadowed_connect|done]).
  set (h2 := spawn_task _ (run _ _ _)).
  assert (at_host late1 [RunBundler (node_bundler bundler uopool common id w client)] h2) as H3.
  { apply shadowed_spawn; [by left|]. destruct H2 as (ts & Hi & Ht & He & Hf & Hru). exists ts.
    split; [done|]. split; [done|]. simpl. split; [by rewrite app_nil_r|]. split; [done|].
    rewrite Hru. fold (node_bundler bundler uopool common id w client). solve_Permutation. }
  pose proof (shadowed_advance _ _ _ _ _ _ _ _ _ _ _ _ Hs (done_by RpcConnectsUoPool) _ _ _ H3) as H4.
  pose proof (shadowed_advance _ _ _ _ _ _ _ _ _ _ _ _ Hs (done_by RpcConnectsBundler) _ _ _ H4) as H5.
  erewrite st_bind_step.
  2: { eapply rpc_launched; [done|by eapply shadowed_connect|]. intros _. eexists. by eapply shadowed_connect. }
  rewrite Hm. eexists. split; [done|]. split; [done|].
  apply (shadowed_spawn _ _ _ _ _ _ _ _ _ _ _ (rpc_task rpc common.(metrics))) in H5; [|by right].
  apply (shadowed_advance _ _ _ _ _ _ _ _ _ _ _ _ Hs (λ _, true)) in H5. rewrite andb_false_r in H5.
  destruct H5 as (ts & _ & _ & He & _ & Hru). split; [exact He|exact Hru].
Qed.
End launch.

(** ** Concrete evaluations *)
Module Example.
#[local] Existing Instances std_abi canonical_order Service.Example.checksum Discovery.Example.records
  Discovery.Example.keys Setup.Example.files le_types stored_blocks Database.Example.map_mdbx
  Wallet.Example.text_keys.

(** a host with a parser of addresses, where a port is free until it is bound *)
Definition parse_ipv4 (s : string) : option Z :=
  match split "."%char s with
  | [a; b; c; d] =>
      a ← parse_u64 a; b ← parse_u64 b; c ← parse_u64 c; d ← parse_u64 d;
      Some (a * 2 ^ 24 + b * 2 ^ 16 + c * 2 ^ 8 + d)
  | _ => None
  end.
Definition parse_endpoint (s : string) : option Endpoint :=
  match split ":"%char s with
  | [host; port] => a ← parse_ipv4 host; port ← parse_u64 port; Some (IpV4 a, port)
  | _ => None
  end.
#[local] Instance IpAddr_eq_dec : EqDecision IpAddr.
Proof. solve_decision. Defined.
#[local] Instance loopback : HostLib := {|
  parse_url s := match split "/"%char s with
    | [scheme; empty; rest] => if bool_decide (scheme = "http:" ∧ empty = "")%string then parse_endpoint rest else None
    | _ => None
    end;
  ipv6_text a := "::"%string; bindable l e := bool_decide (e ∉ l); reachable l e := bool_decide (e ∈ l);
  is_named c := bool_decide (c ∈ [1; 137; 11155111]); home_dir := Some "/home/silius"%string; p2p_seed := None;
  parse_origin := Some |}.

Lemma no_char_app c a b : no_char c a → no_char c b → no_char c (a +:+ b).
Proof.
  unfold no_char. induction a as [|x a IH]; simpl; [done|]. rewrite !not_elem_of_cons. naive_solver.
Qed.
Lemma split_at c l r : no_char c l → split c (l +:+ (String c "" +:+ r)) = l :: split c r.
Proof. apply split_app. Qed.
Lemma ipv4_parts a : 0 ≤ a < 2 ^ 32 →
  0 ≤ a / 2 ^ 24 < 256 ∧ 0 ≤ a / 2 ^ 16 mod 256 < 256 ∧ 0 ≤ a / 2 ^ 8 mod 256 < 256 ∧ 0 ≤ a mod 256 < 256.
Proof.
  intros Ha. split_and!; try (by apply Z.mod_pos_bound); [apply Z.div_pos; lia|apply Z.div_lt_upper_bound; lia].
Qed.
Lemma parse_ipv4_text a : 0 ≤ a < 2 ^ 32 → parse_ipv4 (ipv4_text a) = Some a.
Proof.
  intros Ha. destruct (ipv4_parts a Ha) as (H1 & H2 & H3 & H4). unfold parse_ipv4, ipv4_text.
  rewrite !split_at, split_none by (apply pretty_no_char; done || lia).
  rewrite !parse_u64_pretty by (unfold is_u64, U64_MAX; lia). cbn [mbind option_bind]. f_equal.
  clear H1 H2 H3 H4. cbn in Ha |- *. Z.div_mod_to_equations. lia.
Qed.
Lemma ipv4_no_char c a : 0 ≤ a < 2 ^ 32 → digit c = None → c ≠ "."%char → no_char c (ipv4_text a).
Proof.
  intros Ha Hc Hd. destruct (ipv4_parts a Ha) as (H1 & H2 & H3 & H4). unfold ipv4_text.
  assert (no_char c ".") by (unfold no_char; simpl; by rewrite list_elem_of_singleton).
  repeat apply no_char_app; try done; apply pretty_no_char; done || lia.
Qed.
#[local] Instance loopback_ok : HostOk loopback.
Proof.
  split; [|intros l e He; simpl; by apply bool_decide_eq_true_2|].
  2: { intros l l' e Hl. simpl. rewrite !bool_decide_eq_true. set_solver. }
  intros a port Ha Hp. unfold grpc_url. cbn [ip_text fst snd parse_url loopback].
  assert (is_u64 port) by (unfold is_u64, U64_MAX; lia).
  change ("http://" +:+ ?x) with ("http:" +:+ (String "/" "" +:+ ("" +:+ (String "/" "" +:+ x)))).
  rewrite !split_at by (unfold no_char; simpl; set_solver).
  assert (no_char "/" ":") by (unfold no_char; simpl; by rewrite list_elem_of_singleton).
  rewrite split_none by (apply no_char_app; [by apply ipv4_no_char|apply no_char_app; [done|apply pretty_no_char; [lia|done]]]).
  rewrite bool_decide_eq_true_2 by done. unfold parse_endpoint.
  rewrite split_at, split_none by (by apply ipv4_no_char || (apply pretty_no_char; [lia|done])).
  rewrite parse_ipv4_text, parse_u64_pretty by done. done.
Qed.

(** a client on chain 1, and a fresh database *)
#[local] Instance client1 : EthClient := {| eth_chainid := inr 1; client_version := inr "Geth"%string;
  create_http_provider _ := inr (); create_ws_provider _ := inr () |}.
#[local] Instance fresh_db : DbLib := {| init_env _ := Some Database.Example.empty_env; create_tables := Some |}.

Definition host : Host := {| h_endpoints := []; h_running := []; h_tasks := []; h_files := ∅; h_wallets := ∅ |}.
Definition bundler : BundlerArgs := BundlerArgs_default None (Some "key"%string) 7.
Definition pool : UoPoolArgs := UoPoolArgs_default.
Definition common : BundlerAndUoPoolArgs := {| eth_client_address := "http://127.0.0.1:8545"; chain := Some 1;
  entry_points := [5; 6]; poll_interval := 500; metrics := MetricsArgs_default |}.
Definition rpc : RpcArgs := {| http := true; http_addr := IpV4 LOCALHOST; http_port := HTTP_PORT;
  http_api := ["eth"; "web3"]%string; http_corsdomain := ["*"%string]; ws := false; ws_addr := IpV4 LOCALHOST;
  ws_port := WS_PORT; ws_api := ["eth"%string]; ws_origins := ["*"%string]; eth_client_proxy_address := None |}.
Definition network_key : Keypair := 42.

Definition storage : PoolStorage := PsDatabase (metrics_new Database.Example.empty_env Recorder_default)
  (new_reputation 1 (metrics_new Database.Example.empty_env Recorder_default)).
Definition wallet : Wallet :=
  {| signer := with_chain_id ("key", "")%string 1; flashbots_signer := None |}.

Lemma configured : node_configured bundler pool common rpc network_key host 1 "/home/silius/.silius" storage None ∅ wallet.
Proof.
  split; try done; [repeat split; try done; [by eexists|by right]|]. split; exists LOCALHOST; by repeat split.
Qed.
(** different endpoints are free on a host where nothing is bound *)
Lemma different_free es : NoDup es → ports_free [] es.
Proof.
  intros Hn es1 e es2 ->. apply bool_decide_eq_true_2. simpl. rewrite not_elem_of_app.
  apply NoDup_app in Hn as (_ & Hd & [He _]%NoDup_cons). split; [|done]. intros H1. by apply (Hd e H1), list_elem_of_here.
Qed.
#[local] Instance in_time : Schedule := {| done_by _ _ := true |}.
(** the bundler's server does not run before the launch is over *)
Definition late_bundler : Schedule :=
  {| done_by _ t := match t with TkUoPool => true | _ => false end |}.
Definition debug_rpc_args : RpcArgs := {| http := true; http_addr := IpV4 LOCALHOST; http_port := HTTP_PORT;
  http_api := ["debug"]%string; http_corsdomain := []; ws := false; ws_addr := IpV4 LOCALHOST;
  ws_port := WS_PORT; ws_api := []; ws_origins := []; eth_client_proxy_address := None |}.
Lemma node_starts_witness :
  (∃ h', node_execute bundler pool common rpc network_key host = (Ok (), h') ∧
     length (settle h').(h_running) = 4%nat) ∧
  (node_execute (SC:=late_bundler) bundler pool common debug_rpc_args network_key host).1 =
    Err "transport error"%string.
Proof.
  split.
  - destruct (node_starts bundler pool common rpc network_key host 1 "/home/silius/.silius" storage None ∅ wallet configured)
      as (client & _ & H & _).
    + apply different_free. by apply (bool_decide_unpack _); vm_compute.
    + destruct H as (h' & H & _ & Hr & _); [done|done|]. exists h'. split; [done|]. by rewrite Hr.
  - destruct (node_starts (SC:=late_bundler) bundler pool common debug_rpc_args network_key host 1
      "/home/silius/.silius" storage None ∅ wallet) as (client & _ & _ & _ & H).
    + destruct configured. by split.
    + apply different_free. by apply (bool_decide_unpack _); vm_compute.
    + by apply H.
Defined.

(** the same node again, on the host where the first one is served *)
Definition occupied : Host := {| h_endpoints := [(IpV4 LOCALHOST, MEMPOOL_PORT); (IpV4 LOCALHOST, BUNDLER_PORT);
    (IpV4 LOCALHOST, HTTP_PORT)]; h_running := []; h_tasks := []; h_files := ∅; h_wallets := ∅ |}.
Example occupied_by_first :
  (settle (node_execute bundler pool common rpc network_key host).2).(h_endpoints) = occupied.(h_endpoints).
Proof. vm_compute. reflexivity. Qed.
Lemma shadowed : node_shadowed bundler pool common rpc network_key occupied 1 "/home/silius/.silius" storage None ∅ wallet.
Proof.
  split; [|split; [|done].. |done].
  - split; try done; [repeat split; try done; [by eexists|by right]|]. split; exists LOCALHOST; by repeat split.
  - by apply list_elem_of_here.
  - apply list_elem_of_further, list_elem_of_here.
  - done.
Qed.
Lemma taken_ports_unnoticed_witness : ∃ h', node_execute bundler pool common rpc network_key occupied = (Ok (), h') ∧
  (settle h').(h_endpoints) = occupied.(h_endpoints).
Proof.
  destruct (taken_ports_unnoticed bundler pool common rpc network_key occupied 1 "/home/silius/.silius" storage None ∅
    wallet shadowed) as (client & h' & _ & H & He & _). exists h'. split; [exact H|exact He].
Defined.

(** the server that answers is reached from its address *)
Definition served : Host := run [(IpV4 LOCALHOST, MEMPOOL_PORT)] (RunRpc None None) host.
Lemma rpc_exposes_witness :
  (launch_rpc rpc "http://127.0.0.1:3002" "" MetricsArgs_default served).1 = Ok () ∧
  ∃ s, http_handle rpc MetricsArgs_default = Some s ∧ is_Some (s.(sh_methods) !! "eth_chainId"%string) ∧
       s.(sh_methods) !! "debug_bundler_clearState"%string = None.
Proof.
  destruct (rpc_exposes rpc "http://127.0.0.1:3002" "" MetricsArgs_default served) as ([_ H] & _).
  split; [apply H; split_and!; [done|by eexists|done]|].
  eexists. split; [reflexivity|]. split; [by eexists|done].
Defined.

Definition in_memory : UoPoolArgs := {| uopool_addr := IpV4 LOCALHOST; uopool_port := MEMPOOL_PORT;
  datadir := None; storage_type := StMemory; max_verification_gas := 5000000; ua_min_stake := 1;
  min_priority_fee_per_gas := 0; ua_whitelist := [9]; uopool_mode := Standard; p2p_opts := P2PArgs_default |}.
Example ignored_whitelist : ∃ s, open_storage in_memory "" = Ok s ∧ storage_whitelist s = ∅.
Proof. by eexists. Qed.
End Example.
