(* ===== verification/Cli.v ===== *)
(** The process: the command line interface of [bin/silius/src/cli/mod.rs], the
    dispatch of [cli/commands.rs], the parsers and [run_until_ctrl_c] of [utils.rs], and
    [main.rs].  Which status the process ends with, and when it does not end. *)

From S2P Require Import Prelude Primitives Errors AbiStd Gas Reputation Mempool.
From S2P Require Import MemoryStore Database EntryPoint Fixture Sanity Simulation Trace.
From S2P Require Import Validator UoPool Bundling Ssz Rpc SszMessages Gossip Peers Network Discovery Setup.
From S2P Require Import Bundler Estimate Proto Service JsonRpc JsonServer Metrics Wallet Args Launch.

(** ** The libraries: the parsers behind [FromStr], and what a process asks of its system *)
Class TextLib {EN : EnrLib} := {
  address_from_str : string → option Address;
  u256_from_str_radix_10 : string → option U256;
  enr_from_str : string → option Enr;
}.
Section parsers.
Context {EN : EnrLib} {TL : TextLib}.
Definition parse_address (s : string) : string + Address :=
  match address_from_str s with
  | Some a => inr a
  | None => inl ("String " +:+ s +:+ " is not a valid address")%string
  end.
Definition parse_u256 (s : string) : string + U256 :=
  match u256_from_str_radix_10 s with
  | Some a => inr a
  | None => inl ("String " +:+ s +:+ " is not a valid U256")%string
  end.
Definition parse_enr (enr : string) : string + Enr :=
  match enr_from_str enr with
  | Some e => inr e
  | None => inl ("Enr " +:+ enr +:+ " is not a valid enr.")%string
  end.
End parsers.

(** an error of [eyre], by what it was made from *)
Inductive Report :=
  | Eyre (msg : string)
  | EyreMempool (e : MempoolErrorKind)
  | EyreIo (msg : string).

(** [std::env::var], [thread::Builder::spawn], the runtime's [build], the registration of
    the handler of SIGTERM, and writing to the standard output *)
Record System := {
  rust_log_var : option string;
  thread_spawn : string + ();
  runtime_build : string + ();
  signal_terminate : string + ();
  write_operations : list UserOperation → string + ();
  write_hashes : list UserOperationHash → string + ();
}.

Definition map_report {E A} (f : E → Report) (c : comp E A) : comp Report A :=
  match c with Ok a => Ok a | Err e => Err (f e) | Panic => Panic end.
Definition io {A} (r : string + A) : comp Report A := map_report EyreIo (of_sum r).

Section cli.
Context {A : Abi} {CS : ChecksumText} {HO : HashOrder}.
Context {EN : EnrLib} {EK : EnrKeys} {NL : NodeLib} {T : SszTypes} {SN : SnapLib}.
Context {M : Mdbx} {DL : DbLib} {WL : WalletLib} {HL : HostLib} {EC : EthClient} {SC : Schedule}.

(** ** The commands *)
Inductive DebugCommand :=
  | DumpUserops (data_dir : string)
  | DumpUoBySender (data_dir : string) (address : Address).
Inductive Commands :=
  | Node (bundler : BundlerArgs) (uopool : UoPoolArgs) (common : BundlerAndUoPoolArgs) (rpc : RpcArgs)
  | CBundler (bundler : BundlerArgs) (common : BundlerAndUoPoolArgs) (uopool_grpc_listen_address : string)
  | CUoPool (uopool : UoPoolArgs) (common : BundlerAndUoPoolArgs)
  | CRpc (rpc : RpcArgs) (uopool_grpc_listen_address bundler_grpc_listen_address : string) (metrics : MetricsArgs)
  | CreateWallet (create_wallet : CreateWalletArgs)
  | Debug (command : DebugCommand).
Record Cli := { command : Commands; verbosity : Z }.

(** the default gRPC addresses of the commands that serve one part only *)
Definition UOPOOL_GRPC_LISTEN_ADDRESS : string := "http://127.0.0.1:3002".
Definition BUNDLER_GRPC_LISTEN_ADDRESS : string := "http://127.0.0.1:3003".

(** ** Executing a command: the future completes, or is pending for ever *)
Inductive Poll := Ready (r : comp Report ()) | Pending.
(** [m.await?; pending().await] *)
Definition then_pending (m : ST Host string ()) (h : Host) : Poll * Host :=
  match m h with
  | (Ok _, h') => (Pending, h')
  | (r, h') => (Ready (map_report Eyre r), h')
  end.
Definition debug_execute (sys : System) (c : DebugCommand) : comp Report () :=
  match c with
  | DumpUserops dir =>
      let* uo := map_report EyreMempool (dump_user_operations dir) in io (sys.(write_operations) uo)
  | DumpUoBySender dir address =>
      let* uo := map_report EyreMempool (dump_user_operations_by_sender dir address) in io (sys.(write_hashes) uo)
  end.
(** [generated] and [phrase] are the network key and the mnemonic the process draws *)
Definition execute (sys : System) (generated : Keypair) (phrase : string) (c : Commands) (h : Host) : Poll * Host :=
  match c with
  | Node bundler uopool common rpc => then_pending (node_execute bundler uopool common rpc generated) h
  | CBundler bundler common url => then_pending (bundler_execute bundler common url) h
  | CUoPool uopool common => then_pending (uopool_execute uopool common generated) h
  | CRpc rpc uopool_url bundler_url metrics => then_pending (rpc_execute rpc uopool_url bundler_url metrics) h
  | CreateWallet args =>
      let r := Launch.create_wallet args phrase h in (Ready (map_report Eyre r.1), r.2)
  | Debug c => (Ready (debug_execute sys c), h)
  end.

(** ** [run_until_ctrl_c]
    The branch of [select!] that completed first, if one did.  A branch can be
    chosen only if its future is ready; what [ctrl_c] returns is not looked at, so an
    error of its registration counts as the signal. *)
Inductive Branch := CtrlC (r : string + ()) | SigTerm | Fut.
Definition run_until_ctrl_c (sys : System) (won : Branch) (fut : Poll) : option (comp Report ()) :=
  match io sys.(signal_terminate) with
  | Ok _ =>
      match won, fut with
      | CtrlC _, _ | SigTerm, _ => Some (Ok ())
      | Fut, Ready res => Some res
      | Fut, Pending => None
      end
  | r => Some r
  end.

(** ** [cli::run]: [None] while the process is running *)
Definition rust_log (sys : System) (cli : Cli) : string :=
  match sys.(rust_log_var) with
  | Some val => (val +:+ ",silius=" +:+ get_log_level cli.(verbosity))%string
  | None => ("silius=" +:+ get_log_level cli.(verbosity))%string
  end.
Definition cli_run (sys : System) (won : Branch) (generated : Keypair) (phrase : string) (cli : Cli) (h : Host)
  : option (comp Report ()) :=
  match io sys.(thread_spawn) with
  | Ok _ =>
      match io sys.(runtime_build) with
      | Ok _ => run_until_ctrl_c sys won (execute sys generated phrase cli.(command) h).1
      | r => Some r
      end
  | r => Some r
  end.
(** [main]: the status of the process; 101 is that of a panic in the main thread *)
Definition main (sys : System) (won : Branch) (generated : Keypair) (phrase : string) (cli : Cli) (h : Host)
  : option Z :=
  match cli_run sys won generated phrase cli h with
  | None => None
  | Some (Ok _) => Some 0
  | Some (Err _) => Some 1
  | Some Panic => Some 101
  end.

(** ** Properties *)
Definition serves (c : Commands) : bool :=
  match c with Node _ _ _ _ | CBundler _ _ _ | CUoPool _ _ | CRpc _ _ _ _ => true | _ => false end.
(** starting the services of a command *)
Definition start (generated : Keypair) (c : Commands) (h : Host) : comp string () * Host :=
  match c with
  | Node bundler uopool common rpc => node_execute bundler uopool common rpc generated h
  | CBundler bundler common url => bundler_execute bundler common url h
  | CUoPool uopool common => uopool_execute uopool common generated h
  | CRpc rpc uopool_url bundler_url metrics => rpc_execute rpc uopool_url bundler_url metrics h
  | _ => (Ok (), h)
  end.
Definition system_ready (sys : System) : Prop :=
  sys.(thread_spawn) = inr () ∧ sys.(runtime_build) = inr () ∧ sys.(signal_terminate) = inr ().

Lemma main_ready sys won generated phrase cli h : system_ready sys →
  main sys won generated phrase cli h =
  match won, (execute sys generated phrase cli.(command) h).1 with
  | CtrlC _, _ | SigTerm, _ => Some 0
  | Fut, Pending => None
  | Fut, Ready (Ok _) => Some 0
  | Fut, Ready (Err _) => Some 1
  | Fut, Ready Panic => Some 101
  end.
Proof.
  intros (H1 & H2 & H3). unfold main, cli_run, run_until_ctrl_c. rewrite H1, H2, H3. cbn [io map_report of_sum].
  destruct won as [?| |]; [done|done|]. by destruct (execute _ _ _ _ _).1 as [[?|?|]|].
Qed.
Lemma execute_serving sys generated phrase c h : serves c = true →
  execute sys generated phrase c h =
  match start generated c h with
  | (Ok _, h') => (Pending, h')
  | (r, h') => (Ready (map_report Eyre r), h')
  end.
Proof. by destruct c. Qed.

(** C34. How the process ends.  Where the system lets it start its threads and handlers, a
    command that serves ends on its own only if its services cannot be started, with
    status 1 for an error and 101 for a panic; once they run the process goes on until
    a signal, which always ends it with status 0.  A command that does not serve always
    ends. *)
Theorem process_ends sys generated phrase cli h : system_ready sys →
  (∀ won, won ≠ Fut → main sys won generated phrase cli h = Some 0) ∧
  (if serves cli.(command) then
     main sys Fut generated phrase cli h =
       match (start generated cli.(command) h).1 with Ok _ => None | Err _ => Some 1 | Panic => Some 101 end
   else is_Some (main sys Fut generated phrase cli h)).
Proof.
  intros Hs. split; [intros won ?; rewrite main_ready by done; by destruct won|].
  rewrite main_ready by done. destruct (serves (command cli)) eqn:E.
  - rewrite execute_serving by done. by destruct (start _ _ _) as [[?|?|] ?].
  - destruct (command cli); try discriminate E; cbn [execute fst].
    + by destruct (Launch.create_wallet _ _ _).1 as [?|?|].
    + by destruct (debug_execute _ _) as [?|?|].
Qed.

(** A directory that cannot be opened as a database is not an error of the dumps but a
    panic. *)
Theorem dump_unopened_panics sys generated phrase v c h : system_ready sys →
  match c with DumpUserops dir | DumpUoBySender dir _ => init_env dir = None end →
  main sys Fut generated phrase {| command := Debug c; verbosity := v |} h = Some 101.
Proof.
  intros Hs Hi. rewrite main_ready by done. cbn [execute fst debug_execute command].
  destruct c; cbn [debug_execute]; unfold dump_user_operations, dump_user_operations_by_sender; by rewrite Hi.
Qed.
End cli.

(** ** Concrete evaluations *)
Module Example.
#[local] Existing Instances std_abi canonical_order Service.Example.checksum Discovery.Example.records
  Discovery.Example.keys Setup.Example.files le_types stored_blocks Database.Example.map_mdbx
  Wallet.Example.text_keys Launch.Example.loopback Launch.Example.client1 Launch.Example.fresh_db
  Launch.Example.in_time.

Definition sys : System := {| rust_log_var := Some "hyper=warn"%string; thread_spawn := inr ();
  runtime_build := inr (); signal_terminate := inr (); write_operations _ := inr (); write_hashes _ := inr () |}.
Definition node : Cli := {| command := Node Launch.Example.bundler Launch.Example.pool Launch.Example.common
  Launch.Example.rpc; verbosity := 2 |}.
Example node_log : rust_log sys node = "hyper=warn,silius=info"%string.
Proof. reflexivity. Qed.
Lemma process_ends_witness : main sys Fut Launch.Example.network_key "" node Launch.Example.host = None ∧
  main sys SigTerm Launch.Example.network_key "" node Launch.Example.host = Some 0.
Proof.
  destruct (process_ends sys Launch.Example.network_key "" node Launch.Example.host) as [H1 H2]; [done|].
  split; [by rewrite H2|by apply H1].
Defined.
End Example.
